(** * The CPU-view engine of lxcfs (src/proc_cpuview.c)

    A shallow embedding of the per-cgroup CPU statistics view: the
    capacity policy ([max_cpu_count], [exact_cpu_count]), the per-cgroup
    state cache ([proc_stat_history] and its nodes), the reconciliation of
    host and cgroup counters ([cpuview_proc_stat]) and the renderer.

    C integers are kept as [Z]: [unsigned long] values live in
    [0, 2^64) and every operation on them is reduced modulo [2^64];
    the [int] that receives a 64-bit quotient is narrowed with [to_int].
    Loop counters ([curcpu], [i], [cpu_cnt]) are bounded by the number of
    lines or CPUs and are left unreduced. *)

From Stdlib Require Import ZArith Lia Ascii String.
From Stdlib Require Import PrimFloat Uint63 SpecFloat FloatOps.
From Stdlib Require FloatAxioms.
From stdpp Require Import base list strings pretty.

Local Open Scope Z_scope.

(** ** Machine integers *)

Definition ULONG_MOD : Z := 2 ^ 64.

(** Reduction of a value to [unsigned long]. *)
Definition u64 (z : Z) : Z := z mod ULONG_MOD.

Definition uadd (a b : Z) : Z := u64 (a + b).
Definition usub (a b : Z) : Z := u64 (a - b).
Definition umul (a b : Z) : Z := u64 (a * b).

Definition INT_MAX : Z := 2 ^ 31 - 1.

(** Conversion of a wider integer to [int] (two's complement, as gcc
    defines it). *)
Definition to_int (z : Z) : Z := (z + 2 ^ 31) mod 2 ^ 32 - 2 ^ 31.

Definition is_u64 (z : Z) : Prop := 0 <= z < ULONG_MOD.

(** ** Floating point

    [double] is IEEE binary64, which is what primitive floats are. *)

(** [(double)x] for an [int64_t] above its minimum or an [int]. *)
Definition double_of_int (z : Z) : float :=
  if z <? 0 then PrimFloat.opp (PrimFloat.of_uint63 (Uint63.of_Z (- z)))
  else PrimFloat.of_uint63 (Uint63.of_Z z).

(** [(double)x] for an [unsigned long]: values of 2^63 and more are
    halved with the lost bit kept sticky, converted and doubled. *)
Definition double_of_ulong (z : Z) : float :=
  if z <? 2 ^ 63 then PrimFloat.of_uint63 (Uint63.of_Z z)
  else PrimFloat.mul 2
         (PrimFloat.of_uint63 (Uint63.of_Z (Z.lor (Z.shiftr z 1) (Z.land z 1)))).

(** [(unsigned long)x]: truncation toward zero.  C leaves the result
    undefined outside [0, 2^64); the model reduces it. *)
Definition ulong_of_double (x : float) : Z :=
  match Prim2SF x with
  | S754_finite s m e =>
      let v := if 0 <=? e then Z.pos m * 2 ^ e else Z.pos m / 2 ^ (- e) in
      u64 (if s then - v else v)
  | _ => 0
  end.

(** ** Data model *)

(** [struct cpuacct_usage]. *)
Record cpuacct_usage : Type := mk_usage {
  user : Z;
  system : Z;
  idle : Z;
  online : bool
}.

Definition zero_usage : cpuacct_usage := mk_usage 0 0 0 false.

Global Instance cpuacct_usage_inhabited : Inhabited cpuacct_usage :=
  populate zero_usage.

Definition set_user (u : cpuacct_usage) (x : Z) : cpuacct_usage :=
  mk_usage x (system u) (idle u) (online u).
Definition set_system (u : cpuacct_usage) (x : Z) : cpuacct_usage :=
  mk_usage (user u) x (idle u) (online u).
Definition set_idle (u : cpuacct_usage) (x : Z) : cpuacct_usage :=
  mk_usage (user u) (system u) x (online u).
Definition set_online (u : cpuacct_usage) (b : bool) : cpuacct_usage :=
  mk_usage (user u) (system u) (idle u) b.

(** [struct cg_proc_stat].  [lock] is [true] while the node mutex is held.
    The lists have the allocated length of the C arrays; [cpu_count] is the
    field of the same name. *)
Record cg_proc_stat : Type := mk_node {
  cg : string;
  usage : list cpuacct_usage;
  view : list cpuacct_usage;
  cpu_count : Z;
  lock : bool
}.

(** [struct cg_proc_stat_head]: the chain and the time of the last prune.
    The reader-writer lock is taken and released inside each operation. *)
Record cg_proc_stat_head : Type := mk_head {
  next : list cg_proc_stat;
  lastcheck : Z
}.

Definition CPUVIEW_HASH_SIZE : Z := 100.
Definition PROC_STAT_PRUNE_INTERVAL : Z := 10.

(** [proc_stat_history]. *)
Definition registry : Type := list cg_proc_stat_head.

(** A cpuset, as the CPUs its range-list names. *)
Definition cpuset : Type := list Z.

(** Modelled from the spec: [cpu_in_cpuset] of cpuset_parse.c, which is not
    part of the sources at hand; it tells whether CPU [n] is named by the
    range-list. *)
Definition cpu_in_cpuset (n : Z) (cs : cpuset) : bool := bool_decide (n ∈ cs).

(** Modelled from the spec: [cpu_number_in_cpuset] of cpuset_parse.c, the
    number of CPUs the range-list names. *)
Definition cpu_number_in_cpuset (cs : cpuset) : Z := Z.of_nat (length cs).

(** What a read consults outside of its arguments: the cgroup's control
    files, the host topology, the clock, the hash of utils.c, and whether
    each allocation succeeds. *)
Record host_env : Type := mk_env {
  cfs_quota : option Z;          (* cpu.cfs_quota_us, [None] if unreadable *)
  cfs_period : option Z;         (* cpu.cfs_period_us *)
  get_cpuset : option cpuset;    (* get_cpuset(cg) *)
  get_nprocs : Z;
  get_nprocs_conf : Z;
  now : Z;                       (* time(NULL) *)
  cgfs_param_exist : string → bool;  (* cpu.shares of that cgroup exists *)
  calc_hash : string → Z;
  alloc_node_ok : bool;          (* the allocations of new_proc_stat_node *)
  alloc_expand_ok : bool;        (* the allocations of expand_proc_stat_node *)
  alloc_diff_ok : bool           (* malloc of the diff array *)
}.

(** ** Capacity policy *)

(** [max_cpu_count]. *)
Definition max_cpu_count (e : host_env) : Z :=
  match cfs_quota e with
  | None => 0
  | Some q =>
    match cfs_period e with
    | None => 0
    | Some p =>
      let nr_cpus_in_cpuset :=
        match get_cpuset e with
        | Some cs => cpu_number_in_cpuset cs
        | None => 0
        end in
      if (q <=? 0) || (p <=? 0) then
        (if 0 <? nr_cpus_in_cpuset then nr_cpus_in_cpuset else 0)
      else
        let rv := to_int (Z.quot q p) in
        let rv := if 0 <? Z.rem q p then to_int (rv + 1) else rv in
        let rv := if get_nprocs e <? rv then get_nprocs e else rv in
        if (0 <? nr_cpus_in_cpuset) && (nr_cpus_in_cpuset <? rv)
        then nr_cpus_in_cpuset else rv
    end
  end.

(** [exact_cpu_count]. *)
Definition exact_cpu_count (e : host_env) : float :=
  match cfs_quota e with
  | None => 0%float
  | Some q =>
    match cfs_period e with
    | None => 0%float
    | Some p =>
      if (q <=? 0) || (p <=? 0) then 0%float
      else
        let rv := PrimFloat.div (double_of_int q) (double_of_int p) in
        let nprocs := double_of_int (get_nprocs e) in
        if PrimFloat.ltb nprocs rv then nprocs else rv
    end
  end.

(** ** The host table

    A line of the host's /proc/stat as the three [sscanf] calls of
    [cpuview_proc_stat] see it: whether it starts with [cpu] followed by a
    word, whether that word is a number, and the numbers [%lu] converts
    after the label. *)

Inductive cpu_tag : Type :=
  | NotCpu                      (* sscanf(line, "cpu%9[^ ]") != 1 *)
  | CpuNoNumber                 (* the word after cpu is not a number *)
  | CpuNum (physcpu : Z).       (* cpuN *)

Record host_line : Type := mk_line {
  line_text : string;
  line_tag : cpu_tag;
  line_fields : list Z
}.

(** The message of [lxcfs_error] when the cgroup reports more CPU time than
    the host does. *)
Record idle_error : Type := mk_idle_error {
  err_cpu : Z;
  err_all_used : Z;
  err_cg_used : Z
}.

(** The variables the parsing loop updates. *)
Record parse_state : Type := mk_parse {
  ps_usage : list cpuacct_usage;   (* cg_cpu_usage *)
  ps_curcpu : Z;
  ps_cpu_cnt : Z;
  ps_log : list idle_error
}.

Inductive loop_ctl : Type := Continue | Break.

Definition in_bounds {A} (i : Z) (l : list A) : bool :=
  (0 <=? i) && (i <? Z.of_nat (length l)).

(** [for (i = from; ...; i++) cg_cpu_usage[i].online = false], [n] times.
    [None] when an index falls outside of the array. *)
Fixpoint mark_offline (n : nat) (i : Z) (s : list cpuacct_usage)
  : option (list cpuacct_usage) :=
  match n with
  | O => Some s
  | S n' =>
      if in_bounds i s
      then mark_offline n' (i + 1)
             (alter (λ u, set_online u false) (Z.to_nat i) s)
      else None
  end.

(** The sum of the nine busy fields, as [all_used] computes it. *)
Definition all_used_of (u n s w q sq st g gn : Z) : Z :=
  uadd (uadd (uadd (uadd (uadd (uadd (uadd (uadd u n) s) w) q) sq) st) g) gn.

(** The idle time imputed to a CPU of the cgroup (lines 601-612), with the
    error it logs, if any. *)
Definition impute_idle (curcpu : Z) (c : cpuacct_usage) (idle_host all_used : Z)
  : cpuacct_usage * list idle_error :=
  let cg_used := uadd (user c) (system c) in
  if cg_used <=? all_used
  then (set_idle c (uadd idle_host (usub all_used cg_used)), [])
  else (set_idle c idle_host, [mk_idle_error curcpu all_used cg_used]).

(** One iteration of the parsing loop (lines 549-613).  [None] stands for
    an access outside of [cg_cpu_usage]. *)
Definition parse_line (cs : cpuset) (cg_cpu_usage_size : Z)
    (l : host_line) (st : parse_state) : option (parse_state * loop_ctl) :=
  if (String.length (line_text l) =? 0)%nat then Some (st, Continue)
  else
    match line_tag l with
    | NotCpu => Some (st, Break)
    | CpuNoNumber => Some (st, Continue)
    | CpuNum physcpu =>
      if cg_cpu_usage_size <=? physcpu then Some (st, Continue)
      else
        let curcpu := ps_curcpu st + 1 in
        let cpu_cnt := ps_cpu_cnt st + 1 in
        if negb (cpu_in_cpuset physcpu cs) then
          s ← mark_offline (Z.to_nat (physcpu - curcpu + 1)) curcpu (ps_usage st);
          Some (mk_parse s curcpu cpu_cnt (ps_log st), Continue)
        else
          '(s, curcpu) ←
            (if curcpu <? physcpu
             then s ← mark_offline (Z.to_nat (physcpu - curcpu)) curcpu
                        (ps_usage st);
                  Some (s, physcpu)
             else Some (ps_usage st, curcpu));
          if negb (in_bounds curcpu s) then None
          else
            let k := Z.to_nat curcpu in
            let s := alter (λ u, set_online u true) k s in
            match line_fields l with
            | u :: n :: sy :: i :: w :: q :: sq :: stl :: g :: gn :: _ =>
                let all_used := all_used_of u n sy w q sq stl g gn in
                let '(c, errs) := impute_idle curcpu (s !!! k) i all_used in
                Some (mk_parse (<[k := c]> s) curcpu cpu_cnt
                        (ps_log st ++ errs), Continue)
            | _ => Some (mk_parse s curcpu cpu_cnt (ps_log st), Continue)
            end
    end.

(** The parsing loop: it returns the variables, the content of [line] when
    the loop ends (the last line [getline] delivered, which is the first line
    that is not a cpuN line when the loop left through [break]) and what is
    left of the stream. *)
Fixpoint parse_host_stat (cs : cpuset) (cg_cpu_usage_size : Z)
    (f : list host_line) (line : option host_line) (st : parse_state)
  : option (parse_state * option host_line * list host_line) :=
  match f with
  | [] => Some (st, line, [])
  | l :: f' =>
      match parse_line cs cg_cpu_usage_size l st with
      | None => None
      | Some (st', Break) => Some (st', Some l, f')
      | Some (st', Continue) =>
          parse_host_stat cs cg_cpu_usage_size f' (Some l) st'
      end
  end.

(** ** The per-cgroup state cache *)

Definition hash_of (e : host_env) (name : string) : nat :=
  Z.to_nat (calc_hash e name mod CPUVIEW_HASH_SIZE).

(** The first node of a chain whose [cg] is [name]. *)
Fixpoint chain_find (name : string) (chain : list cg_proc_stat)
  : option cg_proc_stat :=
  match chain with
  | [] => None
  | node :: rest =>
      if bool_decide (cg node = name) then Some node else chain_find name rest
  end.

(** Writing through a pointer to the first node of the chain whose [cg] is
    that of [node]. *)
Fixpoint chain_store (node : cg_proc_stat) (chain : list cg_proc_stat)
  : list cg_proc_stat :=
  match chain with
  | [] => []
  | n :: rest =>
      if bool_decide (cg n = cg node) then node :: rest
      else n :: chain_store node rest
  end.

Definition store_node (e : host_env) (reg : registry) (node : cg_proc_stat)
  : registry :=
  let h := hash_of e (cg node) in
  match reg !! h with
  | None => reg
  | Some head =>
      <[h := mk_head (chain_store node (next head)) (lastcheck head)]> reg
  end.

(** What a lookup finds in the cache. *)
Definition lookup_node (e : host_env) (reg : registry) (name : string)
  : option cg_proc_stat :=
  head ← reg !! hash_of e name; chain_find name (next head).

(** [reset_proc_stat_node]: [memcpy] of the first [cpu_count] entries of
    [usage], zeroing of the same entries of the view. *)
Definition zero_counters (v : cpuacct_usage) : cpuacct_usage :=
  mk_usage 0 0 0 (online v).

Definition reset_proc_stat_node (node : cg_proc_stat)
    (usage_in : list cpuacct_usage) (cpu_count_in : Z) : cg_proc_stat :=
  let n := Z.to_nat cpu_count_in in
  mk_node (cg node)
          (take n usage_in ++ drop n (usage node))
          (map zero_counters (take n (view node)) ++ drop n (view node))
          cpu_count_in
          (lock node).

(** The arrays [expand_proc_stat_node] builds: the counters of the entries
    below the old [cpu_count] are copied, the others are zero.  The [online]
    flags of the new arrays are not initialised by the C code and are not read
    before the next read of the cgroup sets them; they are [false] here. *)
Definition expand_array (old_count : Z) (cpu_count_in : Z)
    (arr : list cpuacct_usage) : list cpuacct_usage :=
  map (λ i : nat,
         if Z.of_nat i <? old_count
         then mk_usage (user (arr !!! i)) (system (arr !!! i))
                       (idle (arr !!! i)) false
         else zero_usage)
      (seq 0 (Z.to_nat cpu_count_in)).

(** [expand_proc_stat_node]; [None] is the [false] of an allocation that
    failed. *)
Definition expand_proc_stat_node (e : host_env) (node : cg_proc_stat)
    (cpu_count_in : Z) : option cg_proc_stat :=
  if alloc_expand_ok e then
    Some (mk_node (cg node)
            (expand_array (cpu_count node) cpu_count_in (usage node))
            (expand_array (cpu_count node) cpu_count_in (view node))
            cpu_count_in
            (lock node))
  else None.

(** [new_proc_stat_node]. *)
Definition new_proc_stat_node (e : host_env) (usage_in : list cpuacct_usage)
    (cpu_count_in : Z) (name : string) : option cg_proc_stat :=
  if alloc_node_ok e then
    Some (mk_node name
            (take (Z.to_nat cpu_count_in) usage_in)
            (replicate (Z.to_nat cpu_count_in) zero_usage)
            cpu_count_in
            false)
  else None.

(** [add_proc_stat_node]: the node already in the chain wins. *)
Definition add_proc_stat_node (e : host_env) (reg : registry)
    (new_node : cg_proc_stat) : cg_proc_stat * registry :=
  let h := hash_of e (cg new_node) in
  match reg !! h with
  | None => (new_node, reg)
  | Some head =>
      match chain_find (cg new_node) (next head) with
      | Some node => (node, reg)
      | None =>
          (new_node,
           <[h := mk_head (next head ++ [new_node]) (lastcheck head)]> reg)
      end
  end.

(** [prune_proc_stat_list]. *)
Definition prune_proc_stat_list (e : host_env) (chain : list cg_proc_stat)
  : list cg_proc_stat :=
  filter (λ node, cgfs_param_exist e (cg node) = true) chain.

(** [prune_proc_stat_history]: it stops at the first bucket checked less
    than [PROC_STAT_PRUNE_INTERVAL] seconds ago. *)
Fixpoint prune_proc_stat_history (e : host_env) (reg : registry) : registry :=
  match reg with
  | [] => []
  | head :: rest =>
      if now e <? lastcheck head + PROC_STAT_PRUNE_INTERVAL then head :: rest
      else
        (match next head with
         | [] => head
         | _ :: _ => mk_head (prune_proc_stat_list e (next head)) (now e)
         end) :: prune_proc_stat_history e rest
  end.

(** What [find_proc_stat_node] returns: [NULL], a pointer to a node of the
    chain, or a pointer to a node that the prune at the end of the function
    has freed in the meantime. *)
Inductive found_node : Type :=
  | NotFound
  | Found (node : cg_proc_stat)
  | Freed.

(** [find_proc_stat_node]: the search under the read lock, then the
    opportunistic prune, which an empty chain returns without.  The prune runs
    after the read lock is released and before the pointer is returned: when it
    reaches the bucket and the cgroup has no [cpu.shares] any more, it frees
    the very node the search has found, and the pointer returned dangles.  The
    node has been freed exactly when the chain holds no node of that name after
    the prune. *)
Definition find_proc_stat_node (e : host_env) (reg : registry) (name : string)
  : found_node * registry :=
  match reg !! hash_of e name with
  | None => (NotFound, reg)
  | Some head =>
      match next head with
      | [] => (NotFound, reg)
      | _ :: _ =>
          let reg' := prune_proc_stat_history e reg in
          (match chain_find name (next head) with
           | None => NotFound
           | Some node =>
               match lookup_node e reg' name with
               | Some _ => Found node
               | None => Freed
               end
           end, reg')
      end
  end.

(** What [find_or_create_proc_stat_node] comes back with: no node, the
    node with its mutex taken, no return at all when the mutex is already
    held, or the use of a node that has been freed. *)
Inductive node_result : Type :=
  | NoNode
  | Locked (node : cg_proc_stat)
  | Deadlock
  | FreedNode.

Definition with_lock (node : cg_proc_stat) (b : bool) : cg_proc_stat :=
  mk_node (cg node) (usage node) (view node) (cpu_count node) b.

(** Lines 356-372 of [find_or_create_proc_stat_node]: the mutex of the
    node is taken, and the node expanded when it is too small. *)
Definition lock_and_expand (e : host_env) (reg : registry)
    (node : cg_proc_stat) (cpu_count_in : Z) : node_result * registry :=
  if lock node then (Deadlock, reg)
  else
    let node := with_lock node true in
    if cpu_count node <? cpu_count_in then
      match expand_proc_stat_node e node cpu_count_in with
      | None => (NoNode, store_node e reg (with_lock node false))
      | Some node' => (Locked node', store_node e reg node')
      end
    else (Locked node, store_node e reg node).

(** [find_or_create_proc_stat_node].  A dangling pointer from
    [find_proc_stat_node] is not [NULL]: line 356 locks the mutex of the freed
    node. *)
Definition find_or_create_proc_stat_node (e : host_env) (reg : registry)
    (usage_in : list cpuacct_usage) (cpu_count_in : Z) (name : string)
  : node_result * registry :=
  let '(found, reg) := find_proc_stat_node e reg name in
  match found with
  | Freed => (FreedNode, reg)
  | Found node => lock_and_expand e reg node cpu_count_in
  | NotFound =>
      match new_proc_stat_node e usage_in cpu_count_in name with
      | None => (NoNode, reg)
      | Some node =>
          let '(node, reg) := add_proc_stat_node e reg node in
          lock_and_expand e reg node cpu_count_in
      end
  end.

(** [cpuview_init_head] and [init_cpuview], when every allocation
    succeeds. *)
Definition init_cpuview (e : host_env) : registry :=
  replicate (Z.to_nat CPUVIEW_HASH_SIZE) (mk_head [] (now e)).

(** ** Reconciliation *)

(** The loop of lines 635-643: the first online CPU decides whether the
    node is reset. *)
Fixpoint reset_scan (n curcpu : nat) (sample : list cpuacct_usage)
    (nprocs : Z) (node : cg_proc_stat) : cg_proc_stat :=
  match n with
  | O => node
  | S n' =>
      if negb (online (sample !!! curcpu))
      then reset_scan n' (S curcpu) sample nprocs node
      else if user (sample !!! curcpu) <? user (usage node !!! curcpu)
           then reset_proc_stat_node node sample nprocs
           else node
  end.

(** [newer > older ? newer - older : 0]. *)
Definition sat_sub (newer older : Z) : Z :=
  if older <? newer then usub newer older else 0.

(** The loop of [diff_cpu_usage], from CPU [i] on, [n] CPUs. *)
Fixpoint diff_cpu_usage_loop (n i : nat) (older newer diff : list cpuacct_usage)
    (sum : Z) : list cpuacct_usage * Z :=
  match n with
  | O => (diff, sum)
  | S n' =>
      if negb (online (newer !!! i))
      then diff_cpu_usage_loop n' (S i) older newer diff sum
      else
        let d := mk_usage (sat_sub (user (newer !!! i)) (user (older !!! i)))
                          (sat_sub (system (newer !!! i)) (system (older !!! i)))
                          (sat_sub (idle (newer !!! i)) (idle (older !!! i)))
                          (online (diff !!! i)) in
        diff_cpu_usage_loop n' (S i) older newer (<[i := d]> diff)
          (uadd (uadd (uadd sum (user d)) (system d)) (idle d))
  end.

(** [diff_cpu_usage]. *)
Definition diff_cpu_usage (older newer diff : list cpuacct_usage)
    (cpu_count_in : Z) : list cpuacct_usage * Z :=
  diff_cpu_usage_loop (Z.to_nat cpu_count_in) 0 older newer diff 0.

(** The loop of lines 647-663: the stored usage takes the deltas and the
    [online] flags of the sample; the CPUs past the first [max_cpus] online
    ones feed the surplus pools. *)
Fixpoint usage_update_loop (n curcpu : nat) (i : Z) (max_cpus : Z)
    (sample diff usage_arr : list cpuacct_usage) (user_surplus system_surplus : Z)
  : list cpuacct_usage * Z * Z :=
  match n with
  | O => (usage_arr, user_surplus, system_surplus)
  | S n' =>
      let u := set_online (usage_arr !!! curcpu) (online (sample !!! curcpu)) in
      if negb (online u)
      then usage_update_loop n' (S curcpu) i max_cpus sample diff
             (<[curcpu := u]> usage_arr) user_surplus system_surplus
      else
        let i := i + 1 in
        let d := diff !!! curcpu in
        let u := mk_usage (uadd (user u) (user d)) (uadd (system u) (system d))
                          (uadd (idle u) (idle d)) (online u) in
        if (0 <? max_cpus) && (max_cpus <=? i)
        then usage_update_loop n' (S curcpu) i max_cpus sample diff
               (<[curcpu := u]> usage_arr)
               (uadd user_surplus (user d)) (uadd system_surplus (system d))
        else usage_update_loop n' (S curcpu) i max_cpus sample diff
               (<[curcpu := u]> usage_arr) user_surplus system_surplus
  end.

(** The counter [add_cpu_usage] credits: [&diff[curcpu].user] or
    [&diff[curcpu].system]. *)
Inductive counter_field : Type := CntUser | CntSystem.

(** The ticks one call of [add_cpu_usage] moves. *)
Definition to_add_of (surplus : Z) (u : cpuacct_usage) (threshold : Z) : Z :=
  let free_space := usub (usub threshold (user u)) (system u) in
  let free_space := if idle u <? free_space then idle u else free_space in
  if surplus <? free_space then surplus else free_space.

(** [add_cpu_usage]: the new surplus and the new entry. *)
Definition add_cpu_usage (surplus : Z) (u : cpuacct_usage)
    (counter : counter_field) (threshold : Z) : Z * cpuacct_usage :=
  let to_add := to_add_of surplus u threshold in
  let u' := match counter with
            | CntUser => set_user u (uadd (user u) to_add)
            | CntSystem => set_system u (uadd (system u) to_add)
            end in
  (usub surplus to_add, set_idle u' (usub (idle u') to_add)).

(** The body of the loop of lines 677-699 for one visible CPU. *)
Definition redistribute_cpu (threshold : Z) (d : cpuacct_usage)
    (user_surplus system_surplus : Z) : cpuacct_usage * Z * Z :=
  if threshold <=? uadd (user d) (system d)
  then (d, user_surplus, system_surplus)
  else
    let '(user_surplus, d) := add_cpu_usage user_surplus d CntUser threshold in
    if threshold <=? uadd (user d) (system d)
    then (d, user_surplus, system_surplus)
    else
      let '(system_surplus, d) :=
        add_cpu_usage system_surplus d CntSystem threshold in
      (d, user_surplus, system_surplus).

(** The loop of lines 677-699. *)
Fixpoint redistribute (n curcpu : nat) (i : Z) (max_cpus threshold : Z)
    (usage_arr diff : list cpuacct_usage) (user_surplus system_surplus : Z)
  : list cpuacct_usage * Z * Z :=
  match n with
  | O => (diff, user_surplus, system_surplus)
  | S n' =>
      if negb (online (usage_arr !!! curcpu))
      then redistribute n' (S curcpu) i max_cpus threshold usage_arr diff
             user_surplus system_surplus
      else
        let i := i + 1 in
        if i =? max_cpus then (diff, user_surplus, system_surplus)
        else
          let '(d, us, ss) :=
            redistribute_cpu threshold (diff !!! curcpu)
              user_surplus system_surplus in
          redistribute n' (S curcpu) i max_cpus threshold usage_arr
            (<[curcpu := d]> diff) us ss
  end.

(** The variables of the loop of lines 706-732. *)
Record view_acc : Type := mk_acc {
  va_view : list cpuacct_usage;
  va_user_sum : Z;
  va_system_sum : Z;
  va_idle_sum : Z;
  va_diff_user : Z;
  va_diff_system : Z;
  va_diff_idle : Z;
  va_max_diff_idle : Z;
  va_max_diff_idle_index : nat
}.

Definition add_counters (v d : cpuacct_usage) : cpuacct_usage :=
  mk_usage (uadd (user v) (user d)) (uadd (system v) (system d))
           (uadd (idle v) (idle d)) (online v).

Definition accumulate_cpu (curcpu : nat) (d : cpuacct_usage) (a : view_acc)
  : view_acc :=
  let v := add_counters (va_view a !!! curcpu) d in
  mk_acc (<[curcpu := v]> (va_view a))
         (uadd (va_user_sum a) (user v))
         (uadd (va_system_sum a) (system v))
         (uadd (va_idle_sum a) (idle v))
         (uadd (va_diff_user a) (user d))
         (uadd (va_diff_system a) (system d))
         (uadd (va_diff_idle a) (idle d))
         (if va_max_diff_idle a <? idle d then idle d else va_max_diff_idle a)
         (if va_max_diff_idle a <? idle d then curcpu
          else va_max_diff_idle_index a).

(** The loop of lines 706-732. *)
Fixpoint accumulate_view (n curcpu : nat) (i : Z) (max_cpus : Z)
    (usage_arr diff : list cpuacct_usage) (a : view_acc) : view_acc :=
  match n with
  | O => a
  | S n' =>
      if negb (online (usage_arr !!! curcpu))
      then accumulate_view n' (S curcpu) i max_cpus usage_arr diff a
      else
        let i := i + 1 in
        if i =? max_cpus then a
        else accumulate_view n' (S curcpu) i max_cpus usage_arr diff
               (accumulate_cpu curcpu (diff !!! curcpu) a)
  end.

(** The ticks the partial-CPU revision takes away (line 738). *)
Definition partial_delta (exact_cpus : float) (max_cpus : Z) (a : view_acc) : Z :=
  ulong_of_double
    (PrimFloat.mul
       (double_of_ulong
          (uadd (uadd (va_diff_user a) (va_diff_system a)) (va_diff_idle a)))
       (PrimFloat.sub 1 (PrimFloat.div exact_cpus (double_of_int max_cpus)))).

(** [x > delta ? x - delta : 0]. *)
Definition sub_or_zero (x delta : Z) : Z :=
  if delta <? x then usub x delta else 0.

(** Lines 736-750.  The entry revised is the one of [max_diff_idle_index];
    an index outside of the array is not written. *)
Definition revise_partial (e : host_env) (max_cpus : Z) (a : view_acc)
  : view_acc :=
  let exact_cpus := exact_cpu_count e in
  if PrimFloat.ltb exact_cpus (double_of_int max_cpus) then
    let delta := partial_delta exact_cpus max_cpus a in
    let k := va_max_diff_idle_index a in
    mk_acc (alter (λ v, set_idle v (sub_or_zero (idle v) delta)) k (va_view a))
           (va_user_sum a) (va_system_sum a)
           (sub_or_zero (va_idle_sum a) delta)
           (va_diff_user a) (va_diff_system a) (va_diff_idle a)
           (va_max_diff_idle a) (va_max_diff_idle_index a)
  else a.

(** The loop of lines 752-763: without a quota the view is the usage. *)
Fixpoint copy_usage_to_view (n curcpu : nat) (usage_arr : list cpuacct_usage)
    (view_arr : list cpuacct_usage) (user_sum system_sum idle_sum : Z)
  : list cpuacct_usage * Z * Z * Z :=
  match n with
  | O => (view_arr, user_sum, system_sum, idle_sum)
  | S n' =>
      if negb (online (usage_arr !!! curcpu))
      then copy_usage_to_view n' (S curcpu) usage_arr view_arr
             user_sum system_sum idle_sum
      else
        let u := usage_arr !!! curcpu in
        let v := mk_usage (user u) (system u) (idle u)
                          (online (view_arr !!! curcpu)) in
        copy_usage_to_view n' (S curcpu) usage_arr (<[curcpu := v]> view_arr)
          (uadd user_sum (user v)) (uadd system_sum (system v))
          (uadd idle_sum (idle v))
  end.

(** [threshold = total_sum / cpu_cnt * max_cpus]. *)
Definition threshold_of (total_sum cpu_cnt max_cpus : Z) : Z :=
  umul (total_sum / cpu_cnt) max_cpus.

(** The redistributed deltas of a read on a node whose usage has been
    brought up to date: what the loop of lines 677-699 leaves in [diff]. *)
Definition visible_diff (nprocs max_cpus threshold : Z)
    (usage_arr diff : list cpuacct_usage) (user_surplus system_surplus : Z)
  : list cpuacct_usage :=
  (redistribute (Z.to_nat nprocs) 0 (-1) max_cpus threshold usage_arr diff
     user_surplus system_surplus).1.1.

(** Lines 631-764: from the node [find_or_create_proc_stat_node] returned
    and the sample to the node as it is when rendering starts, with the three
    sums of the aggregate line. *)
Definition reconcile (e : host_env) (nprocs max_cpus cpu_cnt : Z)
    (sample : list cpuacct_usage) (stat_node : cg_proc_stat)
  : cg_proc_stat * (Z * Z * Z) :=
  let n := Z.to_nat nprocs in
  let stat_node := reset_scan n 0 sample nprocs stat_node in
  let '(diff, total_sum) :=
    diff_cpu_usage (usage stat_node) sample (replicate n zero_usage) nprocs in
  let '(usage', user_surplus, system_surplus) :=
    usage_update_loop n 0 (-1) max_cpus sample diff (usage stat_node) 0 0 in
  if 0 <? max_cpus then
    let threshold := threshold_of total_sum cpu_cnt max_cpus in
    let diff :=
      visible_diff nprocs max_cpus threshold usage' diff
        user_surplus system_surplus in
    let a :=
      accumulate_view n 0 (-1) max_cpus usage' diff
        (mk_acc (view stat_node) 0 0 0 0 0 0 0 0%nat) in
    let a := revise_partial e max_cpus a in
    (mk_node (cg stat_node) usage' (va_view a) (cpu_count stat_node)
             (lock stat_node),
     (va_user_sum a, va_system_sum a, va_idle_sum a))
  else
    let '(view', user_sum, system_sum, idle_sum) :=
      copy_usage_to_view n 0 usage' (view stat_node) 0 0 0 in
    (mk_node (cg stat_node) usage' view' (cpu_count stat_node)
             (lock stat_node),
     (user_sum, system_sum, idle_sum)).

(** ** Rendering *)

Definition nl : string := String "010"%char EmptyString.

(** ["cpu  %lu 0 %lu %lu 0 0 0 0 0 0\n"]. *)
Definition cpu_all_line (user_sum system_sum idle_sum : Z) : string :=
  "cpu  " +:+ pretty user_sum +:+ " 0 " +:+ pretty system_sum +:+ " "
  +:+ pretty idle_sum +:+ " 0 0 0 0 0 0" +:+ nl.

(** ["cpu%d %lu 0 %lu %lu 0 0 0 0 0 0\n"]. *)
Definition cpu_line (i : Z) (v : cpuacct_usage) : string :=
  "cpu" +:+ pretty i +:+ " " +:+ pretty (user v) +:+ " 0 "
  +:+ pretty (system v) +:+ " " +:+ pretty (idle v) +:+ " 0 0 0 0 0 0" +:+ nl.

(** The output buffer: what is left of it, what has been written. *)
Record out_buf : Type := mk_buf {
  buf_size : Z;
  total_len : Z;
  written : string
}.

(** One [snprintf] with its truncation test; [None] is the [return 0] of a
    write that does not fit. *)
Definition emit (b : out_buf) (s : string) : option out_buf :=
  let l := Z.of_nat (String.length s) in
  if buf_size b <=? l then None
  else Some (mk_buf (buf_size b - l) (total_len b + l) (written b +:+ s)).

(** The loop of lines 788-817. *)
Fixpoint render_cpus (n curcpu : nat) (i : Z) (max_cpus : Z)
    (stat_node : cg_proc_stat) (b : out_buf) : option out_buf :=
  match n with
  | O => Some b
  | S n' =>
      if negb (online (usage stat_node !!! curcpu))
      then render_cpus n' (S curcpu) i max_cpus stat_node b
      else
        let i := i + 1 in
        if (0 <? max_cpus) && (i =? max_cpus) then Some b
        else
          b' ← emit b (cpu_line i (view stat_node !!! curcpu));
          render_cpus n' (S curcpu) i max_cpus stat_node b'
  end.

(** The loop of lines 837-850. *)
Fixpoint render_rest (f : list host_line) (b : out_buf) : option out_buf :=
  match f with
  | [] => Some b
  | l :: f' => b' ← emit b (line_text l); render_rest f' b'
  end.

(** How the rendering of lines 766-850 ends: the text is written, a write
    does not fit ([return 0]), or line 820 prints the buffer of [getline]
    although no line has ever been read into it. *)
Inductive render_result : Type :=
  | Rendered (b : out_buf)
  | Truncated
  | UnsetBuffer.

(** Lines 766-850.  [line] is the buffer of [getline] after the parsing
    loop: the last line read, or nothing when the stream was at its end from
    the start.  The aggregate line and the lines of the CPUs are written, and
    their truncation tests made, before [line] is printed. *)
Definition render (nprocs max_cpus : Z) (stat_node : cg_proc_stat)
    (sums : Z * Z * Z) (line : option host_line) (rest : list host_line)
    (size : Z) : render_result :=
  let '(user_sum, system_sum, idle_sum) := sums in
  match
    (b ← emit (mk_buf size 0 EmptyString)
           (cpu_all_line user_sum system_sum idle_sum);
     render_cpus (Z.to_nat nprocs) 0 (-1) max_cpus stat_node b)
  with
  | None => Truncated
  | Some b =>
      match line with
      | None => UnsetBuffer
      | Some l =>
          match (b ← emit b (line_text l); render_rest rest b) with
          | None => Truncated
          | Some b => Rendered b
          end
      end
  end.

(** ** A read *)

(** How a call of [cpuview_proc_stat] ends: it returns a length and the
    text written; it never returns because it waits for a mutex that is held;
    it has accessed [cg_cpu_usage] out of its bounds; it has used a node that
    the prune had freed; or it has printed the unset buffer of [getline].  The
    last three are undefined behaviour of the C program, and the model says
    nothing of what follows them. *)
Inductive read_status : Type :=
  | Returned (ret : Z) (out : string)
  | Blocked
  | OutOfBounds
  | UseAfterFree
  | UnsetLine.

Record read_result : Type := mk_result {
  status : read_status;
  history : registry;          (* proc_stat_history after the call *)
  errors : list idle_error     (* what lxcfs_error reported on idle time *)
}.

(** The working CPU count of lines 543-546. *)
Definition working_nprocs (e : host_env) (cg_cpu_usage_size : Z) : Z :=
  if cg_cpu_usage_size <? get_nprocs_conf e then cg_cpu_usage_size
  else get_nprocs_conf e.

(** The visible CPU count of lines 536 and 615-617. *)
Definition clamp_max_cpus (max_cpus cpu_cnt : Z) : Z :=
  if cpu_cnt <? max_cpus then cpu_cnt else max_cpus.

(** Lines 626-855 of [cpuview_proc_stat]: the read once the node is held.
    The mutex is released at the very end only. *)
Definition read_locked_node (e : host_env) (reg : registry)
    (nprocs max_cpus : Z) (st : parse_state) (line : option host_line)
    (rest : list host_line) (size : Z) (stat_node : cg_proc_stat)
  : read_result :=
  if negb (alloc_diff_ok e)
  then mk_result (Returned 0 EmptyString) reg (ps_log st)
  else
    let '(stat_node, sums) :=
      reconcile e nprocs max_cpus (ps_cpu_cnt st) (ps_usage st) stat_node in
    match render nprocs max_cpus stat_node sums line rest size with
    | Truncated =>
        mk_result (Returned 0 EmptyString)
          (store_node e reg stat_node) (ps_log st)
    | UnsetBuffer =>
        mk_result UnsetLine (store_node e reg stat_node) (ps_log st)
    | Rendered b =>
        mk_result (Returned (total_len b) (written b))
          (store_node e reg (with_lock stat_node false)) (ps_log st)
    end.

(** [cpuview_proc_stat]. *)
Definition cpuview_proc_stat (e : host_env) (reg : registry) (name : string)
    (cs : cpuset) (cg_cpu_usage : list cpuacct_usage) (cg_cpu_usage_size : Z)
    (f : list host_line) (size : Z) : read_result :=
  let max_cpus := max_cpu_count e in
  let nprocs := working_nprocs e cg_cpu_usage_size in
  match parse_host_stat cs cg_cpu_usage_size f None
          (mk_parse cg_cpu_usage (-1) 0 []) with
  | None => mk_result OutOfBounds reg []
  | Some (st, line, rest) =>
      let max_cpus := clamp_max_cpus max_cpus (ps_cpu_cnt st) in
      match find_or_create_proc_stat_node e reg (ps_usage st) nprocs name with
      | (Deadlock, reg) => mk_result Blocked reg (ps_log st)
      | (FreedNode, reg) => mk_result UseAfterFree reg (ps_log st)
      | (NoNode, reg) => mk_result (Returned 0 EmptyString) reg (ps_log st)
      | (Locked stat_node, reg) =>
          read_locked_node e reg nprocs max_cpus st line rest size stat_node
      end
  end.

(** ** The specification's wording, for comparison *)

(** [ceil(quota/period)]. *)
Definition ceil_div (q p : Z) : Z := (q + p - 1) / p.

(** The capacity the specification describes for a cgroup whose quota and
    period are [q] and [p], on a host of [nprocs] CPUs, with [nr] CPUs in the
    cpuset. *)
Definition spec_max_cpu_count (q p nprocs nr : Z) : Z :=
  if (0 <? q) && (0 <? p) then
    let c := Z.min (ceil_div q p) nprocs in
    if (0 <? nr) && (nr <? c) then nr else c
  else if 0 <? nr then nr else 0.

(** The number of CPUs of a cgroup's cpuset, 0 when it has none. *)
Definition nr_cpus_in_cpuset (e : host_env) : Z :=
  match get_cpuset e with
  | Some cs => cpu_number_in_cpuset cs
  | None => 0
  end.

(** A delta as [diff_cpu_usage] produces them: three counters whose total
    is an [unsigned long]. *)
Definition delta_ok (d : cpuacct_usage) : Prop :=
  0 <= user d ∧ 0 <= system d ∧ 0 <= idle d ∧
  user d + system d + idle d < ULONG_MOD.

(** Totals of a field over an array. *)
Definition sum_of (field : cpuacct_usage → Z) (l : list cpuacct_usage) : Z :=
  foldr (λ d acc, field d + acc) 0 l.

(** Two entries with the same three counters. *)
Definition same_counters (a b : cpuacct_usage) : Prop :=
  user a = user b ∧ system a = system b ∧ idle a = idle b.

(** A host table as the kernel writes it: the numbers of its cpuN lines
    grow strictly, from a number above [c] on. *)
Fixpoint ascending_from (c : Z) (f : list host_line) : Prop :=
  match f with
  | [] => True
  | l :: f' =>
      match line_tag l with
      | CpuNum p => c < p ∧ ascending_from p f'
      | _ => ascending_from c f'
      end
  end.

(** The view entries of the online CPUs among CPUs [curcpu] to
    [curcpu + n - 1] of a node, in index order. *)
Fixpoint online_views (n curcpu : nat) (stat_node : cg_proc_stat)
  : list cpuacct_usage :=
  match n with
  | O => []
  | S n' =>
      if online (usage stat_node !!! curcpu)
      then view stat_node !!! curcpu :: online_views n' (S curcpu) stat_node
      else online_views n' (S curcpu) stat_node
  end.

(** Lines labelled [cpu{i}], [cpu{i+1}], ... for the entries of a list. *)
Fixpoint cpu_lines (i : Z) (vs : list cpuacct_usage) : string :=
  match vs with
  | [] => EmptyString
  | v :: vs' => cpu_line i v +:+ cpu_lines (i + 1) vs'
  end.

(** The lines of a stream, one after the other. *)
Fixpoint rest_text (f : list host_line) : string :=
  match f with
  | [] => EmptyString
  | l :: f' => line_text l +:+ rest_text f'
  end.

(** The entries rendered once [i + 1] CPUs have been: the first ones, up to
    [max_cpus] labels in all, under a quota; all of them without. *)
Definition visible_views (max_cpus i : Z) (vs : list cpuacct_usage)
  : list cpuacct_usage :=
  if 0 <? max_cpus then take (Z.to_nat (max_cpus - (i + 1))) vs else vs.

(** The text of a read: the aggregate line, the lines of the visible CPUs
    labelled from [cpu0] on, the line the parsing stopped at and the rest of
    the host table. *)
Definition stat_text (nprocs max_cpus : Z) (stat_node : cg_proc_stat)
    (sums : Z * Z * Z) (line : host_line) (rest : list host_line)
  : string :=
  cpu_all_line sums.1.1 sums.1.2 sums.2
  +:+ cpu_lines 0
        (visible_views max_cpus (-1)
           (online_views (Z.to_nat nprocs) 0 stat_node))
  +:+ line_text line +:+ rest_text rest.

(** The text as the specification words it: the per-CPU lines are those of
    [cpu0] to [cpu{max_cpus-1}]. *)
Definition claimed_stat_text (nprocs max_cpus : Z) (stat_node : cg_proc_stat)
    (sums : Z * Z * Z) (line : host_line) (rest : list host_line)
  : string :=
  cpu_all_line sums.1.1 sums.1.2 sums.2
  +:+ cpu_lines 0
        (take (Z.to_nat max_cpus) (online_views (Z.to_nat nprocs) 0 stat_node))
  +:+ line_text line +:+ rest_text rest.

(** The total of the three counters of an entry. *)
Definition total_of (d : cpuacct_usage) : Z := user d + system d + idle d.

(** An entry whose three counters are [unsigned long]s. *)
Definition counters_ok (c : cpuacct_usage) : Prop :=
  is_u64 (user c) ∧ is_u64 (system c) ∧ is_u64 (idle c).

(** The deltas of a read, before any redistribution: what [diff_cpu_usage]
    computes once the reset test has been made. *)
Definition read_delta (nprocs : Z) (sample : list cpuacct_usage)
    (stat_node : cg_proc_stat) : list cpuacct_usage :=
  (diff_cpu_usage
     (usage (reset_scan (Z.to_nat nprocs) 0 sample nprocs stat_node))
     sample (replicate (Z.to_nat nprocs) zero_usage) nprocs).1.

(** A line at which the parsing loop does not stop. *)
Definition passes_loop (l : host_line) : Prop :=
  String.length (line_text l) = 0%nat ∨ line_tag l ≠ NotCpu.

(** What a read may do to the view entry [j] of a node, from [before] to
    [after]: under a quota user and system do not decrease, and idle does not
    either when no partial-CPU revision is made; without quota a counter that
    was not above the usage does not decrease. *)
Definition view_entry_grows (e : host_env) (max_cpus : Z)
    (before after : cg_proc_stat) (j : nat) : Prop :=
  (0 < max_cpus →
     user (view before !!! j) <= user (view after !!! j) ∧
     system (view before !!! j) <= system (view after !!! j) ∧
     (PrimFloat.ltb (exact_cpu_count e) (double_of_int max_cpus) = false →
      idle (view before !!! j) <= idle (view after !!! j))) ∧
  (max_cpus <= 0 →
     (user (view before !!! j) <= user (usage before !!! j) →
      user (view before !!! j) <= user (view after !!! j)) ∧
     (system (view before !!! j) <= system (usage before !!! j) →
      system (view before !!! j) <= system (view after !!! j)) ∧
     (idle (view before !!! j) <= idle (usage before !!! j) →
      idle (view before !!! j) <= idle (view after !!! j))).

(** A node that [find_or_create_proc_stat_node] hands over for a read of
    [n] CPUs, compared with the node it found: the counters are those found, or
    zero in the entries an expansion has added. *)
Definition handed_over (n : nat) (found handed : cg_proc_stat) : Prop :=
  (n <= length (usage handed))%nat ∧ (n <= length (view handed))%nat ∧
  ∀ j : nat,
    (same_counters (usage handed !!! j) (usage found !!! j) ∧
     same_counters (view handed !!! j) (view found !!! j) ∧
     ((j < n)%nat → Z.of_nat j < cpu_count found)) ∨
    (cpu_count found <= Z.of_nat j ∧
     same_counters (usage handed !!! j) zero_usage ∧
     same_counters (view handed !!! j) zero_usage).

(** The cpuN lines the parsing loop counts: those with a number below
    [cg_cpu_usage_size], up to the line the loop stops at, in the cpuset or
    not. *)
Fixpoint counted_lines (cg_cpu_usage_size : Z) (f : list host_line) : Z :=
  match f with
  | [] => 0
  | l :: f' =>
      if (String.length (line_text l) =? 0)%nat
      then counted_lines cg_cpu_usage_size f'
      else
        match line_tag l with
        | NotCpu => 0
        | CpuNoNumber => counted_lines cg_cpu_usage_size f'
        | CpuNum p =>
            (if cg_cpu_usage_size <=? p then 0 else 1)
            + counted_lines cg_cpu_usage_size f'
        end
  end.

(** ** Concrete inputs *)

Definition env_quota_2 : host_env :=
  mk_env (Some 150000) (Some 100000) (Some [0; 1; 2; 3]) 4 4 0
         (λ _, true) (λ _, 0) true true true.

(** A quota of 2^32 + 1 periods on a host of four CPUs. *)
Definition env_quota_huge : host_env :=
  mk_env (Some 4294967297000) (Some 1000) (Some [0; 1; 2; 3]) 4 4 0
         (λ _, true) (λ _, 0) true true true.

Definition cg_a : string := "/lxc/a".

(** A host line [cpuN u 0 s i 0 0 0 0 0 0] and the line that follows the
    per-CPU lines. *)
Definition cpu_stat_line (n u s i : Z) : host_line :=
  mk_line ("cpu" +:+ pretty n +:+ " " +:+ pretty u +:+ " 0 " +:+ pretty s
           +:+ " " +:+ pretty i +:+ " 0 0 0 0 0 0" +:+ nl)
          (CpuNum n) [u; 0; s; i; 0; 0; 0; 0; 0; 0].

Definition intr_line : host_line := mk_line ("intr 42" +:+ nl) NotCpu [].

(** A host of [nprocs] CPUs, all allocations succeeding, every cgroup
    alive. *)
Definition env_of (quota period : option Z) (cs : cpuset) (nprocs : Z)
  : host_env :=
  mk_env quota period (Some cs) nprocs nprocs 0 (λ _, true) (λ _, 0)
         true true true.

(** Three reads of one cgroup without quota: the host has three CPUs at
    the first, one at the second, where the cgroup's user time has fallen from
    100 to 5, and two at the third. *)
Definition shrink_read_1 : read_result :=
  cpuview_proc_stat (env_of None None [0; 1; 2] 3)
    (init_cpuview (env_of None None [0; 1; 2] 3)) cg_a [0; 1; 2]
    [mk_usage 100 50 0 false; mk_usage 10 5 0 false; mk_usage 20 10 0 false] 3
    [cpu_stat_line 0 100 50 200; cpu_stat_line 1 10 5 300;
     cpu_stat_line 2 20 10 250; intr_line] 4096.

Definition shrink_read_2 : read_result :=
  cpuview_proc_stat (env_of None None [0] 1) (history shrink_read_1)
    cg_a [0] [mk_usage 5 2 0 false] 1
    [cpu_stat_line 0 300 150 500; intr_line] 4096.

Definition shrink_read_3 : read_result :=
  cpuview_proc_stat (env_of None None [0; 1] 2) (history shrink_read_2)
    cg_a [0; 1] [mk_usage 6 3 0 false; mk_usage 1 1 0 false] 2
    [cpu_stat_line 0 310 160 510; cpu_stat_line 1 30 15 400; intr_line] 4096.

(** The [cpu_count] of the node of [cg_a] and the length of its arrays. *)
Definition node_size (reg : registry) : option (Z * nat * nat) :=
  (λ n, (cpu_count n, length (usage n), length (view n)))
    <$> lookup_node (env_of None None [0] 1) reg cg_a.

Definition node_2cpu : cg_proc_stat :=
  mk_node cg_a
    [mk_usage 100 50 200 true; mk_usage 10 5 300 true]
    [mk_usage 7 3 20 false; mk_usage 1 2 30 false] 2 true.

(** The state of the parsing loop before the first line, for a sample of
    one CPU that has used 80 user and 40 system ticks. *)
Definition parse_start_1cpu : parse_state :=
  mk_parse [mk_usage 80 40 0 false] (-1) 0 [].

(** Three reads of a cgroup limited to half a CPU on a host of one CPU.
    Host and cgroup counters only grow. *)
Definition half_cpu_env : host_env := env_of (Some 50000) (Some 100000) [0] 1.

Definition half_read_1 : read_result :=
  cpuview_proc_stat half_cpu_env (init_cpuview half_cpu_env) cg_a [0]
    [mk_usage 100 50 0 false] 1
    [cpu_stat_line 0 100 50 200; intr_line] 4096.

Definition half_read_2 : read_result :=
  cpuview_proc_stat half_cpu_env (history half_read_1) cg_a [0]
    [mk_usage 200 100 0 false] 1
    [cpu_stat_line 0 200 100 400; intr_line] 4096.

Definition half_read_3 : read_result :=
  cpuview_proc_stat half_cpu_env (history half_read_2) cg_a [0]
    [mk_usage 260 100 0 false] 1
    [cpu_stat_line 0 260 100 440; intr_line] 4096.

(** A cgroup with a full CPU of quota on a host of one CPU. *)
Definition one_cpu_env : host_env := env_of (Some 100000) (Some 100000) [0] 1.

(** A cgroup without readable quota on a host of one CPU. *)
Definition noquota_env : host_env := env_of None None [0] 1.

(** A node after some reads, and a later sample of its cgroup. *)
Definition node_1cpu : cg_proc_stat :=
  mk_node cg_a [mk_usage 200 100 400 true] [mk_usage 100 50 200 false] 1 true.

Definition sample_later : list cpuacct_usage := [mk_usage 260 100 440 true].

(** A sample whose user time has gone back: the cgroup was recreated. *)
Definition sample_recreated : list cpuacct_usage := [mk_usage 5 2 943 true].

(** Two reads without quota; at the second the cgroup has been recreated. *)
Definition recreated_read_1 : read_result :=
  cpuview_proc_stat noquota_env (init_cpuview noquota_env) cg_a [0]
    [mk_usage 200 100 0 false] 1
    [cpu_stat_line 0 200 100 400; intr_line] 4096.

Definition recreated_read_2 : read_result :=
  cpuview_proc_stat noquota_env (history recreated_read_1) cg_a [0]
    [mk_usage 5 2 0 false] 1
    [cpu_stat_line 0 300 150 500; intr_line] 4096.

(** A host of two CPUs of which the cpuset of the cgroup has one. *)
Definition parse_cpu0_of_2 :
  option (parse_state * option host_line * list host_line) :=
  parse_host_stat [0] 2
    [cpu_stat_line 0 100 50 200; cpu_stat_line 1 40 20 140; intr_line] None
    (mk_parse [mk_usage 80 40 0 false; mk_usage 0 0 0 false] (-1) 0 []).

(** The number of entries of a sample that are online. *)
Definition count_online (s : list cpuacct_usage) : nat :=
  length (filter (λ c, online c = true) s).

(** Reads that fail once the node is locked: the diff array cannot be
    allocated; the buffer is too small. *)
Definition env_diff_fail : host_env :=
  mk_env (Some 100000) (Some 100000) (Some [0]) 1 1 0 (λ _, true) (λ _, 0)
         true true false.

Definition leak_read_alloc : read_result :=
  cpuview_proc_stat env_diff_fail (init_cpuview env_diff_fail) cg_a [0]
    [mk_usage 100 50 0 false] 1
    [cpu_stat_line 0 100 50 200; intr_line] 4096.

Definition leak_read_truncated : read_result :=
  cpuview_proc_stat one_cpu_env (init_cpuview one_cpu_env) cg_a [0]
    [mk_usage 100 50 0 false] 1
    [cpu_stat_line 0 100 50 200; intr_line] 8.

(** The read that follows the failed one, with memory to spare. *)
Definition read_after_leak : read_result :=
  cpuview_proc_stat one_cpu_env (history leak_read_alloc) cg_a [0]
    [mk_usage 200 100 0 false] 1
    [cpu_stat_line 0 200 100 400; intr_line] 4096.

(** A read that finds the node too small and cannot expand it. *)
Definition env_expand_fail : host_env :=
  mk_env (Some 200000) (Some 100000) (Some [0; 1]) 2 2 0 (λ _, true) (λ _, 0)
         true false true.

Definition read_expand_fail : read_result :=
  cpuview_proc_stat env_expand_fail (history half_read_1) cg_a [0; 1]
    [mk_usage 200 100 0 false; mk_usage 10 5 0 false] 2
    [cpu_stat_line 0 200 100 400; cpu_stat_line 1 10 5 300; intr_line] 4096.

(** A first read without quota on a host of one CPU. *)
Definition noquota_read : read_result :=
  cpuview_proc_stat noquota_env (init_cpuview noquota_env) cg_a [0]
    [mk_usage 5 2 0 false] 1
    [cpu_stat_line 0 300 150 500; intr_line] 4096.

(** Two reads of a cgroup with one full CPU of quota, the node the first
    leaves and the state of the parsing at the second. *)
Definition full_read_1 : read_result :=
  cpuview_proc_stat one_cpu_env (init_cpuview one_cpu_env) cg_a [0]
    [mk_usage 100 50 0 false] 1
    [cpu_stat_line 0 100 50 200; intr_line] 4096.

Definition full_read_2 : read_result :=
  cpuview_proc_stat one_cpu_env (history full_read_1) cg_a [0]
    [mk_usage 200 100 0 false] 1
    [cpu_stat_line 0 200 100 400; intr_line] 4096.

Definition node_after_full_read_1 : cg_proc_stat :=
  mk_node cg_a [mk_usage 100 50 200 true] [mk_usage 0 0 0 false] 1 false.

Definition parsed_full_read_2 : parse_state :=
  mk_parse [mk_usage 200 100 400 true] 0 1 [].

(** A second cgroup, in the same bucket as [cg_a], and its first read. *)
Definition cg_b : string := "/lxc/b".

Definition other_read : read_result :=
  cpuview_proc_stat one_cpu_env (history full_read_1) cg_b [0]
    [mk_usage 30 10 0 false] 1
    [cpu_stat_line 0 200 100 400; intr_line] 4096.

(** A registry with a node of a cgroup that has gone, and the environment
    of a read that comes more than ten seconds after the last prune. *)
Definition env_a_gone : host_env :=
  mk_env (Some 100000) (Some 100000) (Some [0]) 1 1 20
         (λ name, negb (String.eqb name cg_a)) (λ _, 0) true true true.

(** A line of CPU 0 that carries four counters only. *)
Definition short_cpu_line : host_line :=
  mk_line ("cpu0 100 0 50 200" +:+ nl) (CpuNum 0) [100; 0; 50; 200].

(** ** Well-formedness of the cache *)

(** A node whose arrays hold at least [cpu_count] entries. *)
Definition node_wf (node : cg_proc_stat) : Prop :=
  0 <= cpu_count node ∧
  (Z.to_nat (cpu_count node) <= length (usage node))%nat ∧
  (Z.to_nat (cpu_count node) <= length (view node))%nat.

(** The chain of bucket [h]: at most one node for a cgroup, every node in
    the bucket of its hash. *)
Definition chain_wf (e : host_env) (h : nat) (chain : list cg_proc_stat)
  : Prop :=
  NoDup (cg <$> chain) ∧
  Forall (λ node, hash_of e (cg node) = h ∧ node_wf node) chain.

(** The registry: [CPUVIEW_HASH_SIZE] buckets of well-formed chains. *)
Definition registry_wf (e : host_env) (reg : registry) : Prop :=
  length reg = Z.to_nat CPUVIEW_HASH_SIZE ∧
  ∀ h head, reg !! h = Some head → chain_wf e h (next head).

(** The cgroups a registry has a node for. *)
Definition cached_cgroups (reg : registry) : list string :=
  head ← reg; cg <$> next head.

(** The number of CPUs among CPUs [curcpu] to [curcpu + n - 1] that a
    sample has online. *)
Fixpoint online_count (n curcpu : nat) (s : list cpuacct_usage) : nat :=
  match n with
  | O => 0
  | S n' =>
      (if online (s !!! curcpu) then 1 else 0) + online_count n' (S curcpu) s
  end.

(** The entries of [arr] at the CPUs among CPUs [curcpu] to
    [curcpu + n - 1] that [usage_arr] has online, in index order: what the
    loops over the visible CPUs walk through. *)
Fixpoint online_entries (n curcpu : nat) (usage_arr arr : list cpuacct_usage)
  : list cpuacct_usage :=
  match n with
  | O => []
  | S n' =>
      if online (usage_arr !!! curcpu)
      then arr !!! curcpu :: online_entries n' (S curcpu) usage_arr arr
      else online_entries n' (S curcpu) usage_arr arr
  end.

(** A delta that takes no more surplus: its busy time has reached the
    threshold or it has no idle time left. *)
Definition saturated (threshold : Z) (d : cpuacct_usage) : Prop :=
  threshold <= user d + system d ∨ idle d = 0.

(** The CPU numbers of the lines the parsing loop counts, in the order of
    the table. *)
Fixpoint seen_cpus (cg_cpu_usage_size : Z) (f : list host_line) : list Z :=
  match f with
  | [] => []
  | l :: f' =>
      if (String.length (line_text l) =? 0)%nat
      then seen_cpus cg_cpu_usage_size f'
      else
        match line_tag l with
        | NotCpu => []
        | CpuNoNumber => seen_cpus cg_cpu_usage_size f'
        | CpuNum p =>
            if cg_cpu_usage_size <=? p then seen_cpus cg_cpu_usage_size f'
            else p :: seen_cpus cg_cpu_usage_size f'
        end
  end.

(** The text a read writes before it prints [line]: the aggregate line and
    the lines of the visible CPUs. *)
Definition stat_head (nprocs max_cpus : Z) (stat_node : cg_proc_stat)
    (sums : Z * Z * Z) : string :=
  cpu_all_line sums.1.1 sums.1.2 sums.2
  +:+ cpu_lines 0
        (visible_views max_cpus (-1)
           (online_views (Z.to_nat nprocs) 0 stat_node)).

(** A read that stays within what C defines: it returns or it waits for
    the mutex. *)
Definition defined_read (s : read_status) : Prop :=
  match s with
  | Returned _ _ | Blocked => True
  | OutOfBounds | UseAfterFree | UnsetLine => False
  end.

(** The parsing state over a memory in which [beyond] follows the array of
    the sample. *)
Definition with_beyond (st : parse_state) (beyond : list cpuacct_usage)
  : parse_state :=
  mk_parse (ps_usage st ++ beyond) (ps_curcpu st) (ps_cpu_cnt st) (ps_log st).

(** ** The redistribution as the specification words it

    The amount a visible CPU is credited from a pool: the pool, the headroom
    below the threshold and the idle delta, whichever is least. *)
Definition claimed_credit (pool headroom idle_delta : Z) : Z :=
  Z.min pool (Z.min headroom idle_delta).

(** One visible CPU: nothing when its busy delta has reached the threshold;
    else a credit from the user pool to the user delta, and, when there is
    still room, a credit from the system pool to the system delta, each one
    taken from the pool and from the idle delta.  In plain integers. *)
Definition claimed_redistribute_cpu (threshold : Z) (d : cpuacct_usage)
    (user_pool system_pool : Z) : cpuacct_usage * Z * Z :=
  if threshold <=? user d + system d then (d, user_pool, system_pool)
  else
    let a := claimed_credit user_pool (threshold - user d - system d) (idle d) in
    let d := mk_usage (user d + a) (system d) (idle d - a) (online d) in
    let user_pool := user_pool - a in
    if threshold <=? user d + system d then (d, user_pool, system_pool)
    else
      let b :=
        claimed_credit system_pool (threshold - user d - system d) (idle d) in
      (mk_usage (user d) (system d + b) (idle d - b) (online d),
       user_pool, system_pool - b).

(** The visible CPUs: the first [max_cpus] of the CPUs below [nprocs] that
    the node has online. *)
Definition credited_cpus (nprocs : nat) (max_cpus : Z)
    (usage_arr : list cpuacct_usage) : list nat :=
  take (Z.to_nat max_cpus)
       (List.filter (λ c, online (usage_arr !!! c)) (seq 0 nprocs)).

(** The visible CPUs credited one after the other. *)
Definition claimed_redistribute (threshold : Z) (cpus : list nat)
    (diff : list cpuacct_usage) (user_pool system_pool : Z)
  : list cpuacct_usage * Z * Z :=
  fold_left
    (λ acc c,
       let r := claimed_redistribute_cpu threshold (acc.1.1 !!! c)
                  acc.1.2 acc.2 in
       (<[c := r.1.1]> acc.1.1, r.1.2, r.2))
    cpus (diff, user_pool, system_pool).

(** ** Registries that later reads leave

    [later_registry e name reg reg']: [reg'] is what is left of [reg] by
    any number of reads, of this or of other cgroups, each of them a defined
    one and made while the cgroup [name] exists (and hashes as it does in
    [e]). *)
Inductive later_registry (e : host_env) (name : string) (reg : registry)
  : registry → Prop :=
| later_now : later_registry e name reg reg
| later_read (reg' : registry) (e' : host_env) (other : string) (cs : cpuset)
    (sample : list cpuacct_usage) (size : Z) (f : list host_line)
    (bufsize : Z) :
    later_registry e name reg reg' →
    calc_hash e' name = calc_hash e name →
    cgfs_param_exist e' name = true →
    defined_read
      (status (cpuview_proc_stat e' reg' other cs sample size f bufsize)) →
    later_registry e name reg
      (history (cpuview_proc_stat e' reg' other cs sample size f bufsize)).

(** ** /proc/cpuinfo

    [proc_cpuinfo_read] filters the host's /proc/cpuinfo for a container:
    it keeps the processors of the cpuset, at most [max_cpu_count] of them
    when the CPU view is in use, and numbers them from 0.  The text is built
    in the buffer of the open file and served from there at later offsets. *)

(** A line of the host's /proc/cpuinfo as the calls of [proc_cpuinfo_read]
    see it. *)
Record info_line : Type := mk_info {
  info_text : string;
  info_vendor_s390 : bool;          (* strstr(line, "IBM/S390") != NULL *)
  info_processors_header : bool;    (* strncmp(line, "# processors:", 12) == 0 *)
  info_processor : option Z;        (* sscanf(line, "processor       : %d") == 1 *)
  info_processor_s390 : option Z;   (* sscanf(line, "processor %d:") == 1 *)
  info_after_colon : option string  (* strchr(line, ':') + 1 *)
}.

(** [struct file_info], the fields [proc_cpuinfo_read] uses; [fi_buf] is
    the text the buffer holds, read as a C string. *)
Record file_info : Type := mk_file_info {
  fi_buf : string;
  fi_buflen : Z;
  fi_size : Z;
  fi_cached : bool
}.

(** The variables of the loop of lines 928-1000: [cache] is the part of
    the buffer that is left with what has been written, [cache_text] the text
    at the start of the buffer. *)
Record info_state : Type := mk_info_state {
  am_printing : bool;
  firstline : bool;
  is_s390x : bool;
  info_curcpu : Z;
  cache : out_buf;
  cache_text : string
}.

Inductive info_ctl : Type :=
  | InfoContinue (st : info_state)
  | InfoBreak (st : info_state)
  | InfoReturn0.

Definition tab : string := String "009"%char EmptyString.

(** ["processor\t: %d\n"]. *)
Definition processor_line (curcpu : Z) : string :=
  "processor" +:+ tab +:+ ": " +:+ pretty curcpu +:+ nl.

(** ["processor %d:%s"]. *)
Definition processor_line_s390 (curcpu : Z) (p : string) : string :=
  "processor " +:+ pretty curcpu +:+ ":" +:+ p.

(** [use_view && max_cpus > 0 && (curcpu+1) == max_cpus]. *)
Definition limit_reached (use_view : bool) (max_cpus curcpu : Z) : bool :=
  use_view && (0 <? max_cpus) && (curcpu + 1 =? max_cpus).

(** One [snprintf] into the cache with its truncation test. *)
Definition cache_write (st : info_state) (am : bool) (curcpu : Z) (s : string)
  : info_ctl :=
  match emit (cache st) s with
  | None => InfoReturn0
  | Some b =>
      InfoContinue (mk_info_state am false (is_s390x st) curcpu b (written b))
  end.

(** One iteration of the loop of lines 928-1000. *)
Definition cpuinfo_step (use_view : bool) (max_cpus : Z) (cs : cpuset)
    (l : info_line) (st : info_state) : info_ctl :=
  if firstline st && info_vendor_s390 l then
    InfoContinue
      (mk_info_state true false true (info_curcpu st) (cache st) (cache_text st))
  else
    let st := mk_info_state (am_printing st) false (is_s390x st)
                (info_curcpu st) (cache st) (cache_text st) in
    if info_processors_header l then InfoContinue st
    else
      match info_processor l with
      | Some cpu =>
          if limit_reached use_view max_cpus (info_curcpu st) then InfoBreak st
          else if cpu_in_cpuset cpu cs then
            cache_write st true (info_curcpu st + 1)
              (processor_line (info_curcpu st + 1))
          else
            InfoContinue
              (mk_info_state false false (is_s390x st) (info_curcpu st)
                 (cache st) (cache_text st))
      | None =>
          match (if is_s390x st then info_processor_s390 l else None) with
          | Some cpu =>
              if limit_reached use_view max_cpus (info_curcpu st)
              then InfoBreak st
              else if negb (cpu_in_cpuset cpu cs) then InfoContinue st
              else
                match info_after_colon l with
                | None => InfoReturn0
                | Some p =>
                    cache_write st (am_printing st) (info_curcpu st + 1)
                      (processor_line_s390 (info_curcpu st + 1) p)
                end
          | None =>
              if am_printing st
              then cache_write st (am_printing st) (info_curcpu st)
                     (info_text l)
              else InfoContinue st
          end
      end.

(** The loop of lines 928-1000; [None] is one of its [return 0]. *)
Fixpoint cpuinfo_loop (use_view : bool) (max_cpus : Z) (cs : cpuset)
    (f : list info_line) (st : info_state) : option info_state :=
  match f with
  | [] => Some st
  | l :: f' =>
      match cpuinfo_step use_view max_cpus cs l st with
      | InfoContinue st' => cpuinfo_loop use_view max_cpus cs f' st'
      | InfoBreak st' => Some st'
      | InfoReturn0 => None
      end
  end.

(** Lines 1002-1033: on s390x the text is rebuilt in a new buffer behind
    two header lines. *)
Definition cpuinfo_s390_cache (buflen curcpu : Z) (origcache : string)
  : option out_buf :=
  b ← emit (mk_buf buflen 0 EmptyString) ("vendor_id       : IBM/S390" +:+ nl);
  b ← emit b ("# processors    : " +:+ pretty (curcpu + 1) +:+ nl);
  emit b origcache.

Definition EINVAL : Z := 22.

(** How a call of [proc_cpuinfo_read] ends: it returns a value, with the
    text copied to the caller and the file's state; it hands the read over to
    [read_file_fuse]; or it returns 0 after it has written over the buffer of
    the file (a write that did not fit, a processor line of an s390x without
    colon, the allocation of the s390x path), in which case the model does not
    say what the buffer holds. *)
Inductive cpuinfo_result : Type :=
  | InfoRead (ret : Z) (out : string) (d : file_info)
  | InfoFallback
  | InfoCacheLost.

(** [proc_cpuinfo_read].  [cg_found] tells whether the cpuset cgroup of the
    caller is known, [use_view] is [can_use_cpuview], [host] the lines of
    /proc/cpuinfo if it can be opened, and [alloc_ok] whether the buffer of the
    s390x path can be allocated.  Offsets are not negative. *)
Definition proc_cpuinfo_read (e : host_env) (cg_found use_view : bool)
    (host : option (list info_line)) (alloc_ok : bool)
    (d : file_info) (size offset : Z) : cpuinfo_result :=
  if negb (offset =? 0) then
    if fi_size d <? offset then InfoRead (- EINVAL) EmptyString d
    else if negb (fi_cached d) then InfoRead 0 EmptyString d
    else
      let left := fi_size d - offset in
      let total_len := if size <? left then size else left in
      InfoRead total_len
        (substring (Z.to_nat offset) (Z.to_nat total_len) (fi_buf d)) d
  else if negb cg_found then InfoFallback
  else
    match get_cpuset e with
    | None => InfoRead 0 EmptyString d
    | Some cs =>
        let max_cpus := if use_view then max_cpu_count e else 0 in
        match host with
        | None => InfoRead 0 EmptyString d
        | Some f =>
            match cpuinfo_loop use_view max_cpus cs f
                    (mk_info_state false true false (-1)
                       (mk_buf (fi_buflen d) 0 EmptyString) (fi_buf d)) with
            | None => InfoCacheLost
            | Some st =>
                let rebuilt :=
                  if is_s390x st then
                    if alloc_ok then
                      b ← cpuinfo_s390_cache (fi_buflen d) (info_curcpu st)
                             (cache_text st);
                      Some (total_len b, written b)
                    else None
                  else Some (total_len (cache st), cache_text st) in
                match rebuilt with
                | None => InfoCacheLost
                | Some (total_len, text) =>
                    let d' := mk_file_info text (fi_buflen d) total_len true in
                    let total_len :=
                      if size <? total_len then size else total_len in
                    InfoRead total_len
                      (substring 0 (Z.to_nat total_len) text) d'
                end
            end
        end
    end.

(** *** The text, block by block *)

(** The host's lines without the [# processors] headers, split at the
    processor lines: the lines before the first one, then for each processor
    its number and the lines that follow it. *)
Fixpoint cpuinfo_split (f : list info_line)
  : list info_line * list (Z * list info_line) :=
  match f with
  | [] => ([], [])
  | l :: f' =>
      let '(pre, blocks) := cpuinfo_split f' in
      if info_processors_header l then (pre, blocks)
      else
        match info_processor l with
        | Some cpu => ([], (cpu, pre) :: blocks)
        | None => (l :: pre, blocks)
        end
  end.

(** The texts of some lines, one after the other. *)
Fixpoint info_texts (f : list info_line) : string :=
  match f with
  | [] => EmptyString
  | l :: f' => info_text l +:+ info_texts f'
  end.

(** Blocks printed with the numbers [k], [k + 1], ... *)
Fixpoint numbered_blocks (k : Z) (blocks : list (Z * list info_line))
  : string :=
  match blocks with
  | [] => EmptyString
  | (_, body) :: rest =>
      processor_line k +:+ info_texts body +:+ numbered_blocks (k + 1) rest
  end.

(** The blocks a container sees: those of the CPUs of its cpuset, the
    first [max_cpus] of them when the CPU view limits their number. *)
Definition visible_blocks (use_view : bool) (max_cpus : Z) (cs : cpuset)
    (blocks : list (Z * list info_line)) : list (Z * list info_line) :=
  let mine := filter (λ b, cpu_in_cpuset b.1 cs = true) blocks in
  if use_view && (0 <? max_cpus) then take (Z.to_nat max_cpus) mine else mine.

(** The text of /proc/cpuinfo for a container, on a host that is not an
    s390x. *)
Definition cpuinfo_text (use_view : bool) (max_cpus : Z) (cs : cpuset)
    (f : list info_line) : string :=
  numbered_blocks 0 (visible_blocks use_view max_cpus cs (cpuinfo_split f).2).

(** What the loop writes from line to line on a host that is not an s390x,
    for the current [am_printing] and [curcpu]. *)
Fixpoint cpuinfo_loop_text (use_view : bool) (max_cpus : Z) (cs : cpuset)
    (f : list info_line) (am : bool) (curcpu : Z) : string :=
  match f with
  | [] => EmptyString
  | l :: f' =>
      if info_processors_header l
      then cpuinfo_loop_text use_view max_cpus cs f' am curcpu
      else
        match info_processor l with
        | Some cpu =>
            if limit_reached use_view max_cpus curcpu then EmptyString
            else if cpu_in_cpuset cpu cs
            then processor_line (curcpu + 1)
                 +:+ cpuinfo_loop_text use_view max_cpus cs f' true (curcpu + 1)
            else cpuinfo_loop_text use_view max_cpus cs f' false curcpu
        | None =>
            if am
            then info_text l
                 +:+ cpuinfo_loop_text use_view max_cpus cs f' am curcpu
            else cpuinfo_loop_text use_view max_cpus cs f' am curcpu
        end
  end.

(** The first line of a host that is not an s390x. *)
Definition not_s390 (f : list info_line) : Prop :=
  match f with
  | l :: _ => info_vendor_s390 l = false
  | [] => True
  end.

(** *** s390x *)

(** What the loop writes on an s390x after the first line, where no line
    is a processor line of the other kind and every processor line has its
    colon. *)
Fixpoint s390_loop_text (use_view : bool) (max_cpus : Z) (cs : cpuset)
    (f : list info_line) (curcpu : Z) : string :=
  match f with
  | [] => EmptyString
  | l :: f' =>
      if info_processors_header l
      then s390_loop_text use_view max_cpus cs f' curcpu
      else
        match info_processor_s390 l with
        | Some cpu =>
            if limit_reached use_view max_cpus curcpu then EmptyString
            else if negb (cpu_in_cpuset cpu cs)
            then s390_loop_text use_view max_cpus cs f' curcpu
            else
              match info_after_colon l with
              | None => EmptyString
              | Some p =>
                  processor_line_s390 (curcpu + 1) p
                  +:+ s390_loop_text use_view max_cpus cs f' (curcpu + 1)
              end
        | None =>
            info_text l +:+ s390_loop_text use_view max_cpus cs f' curcpu
        end
  end.

(** The processors an s390x lists. *)
Definition s390_processors (f : list info_line) : list Z :=
  omap (λ l, if info_processors_header l then None else info_processor_s390 l)
       f.

(** The processors a container sees among those the host lists. *)
Definition visible_cpus (use_view : bool) (max_cpus : Z) (cs : cpuset)
    (cpus : list Z) : list Z :=
  let mine := filter (λ cpu, cpu_in_cpuset cpu cs = true) cpus in
  if use_view && (0 <? max_cpus) then take (Z.to_nat max_cpus) mine else mine.

(** The lines of an s390x that the text function covers. *)
Definition s390_plain (l : info_line) : Prop :=
  info_processor l = None ∧
  (info_processor_s390 l ≠ None → info_after_colon l ≠ None).

(** The text of /proc/cpuinfo for a container on an s390x: the vendor
    line, the number of processors shown, and what the loop has written. *)
Definition s390_text (use_view : bool) (max_cpus : Z) (cs : cpuset)
    (f : list info_line) : string :=
  ("vendor_id       : IBM/S390" +:+ nl)
  +:+ ("# processors    : "
       +:+ pretty (Z.of_nat (length (visible_cpus use_view max_cpus cs
                                       (s390_processors f))))
       +:+ nl)
  +:+ s390_loop_text use_view max_cpus cs f (-1).

(** A host of three processors, with one attribute line for each, and a
    container whose cpuset has the processors 0 and 2. *)
Definition info_proc (n : Z) : info_line :=
  mk_info ("processor" +:+ tab +:+ ": " +:+ pretty n +:+ nl) false false
          (Some n) None (Some (" " +:+ pretty n +:+ nl)).

Definition info_attr (s : string) : info_line :=
  mk_info (s +:+ nl) false false None None None.

Definition host_cpuinfo : list info_line :=
  [info_proc 0; info_attr "model name : A";
   info_proc 1; info_attr "model name : B";
   info_proc 2; info_attr "model name : C"].

Definition env_cpus_0_2 : host_env :=
  mk_env None None (Some [0; 2]) 3 3 0 (λ _, true) (λ _, 0) true true true.

Definition fresh_file : file_info := mk_file_info EmptyString 4096 4096 false.

(** An s390x with three processors. *)
Definition s390_vendor : info_line :=
  mk_info ("vendor_id       : IBM/S390" +:+ nl) true false None None
          (Some (" IBM/S390" +:+ nl)).

Definition s390_header : info_line :=
  mk_info ("# processors    : 3" +:+ nl) false true None None
          (Some (" 3" +:+ nl)).

Definition s390_proc (n : Z) : info_line :=
  mk_info ("processor " +:+ pretty n +:+ ": version = FF" +:+ nl) false false
          None (Some n) (Some (" version = FF" +:+ nl)).

Definition s390_cpuinfo : list info_line :=
  [s390_vendor; s390_header; s390_proc 0; s390_proc 1; s390_proc 2].

(** * Properties *)

Ltac Zify.zify_post_hook ::= Z.div_mod_to_equations.

Ltac unfold_u64 :=
  unfold counters_ok, total_of, is_u64, delta_ok, uadd, usub, umul, u64,
    ULONG_MOD in *;
  change (2 ^ 64) with 18446744073709551616 in *.

Ltac norm_u64 := unfold_u64; cbn [user system idle online] in *.

Lemma uadd_small a b : 0 <= a + b < ULONG_MOD → uadd a b = a + b.
Proof. unfold_u64. intros. apply Z.mod_small. lia. Qed.

Lemma usub_small a b : 0 <= a - b < ULONG_MOD → usub a b = a - b.
Proof. unfold_u64. intros. apply Z.mod_small. lia. Qed.

Lemma u64_range z : is_u64 (u64 z).
Proof. unfold_u64. lia. Qed.

Lemma uadd_range a b : is_u64 (uadd a b).
Proof. apply u64_range. Qed.

Lemma usub_range a b : is_u64 (usub a b).
Proof. apply u64_range. Qed.

Lemma sum_of_insert field (l : list cpuacct_usage) (i : nat) d :
  (i < length l)%nat →
  sum_of field (<[i := d]> l) = sum_of field l + (field d - field (l !!! i)).
Proof.
  revert i. induction l as [|x l IH]; intros i Hi.
  - cbn in Hi. lia.
  - destruct i as [|i].
    + cbn. lia.
    + change (<[S i := d]> (x :: l)) with (x :: <[i := d]> l).
      change ((x :: l) !!! S i) with (l !!! i).
      unfold sum_of in *. cbn [foldr]. rewrite IH by (cbn in Hi; lia). lia.
Qed.

Lemma to_int_small z : - 2 ^ 31 <= z <= INT_MAX → to_int z = z.
Proof. unfold to_int, INT_MAX. intros H. lia. Qed.

Lemma ceil_div_quot q p :
  0 < q → 0 < p →
  ceil_div q p = Z.quot q p + (if 0 <? Z.rem q p then 1 else 0).
Proof.
  intros Hq Hp. unfold ceil_div.
  rewrite Z.quot_div_nonneg, Z.rem_mod_nonneg by lia.
  destruct (0 <? q mod p) eqn:E.
  - apply Z.ltb_lt in E. nia.
  - apply Z.ltb_ge in E. nia.
Qed.

(** Within the range of [int], [max_cpu_count] is the capacity the
    specification describes: for a cgroup whose quota and period are both
    readable it returns ceil(quota/period) clamped by the host CPU count and by
    a positive smaller cpuset count when quota and period are positive and the
    ceiling fits the [int] that receives it; with a quota or a period that is
    not positive it returns the cpuset count when positive and 0 otherwise. *)
Lemma max_cpu_count_in_range (e : host_env) (q p : Z) :
  cfs_quota e = Some q →
  cfs_period e = Some p →
  (0 < q → 0 < p → ceil_div q p <= INT_MAX) →
  max_cpu_count e = spec_max_cpu_count q p (get_nprocs e) (nr_cpus_in_cpuset e).
Proof.
  intros Hq Hp Hfit.
  unfold max_cpu_count, spec_max_cpu_count, nr_cpus_in_cpuset.
  rewrite Hq, Hp.
  destruct (Z.leb_spec q 0) as [Hq0|Hq0]; simpl.
  { replace (0 <? q) with false by (symmetry; apply Z.ltb_ge; lia). reflexivity. }
  destruct (Z.leb_spec p 0) as [Hp0|Hp0]; simpl.
  { replace (0 <? p) with false by (symmetry; apply Z.ltb_ge; lia).
    rewrite andb_false_r. reflexivity. }
  replace (0 <? q) with true by (symmetry; apply Z.ltb_lt; lia).
  replace (0 <? p) with true by (symmetry; apply Z.ltb_lt; lia).
  simpl.
  specialize (Hfit Hq0 Hp0).
  pose proof (ceil_div_quot q p Hq0 Hp0) as Hc.
  assert (Hquot : 0 <= Z.quot q p) by (apply Z.quot_pos; lia).
  assert (Hrv : (if 0 <? Z.rem q p then to_int (to_int (Z.quot q p) + 1)
                 else to_int (Z.quot q p)) = ceil_div q p).
  { rewrite Hc. unfold INT_MAX in *.
    destruct (0 <? Z.rem q p) eqn:E.
    - rewrite (to_int_small (Z.quot q p)) by (unfold INT_MAX; lia).
      apply to_int_small. unfold INT_MAX. lia.
    - rewrite Z.add_0_r. apply to_int_small. unfold INT_MAX. lia. }
  rewrite Hrv.
  assert (Hmin : (if get_nprocs e <? ceil_div q p then get_nprocs e
                  else ceil_div q p) = Z.min (ceil_div q p) (get_nprocs e)).
  { destruct (Z.ltb_spec (get_nprocs e) (ceil_div q p)); lia. }
  rewrite Hmin. reflexivity.
Qed.

Lemma max_cpu_count_in_range_witness :
  max_cpu_count env_quota_2 = 2.
Proof.
  rewrite (max_cpu_count_in_range env_quota_2 150000 100000).
  - reflexivity.
  - reflexivity.
  - reflexivity.
  - intros _ _. vm_compute. discriminate.
Defined.

(** C4 at a quota of 2^32 + 1 periods on a host of four CPUs, all in the
    cpuset: the quotient is narrowed to the [int] 1 and [max_cpu_count] returns
    1, where ceil(quota/period) clamped by the CPU counts is 4, the value
    [exact_cpu_count] returns for the same cgroup. *)
Lemma max_cpu_count_narrows_quotient :
  max_cpu_count env_quota_huge = 1 ∧
  spec_max_cpu_count 4294967297000 1000 (get_nprocs env_quota_huge)
    (nr_cpus_in_cpuset env_quota_huge) = 4 ∧
  PrimFloat.eqb (exact_cpu_count env_quota_huge) 4%float = true.
Proof. repeat split; vm_compute; reflexivity. Qed.

(** ** Expansion and reset of a node *)

Lemma expand_array_length old m arr :
  length (expand_array old m arr) = Z.to_nat m.
Proof. unfold expand_array. by rewrite length_map, length_seq. Qed.

Lemma expand_array_lookup old m arr (i : nat) :
  (i < Z.to_nat m)%nat →
  expand_array old m arr !!! i =
    if Z.of_nat i <? old
    then mk_usage (user (arr !!! i)) (system (arr !!! i)) (idle (arr !!! i)) false
    else zero_usage.
Proof.
  intros Hi. apply list_lookup_total_correct.
  unfold expand_array. rewrite list_lookup_fmap, lookup_seq_lt by done.
  reflexivity.
Qed.

(** What the search returns, by what the chain holds before the prune. *)
Lemma find_proc_stat_node_lookup e reg name :
  (find_proc_stat_node e reg name).1 =
    match lookup_node e reg name with
    | None => NotFound
    | Some node =>
        match lookup_node e (prune_proc_stat_history e reg) name with
        | Some _ => Found node
        | None => Freed
        end
    end.
Proof.
  unfold find_proc_stat_node.
  assert (Hl : lookup_node e reg name
               = head ← reg !! hash_of e name; chain_find name (next head))
    by done.
  rewrite Hl. destruct (reg !! hash_of e name) as [head|]; [|done].
  cbn [mbind option_bind]. by destruct (next head).
Qed.

Lemma find_or_create_cpu_count e reg u n name node0 node1 reg' :
  lookup_node e reg name = Some node0 →
  find_or_create_proc_stat_node e reg u n name = (Locked node1, reg') →
  cpu_count node0 <= cpu_count node1 ∧ n <= cpu_count node1.
Proof.
  unfold find_or_create_proc_stat_node. intros Hl.
  pose proof (find_proc_stat_node_lookup e reg name) as Hf.
  destruct (find_proc_stat_node e reg name) as [found reg1].
  cbn in Hf. rewrite Hf, Hl.
  destruct (lookup_node e (prune_proc_stat_history e reg) name);
    [|discriminate].
  unfold lock_and_expand.
  destruct (lock node0); [discriminate|].
  cbn [with_lock cpu_count].
  destruct (Z.ltb_spec (cpu_count node0) n) as [Hlt|Hge].
  - unfold expand_proc_stat_node. destruct (alloc_expand_ok e); [|discriminate].
    intros [= <- _]. cbn. lia.
  - intros [= <- _]. cbn. lia.
Qed.

(** C7, as the code has it: when [expand_proc_stat_node] grows a node from
    [n = cpu_count node] to [m > n] CPUs, entries [0..n-1] of the usage and view
    arrays keep their user, system and idle values, entries [n..m-1] have them
    equal to zero, and [cpu_count] is [m]; [find_or_create_proc_stat_node]
    never lowers the [cpu_count] of the node it finds; a reset sets
    [cpu_count] to the count it is handed, whatever the node had. *)
Theorem expand_keeps_counters (e : host_env) (node node' : cg_proc_stat) (m : Z) :
  0 <= cpu_count node < m →
  expand_proc_stat_node e node m = Some node' →
  cpu_count node' = m ∧
  Z.of_nat (length (usage node')) = m ∧
  Z.of_nat (length (view node')) = m ∧
  (∀ i : nat, Z.of_nat i < cpu_count node →
     user (usage node' !!! i) = user (usage node !!! i) ∧
     system (usage node' !!! i) = system (usage node !!! i) ∧
     idle (usage node' !!! i) = idle (usage node !!! i) ∧
     user (view node' !!! i) = user (view node !!! i) ∧
     system (view node' !!! i) = system (view node !!! i) ∧
     idle (view node' !!! i) = idle (view node !!! i)) ∧
  (∀ i : nat, cpu_count node <= Z.of_nat i < m →
     user (usage node' !!! i) = 0 ∧ system (usage node' !!! i) = 0 ∧
     idle (usage node' !!! i) = 0 ∧
     user (view node' !!! i) = 0 ∧ system (view node' !!! i) = 0 ∧
     idle (view node' !!! i) = 0) ∧
  (∀ reg u n name node0 node1 reg',
     lookup_node e reg name = Some node0 →
     find_or_create_proc_stat_node e reg u n name = (Locked node1, reg') →
     cpu_count node0 <= cpu_count node1) ∧
  (∀ sample k, cpu_count (reset_proc_stat_node node' sample k) = k).
Proof.
  intros Hn. unfold expand_proc_stat_node.
  destruct (alloc_expand_ok e); [|discriminate].
  intros [= <-]. cbn [cpu_count usage view].
  rewrite !expand_array_length.
  repeat split; try lia.
  1-6: rewrite expand_array_lookup by lia;
       replace (Z.of_nat i <? cpu_count node) with true
         by (symmetry; apply Z.ltb_lt; lia); reflexivity.
  1-6: rewrite expand_array_lookup by lia;
       replace (Z.of_nat i <? cpu_count node) with false
         by (symmetry; apply Z.ltb_ge; lia); reflexivity.
  intros reg u n name node0 node1 reg' H1 H2.
  by destruct (find_or_create_cpu_count _ _ _ _ _ _ _ _ H1 H2).
Qed.

Lemma expand_keeps_counters_witness :
  ∃ node',
    expand_proc_stat_node (env_of None None [0; 1; 2; 3] 4) node_2cpu 4 = Some node' ∧
    cpu_count node' = 4 ∧
    idle (view node' !!! 1%nat) = 30 ∧
    user (usage node' !!! 3%nat) = 0.
Proof.
  exists (mk_node cg_a (expand_array 2 4 (usage node_2cpu))
            (expand_array 2 4 (view node_2cpu)) 4 true).
  split; [reflexivity|].
  destruct (expand_keeps_counters (env_of None None [0; 1; 2; 3] 4) node_2cpu
              (mk_node cg_a (expand_array 2 4 (usage node_2cpu))
                 (expand_array 2 4 (view node_2cpu)) 4 true) 4)
    as (Hc & _ & _ & Hkeep & Hzero & _); [cbn; lia | reflexivity |].
  split; [exact Hc|]. split.
  - destruct (Hkeep 1%nat) as (_ & _ & _ & _ & _ & ->); [cbn; lia | reflexivity].
  - destruct (Hzero 3%nat) as (-> & _); [cbn; lia | reflexivity].
Defined.

(** C7, as stated, fails: the first read leaves a node of three CPUs; the
    second resets it and leaves it with a [cpu_count] of 1; the third finds it
    too small for the two CPUs of the host and reallocates its arrays, which
    have two entries where they had three. *)
Lemma reset_lowers_cpu_count_counterexample :
  node_size (history shrink_read_1) = Some (3, 3%nat, 3%nat) ∧
  node_size (history shrink_read_2) = Some (1, 3%nat, 3%nat) ∧
  node_size (history shrink_read_3) = Some (2, 2%nat, 2%nat).
Proof. repeat split; vm_compute; reflexivity. Qed.

(** ** Surplus redistribution *)

Lemma delta_ok_counters_ok d : delta_ok d → counters_ok d.
Proof. unfold_u64. lia. Qed.

Lemma to_add_of_min surplus d threshold :
  is_u64 surplus → is_u64 threshold → counters_ok d →
  user d + system d < threshold →
  to_add_of surplus d threshold =
    Z.min surplus (Z.min (threshold - user d - system d) (idle d)).
Proof.
  intros Hs Ht Hd Hlt. unfold to_add_of.
  assert (E : usub (usub threshold (user d)) (system d)
              = threshold - user d - system d).
  { unfold_u64. rewrite Zminus_mod_idemp_l. apply Z.mod_small. lia. }
  rewrite E. unfold_u64.
  destruct (Z.ltb_spec (idle d) (threshold - user d - system d));
    match goal with |- context [?a <? ?b] => destruct (Z.ltb_spec a b) end; lia.
Qed.

Lemma add_cpu_usage_spec surplus d cnt threshold :
  is_u64 surplus → is_u64 threshold → counters_ok d →
  user d + system d < threshold →
  let to_add := Z.min surplus (Z.min (threshold - user d - system d) (idle d)) in
  add_cpu_usage surplus d cnt threshold =
    (surplus - to_add,
     match cnt with
     | CntUser => mk_usage (user d + to_add) (system d) (idle d - to_add) (online d)
     | CntSystem => mk_usage (user d) (system d + to_add) (idle d - to_add) (online d)
     end).
Proof.
  intros Hs Ht Hd Hlt to_add. unfold add_cpu_usage.
  rewrite to_add_of_min by assumption. fold to_add.
  assert (Hta : 0 <= to_add ∧ to_add <= surplus ∧ to_add <= idle d
                ∧ to_add <= threshold - user d - system d)
    by (unfold_u64; subst to_add; lia).
  rewrite (usub_small surplus) by (unfold_u64; lia).
  destruct cnt; cbn [set_user set_system set_idle user system idle online].
  - rewrite uadd_small, usub_small by (unfold_u64; lia). reflexivity.
  - rewrite uadd_small, usub_small by (unfold_u64; lia). reflexivity.
Qed.

(** What the body of the redistribution loop does to one delta. *)
Lemma redistribute_cpu_spec threshold d us ss d' us' ss' :
  is_u64 threshold → is_u64 us → is_u64 ss → delta_ok d →
  redistribute_cpu threshold d us ss = (d', us', ss') →
  delta_ok d' ∧ 0 <= us' <= us ∧ 0 <= ss' <= ss ∧
  user d' = user d + (us - us') ∧
  system d' = system d + (ss - ss') ∧
  idle d' = idle d - (us - us') - (ss - ss') ∧
  online d' = online d.
Proof.
  intros Ht Hus Hss Hd. unfold redistribute_cpu.
  rewrite (uadd_small (user d)) by (unfold_u64; lia).
  destruct (Z.leb_spec threshold (user d + system d)) as [Hge|Hlt].
  { intros [= <- <- <-]. unfold_u64. repeat split; lia. }
  rewrite (add_cpu_usage_spec us d CntUser threshold)
    by auto using delta_ok_counters_ok.
  set (t1 := Z.min us (Z.min (threshold - user d - system d) (idle d))).
  assert (Ht1 : 0 <= t1 ∧ t1 <= us ∧ t1 <= idle d
                ∧ t1 <= threshold - user d - system d)
    by (unfold_u64; subst t1; lia).
  cbn [user system idle].
  rewrite (uadd_small (user d + t1)) by (unfold_u64; lia).
  destruct (Z.leb_spec threshold (user d + t1 + system d)) as [Hge1|Hlt1].
  { intros [= <- <- <-]. norm_u64. repeat split; lia. }
  set (d1 := mk_usage (user d + t1) (system d) (idle d - t1) (online d)).
  assert (Hd1 : delta_ok d1)
    by (subst d1; norm_u64; lia).
  rewrite (add_cpu_usage_spec ss d1 CntSystem threshold)
    by (auto using delta_ok_counters_ok; subst d1;
        cbn [user system idle online]; lia).
  set (t2 := Z.min ss (Z.min (threshold - user d1 - system d1) (idle d1))).
  assert (Ht2 : 0 <= t2 ∧ t2 <= ss ∧ t2 <= idle d1
                ∧ t2 <= threshold - user d1 - system d1)
    by (subst t2 d1; norm_u64; lia).
  clearbody t2. intros [= <- <- <-]. subst d1. norm_u64. repeat split; lia.
Qed.

Lemma redistribute_spec n : ∀ curcpu i max_cpus threshold usage_arr diff us ss
    diff' us' ss',
  is_u64 threshold → is_u64 us → is_u64 ss → Forall delta_ok diff →
  redistribute n curcpu i max_cpus threshold usage_arr diff us ss
    = (diff', us', ss') →
  Forall delta_ok diff' ∧ length diff' = length diff ∧
  0 <= us' <= us ∧ 0 <= ss' <= ss ∧
  sum_of user diff' = sum_of user diff + (us - us') ∧
  sum_of system diff' = sum_of system diff + (ss - ss') ∧
  sum_of idle diff' = sum_of idle diff - (us - us') - (ss - ss').
Proof.
  induction n as [|n IH]; intros curcpu i max_cpus threshold usage_arr diff us ss
    diff' us' ss' Ht Hus Hss Hd; cbn [redistribute].
  { intros [= <- <- <-]. unfold_u64. repeat split; try done; lia. }
  destruct (negb (online (usage_arr !!! curcpu))); [by apply IH|].
  destruct (i + 1 =? max_cpus).
  { intros [= <- <- <-]. unfold_u64. repeat split; try done; lia. }
  destruct (redistribute_cpu threshold (diff !!! curcpu) us ss)
    as [[d us1] ss1] eqn:E.
  assert (Hdc : delta_ok (diff !!! curcpu)).
  { destruct (diff !! curcpu) as [x|] eqn:El.
    - rewrite (list_lookup_total_correct _ _ _ El).
      by eapply Forall_lookup_1.
    - rewrite list_lookup_total_alt, El. unfold_u64. cbn. lia. }
  destruct (redistribute_cpu_spec _ _ _ _ _ _ _ Ht Hus Hss Hdc E)
    as (Hd1 & Hus1 & Hss1 & Hu & Hs & Hi & _).
  intros Hrec. apply IH in Hrec; try assumption.
  2,3: unfold_u64; lia.
  2: { apply Forall_insert; assumption. }
  destruct Hrec as (HF & Hlen & Hus' & Hss' & Su & Ss & Si).
  rewrite length_insert in Hlen.
  destruct (decide (curcpu < length diff)%nat) as [Hin|Hout].
  - rewrite !sum_of_insert in Su, Ss, Si by assumption.
    repeat split; try assumption; lia.
  - rewrite list_insert_ge in Su, Ss, Si by lia.
    assert (Hz : diff !!! curcpu = zero_usage).
    { rewrite list_lookup_total_alt, lookup_ge_None_2 by lia. reflexivity. }
    rewrite Hz in Hu, Hs, Hi. cbn in Hu, Hs, Hi.
    destruct Hd1 as (? & ? & ? & ?).
    repeat split; try assumption; lia.
Qed.

(** Whatever the deltas, a pool only goes down. *)
Lemma to_add_of_bounds surplus d threshold :
  is_u64 surplus → is_u64 (idle d) →
  0 <= to_add_of surplus d threshold <= surplus ∧
  to_add_of surplus d threshold <= idle d.
Proof.
  intros Hs Hi. unfold to_add_of.
  pose proof (usub_range (usub threshold (user d)) (system d)) as Hf.
  set (fs := usub (usub threshold (user d)) (system d)) in *.
  unfold_u64.
  destruct (Z.ltb_spec (idle d) fs);
    match goal with |- context [?a <? ?b] => destruct (Z.ltb_spec a b) end; lia.
Qed.

Lemma add_cpu_usage_pools surplus d cnt threshold s' d' :
  is_u64 surplus → counters_ok d →
  add_cpu_usage surplus d cnt threshold = (s', d') →
  0 <= s' <= surplus ∧ counters_ok d'.
Proof.
  intros Hs (Hu & Hsy & Hi). unfold add_cpu_usage.
  destruct (to_add_of_bounds surplus d threshold Hs Hi) as (Ht & Hti).
  intros [= <- <-]. split.
  - rewrite usub_small; unfold_u64; lia.
  - unfold counters_ok.
    destruct cnt; cbn [set_user set_system set_idle user system idle online];
      (split; [|split]); try assumption; apply u64_range.
Qed.

Lemma redistribute_cpu_pools threshold d us ss d' us' ss' :
  is_u64 us → is_u64 ss → counters_ok d →
  redistribute_cpu threshold d us ss = (d', us', ss') →
  counters_ok d' ∧ 0 <= us' <= us ∧ 0 <= ss' <= ss.
Proof.
  intros Hus Hss Hd. unfold redistribute_cpu.
  destruct (_ <=? _).
  { intros [= <- <- <-]. unfold_u64. lia. }
  destruct (add_cpu_usage us d CntUser threshold) as [us1 d1] eqn:E1.
  destruct (add_cpu_usage_pools _ _ _ _ _ _ Hus Hd E1) as [Hus1 Hd1].
  destruct (_ <=? _).
  { intros [= <- <- <-]. unfold_u64. lia. }
  destruct (add_cpu_usage ss d1 CntSystem threshold) as [ss1 d2] eqn:E2.
  destruct (add_cpu_usage_pools _ _ _ _ _ _ Hss Hd1 E2) as [Hss1 Hd2].
  intros [= <- <- <-]. unfold_u64. lia.
Qed.

Lemma redistribute_pools n :
  ∀ curcpu i max_cpus threshold usage_arr diff us ss diff' us' ss',
  is_u64 us → is_u64 ss → (∀ j, counters_ok (diff !!! j)) →
  redistribute n curcpu i max_cpus threshold usage_arr diff us ss
    = (diff', us', ss') →
  0 <= us' <= us ∧ 0 <= ss' <= ss.
Proof.
  induction n as [|n IH];
    intros curcpu i max_cpus threshold usage_arr diff us ss diff' us' ss'
      Hus Hss Hd; cbn [redistribute].
  { intros [= <- <- <-]. unfold_u64. lia. }
  destruct (negb _); [by apply IH|].
  destruct (_ =? _).
  { intros [= <- <- <-]. unfold_u64. lia. }
  destruct (redistribute_cpu threshold (diff !!! curcpu) us ss)
    as [[d us1] ss1] eqn:E.
  destruct (redistribute_cpu_pools _ _ _ _ _ _ _ Hus Hss (Hd curcpu) E)
    as (Hd1 & Hus1 & Hss1).
  intros Hrec. apply IH in Hrec.
  - lia.
  - unfold_u64. lia.
  - unfold_u64. lia.
  - intros j. rewrite list_lookup_total_insert. by case_decide.
Qed.

(** The body of the loop is the credit of the specification. *)
Lemma redistribute_cpu_claimed threshold d us ss :
  is_u64 threshold → is_u64 us → is_u64 ss → delta_ok d →
  redistribute_cpu threshold d us ss
  = claimed_redistribute_cpu threshold d us ss.
Proof.
  intros Ht Hus Hss Hd. unfold redistribute_cpu, claimed_redistribute_cpu,
    claimed_credit.
  rewrite (uadd_small (user d)) by (unfold_u64; lia).
  destruct (Z.leb_spec threshold (user d + system d)) as [Hge|Hlt]; [done|].
  rewrite (add_cpu_usage_spec us d CntUser threshold)
    by auto using delta_ok_counters_ok.
  set (t1 := Z.min us (Z.min (threshold - user d - system d) (idle d))).
  assert (Ht1 : 0 <= t1 ∧ t1 <= us ∧ t1 <= idle d
                ∧ t1 <= threshold - user d - system d)
    by (unfold_u64; subst t1; lia).
  cbn [user system idle online].
  rewrite (uadd_small (user d + t1)) by (unfold_u64; lia).
  destruct (Z.leb_spec threshold (user d + t1 + system d)) as [Hge1|Hlt1];
    [done|].
  set (d1 := mk_usage (user d + t1) (system d) (idle d - t1) (online d)).
  assert (Hd1 : delta_ok d1) by (subst d1; norm_u64; lia).
  rewrite (add_cpu_usage_spec ss d1 CntSystem threshold)
    by (auto using delta_ok_counters_ok; subst d1;
        cbn [user system idle online]; lia).
  subst d1. cbn [user system idle online]. reflexivity.
Qed.

(** The loop is the credit of the specification made at the visible CPUs,
    one after the other. *)
Lemma redistribute_claimed threshold max_cpus usage_arr n :
  ∀ curcpu i diff us ss,
  is_u64 threshold → is_u64 us → is_u64 ss → Forall delta_ok diff →
  i + 1 <= max_cpus →
  redistribute n curcpu i max_cpus threshold usage_arr diff us ss
  = claimed_redistribute threshold
      (take (Z.to_nat (max_cpus - (i + 1)))
         (List.filter (λ c, online (usage_arr !!! c)) (seq curcpu n)))
      diff us ss.
Proof.
  induction n as [|n IH]; intros curcpu i diff us ss Ht Hus Hss Hd Hi;
    cbn [redistribute seq List.filter].
  { by rewrite take_nil. }
  destruct (online (usage_arr !!! curcpu)); cbn [negb]; [|by apply IH].
  destruct (Z.eqb_spec (i + 1) max_cpus) as [->|Hne].
  { by rewrite Z.sub_diag. }
  replace (Z.to_nat (max_cpus - (i + 1)))
    with (S (Z.to_nat (max_cpus - (i + 1 + 1)))) by lia.
  cbn [take]. unfold claimed_redistribute. cbn [fold_left fst snd].
  assert (Hdc : delta_ok (diff !!! curcpu)).
  { destruct (diff !! curcpu) as [x|] eqn:El.
    - rewrite (list_lookup_total_correct _ _ _ El).
      by eapply Forall_lookup_1.
    - rewrite list_lookup_total_alt, El. unfold_u64. cbn. lia. }
  rewrite <- (redistribute_cpu_claimed threshold _ us ss) by done.
  destruct (redistribute_cpu threshold (diff !!! curcpu) us ss)
    as [[d us1] ss1] eqn:E.
  destruct (redistribute_cpu_spec _ _ _ _ _ _ _ Ht Hus Hss Hdc E)
    as (Hd1 & Hus1 & Hss1 & _).
  cbn [fst snd]. apply IH; try done.
  - unfold_u64; lia.
  - unfold_u64; lia.
  - by apply Forall_insert.
  - lia.
Qed.

(** C6: in the redistribution loop, each visible CPU (one of the first
    [max_cpus] online CPUs) whose user plus system delta is below the
    threshold is credited min(pool, threshold - user - system, idle) from the
    user pool, and, when it is still below the threshold, the same from the
    system pool; the amount goes to the user (or system) delta and leaves the
    pool and the idle delta.  This is stated for one call of
    [add_cpu_usage], for the body of the loop, and for the whole loop, which
    is the credit of the specification made at the visible CPUs in turn; the
    last two for deltas whose user, system and idle add up to an
    [unsigned long], as those of [diff_cpu_usage] do.
    Over the loop each pool only goes down and stays non-negative, so no more
    than the initial pools is credited; and when no delta wraps around, what
    the deltas gain in user and in system is what the pools lose, and idle
    loses as much. *)
Theorem surplus_redistribution (threshold : Z) (Hthreshold : is_u64 threshold) :
  (∀ surplus d cnt,
     is_u64 surplus → counters_ok d → user d + system d < threshold →
     let to_add :=
       Z.min surplus (Z.min (threshold - user d - system d) (idle d)) in
     add_cpu_usage surplus d cnt threshold =
       (surplus - to_add,
        match cnt with
        | CntUser =>
            mk_usage (user d + to_add) (system d) (idle d - to_add) (online d)
        | CntSystem =>
            mk_usage (user d) (system d + to_add) (idle d - to_add) (online d)
        end)) ∧
  (∀ d user_surplus system_surplus,
     is_u64 user_surplus → is_u64 system_surplus → delta_ok d →
     redistribute_cpu threshold d user_surplus system_surplus
     = claimed_redistribute_cpu threshold d user_surplus system_surplus) ∧
  (∀ nprocs max_cpus usage_arr diff user_surplus system_surplus,
     0 <= max_cpus →
     is_u64 user_surplus → is_u64 system_surplus → Forall delta_ok diff →
     redistribute nprocs 0 (-1) max_cpus threshold usage_arr diff
       user_surplus system_surplus
     = claimed_redistribute threshold (credited_cpus nprocs max_cpus usage_arr)
         diff user_surplus system_surplus) ∧
  (∀ n curcpu i max_cpus usage_arr diff user_surplus system_surplus
     diff' user_surplus' system_surplus',
     is_u64 user_surplus → is_u64 system_surplus →
     (∀ j, counters_ok (diff !!! j)) →
     redistribute n curcpu i max_cpus threshold usage_arr diff
       user_surplus system_surplus = (diff', user_surplus', system_surplus') →
     0 <= user_surplus' <= user_surplus ∧
     0 <= system_surplus' <= system_surplus ∧
     (Forall delta_ok diff →
      sum_of user diff' - sum_of user diff = user_surplus - user_surplus' ∧
      sum_of system diff' - sum_of system diff
        = system_surplus - system_surplus' ∧
      sum_of idle diff - sum_of idle diff'
        = (user_surplus - user_surplus') + (system_surplus - system_surplus'))).
Proof.
  split; [|split; [|split]].
  - intros surplus d cnt Hs Hd Hlt. by apply add_cpu_usage_spec.
  - intros d us ss Hus Hss Hd. by apply redistribute_cpu_claimed.
  - intros nprocs max_cpus usage_arr diff us ss Hmax Hus Hss Hd.
    rewrite (redistribute_claimed threshold max_cpus usage_arr nprocs 0 (-1))
      by (try done; lia).
    unfold credited_cpus. do 2 f_equal. lia.
  - intros n curcpu i max_cpus usage_arr diff us ss diff' us' ss' Hus Hss Hd E.
    destruct (redistribute_pools _ _ _ _ _ _ _ _ _ _ _ _ Hus Hss Hd E)
      as [Hu Hs].
    split; [exact Hu|]. split; [exact Hs|]. intros HF.
    destruct (redistribute_spec _ _ _ _ _ _ _ _ _ _ _ _ Hthreshold Hus Hss HF E)
      as (_ & _ & ? & ? & ? & ? & ?).
    repeat split; lia.
Qed.

Lemma surplus_redistribution_witness :
  is_u64 100 ∧
  redistribute 4 0 (-1) 2 100
    [mk_usage 0 0 0 true; mk_usage 0 0 0 false; mk_usage 0 0 0 true;
     mk_usage 0 0 0 true]
    [mk_usage 60 10 40 true; mk_usage 0 0 0 false; mk_usage 30 20 25 true;
     mk_usage 5 5 90 true]
    45 20
  = ([mk_usage 90 10 10 true; mk_usage 0 0 0 false; mk_usage 45 30 0 true;
      mk_usage 5 5 90 true], 0, 10).
Proof.
  assert (H100 : is_u64 100) by (norm_u64; lia).
  split; [exact H100|].
  destruct (surplus_redistribution 100 H100) as (_ & _ & H & _).
  rewrite H.
  - vm_compute. reflexivity.
  - lia.
  - norm_u64; lia.
  - norm_u64; lia.
  - repeat constructor; norm_u64; lia.
Defined.

(** ** Parsing of the host table *)

Lemma same_counters_refl a : same_counters a a.
Proof. by repeat split. Qed.

Lemma same_counters_trans a b c :
  same_counters a b → same_counters b c → same_counters a c.
Proof. unfold same_counters. intros (-> & -> & ->) (-> & -> & ->). done. Qed.

Lemma same_counters_set_online a b : same_counters (set_online a b) a.
Proof. by repeat split. Qed.

Lemma alter_online_counters (s : list cpuacct_usage) (i k : nat) b :
  same_counters (alter (λ u, set_online u b) i s !!! k) (s !!! k).
Proof.
  rewrite list_lookup_total_alter. case_decide as H.
  - destruct H as [-> _]. apply same_counters_set_online.
  - apply same_counters_refl.
Qed.

(** Marking a range offline succeeds when the range lies in the array, and
    touches no counter. *)
Lemma mark_offline_spec n : ∀ i s,
  0 <= i → i + Z.of_nat n <= Z.of_nat (length s) →
  ∃ s', mark_offline n i s = Some s' ∧ length s' = length s ∧
        ∀ k : nat, same_counters (s' !!! k) (s !!! k).
Proof.
  induction n as [|n IH]; intros i s Hi Hlen; cbn [mark_offline].
  - exists s. repeat split; done.
  - unfold in_bounds.
    replace ((0 <=? i) && (i <? Z.of_nat (length s))) with true
      by (symmetry; apply andb_true_iff; split;
          [apply Z.leb_le | apply Z.ltb_lt]; lia).
    destruct (IH (i + 1) (alter (λ u, set_online u false) (Z.to_nat i) s))
      as (s' & E & Hl & Hc).
    + lia.
    + rewrite length_alter. lia.
    + exists s'. split; [exact E|]. split.
      * by rewrite Hl, length_alter.
      * intros k. eapply same_counters_trans; [apply Hc|].
        apply alter_online_counters.
Qed.

Lemma in_bounds_true {A} (i : Z) (l : list A) :
  0 <= i < Z.of_nat (length l) → in_bounds i l = true.
Proof.
  intros H. unfold in_bounds. apply andb_true_iff.
  split; [apply Z.leb_le | apply Z.ltb_lt]; lia.
Qed.

Lemma all_used_of_small u n s w q sq st g gn :
  0 <= u → 0 <= n → 0 <= s → 0 <= w → 0 <= q → 0 <= sq → 0 <= st →
  0 <= g → 0 <= gn →
  u + n + s + w + q + sq + st + g + gn < ULONG_MOD →
  all_used_of u n s w q sq st g gn = u + n + s + w + q + sq + st + g + gn.
Proof.
  intros. unfold all_used_of.
  rewrite !uadd_small; unfold_u64; lia.
Qed.

(** One line of the table: a cpuN line of a CPU of the cpuset, with its
    ten fields, sets the idle time of the entry [curcpu] points at. *)
Lemma parse_line_imputes_idle (cs : cpuset) (size : Z) (l : host_line)
    (st : parse_state) (physcpu u n sy i w q sq stl g gn : Z) (tl : list Z) :
  String.length (line_text l) ≠ 0%nat →
  line_tag l = CpuNum physcpu →
  line_fields l = u :: n :: sy :: i :: w :: q :: sq :: stl :: g :: gn :: tl →
  cpu_in_cpuset physcpu cs = true →
  physcpu < size →
  -1 <= ps_curcpu st →
  let k := Z.max (ps_curcpu st + 1) physcpu in
  k < Z.of_nat (length (ps_usage st)) →
  let c := ps_usage st !!! Z.to_nat k in
  let host_busy := all_used_of u n sy w q sq stl g gn in
  let cg_busy := uadd (user c) (system c) in
  ∃ st',
    parse_line cs size l st = Some (st', Continue) ∧
    ps_curcpu st' = k ∧
    (ps_curcpu st < physcpu → k = physcpu) ∧
    let c' := ps_usage st' !!! Z.to_nat k in
    online c' = true ∧ user c' = user c ∧ system c' = system c ∧
    (cg_busy <= host_busy →
       idle c' = uadd i (usub host_busy cg_busy) ∧ ps_log st' = ps_log st) ∧
    (host_busy < cg_busy →
       idle c' = i ∧
       ps_log st' = ps_log st ++ [mk_idle_error k host_busy cg_busy]) ∧
    (0 <= u → 0 <= n → 0 <= sy → 0 <= w → 0 <= q → 0 <= sq → 0 <= stl →
     0 <= g → 0 <= gn → 0 <= i → 0 <= user c → 0 <= system c →
     i + (u + n + sy + w + q + sq + stl + g + gn) < ULONG_MOD →
     user c + system c < ULONG_MOD →
     host_busy = u + n + sy + w + q + sq + stl + g + gn ∧
     cg_busy = user c + system c ∧
     (cg_busy <= host_busy → idle c' = i + (host_busy - cg_busy))).
Proof.
  intros Htext Htag Hfields Hcs Hsize Hcur k Hk c host_busy cg_busy.
  unfold parse_line.
  destruct (Nat.eqb_spec (String.length (line_text l)) 0) as [E|_]; [done|].
  rewrite Htag.
  replace (size <=? physcpu) with false by (symmetry; apply Z.leb_gt; lia).
  rewrite Hcs. cbn [negb].
  assert (Hstep : ∃ s,
    (if ps_curcpu st + 1 <? physcpu
     then s ← mark_offline (Z.to_nat (physcpu - (ps_curcpu st + 1)))
                (ps_curcpu st + 1) (ps_usage st);
          Some (s, physcpu)
     else Some (ps_usage st, ps_curcpu st + 1)) = Some (s, k) ∧
    length s = length (ps_usage st) ∧
    ∀ j : nat, same_counters (s !!! j) (ps_usage st !!! j)).
  { destruct (Z.ltb_spec (ps_curcpu st + 1) physcpu) as [Hlt|Hge].
    - destruct (mark_offline_spec (Z.to_nat (physcpu - (ps_curcpu st + 1)))
                  (ps_curcpu st + 1) (ps_usage st)) as (s & Es & Hl & Hc);
        [lia | lia |].
      exists s. rewrite Es. cbn. split; [|done].
      f_equal. f_equal. lia.
    - exists (ps_usage st). split; [|split; [done|]].
      + f_equal. f_equal. lia.
      + intros j. apply same_counters_refl. }
  destruct Hstep as (s & -> & Hl & Hc). cbn [mbind option_bind].
  rewrite in_bounds_true by (rewrite Hl; lia). cbn [negb].
  rewrite Hfields.
  set (s1 := alter (λ u0, set_online u0 true) (Z.to_nat k) s).
  assert (Hlk : (Z.to_nat k < length s)%nat) by lia.
  assert (Hs1 : s1 !!! Z.to_nat k = set_online (s !!! Z.to_nat k) true).
  { subst s1. by rewrite list_lookup_total_alter_eq. }
  destruct (Hc (Z.to_nat k)) as (Hu & Hsy & Hid). fold c in Hu, Hsy, Hid.
  unfold impute_idle. rewrite Hs1.
  cbn [set_online user system idle online].
  rewrite Hu, Hsy. fold cg_busy. fold host_busy.
  assert (Hls1 : (Z.to_nat k < length s1)%nat)
    by (subst s1; by rewrite length_alter).
  destruct (Z.leb_spec cg_busy host_busy) as [Hle|Hgt].
  - eexists. split; [reflexivity|].
    cbn [ps_usage ps_curcpu ps_log].
    rewrite list_lookup_total_insert_eq by assumption.
    cbn [set_idle user system idle online].
    rewrite app_nil_r.
    repeat split; try done; try lia.
    intros. repeat split.
    + subst host_busy. apply all_used_of_small; try assumption. lia.
    + subst cg_busy. apply uadd_small. lia.
    + intros _.
      assert (Hb : host_busy = u + n + sy + w + q + sq + stl + g + gn)
        by (subst host_busy; apply all_used_of_small; try assumption; lia).
      assert (Hcb : cg_busy = user c + system c)
        by (subst cg_busy; apply uadd_small; lia).
      rewrite usub_small by (unfold_u64; lia).
      apply uadd_small. unfold_u64. lia.
  - eexists. split; [reflexivity|].
    cbn [ps_usage ps_curcpu ps_log].
    rewrite list_lookup_total_insert_eq by assumption.
    cbn [set_idle user system idle online].
    repeat split; try done; try lia.
    + subst host_busy. apply all_used_of_small; try assumption. lia.
    + subst cg_busy. apply uadd_small. lia.
Qed.

(** *** No access outside of the sample *)

Lemma parse_line_safe cs size l st c :
  -1 <= ps_curcpu st <= c →
  Z.of_nat (length (ps_usage st)) = size →
  match line_tag l with CpuNum p => c < p | _ => True end →
  ∃ st' ctl,
    parse_line cs size l st = Some (st', ctl) ∧
    length (ps_usage st') = length (ps_usage st) ∧
    -1 <= ps_curcpu st' <= match line_tag l with CpuNum p => p | _ => c end.
Proof.
  intros Hcur Hlen Htag. unfold parse_line.
  destruct (String.length (line_text l) =? 0)%nat.
  { exists st, Continue. destruct (line_tag l); repeat split; lia. }
  destruct (line_tag l) as [| |p].
  { exists st, Break. repeat split; lia. }
  { exists st, Continue. repeat split; lia. }
  destruct (Z.leb_spec size p) as [Hskip|Hin].
  { exists st, Continue. repeat split; lia. }
  destruct (cpu_in_cpuset p cs); cbn [negb].
  - assert (Hstep : ∃ s k,
      (if ps_curcpu st + 1 <? p
       then s ← mark_offline (Z.to_nat (p - (ps_curcpu st + 1)))
                  (ps_curcpu st + 1) (ps_usage st);
            Some (s, p)
       else Some (ps_usage st, ps_curcpu st + 1)) = Some (s, k) ∧
      length s = length (ps_usage st) ∧ 0 <= k <= p).
    { destruct (Z.ltb_spec (ps_curcpu st + 1) p) as [Hlt|Hge].
      - destruct (mark_offline_spec (Z.to_nat (p - (ps_curcpu st + 1)))
                    (ps_curcpu st + 1) (ps_usage st)) as (s & -> & Hl & _);
          [lia | lia |].
        exists s, p. cbn. repeat split; [done|lia|lia].
      - exists (ps_usage st), (ps_curcpu st + 1). repeat split; lia. }
    destruct Hstep as (s & k & -> & Hl & Hk). cbn [mbind option_bind].
    rewrite in_bounds_true by (rewrite Hl; lia). cbn [negb].
    destruct (line_fields l) as [|? [|? [|? [|? [|? [|? [|? [|? [|? [|? ?]]]]]]]]]];
      try (eexists _, _; split; [reflexivity|]; cbn [ps_usage ps_curcpu];
           rewrite length_alter; split; [done|lia]).
    destruct (impute_idle _ _ _ _) as [c' errs].
    eexists _, _. split; [reflexivity|]. cbn [ps_usage ps_curcpu].
    rewrite length_insert, length_alter. split; [done|lia].
  - destruct (mark_offline_spec (Z.to_nat (p - (ps_curcpu st + 1) + 1))
                (ps_curcpu st + 1) (ps_usage st)) as (s & -> & Hl & _);
      [lia | lia |].
    cbn. eexists _, _. split; [reflexivity|]. cbn. split; [done|lia].
Qed.

Lemma parse_host_stat_safe cs size f : ∀ line st c,
  -1 <= ps_curcpu st <= c →
  Z.of_nat (length (ps_usage st)) = size →
  ascending_from c f →
  ∃ st' line' rest,
    parse_host_stat cs size f line st = Some (st', line', rest) ∧
    length (ps_usage st') = length (ps_usage st).
Proof.
  induction f as [|l f IH]; intros line st c Hcur Hlen Hasc;
    cbn [parse_host_stat].
  { by exists st, line, []. }
  assert (Htag : match line_tag l with CpuNum p => c < p | _ => True end).
  { cbn in Hasc. destruct (line_tag l); tauto. }
  destruct (parse_line_safe cs size l st c Hcur Hlen Htag)
    as (st' & ctl & -> & Hl & Hc).
  destruct ctl.
  - destruct (IH (Some l) st' (match line_tag l with CpuNum p => p | _ => c end))
      as (st'' & line' & rest & -> & Hl'').
    + exact Hc.
    + lia.
    + cbn in Hasc. destruct (line_tag l); tauto.
    + exists st'', line', rest. split; [done|]. by rewrite Hl''.
  - by exists st', (Some l), f.
Qed.

(** The stages that follow the parsing read the sample below [nprocs]
    only: two samples that agree there give the same results. *)

Lemma take_agree (s s' : list cpuacct_usage) (n k : nat) :
  take n s = take n s' → (k < n)%nat → s !!! k = s' !!! k.
Proof.
  intros E Hk.
  rewrite <- (lookup_total_take_lt s n k), <- (lookup_total_take_lt s' n k)
    by assumption.
  by rewrite E.
Qed.

Lemma reset_scan_ext n : ∀ curcpu sample sample' nprocs node,
  take (Z.to_nat nprocs) sample = take (Z.to_nat nprocs) sample' →
  (∀ k, (curcpu <= k < curcpu + n)%nat → sample !!! k = sample' !!! k) →
  reset_scan n curcpu sample nprocs node
    = reset_scan n curcpu sample' nprocs node.
Proof.
  induction n as [|n IH]; intros curcpu sample sample' nprocs node Ht Hk;
    cbn [reset_scan]; [done|].
  rewrite <- (Hk curcpu) by lia.
  destruct (negb (online (sample !!! curcpu))).
  - apply IH; [done|]. intros k ?. apply Hk. lia.
  - destruct (_ <? _); [|done].
    unfold reset_proc_stat_node. by rewrite Ht.
Qed.

Lemma diff_cpu_usage_loop_ext n : ∀ i older newer newer' diff sum,
  (∀ k, (i <= k < i + n)%nat → newer !!! k = newer' !!! k) →
  diff_cpu_usage_loop n i older newer diff sum
    = diff_cpu_usage_loop n i older newer' diff sum.
Proof.
  induction n as [|n IH]; intros i older newer newer' diff sum Hk;
    cbn [diff_cpu_usage_loop]; [done|].
  rewrite <- (Hk i) by lia.
  destruct (negb (online (newer !!! i))); apply IH; intros k ?; apply Hk; lia.
Qed.

Lemma usage_update_loop_ext n : ∀ curcpu i max_cpus sample sample' diff
    usage_arr us ss,
  (∀ k, (curcpu <= k < curcpu + n)%nat → sample !!! k = sample' !!! k) →
  usage_update_loop n curcpu i max_cpus sample diff usage_arr us ss
    = usage_update_loop n curcpu i max_cpus sample' diff usage_arr us ss.
Proof.
  induction n as [|n IH];
    intros curcpu i max_cpus sample sample' diff usage_arr us ss Hk;
    cbn [usage_update_loop]; [done|].
  rewrite <- (Hk curcpu) by lia.
  destruct (negb _); [|destruct (_ && _)]; apply IH; intros k ?; apply Hk; lia.
Qed.

Lemma reconcile_ext e nprocs max_cpus cpu_cnt sample sample' node :
  take (Z.to_nat nprocs) sample = take (Z.to_nat nprocs) sample' →
  reconcile e nprocs max_cpus cpu_cnt sample node
    = reconcile e nprocs max_cpus cpu_cnt sample' node.
Proof.
  intros Ht. unfold reconcile, diff_cpu_usage.
  assert (Hk : ∀ k, (0 <= k < 0 + Z.to_nat nprocs)%nat →
                    sample !!! k = sample' !!! k).
  { intros k ?. eapply take_agree; [exact Ht|lia]. }
  rewrite (reset_scan_ext _ _ sample sample') by assumption.
  rewrite (diff_cpu_usage_loop_ext _ _ _ sample sample') by assumption.
  destruct (diff_cpu_usage_loop _ _ _ _ _ _) as [diff total_sum].
  by rewrite (usage_update_loop_ext _ _ _ _ sample sample') by assumption.
Qed.

Lemma find_or_create_ext e reg sample sample' nprocs name :
  take (Z.to_nat nprocs) sample = take (Z.to_nat nprocs) sample' →
  find_or_create_proc_stat_node e reg sample nprocs name
    = find_or_create_proc_stat_node e reg sample' nprocs name.
Proof.
  intros Ht. unfold find_or_create_proc_stat_node, new_proc_stat_node.
  by rewrite Ht.
Qed.

(** *** The count of CPUs *)

Lemma parse_line_cpu_cnt cs size l st st' ctl :
  parse_line cs size l st = Some (st', ctl) →
  ps_cpu_cnt st' = ps_cpu_cnt st + counted_lines size [l] ∧
  (ctl = Break ↔
   (String.length (line_text l) =? 0)%nat = false ∧ line_tag l = NotCpu).
Proof.
  unfold parse_line. cbn [counted_lines].
  destruct (_ =? _)%nat.
  { intros [= <- <-]. split; [lia|]. split; [done|]. by intros [? _]. }
  destruct (line_tag l) as [| |p].
  - intros [= <- <-]. split; [lia|]. done.
  - intros [= <- <-]. split; [lia|]. split; [done|]. by intros [_ ?].
  - destruct (_ <=? _).
    { intros [= <- <-]. split; [lia|]. split; [done|]. by intros [_ ?]. }
    intros H.
    assert (ps_cpu_cnt st' = ps_cpu_cnt st + 1 ∧ ctl = Continue) as [-> ->].
    { revert H. destruct (negb _).
      - destruct (mark_offline _ _ _); [|done]. by intros [= <- <-].
      - destruct (if _ <? _ then _ else _) as [[s k]|]; [|done].
        cbn [mbind option_bind]. destruct (negb _); [done|].
        destruct (line_fields l) as
          [|? [|? [|? [|? [|? [|? [|? [|? [|? [|? ?]]]]]]]]]];
          try by intros [= <- <-].
        destruct (impute_idle _ _ _ _). by intros [= <- <-]. }
    split; [lia|]. split; [done|]. by intros [_ ?].
Qed.


(** C2 at a host of two CPUs of which the cpuset has one: [cpu_cnt] is 2
    when the parsing ends, though one CPU only is online in the sample; the
    threshold of a read that has 300 ticks to share and one visible CPU is
    150, half the 300 a count of 1 would give. *)
Lemma cpu_cnt_counts_cpus_outside_cpuset :
  (λ r, (ps_cpu_cnt r.1.1, count_online (ps_usage r.1.1)))
    <$> parse_cpu0_of_2 = Some (2, 1%nat) ∧
  threshold_of 300 2 1 = 150 ∧
  threshold_of 300 1 1 = 300.
Proof. repeat split; vm_compute; reflexivity. Qed.

(** ** Rendering *)

Lemma string_app_cons c (s1 s2 : string) :
  String c s1 +:+ s2 = String c (s1 +:+ s2).
Proof. reflexivity. Qed.

Lemma string_length_app (s1 s2 : string) :
  String.length (s1 +:+ s2) = (String.length s1 + String.length s2)%nat.
Proof.
  induction s1 as [|c s1 IH]; [done|].
  rewrite string_app_cons. cbn [String.length]. by rewrite IH.
Qed.

Lemma string_app_assoc (s1 s2 s3 : string) :
  (s1 +:+ s2) +:+ s3 = s1 +:+ (s2 +:+ s3).
Proof.
  induction s1 as [|c s1 IH]; [done|]. by rewrite !string_app_cons, IH.
Qed.

Lemma string_app_nil_r (s : string) : s +:+ EmptyString = s.
Proof.
  induction s as [|c s IH]; [done|]. by rewrite string_app_cons, IH.
Qed.

(** Two writes in a row fit exactly when their concatenation does. *)
Lemma emit_app b s1 s2 :
  emit b (s1 +:+ s2) = (b' ← emit b s1; emit b' s2).
Proof.
  unfold emit. rewrite string_length_app, Nat2Z.inj_add.
  destruct (Z.leb_spec (buf_size b) (Z.of_nat (String.length s1))) as [H1|H1];
    cbn [mbind option_bind buf_size total_len written].
  - by replace (buf_size b <=? _) with true by (symmetry; apply Z.leb_le; lia).
  - destruct (Z.leb_spec (buf_size b - Z.of_nat (String.length s1))
                (Z.of_nat (String.length s2))) as [H2|H2].
    + by replace (buf_size b <=? _) with true
        by (symmetry; apply Z.leb_le; lia).
    + replace (buf_size b <=? _) with false
        by (symmetry; apply Z.leb_gt; lia).
      rewrite string_app_assoc. do 2 f_equal; lia.
Qed.

Lemma emit_nil b : 0 < buf_size b → emit b EmptyString = Some b.
Proof.
  intros H. unfold emit. cbn [String.length].
  replace (buf_size b <=? _) with false by (symmetry; apply Z.leb_gt; lia).
  destruct b as [sz tl w]. cbn. rewrite string_app_nil_r.
  do 2 f_equal; lia.
Qed.

Lemma emit_room b s b' : emit b s = Some b' → 0 < buf_size b'.
Proof.
  unfold emit. destruct (Z.leb_spec (buf_size b) (Z.of_nat (String.length s)));
    [done|]. intros [= <-]. cbn. lia.
Qed.

Lemma emit_bind_room b s (k1 k2 : out_buf → option out_buf) :
  (∀ b', 0 < buf_size b' → k1 b' = k2 b') →
  (b' ← emit b s; k1 b') = (b' ← emit b s; k2 b').
Proof.
  intros H. destruct (emit b s) as [b'|] eqn:E; [|done].
  cbn. apply H. by eapply emit_room.
Qed.

Lemma render_cpus_emit max_cpus stat_node n : ∀ curcpu i b,
  0 < buf_size b →
  (0 < max_cpus → i + 1 <= max_cpus) →
  render_cpus n curcpu i max_cpus stat_node b =
    emit b (cpu_lines (i + 1)
              (visible_views max_cpus i (online_views n curcpu stat_node))).
Proof.
  induction n as [|n IH]; intros curcpu i b Hb Hi;
    cbn [render_cpus online_views].
  { unfold visible_views. destruct (0 <? max_cpus); rewrite ?take_nil;
      by rewrite emit_nil. }
  destruct (online (usage stat_node !!! curcpu)); cbn [negb]; [|by apply IH].
  unfold visible_views.
  destruct (Z.ltb_spec 0 max_cpus) as [Hq|Hq]; cbn [andb].
  - destruct (Z.eqb_spec (i + 1) max_cpus) as [->|Hne].
    + rewrite Z.sub_diag. cbn [Z.to_nat take cpu_lines]. by rewrite emit_nil.
    + replace (Z.to_nat (max_cpus - (i + 1)))
        with (S (Z.to_nat (max_cpus - (i + 1 + 1)))) by lia.
      cbn [take cpu_lines]. rewrite emit_app.
      apply emit_bind_room. intros b' Hb'.
      rewrite IH by (try assumption; lia).
      unfold visible_views.
      by replace (0 <? max_cpus) with true by (symmetry; apply Z.ltb_lt; lia).
  - cbn [cpu_lines]. rewrite emit_app.
    apply emit_bind_room. intros b' Hb'.
    rewrite IH by (try assumption; lia).
    unfold visible_views.
    by replace (0 <? max_cpus) with false by (symmetry; apply Z.ltb_ge; lia).
Qed.

Lemma render_rest_emit f : ∀ b,
  0 < buf_size b → render_rest f b = emit b (rest_text f).
Proof.
  induction f as [|l f IH]; intros b Hb; cbn [render_rest rest_text].
  - by rewrite emit_nil.
  - rewrite emit_app. apply emit_bind_room. intros b' Hb'. by apply IH.
Qed.

Lemma stat_text_head nprocs max_cpus stat_node sums l rest :
  stat_text nprocs max_cpus stat_node sums l rest
  = stat_head nprocs max_cpus stat_node sums
    +:+ line_text l +:+ rest_text rest.
Proof. unfold stat_text, stat_head. by rewrite string_app_assoc. Qed.

Lemma render_head_emit nprocs max_cpus stat_node sums size :
  (b ← emit (mk_buf size 0 EmptyString)
         (cpu_all_line sums.1.1 sums.1.2 sums.2);
   render_cpus (Z.to_nat nprocs) 0 (-1) max_cpus stat_node b)
  = emit (mk_buf size 0 EmptyString)
      (stat_head nprocs max_cpus stat_node sums).
Proof.
  unfold stat_head. rewrite emit_app.
  apply emit_bind_room. intros b Hb.
  rewrite render_cpus_emit by (try assumption; lia).
  by replace (-1 + 1) with 0 by lia.
Qed.

Lemma render_emit nprocs max_cpus stat_node sums l rest size :
  render nprocs max_cpus stat_node sums (Some l) rest size =
    match emit (mk_buf size 0 EmptyString)
            (stat_text nprocs max_cpus stat_node sums l rest) with
    | None => Truncated
    | Some b => Rendered b
    end.
Proof.
  unfold render. destruct sums as [[user_sum system_sum] idle_sum].
  pose proof (render_head_emit nprocs max_cpus stat_node
                (user_sum, system_sum, idle_sum) size) as Hh.
  cbn [fst snd] in Hh. rewrite Hh.
  rewrite stat_text_head, emit_app.
  destruct (emit _ (stat_head _ _ _ _)) as [b|] eqn:E;
    cbn [mbind option_bind]; [|done].
  rewrite emit_app.
  rewrite (emit_bind_room b (line_text l) (render_rest rest)
             (λ b', emit b' (rest_text rest))); [done|].
  intros b' Hb'. by apply render_rest_emit.
Qed.

(** The rendering succeeds exactly when the text fits the buffer, and
    writes that text. *)
Lemma render_layout (nprocs max_cpus : Z) (stat_node : cg_proc_stat)
    (sums : Z * Z * Z) (l : host_line) (rest : list host_line) (size : Z) :
  let text := stat_text nprocs max_cpus stat_node sums l rest in
  let len := Z.of_nat (String.length text) in
  render nprocs max_cpus stat_node sums (Some l) rest size =
    if size <=? len then Truncated else Rendered (mk_buf (size - len) len text).
Proof.
  intros text len. rewrite render_emit. unfold emit.
  cbn [buf_size total_len written]. fold text. fold len.
  destruct (size <=? len); [done|]. by rewrite Z.add_0_l.
Qed.

(** A stream that is at its end from the start: the read writes the
    aggregate line and the lines of the CPUs, and then prints the buffer that
    [getline] has never filled. *)
Lemma render_unset (nprocs max_cpus : Z) (stat_node : cg_proc_stat)
    (sums : Z * Z * Z) (rest : list host_line) (size : Z) :
  render nprocs max_cpus stat_node sums None rest size =
    if size <=? Z.of_nat (String.length
                            (stat_head nprocs max_cpus stat_node sums))
    then Truncated else UnsetBuffer.
Proof.
  unfold render. destruct sums as [[user_sum system_sum] idle_sum].
  pose proof (render_head_emit nprocs max_cpus stat_node
                (user_sum, system_sum, idle_sum) size) as Hh.
  cbn [fst snd] in Hh. rewrite Hh.
  unfold emit. cbn [buf_size]. by destruct (_ <=? _).
Qed.

(** What the parsing loop hands to the renderer: the first line it stops
    at and the lines after it, or the last line of a table it has read to the
    end. *)
Lemma parse_host_stat_split cs size f : ∀ line st st' line' rest,
  parse_host_stat cs size f line st = Some (st', line', rest) →
  (∃ pre l, f = pre ++ l :: rest ∧ line' = Some l ∧ line_tag l = NotCpu ∧
            Forall passes_loop pre) ∨
  (rest = [] ∧ Forall passes_loop f ∧ line' = last (option_list line ++ f)).
Proof.
  induction f as [|l f IH]; intros line st st' line' rest;
    cbn [parse_host_stat].
  { intros [= <- <- <-]. right. repeat split; [constructor|].
    destruct line; done. }
  destruct (parse_line cs size l st) as [[st1 ctl]|] eqn:E; [|done].
  assert (Hctl : match ctl with
                 | Break => line_tag l = NotCpu
                 | Continue => passes_loop l
                 end).
  { revert E. unfold parse_line, passes_loop.
    destruct (Nat.eqb_spec (String.length (line_text l)) 0).
    { intros [= <- <-]. by left. }
    destruct (line_tag l) as [| |p] eqn:Et.
    - by intros [= <- <-].
    - intros [= <- <-]. by right.
    - intros H. assert (ctl = Continue) as ->; [|by right].
      revert H. destruct (_ <=? _); [by intros [= <- <-]|].
      destruct (negb _).
      + destruct (mark_offline _ _ _); [|done]. by intros [= <- <-].
      + destruct (if _ <? _ then _ else _) as [[s k]|]; [|done].
        cbn [mbind option_bind]. destruct (negb _); [done|].
        destruct (line_fields l) as
          [|? [|? [|? [|? [|? [|? [|? [|? [|? [|? ?]]]]]]]]]];
          try by intros [= <- <-].
        destruct (impute_idle _ _ _ _). by intros [= <- <-]. }
  destruct ctl.
  - intros H. apply IH in H as [(pre & l' & -> & -> & Ht & Hpre)|(-> & Hf & ->)].
    + left. exists (l :: pre), l'. repeat split; try done. by constructor.
    + right. repeat split; [by constructor|].
      destruct line; cbn; by destruct f.
  - intros [= <- <- <-]. left. exists [], l. by repeat split.
Qed.


(** ** The loops of the reconciliation, entry by entry *)

Lemma lookup_total_zero_ge (l : list cpuacct_usage) (j : nat) :
  (length l <= j)%nat → l !!! j = zero_usage.
Proof.
  intros H. by rewrite list_lookup_total_alt, lookup_ge_None_2 by lia.
Qed.

Lemma sat_sub_range newer older :
  is_u64 newer → 0 <= older → 0 <= sat_sub newer older <= newer.
Proof.
  intros Hn Ho. unfold sat_sub.
  destruct (Z.ltb_spec older newer); [|unfold_u64; lia].
  rewrite usub_small; unfold_u64; lia.
Qed.

Lemma sat_sub_diag x : sat_sub x x = 0.
Proof. unfold sat_sub. by rewrite Z.ltb_irrefl. Qed.

(** A property of every delta that the fresh deltas have holds of the
    array [diff_cpu_usage] leaves. *)
Lemma diff_loop_pointwise (P : nat → cpuacct_usage → Prop) n :
  ∀ i older newer diff sum,
  (∀ j, P j (diff !!! j)) →
  (∀ j o, (i <= j < i + n)%nat → online (newer !!! j) = true →
     P j (mk_usage (sat_sub (user (newer !!! j)) (user (older !!! j)))
                   (sat_sub (system (newer !!! j)) (system (older !!! j)))
                   (sat_sub (idle (newer !!! j)) (idle (older !!! j))) o)) →
  ∀ j, P j ((diff_cpu_usage_loop n i older newer diff sum).1 !!! j).
Proof.
  induction n as [|n IH]; intros i older newer diff sum Hd Hnew j;
    cbn [diff_cpu_usage_loop]; [apply Hd|].
  destruct (online (newer !!! i)) eqn:Hon; cbn [negb].
  - apply IH.
    + intros j'. rewrite list_lookup_total_insert. case_decide as Hj.
      * destruct Hj as [<- _]. apply Hnew; [lia|done].
      * apply Hd.
    + intros j' o ? ?. apply Hnew; [lia|done].
  - apply IH; [done|]. intros j' o ? ?. apply Hnew; [lia|done].
Qed.

Lemma diff_loop_length n : ∀ i older newer diff sum,
  length (diff_cpu_usage_loop n i older newer diff sum).1 = length diff.
Proof.
  induction n as [|n IH]; intros i older newer diff sum;
    cbn [diff_cpu_usage_loop]; [done|].
  destruct (negb _); rewrite IH; [done|]. by rewrite length_insert.
Qed.

(** When every fresh delta is zero the total is left as it was. *)
Lemma diff_loop_sum_zero n : ∀ i older newer diff sum,
  is_u64 sum →
  (∀ j, (i <= j < i + n)%nat → online (newer !!! j) = true →
     user (newer !!! j) = user (older !!! j) ∧
     system (newer !!! j) = system (older !!! j) ∧
     idle (newer !!! j) = idle (older !!! j)) →
  (diff_cpu_usage_loop n i older newer diff sum).2 = sum.
Proof.
  induction n as [|n IH]; intros i older newer diff sum Hs Heq;
    cbn [diff_cpu_usage_loop]; [done|].
  destruct (online (newer !!! i)) eqn:Hon; cbn [negb].
  - destruct (Heq i) as (-> & -> & ->); [lia|done|].
    rewrite !sat_sub_diag. cbn [user system idle].
    assert (E : uadd (uadd (uadd sum 0) 0) 0 = sum).
    { rewrite !uadd_small; unfold_u64; lia. }
    rewrite E. apply IH; [done|]. intros j ? ?. apply Heq; [lia|done].
  - apply IH; [done|]. intros j ? ?. apply Heq; [lia|done].
Qed.

(** The stored usage after the loop of lines 647-663. *)
Lemma usage_update_lookup n : ∀ curcpu i max_cpus sample diff usage_arr us ss j,
  (curcpu + n <= length usage_arr)%nat →
  (usage_update_loop n curcpu i max_cpus sample diff usage_arr us ss).1.1 !!! j
  = if decide (curcpu <= j < curcpu + n)%nat then
      if online (sample !!! j)
      then mk_usage (uadd (user (usage_arr !!! j)) (user (diff !!! j)))
                    (uadd (system (usage_arr !!! j)) (system (diff !!! j)))
                    (uadd (idle (usage_arr !!! j)) (idle (diff !!! j))) true
      else set_online (usage_arr !!! j) false
    else usage_arr !!! j.
Proof.
  induction n as [|n IH];
    intros curcpu i max_cpus sample diff usage_arr us ss j Hlen;
    cbn [usage_update_loop].
  { case_decide; [lia|done]. }
  cbn [set_online online user system idle].
  destruct (online (sample !!! curcpu)) eqn:Hon; cbn [negb].
  - destruct (_ && _); rewrite IH by (rewrite length_insert; lia);
      rewrite list_lookup_total_insert;
      repeat case_decide; try lia; try done;
      destruct_and?; subst; rewrite ?Hon; try done; exfalso; lia.
  - rewrite IH by (rewrite length_insert; lia).
    rewrite list_lookup_total_insert.
    repeat case_decide; try lia; try done;
      destruct_and?; subst; rewrite ?Hon; try done; exfalso; lia.
Qed.

Lemma usage_update_length n : ∀ curcpu i max_cpus sample diff usage_arr us ss,
  length (usage_update_loop n curcpu i max_cpus sample diff usage_arr us ss).1.1
  = length usage_arr.
Proof.
  induction n as [|n IH];
    intros curcpu i max_cpus sample diff usage_arr us ss;
    cbn [usage_update_loop]; [done|].
  destruct (negb _); [|destruct (_ && _)]; rewrite IH; by rewrite length_insert.
Qed.

Lemma usage_update_surplus_range n :
  ∀ curcpu i max_cpus sample diff usage_arr us ss,
  is_u64 us → is_u64 ss →
  is_u64 (usage_update_loop n curcpu i max_cpus sample diff usage_arr us ss).1.2
  ∧ is_u64 (usage_update_loop n curcpu i max_cpus sample diff usage_arr us ss).2.
Proof.
  induction n as [|n IH];
    intros curcpu i max_cpus sample diff usage_arr us ss Hus Hss;
    cbn [usage_update_loop]; [done|].
  destruct (negb _); [|destruct (_ && _)]; apply IH;
    auto using uadd_range.
Qed.

(** With deltas that are all zero the surplus pools stay empty. *)
Lemma usage_update_surplus_zero n :
  ∀ curcpu i max_cpus sample diff usage_arr,
  (∀ j, user (diff !!! j) = 0 ∧ system (diff !!! j) = 0) →
  (usage_update_loop n curcpu i max_cpus sample diff usage_arr 0 0).1.2 = 0 ∧
  (usage_update_loop n curcpu i max_cpus sample diff usage_arr 0 0).2 = 0.
Proof.
  induction n as [|n IH]; intros curcpu i max_cpus sample diff usage_arr Hz;
    cbn [usage_update_loop]; [done|].
  destruct (Hz curcpu) as [-> ->].
  change (uadd 0 0) with 0.
  destruct (negb _); [|destruct (_ && _)]; by apply IH.
Qed.

(** The redistribution moves ticks inside a delta: what user and system
    gain idle loses. *)
Lemma redistribute_pointwise n :
  ∀ curcpu i max_cpus threshold usage_arr diff us ss,
  is_u64 threshold → is_u64 us → is_u64 ss →
  (∀ j, delta_ok (diff !!! j)) →
  ∀ j,
    delta_ok ((redistribute n curcpu i max_cpus threshold usage_arr diff
                 us ss).1.1 !!! j) ∧
    total_of ((redistribute n curcpu i max_cpus threshold usage_arr diff
                 us ss).1.1 !!! j) = total_of (diff !!! j).
Proof.
  induction n as [|n IH];
    intros curcpu i max_cpus threshold usage_arr diff us ss Ht Hus Hss Hd j;
    cbn [redistribute]; [by split|].
  destruct (negb (online (usage_arr !!! curcpu))); [by apply IH|].
  destruct (i + 1 =? max_cpus); [by split|].
  destruct (redistribute_cpu threshold (diff !!! curcpu) us ss)
    as [[d us1] ss1] eqn:E.
  destruct (redistribute_cpu_spec _ _ _ _ _ _ _ Ht Hus Hss (Hd curcpu) E)
    as (Hd1 & Hus1 & Hss1 & Hu & Hs & Hi & _).
  assert (Hd' : ∀ j', delta_ok (<[curcpu := d]> diff !!! j')).
  { intros j'. rewrite list_lookup_total_insert. by case_decide. }
  destruct (IH (S curcpu) (i + 1) max_cpus threshold usage_arr
              (<[curcpu := d]> diff) us1 ss1 Ht) with (j := j)
    as [Hok Htot]; try assumption; try (unfold_u64; lia).
  split; [exact Hok|]. rewrite Htot.
  rewrite list_lookup_total_insert. case_decide as Hj; [|done].
  destruct Hj as [<- _]. unfold total_of. lia.
Qed.

Lemma redistribute_length n :
  ∀ curcpu i max_cpus threshold usage_arr diff us ss,
  length (redistribute n curcpu i max_cpus threshold usage_arr diff us ss).1.1
  = length diff.
Proof.
  induction n as [|n IH];
    intros curcpu i max_cpus threshold usage_arr diff us ss;
    cbn [redistribute]; [done|].
  destruct (negb _); [by apply IH|].
  destruct (_ =? _); [done|].
  destruct (redistribute_cpu _ _ _ _) as [[d us1] ss1].
  by rewrite IH, length_insert.
Qed.

(** Each view entry is left alone or takes the delta of its CPU. *)
Lemma accumulate_view_lookup n : ∀ curcpu i max_cpus usage_arr diff a j,
  va_view (accumulate_view n curcpu i max_cpus usage_arr diff a) !!! j
    = va_view a !!! j ∨
  va_view (accumulate_view n curcpu i max_cpus usage_arr diff a) !!! j
    = add_counters (va_view a !!! j) (diff !!! j).
Proof.
  induction n as [|n IH]; intros curcpu i max_cpus usage_arr diff a j;
    cbn [accumulate_view]; [by left|].
  destruct (negb _); [by apply IH|].
  destruct (_ =? _); [by left|].
  assert (Hstep : ∀ j', (curcpu < j')%nat →
    va_view (accumulate_cpu curcpu (diff !!! curcpu) a) !!! j' = va_view a !!! j').
  { intros j' Hj'. cbn [accumulate_cpu va_view].
    rewrite list_lookup_total_insert_ne by lia. done. }
  destruct (decide (curcpu < j)%nat) as [Hlt|Hge].
  - destruct (IH (S curcpu) (i + 1) max_cpus usage_arr diff
                (accumulate_cpu curcpu (diff !!! curcpu) a) j) as [H|H];
      rewrite H, Hstep by lia; auto.
  - assert (Hkeep : ∀ m c i' a',
      (c > j)%nat →
      va_view (accumulate_view m c i' max_cpus usage_arr diff a') !!! j
        = va_view a' !!! j).
    { clear. induction m as [|m IHm]; intros c i' a' Hc;
        cbn [accumulate_view]; [done|].
      destruct (negb _); [apply IHm; lia|].
      destruct (_ =? _); [done|].
      rewrite IHm by lia. cbn [accumulate_cpu va_view].
      by rewrite list_lookup_total_insert_ne by lia. }
    destruct (decide (j = curcpu)) as [->|Hne].
    + rewrite Hkeep by lia. cbn [accumulate_cpu va_view].
      rewrite list_lookup_total_insert. case_decide; auto.
    + rewrite Hkeep by lia. cbn [accumulate_cpu va_view].
      rewrite list_lookup_total_insert_ne by lia. by left.
Qed.

Lemma accumulate_view_length n : ∀ curcpu i max_cpus usage_arr diff a,
  length (va_view (accumulate_view n curcpu i max_cpus usage_arr diff a))
  = length (va_view a).
Proof.
  induction n as [|n IH]; intros curcpu i max_cpus usage_arr diff a;
    cbn [accumulate_view]; [done|].
  destruct (negb _); [by apply IH|].
  destruct (_ =? _); [done|].
  rewrite IH. cbn [accumulate_cpu va_view]. by rewrite length_insert.
Qed.

(** Deltas without idle time leave [max_diff_idle_index] where it was. *)
Lemma accumulate_view_index n : ∀ curcpu i max_cpus usage_arr diff a,
  (∀ j, idle (diff !!! j) <= va_max_diff_idle a) →
  va_max_diff_idle_index (accumulate_view n curcpu i max_cpus usage_arr diff a)
  = va_max_diff_idle_index a.
Proof.
  induction n as [|n IH]; intros curcpu i max_cpus usage_arr diff a Hle;
    cbn [accumulate_view]; [done|].
  destruct (negb _); [by apply IH|].
  destruct (_ =? _); [done|].
  assert (E : (va_max_diff_idle a <? idle (diff !!! curcpu)) = false)
    by (apply Z.ltb_ge; apply Hle).
  rewrite IH; cbn [accumulate_cpu va_max_diff_idle va_max_diff_idle_index];
    rewrite E; [done|exact Hle].
Qed.

Lemma ulong_of_double_range x : is_u64 (ulong_of_double x).
Proof.
  unfold ulong_of_double. destruct (Prim2SF x); try apply u64_range;
    unfold_u64; lia.
Qed.

(** The partial-CPU revision touches idle times only, and lowers them. *)
Lemma revise_partial_lookup e max_cpus a j :
  is_u64 (idle (va_view a !!! j)) →
  user (va_view (revise_partial e max_cpus a) !!! j) = user (va_view a !!! j) ∧
  system (va_view (revise_partial e max_cpus a) !!! j)
    = system (va_view a !!! j) ∧
  0 <= idle (va_view (revise_partial e max_cpus a) !!! j)
    <= idle (va_view a !!! j).
Proof.
  intros Hr. unfold revise_partial.
  destruct (PrimFloat.ltb _ _); [|unfold_u64; lia].
  cbn [va_view]. rewrite list_lookup_total_alter.
  case_decide as Hj; [|unfold_u64; lia].
  destruct Hj as [-> _]. cbn [set_idle user system idle].
  split; [done|]. split; [done|].
  unfold sub_or_zero.
  destruct (Z.ltb_spec (partial_delta (exact_cpu_count e) max_cpus a)
              (idle (va_view a !!! j))) as [Hlt|Hge]; [|unfold_u64; lia].
  pose proof (ulong_of_double_range
                (PrimFloat.mul
                   (double_of_ulong
                      (uadd (uadd (va_diff_user a) (va_diff_system a))
                         (va_diff_idle a)))
                   (PrimFloat.sub 1
                      (PrimFloat.div (exact_cpu_count e)
                         (double_of_int max_cpus))))) as Hdelta.
  fold (partial_delta (exact_cpu_count e) max_cpus a) in Hdelta.
  rewrite usub_small; unfold_u64; lia.
Qed.

(** The view after the loop of lines 752-763. *)
Lemma copy_usage_lookup n : ∀ curcpu usage_arr view_arr us ss ids j,
  (curcpu + n <= length view_arr)%nat →
  (copy_usage_to_view n curcpu usage_arr view_arr us ss ids).1.1.1 !!! j
  = if decide (curcpu <= j < curcpu + n)%nat then
      if online (usage_arr !!! j)
      then mk_usage (user (usage_arr !!! j)) (system (usage_arr !!! j))
                    (idle (usage_arr !!! j)) (online (view_arr !!! j))
      else view_arr !!! j
    else view_arr !!! j.
Proof.
  induction n as [|n IH]; intros curcpu usage_arr view_arr us ss ids j Hlen;
    cbn [copy_usage_to_view].
  { case_decide; [lia|done]. }
  destruct (online (usage_arr !!! curcpu)) eqn:Hon; cbn [negb].
  - rewrite IH by (rewrite length_insert; lia).
    rewrite list_lookup_total_insert.
    repeat case_decide; try lia; try done;
      destruct_and?; subst; rewrite ?Hon; try done; exfalso; lia.
  - rewrite IH by lia.
    destruct (decide (j = curcpu)) as [->|Hne].
    + rewrite Hon. repeat case_decide; try done; lia.
    + repeat case_decide; try done; lia.
Qed.

(** ** A read, stage by stage *)

Lemma reconcile_view e nprocs max_cpus cpu_cnt sample node :
  let n := Z.to_nat nprocs in
  let node0 := reset_scan n 0 sample nprocs node in
  let dr := diff_cpu_usage (usage node0) sample (replicate n zero_usage) nprocs in
  let ur := usage_update_loop n 0 (-1) max_cpus sample dr.1 (usage node0) 0 0 in
  view (reconcile e nprocs max_cpus cpu_cnt sample node).1 =
    if 0 <? max_cpus then
      va_view
        (revise_partial e max_cpus
           (accumulate_view n 0 (-1) max_cpus ur.1.1
              (visible_diff nprocs max_cpus
                 (threshold_of dr.2 cpu_cnt max_cpus) ur.1.1 dr.1 ur.1.2 ur.2)
              (mk_acc (view node0) 0 0 0 0 0 0 0 0%nat)))
    else (copy_usage_to_view n 0 ur.1.1 (view node0) 0 0 0).1.1.1.
Proof.
  intros n node0 dr ur. unfold reconcile. fold n. fold node0. fold dr.
  destruct dr as [diff total_sum] eqn:Edr. cbn [fst snd] in ur.
  fold ur. destruct ur as [[usage' us] ss] eqn:Eur. cbn [fst snd].
  destruct (0 <? max_cpus); [done|].
  by destruct (copy_usage_to_view _ _ _ _ _ _ _) as [[[v a] b] c].
Qed.

Lemma reconcile_usage e nprocs max_cpus cpu_cnt sample node :
  let n := Z.to_nat nprocs in
  let node0 := reset_scan n 0 sample nprocs node in
  let dr := diff_cpu_usage (usage node0) sample (replicate n zero_usage) nprocs in
  usage (reconcile e nprocs max_cpus cpu_cnt sample node).1 =
    (usage_update_loop n 0 (-1) max_cpus sample dr.1 (usage node0) 0 0).1.1.
Proof.
  intros n node0 dr. unfold reconcile. fold n. fold node0. fold dr.
  destruct dr as [diff total_sum] eqn:Edr. cbn [fst snd].
  destruct (usage_update_loop _ _ _ _ _ _ _ _ _) as [[usage' us] ss].
  cbn [fst snd].
  destruct (0 <? max_cpus); [done|].
  by destruct (copy_usage_to_view _ _ _ _ _ _ _) as [[[v a] b] c].
Qed.

(** The reset test fires on the first online CPU when its user time has
    gone back. *)
Lemma reset_scan_fires n : ∀ curcpu sample nprocs node (i : nat),
  (curcpu <= i < curcpu + n)%nat →
  (∀ j, (curcpu <= j < i)%nat → online (sample !!! j) = false) →
  online (sample !!! i) = true →
  user (sample !!! i) < user (usage node !!! i) →
  reset_scan n curcpu sample nprocs node
    = reset_proc_stat_node node sample nprocs.
Proof.
  induction n as [|n IH]; intros curcpu sample nprocs node i Hi Hoff Hon Hlt;
    [lia|]. cbn [reset_scan].
  destruct (decide (curcpu = i)) as [->|Hne].
  - rewrite Hon. cbn [negb].
    by replace (user (sample !!! i) <? user (usage node !!! i)) with true
      by (symmetry; apply Z.ltb_lt; lia).
  - rewrite Hoff by lia. cbn [negb].
    apply (IH _ _ _ _ i); try assumption; [lia|].
    intros j ?. apply Hoff. lia.
Qed.

(** It leaves the node alone when no online CPU has gone back. *)
Lemma reset_scan_idle n : ∀ curcpu sample nprocs node,
  (∀ j, (curcpu <= j < curcpu + n)%nat → online (sample !!! j) = true →
     user (usage node !!! j) <= user (sample !!! j)) →
  reset_scan n curcpu sample nprocs node = node.
Proof.
  induction n as [|n IH]; intros curcpu sample nprocs node Hge; [done|].
  cbn [reset_scan].
  destruct (online (sample !!! curcpu)) eqn:Hon; cbn [negb].
  - by replace (user (sample !!! curcpu) <? user (usage node !!! curcpu))
      with false by (symmetry; apply Z.ltb_ge; apply Hge; [lia|done]).
  - apply IH. intros j ? ?. apply Hge; [lia|done].
Qed.

Lemma reset_usage_lookup node sample nprocs (j : nat) :
  (Z.to_nat nprocs <= length sample)%nat → (j < Z.to_nat nprocs)%nat →
  usage (reset_proc_stat_node node sample nprocs) !!! j = sample !!! j.
Proof.
  intros Hlen Hj. cbn [reset_proc_stat_node usage].
  rewrite lookup_total_app_l by (rewrite length_take; lia).
  by rewrite lookup_total_take_lt.
Qed.

Lemma reset_view_lookup node sample nprocs (j : nat) :
  (j < Z.to_nat nprocs)%nat →
  same_counters (view (reset_proc_stat_node node sample nprocs) !!! j)
    zero_usage.
Proof.
  intros Hj. cbn [reset_proc_stat_node view].
  destruct (decide (j < length (view node))%nat) as [Hin|Hout].
  - rewrite lookup_total_app_l by (rewrite length_map, length_take; lia).
    rewrite (list_lookup_total_fmap zero_counters) by (rewrite length_take; lia).
    by repeat split.
  - rewrite lookup_total_zero_ge; [by repeat split|].
    rewrite length_app, length_map, length_take, length_drop. lia.
Qed.

Lemma reset_lengths node sample nprocs :
  (Z.to_nat nprocs <= length sample)%nat →
  (Z.to_nat nprocs <= length (usage node))%nat →
  length (usage (reset_proc_stat_node node sample nprocs))
    = length (usage node) ∧
  length (view (reset_proc_stat_node node sample nprocs))
    = length (view node).
Proof.
  intros H1 H2. cbn [reset_proc_stat_node usage view].
  rewrite !length_app, length_map, !length_take, !length_drop. lia.
Qed.

Lemma replicate_zero_lookup (n j : nat) :
  replicate n zero_usage !!! j = zero_usage.
Proof.
  destruct (decide (j < n)%nat).
  - by apply lookup_total_replicate_2.
  - apply lookup_total_zero_ge. rewrite length_replicate. lia.
Qed.

Lemma delta_ok_zero d :
  delta_ok d → total_of d = 0 → same_counters d zero_usage.
Proof. unfold total_of, same_counters. norm_u64. cbn. lia. Qed.

Lemma uadd_0_r x : is_u64 x → uadd x 0 = x.
Proof. intros. rewrite uadd_small; unfold_u64; lia. Qed.

(** ** Reset on counter regression *)

Lemma threshold_of_zero cpu_cnt max_cpus : threshold_of 0 cpu_cnt max_cpus = 0.
Proof. unfold threshold_of, umul, u64. by rewrite Zdiv_0_l, Z.mul_0_l. Qed.

Lemma same_counters_zero_delta_ok d : same_counters d zero_usage → delta_ok d.
Proof.
  intros (Hu & Hs & Hi). cbn [zero_usage user system idle] in *.
  unfold delta_ok. rewrite Hu, Hs, Hi. unfold_u64. lia.
Qed.

(** C5, as the code has it: when the user time of the first online CPU of
    the sample is below the stored one, the node is reset before the deltas
    are computed - the first [nprocs] entries of its usage are the sample's,
    those of its view have user, system and idle at zero -, so every delta of
    the read is zero; with a positive [max_cpus] the view the read leaves is
    that delta, nothing else; with [max_cpus] at 0 the view is the sample for
    the online CPUs and zero for the others.  Nothing of the former view
    remains in either case. *)
Theorem reset_rebases_view (e : host_env) (nprocs max_cpus cpu_cnt : Z)
    (sample : list cpuacct_usage) (node : cg_proc_stat) (i : nat) :
  (i < Z.to_nat nprocs)%nat →
  (∀ j, (j < i)%nat → online (sample !!! j) = false) →
  online (sample !!! i) = true →
  user (sample !!! i) < user (usage node !!! i) →
  (Z.to_nat nprocs <= length sample)%nat →
  (Z.to_nat nprocs <= length (usage node))%nat →
  (Z.to_nat nprocs <= length (view node))%nat →
  (∀ j, counters_ok (sample !!! j)) →
  let node0 := reset_scan (Z.to_nat nprocs) 0 sample nprocs node in
  let delta := read_delta nprocs sample node in
  let node' := (reconcile e nprocs max_cpus cpu_cnt sample node).1 in
  node0 = reset_proc_stat_node node sample nprocs ∧
  ∀ j, (j < Z.to_nat nprocs)%nat →
    usage node0 !!! j = sample !!! j ∧
    same_counters (view node0 !!! j) zero_usage ∧
    same_counters (delta !!! j) zero_usage ∧
    (0 < max_cpus → same_counters (view node' !!! j) (delta !!! j)) ∧
    (max_cpus <= 0 →
       same_counters (view node' !!! j)
         (if online (sample !!! j) then sample !!! j else zero_usage)).
Proof.
  intros Hi Hoff Hon Hlt Hls Hlu Hlv Hok node0 delta node'.
  assert (E0 : node0 = reset_proc_stat_node node sample nprocs).
  { subst node0. apply (reset_scan_fires _ _ _ _ _ i); try done; [lia|].
    intros j ?. apply Hoff. lia. }
  split; [exact E0|].
  set (n := Z.to_nat nprocs) in *.
  assert (Hu0 : ∀ j, (j < n)%nat → usage node0 !!! j = sample !!! j).
  { rewrite E0. intros j ?. by apply reset_usage_lookup. }
  assert (Hv0 : ∀ j, (j < n)%nat → same_counters (view node0 !!! j) zero_usage).
  { rewrite E0. intros j ?. by apply reset_view_lookup. }
  assert (Hlen0 : length (usage node0) = length (usage node) ∧
                  length (view node0) = length (view node)).
  { rewrite E0. by apply reset_lengths. }
  set (dr := diff_cpu_usage (usage node0) sample (replicate n zero_usage) nprocs).
  assert (Edelta : delta = dr.1) by done.
  assert (Hdz : ∀ j, same_counters (dr.1 !!! j) zero_usage).
  { intros j. subst dr. unfold diff_cpu_usage. fold n.
    apply (diff_loop_pointwise (λ _ d, same_counters d zero_usage)).
    - intros j'. rewrite replicate_zero_lookup. apply same_counters_refl.
    - intros j' o Hj' _. rewrite Hu0 by lia. rewrite !sat_sub_diag.
      by repeat split. }
  assert (Hsum : dr.2 = 0).
  { subst dr. unfold diff_cpu_usage. fold n.
    apply diff_loop_sum_zero; [unfold_u64; lia|].
    intros j Hj _. by rewrite Hu0 by lia. }
  set (ur := usage_update_loop n 0 (-1) max_cpus sample dr.1 (usage node0) 0 0).
  assert (Hur : ∀ j, (j < n)%nat →
            same_counters (ur.1.1 !!! j) (sample !!! j) ∧
            online (ur.1.1 !!! j) = online (sample !!! j)).
  { intros j Hj. subst ur. rewrite usage_update_lookup by lia.
    case_decide; [|lia]. rewrite Hu0 by lia.
    destruct (Hdz j) as (-> & -> & ->). cbn [zero_usage user system idle].
    destruct (Hok j) as (? & ? & ?).
    destruct (online (sample !!! j)) eqn:Hj'.
    - rewrite !uadd_0_r by assumption. by repeat split.
    - by repeat split. }
  assert (Hsur : ur.1.2 = 0 ∧ ur.2 = 0).
  { subst ur. apply usage_update_surplus_zero.
    intros j. by destruct (Hdz j) as (-> & -> & _). }
  intros j Hj. split; [by apply Hu0|]. split; [by apply Hv0|].
  rewrite Edelta. split; [apply Hdz|].
  subst node'. rewrite reconcile_view. fold n. fold node0. fold dr. fold ur.
  split.
  - intros Hq.
    replace (0 <? max_cpus) with true by (symmetry; apply Z.ltb_lt; lia).
    destruct Hsur as [-> ->]. rewrite Hsum, threshold_of_zero.
    set (vd := visible_diff nprocs max_cpus 0 ur.1.1 dr.1 0 0).
    assert (Hvd : ∀ j, same_counters (vd !!! j) zero_usage).
    { intros j'. subst vd. unfold visible_diff.
      destruct (redistribute_pointwise (Z.to_nat nprocs) 0 (-1) max_cpus 0
                  ur.1.1 dr.1 0 0) with (j := j') as [Hok' Htot];
        try (unfold_u64; lia).
      { intros j''. apply same_counters_zero_delta_ok, Hdz. }
      apply delta_ok_zero; [exact Hok'|]. rewrite Htot.
      destruct (Hdz j') as (Hu & Hs & Hid). unfold total_of.
      rewrite Hu, Hs, Hid. done. }
    set (a0 := mk_acc (view node0) 0 0 0 0 0 0 0 0%nat).
    set (acc := accumulate_view n 0 (-1) max_cpus ur.1.1 vd a0).
    assert (Hacc : same_counters (va_view acc !!! j) zero_usage).
    { destruct (accumulate_view_lookup n 0%nat (-1) max_cpus ur.1.1 vd a0 j)
        as [H|H]; fold acc in H; rewrite H; cbn [a0 va_view].
      - by apply Hv0.
      - destruct (Hv0 j Hj) as (Hu & Hs & Hid).
        destruct (Hvd j) as (Hu' & Hs' & Hid').
        unfold add_counters. repeat split; cbn [user system idle];
          rewrite ?Hu, ?Hs, ?Hid, ?Hu', ?Hs', ?Hid'; done. }
    destruct Hacc as (Hu & Hs & Hid). cbn in Hu, Hs, Hid.
    destruct (revise_partial_lookup e max_cpus acc j) as (Hu' & Hs' & Hid').
    { rewrite Hid. unfold_u64. lia. }
    destruct (Hdz j) as (Hdu & Hds & Hdi). cbn in Hdu, Hds, Hdi.
    unfold same_counters. rewrite Hu', Hs', Hu, Hs, Hdu, Hds, Hdi.
    repeat split. lia.
  - intros Hq.
    replace (0 <? max_cpus) with false by (symmetry; apply Z.ltb_ge; lia).
    rewrite copy_usage_lookup by lia.
    case_decide; [|lia].
    destruct (Hur j Hj) as ((Hu & Hs & Hid) & Hon').
    rewrite Hon'. destruct (online (sample !!! j)).
    + by repeat split.
    + by apply Hv0.
Qed.

Lemma reset_rebases_view_witness :
  same_counters
    (view (reconcile one_cpu_env 1 1 1 sample_recreated node_1cpu).1 !!! 0%nat)
    zero_usage.
Proof.
  destruct (reset_rebases_view one_cpu_env 1 1 1 sample_recreated node_1cpu 0)
    as [_ H].
  - cbn. lia.
  - intros j Hj. lia.
  - reflexivity.
  - cbn. lia.
  - cbn. lia.
  - cbn. lia.
  - cbn. lia.
  - intros [|[|j]]; cbn; unfold counters_ok, is_u64, ULONG_MOD; cbn; lia.
  - destruct (H 0%nat) as (_ & _ & Hd & Hq & _); [cbn; lia|].
    eapply same_counters_trans; [apply Hq; lia | exact Hd].
Defined.

(** C5, as stated, fails: the first read leaves the node [node_1cpu] has the
    usage of; at the second the cgroup has been recreated, the deltas of the
    read are zero, and the view the read leaves is not that delta but the
    sample itself, since without quota the view is a copy of the usage. *)
Lemma unquota_reset_counterexample :
  usage <$> lookup_node noquota_env (history recreated_read_1) cg_a
    = Some (usage node_1cpu) ∧
  user (read_delta 1 sample_recreated node_1cpu !!! 0%nat) = 0 ∧
  user (view (reconcile noquota_env 1 0 1 sample_recreated node_1cpu).1 !!! 0%nat)
    = 5 ∧
  (λ n, user (view n !!! 0%nat))
    <$> lookup_node noquota_env (history recreated_read_2) cg_a = Some 5.
Proof. repeat split; vm_compute; reflexivity. Qed.

(** ** Monotonicity of the view *)

Lemma revise_partial_off e max_cpus a :
  PrimFloat.ltb (exact_cpu_count e) (double_of_int max_cpus) = false →
  revise_partial e max_cpus a = a.
Proof. intros H. unfold revise_partial. by rewrite H. Qed.

(** The deltas of a read without reset and without wrap-around. *)
Lemma read_deltas_ok (nprocs : Z) (sample : list cpuacct_usage)
    (node : cg_proc_stat) :
  (∀ j, counters_ok (sample !!! j) ∧ counters_ok (usage node !!! j) ∧
        counters_ok (view node !!! j)) →
  (∀ j, user (view node !!! j) + total_of (sample !!! j) < ULONG_MOD ∧
        system (view node !!! j) + total_of (sample !!! j) < ULONG_MOD ∧
        idle (view node !!! j) + total_of (sample !!! j) < ULONG_MOD) →
  let dr := diff_cpu_usage (usage node) sample
              (replicate (Z.to_nat nprocs) zero_usage) nprocs in
  ∀ j, delta_ok (dr.1 !!! j) ∧ total_of (dr.1 !!! j) <= total_of (sample !!! j) ∧
       user (usage node !!! j) + user (dr.1 !!! j) < ULONG_MOD ∧
       system (usage node !!! j) + system (dr.1 !!! j) < ULONG_MOD ∧
       idle (usage node !!! j) + idle (dr.1 !!! j) < ULONG_MOD.
Proof.
  intros Hok Hwrap dr.
  set (n := Z.to_nat nprocs) in *.
  pose (P := λ (j : nat) (d : cpuacct_usage),
    delta_ok d ∧ total_of d <= total_of (sample !!! j) ∧
    user (usage node !!! j) + user d < ULONG_MOD ∧
    system (usage node !!! j) + system d < ULONG_MOD ∧
    idle (usage node !!! j) + idle d < ULONG_MOD).
  change (∀ j, P j (dr.1 !!! j)).
  subst dr. unfold diff_cpu_usage. fold n.
  apply (diff_loop_pointwise P).
  - intros j'. rewrite replicate_zero_lookup. subst P. cbn beta.
    destruct (Hok j') as ((? & ? & ?) & (? & ? & ?) & _).
    unfold total_of. norm_u64. cbn [zero_usage user system idle]. lia.
  - intros j' o _ _. subst P. cbn beta.
    destruct (Hok j') as ((Hsu & Hss & Hsi) & (Huu & Hus & Hui) & _).
    destruct (Hwrap j') as (Hw & _ & _).
    destruct (Hok j') as (_ & _ & (Hvu & _)).
    pose proof (sat_sub_range (user (sample !!! j')) (user (usage node !!! j'))
                  Hsu ltac:(unfold_u64; lia)) as H1.
    pose proof (sat_sub_range (system (sample !!! j'))
                  (system (usage node !!! j'))
                  Hss ltac:(unfold_u64; lia)) as H2.
    pose proof (sat_sub_range (idle (sample !!! j')) (idle (usage node !!! j'))
                  Hsi ltac:(unfold_u64; lia)) as H3.
    assert (Hmax : ∀ a b, is_u64 a → is_u64 b → b + sat_sub a b < ULONG_MOD).
    { intros a b Ha Hb. unfold sat_sub.
      destruct (Z.ltb_spec b a); [rewrite usub_small|]; unfold_u64; lia. }
    pose proof (Hmax _ _ Hsu Huu). pose proof (Hmax _ _ Hss Hus).
    pose proof (Hmax _ _ Hsi Hui).
    unfold total_of in *. norm_u64. lia.
Qed.

(** Under a quota the view a reconciliation leaves is the view the loop of
    lines 706-732 has accumulated, where no counter has gone down, with the
    partial-CPU revision made on it. *)
Lemma view_accumulated (e : host_env) (nprocs max_cpus cpu_cnt : Z)
    (sample : list cpuacct_usage) (node : cg_proc_stat) :
  (Z.to_nat nprocs <= length (usage node))%nat →
  (Z.to_nat nprocs <= length (view node))%nat →
  (∀ j, counters_ok (sample !!! j) ∧ counters_ok (usage node !!! j) ∧
        counters_ok (view node !!! j)) →
  (∀ j, (j < Z.to_nat nprocs)%nat → online (sample !!! j) = true →
        user (usage node !!! j) <= user (sample !!! j)) →
  (∀ j, user (view node !!! j) + total_of (sample !!! j) < ULONG_MOD ∧
        system (view node !!! j) + total_of (sample !!! j) < ULONG_MOD ∧
        idle (view node !!! j) + total_of (sample !!! j) < ULONG_MOD) →
  0 < max_cpus →
  ∃ acc,
    view (reconcile e nprocs max_cpus cpu_cnt sample node).1
      = va_view (revise_partial e max_cpus acc) ∧
    ∀ j, user (view node !!! j) <= user (va_view acc !!! j) ∧
         system (view node !!! j) <= system (va_view acc !!! j) ∧
         idle (view node !!! j) <= idle (va_view acc !!! j) ∧
         is_u64 (idle (va_view acc !!! j)).
Proof.
  intros Hlu Hlv Hok Hfwd Hwrap Hq.
  set (n := Z.to_nat nprocs) in *.
  assert (E0 : reset_scan n 0 sample nprocs node = node).
  { apply reset_scan_idle. intros j' ? ?. apply Hfwd; [lia|done]. }
  pose proof (read_deltas_ok nprocs sample node Hok Hwrap) as Hd.
  cbn zeta in Hd. fold n in Hd.
  set (dr := diff_cpu_usage (usage node) sample (replicate n zero_usage) nprocs)
    in *.
  rewrite reconcile_view. fold n. rewrite E0. fold dr.
  set (ur := usage_update_loop n 0 (-1) max_cpus sample dr.1 (usage node) 0 0).
  replace (0 <? max_cpus) with true by (symmetry; apply Z.ltb_lt; lia).
  set (vd := visible_diff nprocs max_cpus (threshold_of dr.2 cpu_cnt max_cpus)
               ur.1.1 dr.1 ur.1.2 ur.2).
  assert (Hvd : ∀ j, delta_ok (vd !!! j)
                     ∧ total_of (vd !!! j) <= total_of (sample !!! j)).
  { intros j. subst vd. unfold visible_diff. fold n.
    destruct (usage_update_surplus_range n 0 (-1) max_cpus sample dr.1
                (usage node) 0 0) as [Hus Hss]; try (unfold_u64; lia).
    fold ur in Hus, Hss.
    destruct (redistribute_pointwise n 0 (-1) max_cpus
                (threshold_of dr.2 cpu_cnt max_cpus) ur.1.1 dr.1 ur.1.2 ur.2)
      with (j := j) as [Hok' Htot]; try assumption.
    { apply u64_range. }
    { intros j'. apply (Hd j'). }
    split; [exact Hok'|]. rewrite Htot. apply (Hd j). }
  set (a0 := mk_acc (view node) 0 0 0 0 0 0 0 0%nat).
  set (acc := accumulate_view n 0 (-1) max_cpus ur.1.1 vd a0).
  exists acc. split; [done|]. intros j.
  destruct (Hok j) as (Hsj & Huj & Hvj).
  destruct (Hvd j) as [Hvok Hvtot].
  destruct (Hwrap j) as (Hwu & Hws & Hwi).
  destruct (accumulate_view_lookup n 0%nat (-1) max_cpus ur.1.1 vd a0 j)
    as [H|H]; fold acc in H; rewrite H; cbn [a0 va_view].
  - destruct Hvj as (? & ? & ?). repeat split; try lia; unfold_u64; lia.
  - unfold add_counters. cbn [user system idle].
    destruct Hvj as (? & ? & ?). unfold total_of in *.
    rewrite !uadd_small by (norm_u64; lia).
    norm_u64. lia.
Qed.

(** One reconciliation: no reset, no wrap-around. *)
Lemma view_monotone_step (e : host_env) (nprocs max_cpus cpu_cnt : Z)
    (sample : list cpuacct_usage) (node : cg_proc_stat) :
  (Z.to_nat nprocs <= length (usage node))%nat →
  (Z.to_nat nprocs <= length (view node))%nat →
  (∀ j, counters_ok (sample !!! j) ∧ counters_ok (usage node !!! j) ∧
        counters_ok (view node !!! j)) →
  (∀ j, (j < Z.to_nat nprocs)%nat → online (sample !!! j) = true →
        user (usage node !!! j) <= user (sample !!! j)) →
  (∀ j, user (view node !!! j) + total_of (sample !!! j) < ULONG_MOD ∧
        system (view node !!! j) + total_of (sample !!! j) < ULONG_MOD ∧
        idle (view node !!! j) + total_of (sample !!! j) < ULONG_MOD) →
  ∀ j, view_entry_grows e max_cpus node
         (reconcile e nprocs max_cpus cpu_cnt sample node).1 j.
Proof.
  intros Hlu Hlv Hok Hfwd Hwrap j. unfold view_entry_grows.
  split.
  - intros Hq.
    destruct (view_accumulated e nprocs max_cpus cpu_cnt sample node
                Hlu Hlv Hok Hfwd Hwrap Hq) as (acc & -> & Hacc).
    destruct (Hacc j) as (Hau & Has & Hai & Hair).
    destruct (revise_partial_lookup e max_cpus acc j Hair) as (-> & -> & _).
    split; [done|]. split; [done|].
    intros Hoff. by rewrite revise_partial_off.
  - intros Hq.
    set (n := Z.to_nat nprocs) in *.
    assert (E0 : reset_scan n 0 sample nprocs node = node).
    { apply reset_scan_idle. intros j' ? ?. apply Hfwd; [lia|done]. }
    pose proof (read_deltas_ok nprocs sample node Hok Hwrap) as Hd.
    cbn zeta in Hd. fold n in Hd.
    set (dr := diff_cpu_usage (usage node) sample (replicate n zero_usage)
                 nprocs) in *.
    rewrite reconcile_view. fold n. rewrite E0. fold dr.
    set (ur := usage_update_loop n 0 (-1) max_cpus sample dr.1 (usage node)
                 0 0).
    destruct (Hok j) as (Hsj & Huj & Hvj).
    replace (0 <? max_cpus) with false by (symmetry; apply Z.ltb_ge; lia).
    destruct (decide (j < n)%nat) as [Hj|Hj].
    + rewrite copy_usage_lookup by lia. case_decide; [|lia].
      subst ur. rewrite usage_update_lookup by lia. case_decide; [|lia].
      destruct (Hd j) as (Hdok & _ & Hu & Hs & Hi).
      destruct (online (sample !!! j)); cbn [set_online online user system idle].
      * rewrite !uadd_small by (norm_u64; lia). norm_u64. lia.
      * repeat split; intros; lia.
    + rewrite copy_usage_lookup by lia. case_decide; [lia|].
      repeat split; intros; lia.
Qed.

(** Under a quota the idle time of the view goes down at one CPU at most:
    the one the partial-CPU revision is made on. *)
Lemma view_idle_step (e : host_env) (nprocs max_cpus cpu_cnt : Z)
    (sample : list cpuacct_usage) (node : cg_proc_stat) :
  (Z.to_nat nprocs <= length (usage node))%nat →
  (Z.to_nat nprocs <= length (view node))%nat →
  (∀ j, counters_ok (sample !!! j) ∧ counters_ok (usage node !!! j) ∧
        counters_ok (view node !!! j)) →
  (∀ j, (j < Z.to_nat nprocs)%nat → online (sample !!! j) = true →
        user (usage node !!! j) <= user (sample !!! j)) →
  (∀ j, user (view node !!! j) + total_of (sample !!! j) < ULONG_MOD ∧
        system (view node !!! j) + total_of (sample !!! j) < ULONG_MOD ∧
        idle (view node !!! j) + total_of (sample !!! j) < ULONG_MOD) →
  0 < max_cpus →
  ∃ k : nat, ∀ j, j ≠ k →
    idle (view node !!! j)
    <= idle (view (reconcile e nprocs max_cpus cpu_cnt sample node).1 !!! j).
Proof.
  intros Hlu Hlv Hok Hfwd Hwrap Hq.
  destruct (view_accumulated e nprocs max_cpus cpu_cnt sample node
              Hlu Hlv Hok Hfwd Hwrap Hq) as (acc & -> & Hacc).
  exists (va_max_diff_idle_index acc). intros j Hj.
  destruct (Hacc j) as (_ & _ & Hai & _).
  unfold revise_partial. destruct (PrimFloat.ltb _ _); [|done].
  cbn [va_view]. rewrite list_lookup_total_alter.
  case_decide as Hk; [|done]. destruct Hk as [Hk _]. congruence.
Qed.

(** C1, as stated, fails: host and cgroup counters only grow over the three
    reads and nothing is reset, yet the idle time of the view of CPU 0 goes
    from 25 at the second read to 15 at the third, where the revision for half
    a CPU takes 50 ticks off the 40 the sample brings. *)
Lemma partial_cpu_lowers_idle_counterexample :
  (λ n, idle (view n !!! 0%nat))
    <$> lookup_node half_cpu_env (history half_read_2) cg_a = Some 25 ∧
  (λ n, idle (view n !!! 0%nat))
    <$> lookup_node half_cpu_env (history half_read_3) cg_a = Some 15.
Proof. split; vm_compute; reflexivity. Qed.

(** ** The node in the registry across a read *)

Lemma chain_find_cg name chain node :
  chain_find name chain = Some node → cg node = name.
Proof.
  induction chain as [|n chain IH]; cbn; [done|].
  case_bool_decide as H; [by intros [= <-]|exact IH].
Qed.

Lemma chain_find_store node chain old :
  chain_find (cg node) chain = Some old →
  chain_find (cg node) (chain_store node chain) = Some node.
Proof.
  induction chain as [|n chain IH]; cbn; [done|].
  case_bool_decide as H.
  - intros _. cbn. by rewrite bool_decide_eq_true_2.
  - intros Hf. cbn. rewrite bool_decide_eq_false_2 by done. by apply IH.
Qed.

Lemma lookup_store_node e reg node old :
  lookup_node e reg (cg node) = Some old →
  lookup_node e (store_node e reg node) (cg node) = Some node.
Proof.
  unfold lookup_node, store_node.
  destruct (reg !! hash_of e (cg node)) as [head|] eqn:Eh; [|done].
  intros Hf. change (chain_find (cg node) (next head) = Some old) in Hf.
  unfold registry in *. rewrite list_lookup_insert_eq by (by eapply lookup_lt_Some).
  change (chain_find (cg node) (chain_store node (next head)) = Some node).
  by eapply chain_find_store.
Qed.

Lemma chain_find_prune e name chain :
  cgfs_param_exist e name = true →
  chain_find name (prune_proc_stat_list e chain) = chain_find name chain.
Proof.
  intros Hex. unfold prune_proc_stat_list.
  induction chain as [|n chain IH]; [done|].
  rewrite filter_cons. cbn [chain_find].
  case_bool_decide as Hn.
  - subst name. rewrite decide_True by done. cbn.
    by rewrite bool_decide_eq_true_2.
  - destruct (decide _); [|done]. cbn.
    by rewrite bool_decide_eq_false_2.
Qed.

Lemma prune_history_lookup e reg : ∀ h head,
  reg !! h = Some head →
  ∃ head', prune_proc_stat_history e reg !! h = Some head' ∧
           (next head' = next head ∨
            next head' = prune_proc_stat_list e (next head)).
Proof.
  induction reg as [|x reg IH]; intros h head; [done|].
  cbn [prune_proc_stat_history].
  destruct (_ <? _); [intros H; exists head; by split; [|left]|].
  destruct h as [|h]; cbn.
  - intros [= ->]. destruct (next head) eqn:En.
    + exists head. split; [done|]. left. done.
    + eexists. split; [done|]. by right.
  - apply IH.
Qed.

Lemma lookup_prune e reg name :
  cgfs_param_exist e name = true →
  lookup_node e (prune_proc_stat_history e reg) name = lookup_node e reg name.
Proof.
  intros Hex. unfold lookup_node.
  destruct (reg !! hash_of e name) as [head|] eqn:Eh.
  - destruct (prune_history_lookup e reg _ _ Eh) as (head' & -> & [Hn|Hn]);
      cbn; rewrite Hn; [done|]. by apply chain_find_prune.
  - assert (prune_proc_stat_history e reg !! hash_of e name = None) as ->;
      [|done].
    apply lookup_ge_None_2. apply lookup_ge_None_1 in Eh.
    assert (Hlen : ∀ r, length (prune_proc_stat_history e r) = length r).
    { clear. induction r as [|x r IH]; cbn; [done|].
      destruct (_ <? _); cbn; [done|]. by rewrite IH. }
    by rewrite Hlen.
Qed.

(** A lookup that finds a free node returns it locked, expanded when it
    was too small, and stores it; when the expansion fails the node stays as
    it was. *)
Lemma find_or_create_found e reg u n name node :
  lookup_node e reg name = Some node →
  lock node = false →
  cgfs_param_exist e name = true →
  ∃ reg1,
    lookup_node e reg1 name = Some node ∧
    find_or_create_proc_stat_node e reg u n name =
      if cpu_count node <? n then
        match expand_proc_stat_node e (with_lock node true) n with
        | None => (NoNode, store_node e reg1 (with_lock (with_lock node true) false))
        | Some node' => (Locked node', store_node e reg1 node')
        end
      else (Locked (with_lock node true),
            store_node e reg1 (with_lock node true)).
Proof.
  intros Hl Hfree Hex. unfold find_or_create_proc_stat_node.
  pose proof (find_proc_stat_node_lookup e reg name) as Hf.
  assert (Hreg : lookup_node e (find_proc_stat_node e reg name).2 name
                 = Some node).
  { unfold find_proc_stat_node.
    destruct (reg !! hash_of e name) as [head|]; [|done].
    destruct (next head); [done|]. cbn. by rewrite lookup_prune. }
  rewrite Hl, lookup_prune, Hl in Hf by done.
  destruct (find_proc_stat_node e reg name) as [found reg1].
  cbn in Hf, Hreg. rewrite Hf. unfold lock_and_expand. rewrite Hfree.
  exists reg1. split; [done|]. cbn [with_lock cpu_count]. done.
Qed.

Lemma reset_scan_cg n : ∀ curcpu sample nprocs node,
  cg (reset_scan n curcpu sample nprocs node) = cg node.
Proof.
  induction n as [|n IH]; intros curcpu sample nprocs node; cbn [reset_scan];
    [done|].
  destruct (negb _); [apply IH|]. by destruct (_ <? _).
Qed.

Lemma reconcile_cg e nprocs max_cpus cpu_cnt sample node :
  cg (reconcile e nprocs max_cpus cpu_cnt sample node).1 = cg node.
Proof.
  unfold reconcile.
  destruct (diff_cpu_usage _ _ _ _) as [diff total_sum].
  destruct (usage_update_loop _ _ _ _ _ _ _ _ _) as [[usage' us] ss].
  destruct (0 <? max_cpus); cbn [fst cg].
  - apply reset_scan_cg.
  - destruct (copy_usage_to_view _ _ _ _ _ _ _) as [[[v a] b] c].
    cbn [fst cg]. apply reset_scan_cg.
Qed.

(** Once the node is held, the read leaves it in the registry either as it
    found it or reconciled. *)
Lemma read_locked_node_view e reg nprocs max_cpus st line rest size node1 old :
  lookup_node e reg (cg node1) = Some old →
  ∃ node',
    lookup_node e
      (history (read_locked_node e reg nprocs max_cpus st line rest size node1))
      (cg node1) = Some node' ∧
    (view node' = view old ∨
     view node' =
       view (reconcile e nprocs max_cpus (ps_cpu_cnt st) (ps_usage st) node1).1).
Proof.
  intros Hl. unfold read_locked_node.
  destruct (negb (alloc_diff_ok e)); cbn [history].
  { exists old. split; [done|by left]. }
  pose proof (reconcile_cg e nprocs max_cpus (ps_cpu_cnt st) (ps_usage st) node1)
    as Hcg.
  destruct (reconcile _ _ _ _ _ _) as [node2 sums]. cbn [fst] in *.
  destruct (render _ _ _ _ _ _ _); cbn [history].
  - exists (with_lock node2 false). split; [|by right].
    rewrite <- Hcg. change (cg node2) with (cg (with_lock node2 false)).
    eapply lookup_store_node. cbn [with_lock cg]. by rewrite Hcg.
  - exists node2. split; [|by right].
    rewrite <- Hcg. eapply lookup_store_node. by rewrite Hcg.
  - exists node2. split; [|by right].
    rewrite <- Hcg. eapply lookup_store_node. by rewrite Hcg.
Qed.

(** ** The node mutex on the failure paths *)

Lemma reset_scan_lock n : ∀ curcpu sample nprocs node,
  lock (reset_scan n curcpu sample nprocs node) = lock node.
Proof.
  induction n as [|n IH]; intros curcpu sample nprocs node; cbn [reset_scan];
    [done|].
  destruct (negb _); [apply IH|]. by destruct (_ <? _).
Qed.

Lemma reconcile_lock e nprocs max_cpus cpu_cnt sample node :
  lock (reconcile e nprocs max_cpus cpu_cnt sample node).1 = lock node.
Proof.
  unfold reconcile.
  destruct (diff_cpu_usage _ _ _ _) as [diff total_sum].
  destruct (usage_update_loop _ _ _ _ _ _ _ _ _) as [[usage' us] ss].
  destruct (0 <? max_cpus); cbn [fst lock].
  - apply reset_scan_lock.
  - destruct (copy_usage_to_view _ _ _ _ _ _ _) as [[[v a] b] c].
    cbn [fst lock]. apply reset_scan_lock.
Qed.

Lemma stat_text_length nprocs max_cpus node sums line rest :
  (0 < String.length (stat_text nprocs max_cpus node sums line rest))%nat.
Proof.
  unfold stat_text, cpu_all_line. rewrite !string_length_app.
  change (String.length "cpu  ") with 5%nat. lia.
Qed.

(** Every return of 0 that follows the locking of the node leaves the
    mutex held: the node the registry has for the cgroup after the call is
    locked. *)
Lemma failed_read_keeps_mutex e reg nprocs max_cpus st line rest size node1 out :
  lookup_node e reg (cg node1) = Some node1 →
  lock node1 = true →
  status (read_locked_node e reg nprocs max_cpus st line rest size node1)
    = Returned 0 out →
  ∃ node',
    lookup_node e
      (history (read_locked_node e reg nprocs max_cpus st line rest size node1))
      (cg node1) = Some node' ∧
    lock node' = true.
Proof.
  intros Hl Hlock. unfold read_locked_node.
  destruct (negb (alloc_diff_ok e)); cbn [status history].
  { intros _. by exists node1. }
  pose proof (reconcile_cg e nprocs max_cpus (ps_cpu_cnt st) (ps_usage st) node1)
    as Hcg.
  pose proof (reconcile_lock e nprocs max_cpus (ps_cpu_cnt st) (ps_usage st)
                node1) as Hlk.
  destruct (reconcile _ _ _ _ _ _) as [node2 sums]. cbn [fst] in *.
  destruct line as [l|].
  - rewrite render_layout.
    pose proof (stat_text_length nprocs max_cpus node2 sums l rest) as Hlen.
    destruct (_ <=? _); cbn [status history total_len].
    + intros _. exists node2. split; [|by rewrite Hlk].
      rewrite <- Hcg. eapply lookup_store_node. by rewrite Hcg.
    + intros [= H _]; try lia.
  - rewrite render_unset.
    destruct (_ <=? _); cbn [status history]; [|done].
    intros _. exists node2. split; [|by rewrite Hlk].
    rewrite <- Hcg. eapply lookup_store_node. by rewrite Hcg.
Qed.

(** C3 at three failing reads: when the diff array cannot be allocated,
    and when the text does not fit the buffer, the read returns 0 and the mutex
    of the node stays held, so that the next read of the cgroup never returns;
    when the node cannot be expanded, the read returns 0 with the mutex
    released. *)
Lemma node_mutex_held_after_failed_read :
  (status leak_read_alloc = Returned 0 EmptyString ∧
   lock <$> lookup_node one_cpu_env (history leak_read_alloc) cg_a = Some true ∧
   status read_after_leak = Blocked) ∧
  (status leak_read_truncated = Returned 0 EmptyString ∧
   lock <$> lookup_node one_cpu_env (history leak_read_truncated) cg_a
     = Some true) ∧
  (status read_expand_fail = Returned 0 EmptyString ∧
   lock <$> lookup_node one_cpu_env (history read_expand_fail) cg_a
     = Some false).
Proof. repeat split; vm_compute; reflexivity. Qed.

(** ** The stored view from one read to the next *)

Lemma handed_over_same n node b :
  (n <= Z.to_nat (cpu_count node))%nat →
  (Z.to_nat (cpu_count node) <= length (usage node))%nat →
  (Z.to_nat (cpu_count node) <= length (view node))%nat →
  handed_over n node (with_lock node b).
Proof.
  intros Hn Hlu Hlv. unfold handed_over. cbn [with_lock usage view].
  split; [lia|]. split; [lia|]. intros j. left.
  repeat split. lia.
Qed.

Lemma handed_over_expanded e node node' n :
  0 <= cpu_count node < n →
  expand_proc_stat_node e node n = Some node' →
  handed_over (Z.to_nat n) node node'.
Proof.
  intros Hn. unfold expand_proc_stat_node.
  destruct (alloc_expand_ok e); [|done]. intros [= <-].
  unfold handed_over. cbn [usage view]. rewrite !expand_array_length.
  split; [lia|]. split; [lia|]. intros j.
  destruct (decide (j < Z.to_nat n)%nat) as [Hj|Hj].
  - rewrite !expand_array_lookup by assumption.
    destruct (Z.ltb_spec (Z.of_nat j) (cpu_count node)).
    + left. repeat split. lia.
    + right. repeat split. lia.
  - destruct (decide (Z.of_nat j < cpu_count node)); [lia|].
    right. rewrite !lookup_total_zero_ge
      by (rewrite expand_array_length; lia).
    repeat split. lia.
Qed.

Lemma view_entry_grows_refl e max_cpus node after j :
  same_counters (view after !!! j) (view node !!! j) →
  view_entry_grows e max_cpus node after j.
Proof.
  intros (Hu & Hs & Hi). unfold view_entry_grows.
  rewrite Hu, Hs, Hi. repeat split; intros; lia.
Qed.

(** The reconciliation of the node handed over does not take the view
    below that of the node found. *)
Lemma view_monotone_handed_over e nprocs max_cpus cpu_cnt sample node node1 :
  handed_over (Z.to_nat nprocs) node node1 →
  (∀ j, counters_ok (sample !!! j) ∧ counters_ok (usage node !!! j) ∧
        counters_ok (view node !!! j)) →
  (∀ j, Z.of_nat j < cpu_count node → online (sample !!! j) = true →
        user (usage node !!! j) <= user (sample !!! j)) →
  (∀ j, user (view node !!! j) + total_of (sample !!! j) < ULONG_MOD ∧
        system (view node !!! j) + total_of (sample !!! j) < ULONG_MOD ∧
        idle (view node !!! j) + total_of (sample !!! j) < ULONG_MOD) →
  ∀ j, Z.of_nat j < cpu_count node →
    view_entry_grows e max_cpus node
      (reconcile e nprocs max_cpus cpu_cnt sample node1).1 j.
Proof.
  intros (Hlu & Hlv & Hent) Hok Hfwd Hwrap j Hj.
  assert (Hstep : ∀ j, view_entry_grows e max_cpus node1
            (reconcile e nprocs max_cpus cpu_cnt sample node1).1 j).
  { apply view_monotone_step; try assumption.
    - intros j'. destruct (Hok j') as (Hs & Hu & Hv). split; [done|].
      unfold counters_ok in *.
      destruct (Hent j') as [((-> & -> & ->) & (-> & -> & ->) & _)
                            |(_ & (-> & -> & ->) & (-> & -> & ->))].
      + tauto.
      + unfold_u64. cbn. lia.
    - intros j' Hj' Hon.
      destruct (Hent j') as [((-> & _) & _ & Hc)|(_ & (-> & _) & _)].
      + apply Hfwd; [by apply Hc|done].
      + destruct (Hok j') as ((? & _) & _). unfold_u64. cbn. lia.
    - intros j'. destruct (Hwrap j') as (? & ? & ?).
      destruct (Hok j') as (_ & _ & (? & ? & ?)).
      destruct (Hent j') as [(_ & (-> & -> & ->) & _)|(_ & _ & (-> & -> & ->))].
      + done.
      + cbn [zero_usage user system idle]. norm_u64. lia. }
  specialize (Hstep j).
  destruct (Hent j) as [((Hu & Hs & Hi) & (Hvu & Hvs & Hvi) & _)|(? & _)];
    [|lia].
  unfold view_entry_grows in *.
  rewrite Hu, Hs, Hi, Hvu, Hvs, Hvi in Hstep. exact Hstep.
Qed.

(** The same for the idle time under a quota: it goes down at one CPU at
    most. *)
Lemma view_idle_handed_over e nprocs max_cpus cpu_cnt sample node node1 :
  handed_over (Z.to_nat nprocs) node node1 →
  (∀ j, counters_ok (sample !!! j) ∧ counters_ok (usage node !!! j) ∧
        counters_ok (view node !!! j)) →
  (∀ j, Z.of_nat j < cpu_count node → online (sample !!! j) = true →
        user (usage node !!! j) <= user (sample !!! j)) →
  (∀ j, user (view node !!! j) + total_of (sample !!! j) < ULONG_MOD ∧
        system (view node !!! j) + total_of (sample !!! j) < ULONG_MOD ∧
        idle (view node !!! j) + total_of (sample !!! j) < ULONG_MOD) →
  0 < max_cpus →
  ∃ k : nat, ∀ j, Z.of_nat j < cpu_count node → j ≠ k →
    idle (view node !!! j)
    <= idle (view (reconcile e nprocs max_cpus cpu_cnt sample node1).1 !!! j).
Proof.
  intros (Hlu & Hlv & Hent) Hok Hfwd Hwrap Hq.
  destruct (view_idle_step e nprocs max_cpus cpu_cnt sample node1)
    as (k & Hk); try assumption.
  - intros j'. destruct (Hok j') as (Hs & Hu & Hv). split; [done|].
    unfold counters_ok in *.
    destruct (Hent j') as [((-> & -> & ->) & (-> & -> & ->) & _)
                          |(_ & (-> & -> & ->) & (-> & -> & ->))].
    + tauto.
    + unfold_u64. cbn. lia.
  - intros j' Hj' Hon.
    destruct (Hent j') as [((-> & _) & _ & Hc)|(_ & (-> & _) & _)].
    + apply Hfwd; [by apply Hc|done].
    + destruct (Hok j') as ((? & _) & _). unfold_u64. cbn. lia.
  - intros j'. destruct (Hwrap j') as (? & ? & ?).
    destruct (Hok j') as (_ & _ & (? & ? & ?)).
    destruct (Hent j') as [(_ & (-> & -> & ->) & _)|(_ & _ & (-> & -> & ->))].
    + done.
    + cbn [zero_usage user system idle]. norm_u64. lia.
  - exists k. intros j Hj Hne. specialize (Hk j Hne).
    destruct (Hent j) as [(_ & (_ & _ & Hvi) & _)|(? & _)]; [|lia].
    by rewrite Hvi in Hk.
Qed.

(** C1, as the code has it: a read of a cgroup whose node is in the
    registry, free, and whose cgroup still exists leaves a node in the registry;
    when the parsed sample has the user time of no online CPU below the stored
    usage (no reset) and no counter can wrap around, then for every CPU of the
    node the stored view does not decrease in user and system when [max_cpus]
    is positive, nor in idle unless the read makes the partial-CPU revision
    ([exact_cpus < max_cpus]), and then the idle time does not decrease at any
    CPU but one; when [max_cpus] is 0 a counter of the view does not decrease
    where it was not above the stored usage.  This holds whether the read
    succeeds, fails, or has to expand the node first. *)
Theorem stored_view_monotone (e : host_env) (reg : registry) (name : string)
    (cs : cpuset) (sample : list cpuacct_usage) (size : Z)
    (f : list host_line) (bufsize : Z) (node : cg_proc_stat)
    (st : parse_state) (line : option host_line) (rest : list host_line) :
  lookup_node e reg name = Some node →
  lock node = false →
  cgfs_param_exist e name = true →
  parse_host_stat cs size f None (mk_parse sample (-1) 0 [])
    = Some (st, line, rest) →
  0 <= cpu_count node →
  (Z.to_nat (cpu_count node) <= length (usage node))%nat →
  (Z.to_nat (cpu_count node) <= length (view node))%nat →
  (∀ j, counters_ok (ps_usage st !!! j) ∧ counters_ok (usage node !!! j) ∧
        counters_ok (view node !!! j)) →
  (∀ j, Z.of_nat j < cpu_count node → online (ps_usage st !!! j) = true →
        user (usage node !!! j) <= user (ps_usage st !!! j)) →
  (∀ j, user (view node !!! j) + total_of (ps_usage st !!! j) < ULONG_MOD ∧
        system (view node !!! j) + total_of (ps_usage st !!! j) < ULONG_MOD ∧
        idle (view node !!! j) + total_of (ps_usage st !!! j) < ULONG_MOD) →
  ∃ node' (k : nat),
    lookup_node e
      (history (cpuview_proc_stat e reg name cs sample size f bufsize)) name
      = Some node' ∧
    (∀ j, Z.of_nat j < cpu_count node →
       view_entry_grows e
         (clamp_max_cpus (max_cpu_count e) (ps_cpu_cnt st)) node node' j) ∧
    (0 < clamp_max_cpus (max_cpu_count e) (ps_cpu_cnt st) →
     ∀ j, Z.of_nat j < cpu_count node → j ≠ k →
       idle (view node !!! j) <= idle (view node' !!! j)).
Proof.
  intros Hl Hfree Hex Hp Hc0 Hlu Hlv Hok Hfwd Hwrap.
  assert (Hcg : cg node = name).
  { unfold lookup_node in Hl. destruct (reg !! _); [|done].
    by eapply chain_find_cg. }
  unfold cpuview_proc_stat. rewrite Hp.
  set (nprocs := working_nprocs e size).
  set (max_cpus := clamp_max_cpus (max_cpu_count e) (ps_cpu_cnt st)).
  destruct (find_or_create_found e reg (ps_usage st) nprocs name node
              Hl Hfree Hex) as (reg1 & Hl1 & ->).
  assert (Hkey : ∀ node1,
    cg node1 = name → handed_over (Z.to_nat nprocs) node node1 →
    ∃ node' (k : nat),
      lookup_node e
        (history (read_locked_node e (store_node e reg1 node1) nprocs max_cpus
                    st line rest bufsize node1)) name = Some node' ∧
      (∀ j, Z.of_nat j < cpu_count node →
            view_entry_grows e max_cpus node node' j) ∧
      (0 < max_cpus →
       ∀ j, Z.of_nat j < cpu_count node → j ≠ k →
            idle (view node !!! j) <= idle (view node' !!! j))).
  { intros node1 Hcg1 Hho.
    assert (Hl2 : lookup_node e (store_node e reg1 node1) (cg node1)
                  = Some node1).
    { eapply lookup_store_node. by rewrite Hcg1. }
    destruct (read_locked_node_view e (store_node e reg1 node1) nprocs max_cpus
                st line rest bufsize node1 node1 Hl2) as (node' & Hn' & Hv).
    assert (Hsame : ∀ j, Z.of_nat j < cpu_count node →
              same_counters (view node1 !!! j) (view node !!! j)).
    { intros j Hj. destruct Hho as (_ & _ & Hent).
      destruct (Hent j) as [(_ & ? & _)|(? & _)]; [done|lia]. }
    destruct Hv as [Hv|Hv].
    - exists node', 0%nat. rewrite <- Hcg1. split; [done|]. split.
      + intros j Hj. apply view_entry_grows_refl. rewrite Hv. by apply Hsame.
      + intros _ j Hj _. rewrite Hv.
        destruct (Hsame j Hj) as (_ & _ & ->). done.
    - destruct (Z_lt_le_dec 0 max_cpus) as [Hq|Hq].
      + destruct (view_idle_handed_over e nprocs max_cpus (ps_cpu_cnt st)
                    (ps_usage st) node node1 Hho Hok Hfwd Hwrap Hq)
          as (k & Hk).
        exists node', k. rewrite <- Hcg1. split; [done|]. split.
        * intros j Hj.
          pose proof (view_monotone_handed_over e nprocs max_cpus
                        (ps_cpu_cnt st) (ps_usage st) node node1 Hho Hok Hfwd
                        Hwrap j Hj) as Hm.
          unfold view_entry_grows in *. by rewrite Hv.
        * intros _ j Hj Hne. rewrite Hv. by apply Hk.
      + exists node', 0%nat. rewrite <- Hcg1. split; [done|]. split.
        * intros j Hj.
          pose proof (view_monotone_handed_over e nprocs max_cpus
                        (ps_cpu_cnt st) (ps_usage st) node node1 Hho Hok Hfwd
                        Hwrap j Hj) as Hm.
          unfold view_entry_grows in *. by rewrite Hv.
        * intros Hq'. lia. }
  destruct (Z.ltb_spec (cpu_count node) nprocs) as [Hlt|Hge].
  - destruct (expand_proc_stat_node e (with_lock node true) nprocs)
      as [node1|] eqn:Eexp.
    + apply Hkey.
      * revert Eexp. unfold expand_proc_stat_node.
        destruct (alloc_expand_ok e); [|done]. by intros [= <-].
      * assert (Hho : handed_over (Z.to_nat nprocs) (with_lock node true) node1)
          by (eapply handed_over_expanded; [|exact Eexp]; cbn; lia).
        exact Hho.
    + cbn [history].
      exists (with_lock (with_lock node true) false), 0%nat. split.
      * rewrite <- Hcg.
        change (cg node) with (cg (with_lock (with_lock node true) false)).
        eapply lookup_store_node. cbn [with_lock cg]. by rewrite Hcg.
      * split.
        -- intros j Hj. apply view_entry_grows_refl. apply same_counters_refl.
        -- intros _ j _ _. cbn [with_lock view]. lia.
  - apply Hkey; [done|]. apply handed_over_same; lia.
Qed.

Lemma stored_view_monotone_witness :
  ∃ node' (k : nat),
    lookup_node one_cpu_env (history full_read_2) cg_a = Some node' ∧
    user (view node_after_full_read_1 !!! 0%nat) <= user (view node' !!! 0%nat) ∧
    idle (view node_after_full_read_1 !!! 0%nat) <= idle (view node' !!! 0%nat) ∧
    (∀ j, Z.of_nat j < 1 → j ≠ k →
       idle (view node_after_full_read_1 !!! j) <= idle (view node' !!! j)).
Proof.
  destruct (stored_view_monotone one_cpu_env (history full_read_1) cg_a [0]
              [mk_usage 200 100 0 false] 1
              [cpu_stat_line 0 200 100 400; intr_line] 4096
              node_after_full_read_1 parsed_full_read_2 (Some intr_line) [])
    as (node' & k & Hl & Hm & Hidle).
  - vm_compute. reflexivity.
  - reflexivity.
  - reflexivity.
  - vm_compute. reflexivity.
  - cbn. lia.
  - cbn. lia.
  - cbn. lia.
  - intros [|[|j]]; cbn; unfold counters_ok, is_u64, ULONG_MOD; cbn; lia.
  - intros [|j] Hj Hon; cbn in *; lia.
  - intros [|[|j]]; cbn; unfold total_of, ULONG_MOD; cbn; lia.
  - exists node', k. split; [exact Hl|].
    destruct (Hm 0%nat) as [Hq _]; [cbn; lia|].
    destruct Hq as (Hu & _ & Hi); [vm_compute; reflexivity|].
    split; [exact Hu|]. split; [apply Hi; vm_compute; reflexivity|].
    apply Hidle. vm_compute. reflexivity.
Defined.

(** * The cache across reads *)

(** ** Chains *)

Lemma chain_find_None name chain :
  chain_find name chain = None ↔ name ∉ cg <$> chain.
Proof.
  induction chain as [|n chain IH]; cbn.
  - split; [intros _; apply not_elem_of_nil|done].
  - rewrite not_elem_of_cons. case_bool_decide as H.
    + split; [done|]. intros [Hne _]. by destruct Hne.
    + rewrite IH. split; [intros Hn; split; [congruence|done]|by intros [_ ?]].
Qed.

Lemma chain_find_elem name chain node :
  chain_find name chain = Some node → node ∈ chain.
Proof.
  induction chain as [|n chain IH]; cbn; [done|].
  case_bool_decide.
  - intros [= <-]. apply elem_of_cons. by left.
  - intros Hf. apply elem_of_cons. right. by apply IH.
Qed.

Lemma chain_find_app name chain node :
  chain_find name (chain ++ [node]) =
    match chain_find name chain with
    | Some n => Some n
    | None => if bool_decide (cg node = name) then Some node else None
    end.
Proof.
  induction chain as [|n chain IH]; cbn; [done|].
  destruct (bool_decide (cg n = name)); [done|exact IH].
Qed.

Lemma chain_store_cg node chain :
  cg <$> chain_store node chain = cg <$> chain.
Proof.
  induction chain as [|n chain IH]; cbn; [done|].
  case_bool_decide as H; cbn; [by rewrite H|by rewrite IH].
Qed.

Lemma chain_store_Forall (P : cg_proc_stat → Prop) node chain :
  P node → Forall P chain → Forall P (chain_store node chain).
Proof.
  intros Hn. induction 1 as [|n chain Hx Hc IH]; cbn; [constructor|].
  case_bool_decide; by constructor.
Qed.

Lemma chain_find_store_other node chain name :
  cg node ≠ name →
  chain_find name (chain_store node chain) = chain_find name chain.
Proof.
  intros Hne. induction chain as [|n chain IH]; cbn; [done|].
  case_bool_decide as H; cbn.
  - rewrite !bool_decide_eq_false_2; [done|congruence|done].
  - case_bool_decide; [done|apply IH].
Qed.

Lemma chain_wf_store e h node chain :
  hash_of e (cg node) = h → node_wf node →
  chain_wf e h chain → chain_wf e h (chain_store node chain).
Proof.
  intros Hh Hn [Hnd Hall]. split.
  - by rewrite chain_store_cg.
  - by apply chain_store_Forall.
Qed.

Lemma chain_wf_prune e h chain :
  chain_wf e h chain → chain_wf e h (prune_proc_stat_list e chain).
Proof.
  unfold prune_proc_stat_list. intros [Hnd Hall]. split.
  - induction chain as [|n chain IH]; [constructor|].
    apply Forall_cons in Hall as [_ Hall].
    cbn in Hnd. apply NoDup_cons in Hnd as [Hn Hnd].
    rewrite filter_cons. destruct (decide _); [|by apply IH].
    cbn. apply NoDup_cons. split; [|by apply IH].
    intros Hin. apply Hn. apply list_elem_of_fmap in Hin as (x & Hx & Hin).
    apply list_elem_of_fmap. exists x. split; [done|].
    by apply list_elem_of_filter in Hin as [_ ?].
  - rewrite Forall_forall in Hall. apply Forall_forall. intros x Hx.
    apply list_elem_of_filter in Hx as [_ Hx]. by apply Hall.
Qed.

Lemma chain_wf_add e h node chain :
  hash_of e (cg node) = h → node_wf node →
  chain_find (cg node) chain = None →
  chain_wf e h chain → chain_wf e h (chain ++ [node]).
Proof.
  intros Hh Hn Hf [Hnd Hall]. split.
  - rewrite fmap_app. apply NoDup_app. split; [done|]. split.
    + intros x Hx Hin. cbn in Hin. apply list_elem_of_singleton in Hin.
      subst x. by apply chain_find_None in Hf.
    + cbn. apply NoDup_singleton.
  - apply Forall_app. split; [done|]. apply Forall_cons.
    split; [by split|constructor].
Qed.

(** ** The registry *)

Lemma prune_history_length e reg :
  length (prune_proc_stat_history e reg) = length reg.
Proof.
  induction reg as [|x reg IH]; cbn; [done|].
  destruct (_ <? _); cbn; [done|]. by rewrite IH.
Qed.

Lemma registry_wf_prune e reg :
  registry_wf e reg → registry_wf e (prune_proc_stat_history e reg).
Proof.
  intros [Hlen Hch]. split; [by rewrite prune_history_length|].
  intros h head' Hh.
  assert (is_Some (reg !! h)) as [head Hr].
  { apply lookup_lt_is_Some. rewrite <- (prune_history_length e).
    by eapply lookup_lt_Some. }
  destruct (prune_history_lookup e reg h head Hr) as (head2 & H2 & Hn).
  rewrite Hh in H2. injection H2 as <-.
  destruct Hn as [-> | ->]; [by eapply Hch|].
  apply chain_wf_prune. by eapply Hch.
Qed.

Lemma registry_wf_insert e (reg : registry) h head chain t :
  registry_wf e reg → reg !! h = Some head → chain_wf e h chain →
  registry_wf e (<[h := mk_head chain t]> reg).
Proof.
  intros [Hlen Hch] Hh Hc. unfold registry in *. split.
  - by rewrite length_insert.
  - intros h' head' Hl. unfold registry in *.
    destruct (decide (h = h')) as [<-|Hne].
    + rewrite list_lookup_insert_eq in Hl by (by eapply lookup_lt_Some).
      by injection Hl as <-.
    + rewrite list_lookup_insert_ne in Hl by done. by eapply Hch.
Qed.

Lemma registry_wf_store e reg node :
  node_wf node → registry_wf e reg → registry_wf e (store_node e reg node).
Proof.
  intros Hn Hwf. unfold store_node.
  destruct (reg !! hash_of e (cg node)) as [head|] eqn:Eh; [|done].
  eapply registry_wf_insert; [done..|].
  apply chain_wf_store; [done..|]. destruct Hwf as [_ Hch]. by eapply Hch.
Qed.

Lemma registry_wf_find e reg name :
  registry_wf e reg → registry_wf e (find_proc_stat_node e reg name).2.
Proof.
  intros Hwf. unfold find_proc_stat_node.
  destruct (reg !! hash_of e name) as [head|]; [|done].
  destruct (next head); [done|]. cbn. by apply registry_wf_prune.
Qed.

Lemma lookup_node_wf e reg name node :
  registry_wf e reg → lookup_node e reg name = Some node → node_wf node.
Proof.
  intros [_ Hch]. unfold lookup_node.
  destruct (reg !! hash_of e name) as [head|] eqn:Eh; [|done]. cbn.
  intros Hf. apply chain_find_elem in Hf.
  destruct (Hch _ _ Eh) as [_ Hall].
  rewrite Forall_forall in Hall. by apply Hall.
Qed.

Lemma add_proc_stat_node_wf e reg new_node :
  registry_wf e reg → node_wf new_node →
  registry_wf e (add_proc_stat_node e reg new_node).2 ∧
  node_wf (add_proc_stat_node e reg new_node).1 ∧
  cg (add_proc_stat_node e reg new_node).1 = cg new_node.
Proof.
  intros Hwf Hn. unfold add_proc_stat_node.
  destruct (reg !! hash_of e (cg new_node)) as [head|] eqn:Eh; [|done].
  destruct (chain_find (cg new_node) (next head)) as [node|] eqn:Ef; cbn.
  - split; [done|]. split; [|by eapply chain_find_cg].
    eapply lookup_node_wf; [done|]. unfold lookup_node. rewrite Eh. exact Ef.
  - split; [|done]. eapply registry_wf_insert; [done..|].
    apply chain_wf_add; [done..|]. destruct Hwf as [_ Hch]. by eapply Hch.
Qed.

Lemma new_proc_stat_node_wf e u n name node :
  0 <= n → (Z.to_nat n <= length u)%nat →
  new_proc_stat_node e u n name = Some node →
  node_wf node ∧ cg node = name ∧ cpu_count node = n ∧ lock node = false.
Proof.
  intros Hn Hu. unfold new_proc_stat_node.
  destruct (alloc_node_ok e); [|done]. intros [= <-].
  unfold node_wf. cbn. rewrite length_take, length_replicate.
  split; [lia|done].
Qed.

Lemma expand_proc_stat_node_wf e node n node' :
  0 <= n →
  expand_proc_stat_node e node n = Some node' →
  node_wf node' ∧ cg node' = cg node ∧ cpu_count node' = n ∧
  lock node' = lock node.
Proof.
  intros Hn. unfold expand_proc_stat_node.
  destruct (alloc_expand_ok e); [|done]. intros [= <-].
  unfold node_wf. cbn. rewrite !expand_array_length.
  split; [lia|done].
Qed.

Lemma with_lock_wf node b : node_wf node → node_wf (with_lock node b).
Proof. done. Qed.

Lemma lock_and_expand_wf e reg node n :
  registry_wf e reg → 0 <= n → node_wf node →
  registry_wf e (lock_and_expand e reg node n).2 ∧
  ∀ nd, (lock_and_expand e reg node n).1 = Locked nd →
    node_wf nd ∧ cg nd = cg node ∧ n <= cpu_count nd ∧ lock nd = true.
Proof.
  intros Hwf Hn Hnw. unfold lock_and_expand.
  destruct (lock node); [by split|].
  cbn [with_lock cpu_count].
  destruct (cpu_count node <? n) eqn:Elt.
  - destruct (expand_proc_stat_node e _ n) as [node'|] eqn:Ex; cbn.
    + destruct (expand_proc_stat_node_wf _ _ _ _ Hn Ex) as (Hw & Hc & Hk & Hl).
      split; [by apply registry_wf_store|].
      intros ? [= <-]. cbn in Hc, Hl.
      split; [done|]. split; [congruence|]. split; [lia|done].
    + split; [by apply registry_wf_store|done].
  - cbn. split; [by apply registry_wf_store|].
    intros ? [= <-]. cbn.
    split; [done|]. split; [done|]. split; [lia|done].
Qed.

(** What [find_or_create_proc_stat_node] keeps and hands over. *)
Lemma find_or_create_wf e reg u n name :
  registry_wf e reg → 0 <= n → (Z.to_nat n <= length u)%nat →
  registry_wf e (find_or_create_proc_stat_node e reg u n name).2 ∧
  ∀ node, (find_or_create_proc_stat_node e reg u n name).1 = Locked node →
    node_wf node ∧ cg node = name ∧ n <= cpu_count node ∧ lock node = true.
Proof.
  intros Hwf Hn Hu. unfold find_or_create_proc_stat_node.
  pose proof (registry_wf_find e reg name Hwf) as Hwf1.
  pose proof (find_proc_stat_node_lookup e reg name) as Hfl.
  destruct (find_proc_stat_node e reg name) as [found reg1]. cbn in Hwf1, Hfl.
  destruct found as [|node0|]; [| |by split].
  - destruct (new_proc_stat_node e u n name) as [node0|] eqn:En; [|by split].
    destruct (new_proc_stat_node_wf _ _ _ _ _ Hn Hu En) as (Hw0 & Hc0 & _).
    destruct (add_proc_stat_node_wf e reg1 node0 Hwf1 Hw0) as (Ha & Hb & Hc).
    destruct (add_proc_stat_node e reg1 node0) as [node1 reg2].
    cbn in Ha, Hb, Hc. rewrite Hc0 in Hc. rewrite <- Hc.
    by apply lock_and_expand_wf.
  - destruct (lookup_node e reg name) as [nd|] eqn:El; [|done].
    destruct (lookup_node e (prune_proc_stat_history e reg) name); [|done].
    injection Hfl as <-.
    assert (Hcg : cg node0 = name).
    { unfold lookup_node in El.
      destruct (reg !! hash_of e name) as [head|]; [|done].
      by eapply chain_find_cg. }
    rewrite <- Hcg. apply lock_and_expand_wf; [done..|].
    exact (lookup_node_wf e reg name node0 Hwf El).
Qed.

(** ** The sample keeps its size through the parsing *)

Lemma mark_offline_length n : ∀ i s s',
  mark_offline n i s = Some s' → length s' = length s.
Proof.
  induction n as [|n IH]; intros i s s'; cbn [mark_offline].
  - by intros [= <-].
  - destruct (in_bounds i s); [|done]. intros H. apply IH in H.
    by rewrite length_alter in H.
Qed.

Lemma parse_line_length cs size l st st' ctl :
  parse_line cs size l st = Some (st', ctl) →
  length (ps_usage st') = length (ps_usage st).
Proof.
  unfold parse_line.
  destruct (_ =? _)%nat; [by intros [= <- <-]|].
  destruct (line_tag l) as [| |p]; try by intros [= <- <-].
  destruct (_ <=? _); [by intros [= <- <-]|].
  destruct (negb _).
  - destruct (mark_offline _ _ _) as [s|] eqn:Em; [|done].
    intros [= <- <-]. cbn. by eapply mark_offline_length.
  - assert (Hs : ∀ s k,
      (if ps_curcpu st + 1 <? p
       then s ← mark_offline (Z.to_nat (p - (ps_curcpu st + 1)))
                  (ps_curcpu st + 1) (ps_usage st);
            Some (s, p)
       else Some (ps_usage st, ps_curcpu st + 1)) = Some (s, k) →
      length s = length (ps_usage st)).
    { intros s k. destruct (_ <? _).
      - destruct (mark_offline _ _ _) as [s0|] eqn:Em; [|done].
        intros [= <- <-]. by eapply mark_offline_length.
      - by intros [= <- <-]. }
    destruct (if _ <? _ then _ else _) as [[s k]|]; [|done].
    specialize (Hs s k eq_refl).
    cbn [mbind option_bind]. destruct (negb _); [done|].
    destruct (line_fields l) as
      [|? [|? [|? [|? [|? [|? [|? [|? [|? [|? ?]]]]]]]]]];
      try (intros [= <- <-]; cbn; by rewrite length_alter).
    destruct (impute_idle _ _ _ _). intros [= <- <-]. cbn.
    by rewrite length_insert, length_alter.
Qed.

Lemma parse_host_stat_length cs size f : ∀ line st st' line' rest,
  parse_host_stat cs size f line st = Some (st', line', rest) →
  length (ps_usage st') = length (ps_usage st).
Proof.
  induction f as [|l f IH]; intros line st st' line' rest;
    cbn [parse_host_stat].
  { by intros [= <- <- <-]. }
  destruct (parse_line cs size l st) as [[st1 ctl]|] eqn:E; [|done].
  apply parse_line_length in E. destruct ctl.
  - intros H. apply IH in H. congruence.
  - intros [= <- <- <-]. done.
Qed.

(** ** The node keeps its shape through the reconciliation *)

Lemma reset_scan_cases n : ∀ curcpu sample nprocs node,
  reset_scan n curcpu sample nprocs node = node ∨
  reset_scan n curcpu sample nprocs node
    = reset_proc_stat_node node sample nprocs.
Proof.
  induction n as [|n IH]; intros curcpu sample nprocs node; cbn [reset_scan];
    [by left|].
  destruct (negb _); [apply IH|]. destruct (_ <? _); [by right|by left].
Qed.

Lemma reset_proc_stat_node_wf node sample nprocs :
  0 <= nprocs →
  (Z.to_nat nprocs <= length sample)%nat →
  (Z.to_nat nprocs <= length (usage node))%nat →
  (Z.to_nat nprocs <= length (view node))%nat →
  node_wf (reset_proc_stat_node node sample nprocs).
Proof.
  intros H0 Hs Hu Hv. unfold node_wf, reset_proc_stat_node. cbn.
  rewrite !length_app, length_map, !length_take, !length_drop. lia.
Qed.

Lemma copy_usage_length n : ∀ curcpu usage_arr view_arr us ss ids,
  length (copy_usage_to_view n curcpu usage_arr view_arr us ss ids).1.1.1
  = length view_arr.
Proof.
  induction n as [|n IH]; intros curcpu usage_arr view_arr us ss ids;
    cbn [copy_usage_to_view]; [done|].
  destruct (negb _); [apply IH|]. rewrite IH. by rewrite length_insert.
Qed.

Lemma reconcile_cpu_count e nprocs max_cpus cpu_cnt sample node :
  cpu_count (reconcile e nprocs max_cpus cpu_cnt sample node).1
  = cpu_count (reset_scan (Z.to_nat nprocs) 0 sample nprocs node).
Proof.
  unfold reconcile.
  destruct (diff_cpu_usage _ _ _ _) as [diff total_sum].
  destruct (usage_update_loop _ _ _ _ _ _ _ _ _) as [[usage' us] ss].
  destruct (0 <? max_cpus); cbn [fst cpu_count]; [done|].
  by destruct (copy_usage_to_view _ _ _ _ _ _ _) as [[[v a] b] c].
Qed.

Lemma revise_partial_length e max_cpus a :
  length (va_view (revise_partial e max_cpus a)) = length (va_view a).
Proof.
  unfold revise_partial. destruct (PrimFloat.ltb _ _); [|done].
  cbn. by rewrite length_alter.
Qed.

Lemma reconcile_lengths e nprocs max_cpus cpu_cnt sample node :
  let node0 := reset_scan (Z.to_nat nprocs) 0 sample nprocs node in
  length (usage (reconcile e nprocs max_cpus cpu_cnt sample node).1)
    = length (usage node0) ∧
  length (view (reconcile e nprocs max_cpus cpu_cnt sample node).1)
    = length (view node0).
Proof.
  intros node0. split.
  - rewrite reconcile_usage. cbn zeta. by rewrite usage_update_length.
  - rewrite reconcile_view. cbn zeta. destruct (0 <? max_cpus).
    + by rewrite revise_partial_length, accumulate_view_length.
    + by rewrite copy_usage_length.
Qed.

Lemma reconcile_wf e nprocs max_cpus cpu_cnt sample node :
  node_wf node → 0 <= nprocs <= cpu_count node →
  (Z.to_nat nprocs <= length sample)%nat →
  node_wf (reconcile e nprocs max_cpus cpu_cnt sample node).1.
Proof.
  intros (Hc & Hu & Hv) Hn Hs.
  assert (H0 : node_wf (reset_scan (Z.to_nat nprocs) 0 sample nprocs node)).
  { destruct (reset_scan_cases (Z.to_nat nprocs) 0 sample nprocs node)
      as [-> | ->]; [done|].
    apply reset_proc_stat_node_wf; lia. }
  destruct (reconcile_lengths e nprocs max_cpus cpu_cnt sample node)
    as [Hlu Hlv].
  unfold node_wf. rewrite reconcile_cpu_count, Hlu, Hlv. exact H0.
Qed.

Lemma read_locked_node_wf e reg nprocs max_cpus st line rest size node :
  registry_wf e reg → node_wf node → 0 <= nprocs <= cpu_count node →
  (Z.to_nat nprocs <= length (ps_usage st))%nat →
  registry_wf e
    (history (read_locked_node e reg nprocs max_cpus st line rest size node)).
Proof.
  intros Hwf Hn Hc Hs. unfold read_locked_node.
  destruct (negb (alloc_diff_ok e)); [done|].
  pose proof (reconcile_wf e nprocs max_cpus (ps_cpu_cnt st) (ps_usage st)
                node Hn Hc Hs) as Hr.
  destruct (reconcile _ _ _ _ _ _) as [node2 sums]. cbn [fst] in Hr.
  destruct (render _ _ _ _ _ _ _); cbn [history];
    by apply registry_wf_store.
Qed.

Lemma working_nprocs_range e size :
  0 <= size → 0 <= get_nprocs_conf e →
  0 <= working_nprocs e size <= size.
Proof. unfold working_nprocs. intros. destruct (Z.ltb_spec size (get_nprocs_conf e)); lia. Qed.

Lemma init_cpuview_wf e : registry_wf e (init_cpuview e).
Proof.
  unfold init_cpuview. split; [by rewrite length_replicate|].
  intros h head Hh. apply lookup_replicate in Hh as [-> _].
  split; cbn; constructor.
Qed.

(** X1.  A read that stays within what C defines - it returns or waits
    for the mutex; it neither leaves the bounds of the sample, nor uses a node
    that the prune has freed, nor prints the unset line - keeps the registry
    well-formed: it still has its [CPUVIEW_HASH_SIZE] buckets, no chain has two
    nodes for one cgroup, every node is in the bucket of its hash and its two
    arrays hold at least [cpu_count] entries.  The sample has
    [cg_cpu_usage_size] entries and the host reports a number of configured
    CPUs that is not negative. *)
Theorem read_keeps_registry_wf (e : host_env) (reg : registry) (name : string)
    (cs : cpuset) (sample : list cpuacct_usage) (size : Z)
    (f : list host_line) (bufsize : Z) :
  registry_wf e reg →
  Z.of_nat (length sample) = size →
  0 <= get_nprocs_conf e →
  defined_read (status (cpuview_proc_stat e reg name cs sample size f bufsize)) →
  registry_wf e
    (history (cpuview_proc_stat e reg name cs sample size f bufsize)).
Proof.
  intros Hwf Hsize Hconf _. unfold cpuview_proc_stat.
  destruct (parse_host_stat _ _ _ _ _) as [[[st line] rest]|] eqn:Ep; [|done].
  apply parse_host_stat_length in Ep. cbn in Ep.
  pose proof (working_nprocs_range e size ltac:(lia) Hconf) as Hn.
  destruct (find_or_create_wf e reg (ps_usage st) (working_nprocs e size) name
              Hwf ltac:(lia) ltac:(lia)) as [Hwf1 Hnode].
  destruct (find_or_create_proc_stat_node _ _ _ _ _) as [[|node| |] reg1];
    cbn in Hwf1, Hnode; [done| |done|done].
  destruct (Hnode node eq_refl) as (Hw & _ & Hc & _).
  apply read_locked_node_wf; [done|done|lia|lia].
Qed.

Lemma read_keeps_registry_wf_witness :
  registry_wf one_cpu_env (history full_read_1).
Proof.
  apply (read_keeps_registry_wf one_cpu_env (init_cpuview one_cpu_env) cg_a
           [0] [mk_usage 100 50 0 false] 1
           [cpu_stat_line 0 100 50 200; intr_line] 4096).
  - split; [reflexivity|].
    intros h head Hh. apply lookup_replicate in Hh as [-> _].
    split; cbn; constructor.
  - reflexivity.
  - cbn. lia.
  - by vm_compute.
Defined.

(** ** What a read leaves of the other cgroups *)

Lemma lookup_node_cg e reg name node :
  lookup_node e reg name = Some node → cg node = name.
Proof.
  unfold lookup_node. destruct (reg !! hash_of e name) as [head|]; [|done].
  cbn. apply chain_find_cg.
Qed.

Lemma lookup_store_other e reg node other :
  cg node ≠ other →
  lookup_node e (store_node e reg node) other = lookup_node e reg other.
Proof.
  intros Hne. unfold lookup_node, store_node.
  destruct (reg !! hash_of e (cg node)) as [head|] eqn:Eh; [|done].
  unfold registry in *.
  destruct (decide (hash_of e (cg node) = hash_of e other)) as [Heq|Hh].
  - rewrite <- Heq, Eh.
    rewrite list_lookup_insert_eq by (by eapply lookup_lt_Some). cbn.
    by apply chain_find_store_other.
  - by rewrite list_lookup_insert_ne.
Qed.

Lemma lookup_add_other e reg new_node other :
  cg new_node ≠ other →
  lookup_node e (add_proc_stat_node e reg new_node).2 other
    = lookup_node e reg other.
Proof.
  intros Hne. unfold lookup_node, add_proc_stat_node.
  destruct (reg !! hash_of e (cg new_node)) as [head|] eqn:Eh; [|done].
  destruct (chain_find (cg new_node) (next head)); [done|]. cbn [snd].
  unfold registry in *.
  destruct (decide (hash_of e (cg new_node) = hash_of e other)) as [Heq|Hh].
  - rewrite <- Heq, Eh.
    rewrite list_lookup_insert_eq by (by eapply lookup_lt_Some). cbn.
    rewrite chain_find_app. rewrite bool_decide_eq_false_2 by done.
    by destruct (chain_find other (next head)).
  - by rewrite list_lookup_insert_ne.
Qed.

Lemma add_proc_stat_node_cg e reg new_node :
  cg (add_proc_stat_node e reg new_node).1 = cg new_node.
Proof.
  unfold add_proc_stat_node.
  destruct (reg !! hash_of e (cg new_node)) as [head|]; [|done].
  destruct (chain_find _ _) eqn:Ef; [|done]. by eapply chain_find_cg.
Qed.

Lemma chain_find_prune_dead e name chain :
  cgfs_param_exist e name = false →
  chain_find name (prune_proc_stat_list e chain) = None.
Proof.
  intros Hdead. apply chain_find_None. intros Hin.
  apply list_elem_of_fmap in Hin as (node & -> & Hin).
  apply list_elem_of_filter in Hin as [Hlive _]. congruence.
Qed.

(** What the prune does to one lookup: a cgroup that exists keeps its
    node; another one keeps it or loses it. *)
Lemma lookup_prune_cases e reg name :
  (cgfs_param_exist e name = true →
   lookup_node e (prune_proc_stat_history e reg) name = lookup_node e reg name)
  ∧ (lookup_node e (prune_proc_stat_history e reg) name = lookup_node e reg name
     ∨ lookup_node e (prune_proc_stat_history e reg) name = None).
Proof.
  split; [apply lookup_prune|].
  destruct (cgfs_param_exist e name) eqn:Hex; [left; by apply lookup_prune|].
  unfold lookup_node.
  destruct (reg !! hash_of e name) as [head|] eqn:Eh.
  - destruct (prune_history_lookup e reg _ _ Eh) as (head' & -> & [Hn|Hn]);
      cbn; rewrite Hn; [by left|]. right. by apply chain_find_prune_dead.
  - left.
    assert (prune_proc_stat_history e reg !! hash_of e name = None) as ->;
      [|done].
    apply lookup_ge_None_2. apply lookup_ge_None_1 in Eh.
    by rewrite prune_history_length.
Qed.

Lemma find_proc_stat_node_cases e reg name :
  (find_proc_stat_node e reg name).2 = reg ∨
  (find_proc_stat_node e reg name).2 = prune_proc_stat_history e reg.
Proof.
  unfold find_proc_stat_node.
  destruct (reg !! hash_of e name) as [head|]; [|by left].
  destruct (next head); [by left|by right].
Qed.

Lemma lock_and_expand_frame e reg node n other :
  cg node ≠ other →
  lookup_node e (lock_and_expand e reg node n).2 other
    = lookup_node e reg other ∧
  ∀ nd, (lock_and_expand e reg node n).1 = Locked nd → cg nd = cg node.
Proof.
  intros Hne. unfold lock_and_expand.
  destruct (lock node); [by split|].
  cbn [with_lock cpu_count].
  destruct (cpu_count node <? n).
  - unfold expand_proc_stat_node. destruct (alloc_expand_ok e); cbn.
    + split; [|by intros ? [= <-]].
      by rewrite lookup_store_other by (cbn; congruence).
    + split; [|done].
      by rewrite lookup_store_other by (cbn; congruence).
  - cbn. split; [|by intros ? [= <-]].
    by rewrite lookup_store_other by (cbn; congruence).
Qed.

(** The node the search finds has the name asked for. *)
Lemma find_proc_stat_node_found e reg name node :
  (find_proc_stat_node e reg name).1 = Found node →
  lookup_node e reg name = Some node ∧
  lookup_node e (find_proc_stat_node e reg name).2 name = Some node ∧
  cg node = name.
Proof.
  rewrite find_proc_stat_node_lookup.
  destruct (lookup_node e reg name) as [nd|] eqn:El; [|done].
  destruct (lookup_node e (prune_proc_stat_history e reg) name) as [nd'|]
    eqn:Ep; [|done].
  intros [= <-]. split; [done|]. split; [|by eapply lookup_node_cg].
  destruct (find_proc_stat_node_cases e reg name) as [-> | ->]; [done|].
  destruct (lookup_prune_cases e reg name) as [_ [H|H]]; congruence.
Qed.

(** The registry [find_or_create_proc_stat_node] returns, seen from another
    cgroup, is the one it was given, pruned or not; the node it hands over is
    the one of [name]. *)
Lemma find_or_create_frame e reg u n name other :
  other ≠ name →
  (lookup_node e (find_or_create_proc_stat_node e reg u n name).2 other
     = lookup_node e reg other ∨
   lookup_node e (find_or_create_proc_stat_node e reg u n name).2 other
     = lookup_node e (prune_proc_stat_history e reg) other) ∧
  ∀ node, (find_or_create_proc_stat_node e reg u n name).1 = Locked node →
          cg node = name.
Proof.
  intros Hne. unfold find_or_create_proc_stat_node.
  pose proof (find_proc_stat_node_cases e reg name) as Hreg.
  pose proof (find_proc_stat_node_found e reg name) as Hfd.
  destruct (find_proc_stat_node e reg name) as [found reg1]. cbn in Hreg, Hfd.
  assert (Hreg1 : lookup_node e reg1 other = lookup_node e reg other ∨
                  lookup_node e reg1 other
                    = lookup_node e (prune_proc_stat_history e reg) other).
  { destruct Hreg as [-> | ->]; [by left|by right]. }
  clear Hreg. destruct found as [|node0|]; [| |by split].
  - unfold new_proc_stat_node. destruct (alloc_node_ok e); [|by split].
    set (nn := mk_node name (take (Z.to_nat n) u)
                 (replicate (Z.to_nat n) zero_usage) n false).
    pose proof (lookup_add_other e reg1 nn other ltac:(cbn; congruence)) as Ha.
    pose proof (add_proc_stat_node_cg e reg1 nn) as Hb.
    destruct (add_proc_stat_node e reg1 nn) as [node1 reg2]. cbn in Ha, Hb.
    destruct (lock_and_expand_frame e reg2 node1 n other) as [Hl Hc];
      [congruence|].
    split; [rewrite Hl, Ha; exact Hreg1|].
    intros nd Hnd. rewrite (Hc nd Hnd). exact Hb.
  - destruct (Hfd node0 eq_refl) as (_ & _ & Hcg).
    destruct (lock_and_expand_frame e reg1 node0 n other) as [Hl Hc];
      [congruence|].
    split; [rewrite Hl; exact Hreg1|].
    intros nd Hnd. by rewrite (Hc nd Hnd).
Qed.

Lemma read_locked_node_frame e reg nprocs max_cpus st line rest size node other :
  cg node ≠ other →
  lookup_node e
    (history (read_locked_node e reg nprocs max_cpus st line rest size node))
    other = lookup_node e reg other.
Proof.
  intros Hne. unfold read_locked_node.
  destruct (negb (alloc_diff_ok e)); [done|].
  pose proof (reconcile_cg e nprocs max_cpus (ps_cpu_cnt st) (ps_usage st) node)
    as Hcg.
  destruct (reconcile _ _ _ _ _ _) as [node2 sums]. cbn [fst] in Hcg.
  destruct (render _ _ _ _ _ _ _); cbn [history];
    apply lookup_store_other; cbn; congruence.
Qed.

(** What a read of [name] leaves of another cgroup: what it found, pruned
    or not. *)
Lemma read_frame e reg name cs sample size f bufsize other :
  other ≠ name →
  let after :=
    lookup_node e
      (history (cpuview_proc_stat e reg name cs sample size f bufsize)) other in
  (cgfs_param_exist e other = true → after = lookup_node e reg other) ∧
  (after = lookup_node e reg other ∨ after = None).
Proof.
  intros Hne after.
  assert (Hcases : after = lookup_node e reg other ∨
                   after = lookup_node e (prune_proc_stat_history e reg) other).
  { subst after. unfold cpuview_proc_stat.
    destruct (parse_host_stat _ _ _ _ _) as [[[st line] rest]|]; [|by left].
    destruct (find_or_create_frame e reg (ps_usage st)
                (working_nprocs e size) name other Hne) as [Hl Hcg].
    destruct (find_or_create_proc_stat_node _ _ _ _ _) as [[|node| |] reg1];
      cbn in Hl, Hcg; [done| |done|done].
    rewrite read_locked_node_frame; [done|].
    rewrite (Hcg node eq_refl). congruence. }
  destruct (lookup_prune_cases e reg other) as [Hlive Hany].
  split.
  - intros Hex. destruct Hcases as [->| ->]; [done|by apply Hlive].
  - destruct Hcases as [->| ->]; [by left|]. destruct Hany; [left|right]; done.
Qed.

(** X2.  A read of one cgroup that stays within what C defines (it returns
    or waits for the mutex) does not touch the node of another one: the lookup
    of a cgroup that still exists finds after the read what it found before,
    also when both cgroups share a bucket; a cgroup that has gone keeps its
    node or loses it to the prune. *)
Theorem read_frames_other_cgroups (e : host_env) (reg : registry)
    (name : string) (cs : cpuset) (sample : list cpuacct_usage) (size : Z)
    (f : list host_line) (bufsize : Z) (other : string) :
  other ≠ name →
  defined_read (status (cpuview_proc_stat e reg name cs sample size f bufsize)) →
  let after :=
    lookup_node e
      (history (cpuview_proc_stat e reg name cs sample size f bufsize)) other in
  (cgfs_param_exist e other = true → after = lookup_node e reg other) ∧
  (after = lookup_node e reg other ∨ after = None).
Proof. intros Hne _. by apply read_frame. Qed.

Lemma read_frames_other_cgroups_witness :
  lookup_node one_cpu_env (history other_read) cg_a
    = lookup_node one_cpu_env (history full_read_1) cg_a ∧
  lookup_node one_cpu_env (history other_read) cg_b ≠ None.
Proof.
  split.
  - apply (read_frames_other_cgroups one_cpu_env (history full_read_1) cg_b [0]
             [mk_usage 30 10 0 false] 1
             [cpu_stat_line 0 200 100 400; intr_line] 4096 cg_a).
    + vm_compute. discriminate.
    + by vm_compute.
    + reflexivity.
  - vm_compute. discriminate.
Defined.

(** ** The node mutex *)

Lemma hash_of_bound e name : (hash_of e name < Z.to_nat CPUVIEW_HASH_SIZE)%nat.
Proof.
  unfold hash_of, CPUVIEW_HASH_SIZE.
  pose proof (Z.mod_pos_bound (calc_hash e name) 100 ltac:(lia)). lia.
Qed.

Lemma add_proc_stat_node_lookup e reg new_node :
  (hash_of e (cg new_node) < length reg)%nat →
  lookup_node e (add_proc_stat_node e reg new_node).2 (cg new_node)
    = Some (add_proc_stat_node e reg new_node).1.
Proof.
  intros Hlen. unfold add_proc_stat_node, lookup_node, registry in *.
  destruct (reg !! hash_of e (cg new_node)) as [head|] eqn:Eh.
  - destruct (chain_find (cg new_node) (next head)) as [node|] eqn:Ef;
      cbn [fst snd].
    + rewrite Eh. exact Ef.
    + rewrite list_lookup_insert_eq by done. cbn.
      rewrite chain_find_app, Ef. by rewrite bool_decide_eq_true_2.
  - apply lookup_ge_None_1 in Eh. lia.
Qed.

Lemma find_proc_stat_node_length e reg name :
  length (find_proc_stat_node e reg name).2 = length reg.
Proof.
  destruct (find_proc_stat_node_cases e reg name) as [-> | ->]; [done|].
  apply prune_history_length.
Qed.

Lemma lock_and_expand_stored e reg node n nd reg1 :
  lookup_node e reg (cg node) = Some node →
  lock_and_expand e reg node n = (Locked nd, reg1) →
  lookup_node e reg1 (cg node) = Some nd ∧ cg nd = cg node ∧ lock nd = true.
Proof.
  intros Hl. unfold lock_and_expand.
  destruct (lock node); [done|]. cbn [with_lock cpu_count].
  assert (Hst : ∀ node', cg node' = cg node →
            lookup_node e (store_node e reg node') (cg node) = Some node').
  { intros node' Hc. rewrite <- Hc. eapply lookup_store_node.
    rewrite Hc. exact Hl. }
  destruct (cpu_count node <? n).
  - unfold expand_proc_stat_node. destruct (alloc_expand_ok e); [|done].
    intros [= <- <-]. cbn. split; [|done]. by apply Hst.
  - intros [= <- <-]. cbn. split; [|done]. by apply Hst.
Qed.

(** The node [find_or_create_proc_stat_node] hands over is the one the
    registry it returns has for the cgroup, and its mutex is held. *)
Lemma find_or_create_stored e reg u n name node reg1 :
  length reg = Z.to_nat CPUVIEW_HASH_SIZE →
  find_or_create_proc_stat_node e reg u n name = (Locked node, reg1) →
  lookup_node e reg1 name = Some node ∧ cg node = name ∧ lock node = true.
Proof.
  intros Hlen. unfold find_or_create_proc_stat_node.
  pose proof (find_proc_stat_node_length e reg name) as Hlen1.
  pose proof (find_proc_stat_node_found e reg name) as Hfd.
  destruct (find_proc_stat_node e reg name) as [found reg0].
  cbn in Hlen1, Hfd. destruct found as [|node0|]; [| |done].
  - unfold new_proc_stat_node. destruct (alloc_node_ok e); [|done].
    set (nn := mk_node name (take (Z.to_nat n) u)
                 (replicate (Z.to_nat n) zero_usage) n false).
    pose proof (add_proc_stat_node_lookup e reg0 nn) as Ha.
    pose proof (add_proc_stat_node_cg e reg0 nn) as Hb.
    destruct (add_proc_stat_node e reg0 nn) as [node1 reg2]. cbn in Ha, Hb.
    intros Hle. change (cg nn) with name in Ha, Hb.
    rewrite <- Hb in Ha |- *.
    apply (lock_and_expand_stored e reg2 node1 n); [|done].
    apply Ha. rewrite Hlen1, Hlen. apply hash_of_bound.
  - destruct (Hfd node0 eq_refl) as (_ & Hl0 & Hcg). intros Hle.
    rewrite <- Hcg in Hl0 |- *.
    by apply (lock_and_expand_stored e reg0 node0 n).
Qed.

Lemma lookup_node_hash e e' reg name :
  calc_hash e' name = calc_hash e name →
  lookup_node e' reg name = lookup_node e reg name.
Proof. intros H. unfold lookup_node, hash_of. by rewrite H. Qed.

(** A node whose mutex is held stops the read at the lock, unless the
    prune of that very read frees it first. *)
Lemma locked_node_blocks e reg name cs sample size f bufsize node :
  lookup_node e reg name = Some node →
  lock node = true →
  ∀ ret out,
    status (cpuview_proc_stat e reg name cs sample size f bufsize)
      ≠ Returned ret out.
Proof.
  intros Hl Hlock ret out. unfold cpuview_proc_stat.
  destruct (parse_host_stat _ _ _ _ _) as [[[st line] rest]|]; [|done].
  unfold find_or_create_proc_stat_node.
  pose proof (find_proc_stat_node_lookup e reg name) as Hfl.
  destruct (find_proc_stat_node e reg name) as [found reg0]. cbn in Hfl.
  rewrite Hfl, Hl.
  destruct (lookup_node e (prune_proc_stat_history e reg) name); [|done].
  unfold lock_and_expand. by rewrite Hlock.
Qed.






(** * The reconciliation, entry by entry *)

Lemma diff_loop_lookup n : ∀ i older newer diff sum j,
  (i + n <= length diff)%nat →
  (diff_cpu_usage_loop n i older newer diff sum).1 !!! j
  = if decide (i <= j < i + n)%nat then
      if online (newer !!! j)
      then mk_usage (sat_sub (user (newer !!! j)) (user (older !!! j)))
                    (sat_sub (system (newer !!! j)) (system (older !!! j)))
                    (sat_sub (idle (newer !!! j)) (idle (older !!! j)))
                    (online (diff !!! j))
      else diff !!! j
    else diff !!! j.
Proof.
  induction n as [|n IH]; intros i older newer diff sum j Hlen;
    cbn [diff_cpu_usage_loop].
  { case_decide; [lia|done]. }
  destruct (online (newer !!! i)) eqn:Hon; cbn [negb].
  - rewrite IH by (rewrite length_insert; lia).
    rewrite !list_lookup_total_insert.
    repeat case_decide; try lia; try done;
      destruct_and?; subst; rewrite ?Hon; try done; exfalso; lia.
  - rewrite IH by lia.
    repeat case_decide; try lia; try done.
    assert (j = i) as -> by lia. by rewrite Hon.
Qed.

Lemma uadd_sat_sub newer older :
  is_u64 newer → is_u64 older →
  uadd older (sat_sub newer older) = Z.max older newer.
Proof.
  intros Hn Ho. unfold sat_sub.
  destruct (Z.ltb_spec older newer).
  - rewrite usub_small by (unfold_u64; lia).
    rewrite uadd_small by (unfold_u64; lia). lia.
  - rewrite uadd_0_r by done. lia.
Qed.

(** The stored usage after the loop of lines 647-663, for a node that is
    not reset. *)
Lemma reconcile_usage_lookup e nprocs max_cpus cpu_cnt sample node (j : nat) :
  (Z.to_nat nprocs <= length (usage node))%nat →
  reset_scan (Z.to_nat nprocs) 0 sample nprocs node = node →
  usage (reconcile e nprocs max_cpus cpu_cnt sample node).1 !!! j
  = if decide (j < Z.to_nat nprocs)%nat then
      if online (sample !!! j)
      then mk_usage
             (uadd (user (usage node !!! j))
                (sat_sub (user (sample !!! j)) (user (usage node !!! j))))
             (uadd (system (usage node !!! j))
                (sat_sub (system (sample !!! j)) (system (usage node !!! j))))
             (uadd (idle (usage node !!! j))
                (sat_sub (idle (sample !!! j)) (idle (usage node !!! j))))
             true
      else set_online (usage node !!! j) false
    else usage node !!! j.
Proof.
  intros Hlen E0. rewrite reconcile_usage. cbn zeta. rewrite E0.
  rewrite usage_update_lookup by lia.
  destruct (decide (j < Z.to_nat nprocs)%nat) as [Hj|Hj].
  - rewrite decide_True by lia.
    destruct (online (sample !!! j)) eqn:Hon; [|done].
    unfold diff_cpu_usage.
    rewrite diff_loop_lookup by (rewrite length_replicate; lia).
    rewrite decide_True by lia. by rewrite Hon.
  - by rewrite decide_False by lia.
Qed.

(** X5.  Between resets the stored usage of a cgroup follows its samples
    and never goes back: for a CPU that is online in the sample each counter
    becomes the larger of the stored and the sampled value (the user time is
    the sampled one), an offline CPU keeps its counters, the [online] flags
    are those of the sample, and the entries past the working CPU count are
    left alone. *)
Theorem usage_follows_sample (e : host_env) (nprocs max_cpus cpu_cnt : Z)
    (sample : list cpuacct_usage) (node : cg_proc_stat) :
  (Z.to_nat nprocs <= length (usage node))%nat →
  (∀ k, (k < Z.to_nat nprocs)%nat → online (sample !!! k) = true →
        user (usage node !!! k) <= user (sample !!! k)) →
  (∀ k, counters_ok (sample !!! k) ∧ counters_ok (usage node !!! k)) →
  let usage' := usage (reconcile e nprocs max_cpus cpu_cnt sample node).1 in
  length usage' = length (usage node) ∧
  (∀ j, (j < Z.to_nat nprocs)%nat →
     online (usage' !!! j) = online (sample !!! j) ∧
     (online (sample !!! j) = true →
        user (usage' !!! j) = user (sample !!! j) ∧
        system (usage' !!! j)
          = Z.max (system (usage node !!! j)) (system (sample !!! j)) ∧
        idle (usage' !!! j)
          = Z.max (idle (usage node !!! j)) (idle (sample !!! j))) ∧
     (online (sample !!! j) = false →
        same_counters (usage' !!! j) (usage node !!! j))) ∧
  (∀ j, (Z.to_nat nprocs <= j)%nat → usage' !!! j = usage node !!! j).
Proof.
  intros Hlen Hfwd Hok usage'.
  assert (E0 : reset_scan (Z.to_nat nprocs) 0 sample nprocs node = node).
  { apply reset_scan_idle. intros k ? ?. apply Hfwd; [lia|done]. }
  split; [|split].
  - subst usage'.
    destruct (reconcile_lengths e nprocs max_cpus cpu_cnt sample node)
      as [-> _]. by rewrite E0.
  - intros j Hj. subst usage'.
    rewrite reconcile_usage_lookup by done. rewrite decide_True by done.
    destruct (Hok j) as ((Hsu & Hss & Hsi) & (Huu & Hus & Hui)).
    destruct (online (sample !!! j)) eqn:Hon.
    + split; [done|]. split; [|done]. intros _. cbn [user system idle].
      rewrite !uadd_sat_sub by done.
      specialize (Hfwd j Hj Hon). split; [lia|done].
    + split; [done|]. split; [done|]. intros _.
      apply same_counters_set_online.
  - intros j Hj. subst usage'.
    rewrite reconcile_usage_lookup by done. by rewrite decide_False by lia.
Qed.

Lemma usage_follows_sample_witness :
  user (usage (reconcile one_cpu_env 1 1 1 sample_later node_1cpu).1 !!! 0%nat)
    = 260 ∧
  system (usage (reconcile one_cpu_env 1 1 1 sample_later node_1cpu).1 !!! 0%nat)
    = 100.
Proof.
  destruct (usage_follows_sample one_cpu_env 1 1 1 sample_later node_1cpu)
    as (_ & H & _).
  - cbn. lia.
  - intros [|k] Hk Hon; cbn in *; lia.
  - intros [|[|k]]; cbn; unfold counters_ok, is_u64, ULONG_MOD; cbn; lia.
  - destruct (H 0%nat) as (_ & Hon & _); [cbn; lia|].
    destruct Hon as (Hu & Hs & _); [reflexivity|].
    split; [exact Hu|exact Hs].
Defined.

(** ** The first read of a cgroup *)

Lemma reconcile_sums e nprocs max_cpus cpu_cnt sample node :
  let n := Z.to_nat nprocs in
  let node0 := reset_scan n 0 sample nprocs node in
  let dr := diff_cpu_usage (usage node0) sample (replicate n zero_usage) nprocs in
  let ur := usage_update_loop n 0 (-1) max_cpus sample dr.1 (usage node0) 0 0 in
  (reconcile e nprocs max_cpus cpu_cnt sample node).2 =
    if 0 <? max_cpus then
      let a :=
        revise_partial e max_cpus
          (accumulate_view n 0 (-1) max_cpus ur.1.1
             (visible_diff nprocs max_cpus
                (threshold_of dr.2 cpu_cnt max_cpus) ur.1.1 dr.1 ur.1.2 ur.2)
             (mk_acc (view node0) 0 0 0 0 0 0 0 0%nat)) in
      (va_user_sum a, va_system_sum a, va_idle_sum a)
    else
      let c := copy_usage_to_view n 0 ur.1.1 (view node0) 0 0 0 in
      (c.1.1.2, c.1.2, c.2).
Proof.
  intros n node0 dr ur. unfold reconcile. fold n. fold node0. fold dr.
  destruct dr as [diff total_sum] eqn:Edr. cbn [fst snd] in ur.
  fold ur. destruct ur as [[usage' us] ss] eqn:Eur. cbn [fst snd].
  destruct (0 <? max_cpus); [done|]. cbn zeta.
  by destruct (copy_usage_to_view _ _ _ _ _ _ _) as [[[v a] b] c].
Qed.

Lemma accumulate_view_zero n : ∀ curcpu i max_cpus usage_arr diff a,
  (∀ j, va_view a !!! j = zero_usage) →
  (∀ j, same_counters (diff !!! j) zero_usage) →
  va_user_sum a = 0 → va_system_sum a = 0 → va_idle_sum a = 0 →
  let a' := accumulate_view n curcpu i max_cpus usage_arr diff a in
  (∀ j, va_view a' !!! j = zero_usage) ∧
  va_user_sum a' = 0 ∧ va_system_sum a' = 0 ∧ va_idle_sum a' = 0.
Proof.
  induction n as [|n IH]; intros curcpu i max_cpus usage_arr diff a Hv Hd Hu Hs Hi;
    cbn [accumulate_view]; [done|].
  destruct (negb _); [by apply IH|].
  destruct (_ =? _); [done|].
  assert (Hz : add_counters (va_view a !!! curcpu) (diff !!! curcpu)
               = zero_usage).
  { rewrite Hv. destruct (Hd curcpu) as (Hdu & Hds & Hdi).
    unfold add_counters. rewrite Hdu, Hds, Hdi. reflexivity. }
  apply IH; try done; cbn [accumulate_cpu va_view va_user_sum va_system_sum
                             va_idle_sum]; rewrite ?Hz, ?Hu, ?Hs, ?Hi;
    try reflexivity.
  intros j. rewrite list_lookup_total_insert. by case_decide.
Qed.

Lemma sub_or_zero_0 delta : 0 <= delta → sub_or_zero 0 delta = 0.
Proof.
  intros H. unfold sub_or_zero. destruct (Z.ltb_spec delta 0); [lia|done].
Qed.

Lemma revise_partial_zero e max_cpus a :
  (∀ j, va_view a !!! j = zero_usage) → va_idle_sum a = 0 →
  (∀ j, va_view (revise_partial e max_cpus a) !!! j = zero_usage) ∧
  va_user_sum (revise_partial e max_cpus a) = va_user_sum a ∧
  va_system_sum (revise_partial e max_cpus a) = va_system_sum a ∧
  va_idle_sum (revise_partial e max_cpus a) = 0.
Proof.
  intros Hv Hi. unfold revise_partial.
  destruct (PrimFloat.ltb _ _); [|done].
  cbn [va_view va_user_sum va_system_sum va_idle_sum].
  assert (Hd : 0 <= partial_delta (exact_cpu_count e) max_cpus a).
  { unfold partial_delta. apply ulong_of_double_range. }
  rewrite Hi, sub_or_zero_0 by done. split; [|done].
  intros j. rewrite list_lookup_total_alter. rewrite Hv.
  case_decide; [|done]. change (idle zero_usage) with 0.
  by rewrite sub_or_zero_0.
Qed.

(** The reconciliation of a node whose usage is the sample and whose view
    is zero, under a quota: nothing is added to the view and the three sums are
    zero. *)
Lemma reconcile_fresh e nprocs max_cpus cpu_cnt sample node :
  (∀ j, (j < Z.to_nat nprocs)%nat → usage node !!! j = sample !!! j) →
  (∀ j, view node !!! j = zero_usage) →
  (Z.to_nat nprocs <= length (usage node))%nat →
  0 < max_cpus →
  (reconcile e nprocs max_cpus cpu_cnt sample node).2 = (0, 0, 0) ∧
  (∀ j, view (reconcile e nprocs max_cpus cpu_cnt sample node).1 !!! j
        = zero_usage) ∧
  (∀ j, (j < Z.to_nat nprocs)%nat →
        online (usage (reconcile e nprocs max_cpus cpu_cnt sample node).1 !!! j)
        = online (sample !!! j)).
Proof.
  intros Hu Hv Hlen Hq.
  set (n := Z.to_nat nprocs) in *.
  assert (E0 : reset_scan n 0 sample nprocs node = node).
  { apply reset_scan_idle. intros j ? _. rewrite Hu by lia. lia. }
  set (dr := diff_cpu_usage (usage node) sample (replicate n zero_usage) nprocs).
  assert (Hdz : ∀ j, same_counters (dr.1 !!! j) zero_usage).
  { intros j. subst dr. unfold diff_cpu_usage. fold n.
    apply (diff_loop_pointwise (λ _ d, same_counters d zero_usage)).
    - intros j'. rewrite replicate_zero_lookup. apply same_counters_refl.
    - intros j' o Hj' _. rewrite Hu by lia. rewrite !sat_sub_diag.
      by repeat split. }
  assert (Hsum : dr.2 = 0).
  { subst dr. unfold diff_cpu_usage. fold n.
    apply diff_loop_sum_zero; [unfold_u64; lia|].
    intros j Hj _. by rewrite Hu by lia. }
  set (ur := usage_update_loop n 0 (-1) max_cpus sample dr.1 (usage node) 0 0).
  assert (Hsur : ur.1.2 = 0 ∧ ur.2 = 0).
  { subst ur. apply usage_update_surplus_zero.
    intros j. by destruct (Hdz j) as (-> & -> & _). }
  set (vd := visible_diff nprocs max_cpus 0 ur.1.1 dr.1 0 0).
  assert (Hvd : ∀ j, same_counters (vd !!! j) zero_usage).
  { intros j. subst vd. unfold visible_diff.
    destruct (redistribute_pointwise (Z.to_nat nprocs) 0 (-1) max_cpus 0
                ur.1.1 dr.1 0 0) with (j := j) as [Hok' Htot];
      try (unfold_u64; lia).
    { intros j'. apply same_counters_zero_delta_ok, Hdz. }
    apply delta_ok_zero; [exact Hok'|]. rewrite Htot.
    destruct (Hdz j) as (Hdu & Hds & Hdi). unfold total_of.
    rewrite Hdu, Hds, Hdi. done. }
  set (a0 := mk_acc (view node) 0 0 0 0 0 0 0 0%nat).
  destruct (accumulate_view_zero n 0%nat (-1) max_cpus ur.1.1 vd a0)
    as (Hav & Hau & Has & Hai); try done.
  destruct (revise_partial_zero e max_cpus _ Hav Hai) as (Hrv & Hru & Hrs & Hri).
  split; [|split].
  - rewrite reconcile_sums. fold n. rewrite E0. fold dr. fold ur.
    replace (0 <? max_cpus) with true by (symmetry; apply Z.ltb_lt; lia).
    cbn zeta. destruct Hsur as [-> ->]. rewrite Hsum, threshold_of_zero.
    fold vd. fold a0. by rewrite Hru, Hrs, Hri, Hau, Has.
  - intros j. rewrite reconcile_view. fold n. rewrite E0. fold dr. fold ur.
    replace (0 <? max_cpus) with true by (symmetry; apply Z.ltb_lt; lia).
    destruct Hsur as [-> ->]. rewrite Hsum, threshold_of_zero.
    fold vd. fold a0. apply Hrv.
  - intros j Hj. rewrite reconcile_usage_lookup by done.
    fold n. rewrite decide_True by done.
    by destruct (online (sample !!! j)).
Qed.

Lemma online_views_zero n : ∀ curcpu node sample,
  (∀ j, view node !!! j = zero_usage) →
  (∀ j, (curcpu <= j < curcpu + n)%nat →
        online (usage node !!! j) = online (sample !!! j)) →
  online_views n curcpu node
    = replicate (online_count n curcpu sample) zero_usage.
Proof.
  induction n as [|n IH]; intros curcpu node sample Hv Hon;
    cbn [online_views online_count]; [done|].
  rewrite Hon by lia. rewrite Hv.
  rewrite (IH (S curcpu) node sample) by (try done; intros; apply Hon; lia).
  by destruct (online (sample !!! curcpu)).
Qed.

(** What [find_or_create_proc_stat_node] does for a cgroup the registry
    has no node for: the node is new, with the first [cpu_count] entries of the
    sample as usage and a zero view. *)
Lemma find_or_create_absent e reg u n name node reg1 :
  lookup_node e reg name = None →
  find_or_create_proc_stat_node e reg u n name = (Locked node, reg1) →
  node = mk_node name (take (Z.to_nat n) u) (replicate (Z.to_nat n) zero_usage)
           n true.
Proof.
  intros Hl. unfold find_or_create_proc_stat_node.
  pose proof (find_proc_stat_node_lookup e reg name) as Hfl.
  assert (Hl0 : lookup_node e (find_proc_stat_node e reg name).2 name = None).
  { destruct (find_proc_stat_node_cases e reg name) as [-> | ->]; [done|].
    destruct (lookup_prune_cases e reg name) as [_ [-> | ->]]; done. }
  destruct (find_proc_stat_node e reg name) as [found reg0].
  cbn in Hfl, Hl0. rewrite Hfl, Hl.
  unfold new_proc_stat_node. destruct (alloc_node_ok e); [|done].
  set (nn := mk_node name _ _ n false).
  assert (Ha : (add_proc_stat_node e reg0 nn).1 = nn).
  { unfold add_proc_stat_node. unfold lookup_node in Hl0. cbn [cg nn].
    destruct (reg0 !! hash_of e name) as [head|]; [|done].
    cbn in Hl0. by rewrite Hl0. }
  destruct (add_proc_stat_node e reg0 nn) as [node0 reg2]. cbn in Ha. subst node0.
  unfold lock_and_expand.
  cbn [lock nn with_lock cpu_count cg usage view].
  rewrite Z.ltb_irrefl. by intros [= <- <-].
Qed.

(** X6.  The first read of a cgroup under a quota shows no CPU time: the
    node is created from the sample itself, so every delta is zero, and the
    text that comes back has an aggregate line of zeros and one line of zeros
    for each visible CPU, followed by the rest of the host table. *)
Theorem first_read_reports_zero (e : host_env) (reg : registry)
    (name : string) (cs : cpuset) (sample : list cpuacct_usage) (size : Z)
    (f : list host_line) (bufsize : Z) (st : parse_state)
    (line : option host_line) (rest : list host_line)
    (ret : Z) (out : string) :
  lookup_node e reg name = None →
  Z.of_nat (length sample) = size →
  0 <= get_nprocs_conf e →
  parse_host_stat cs size f None (mk_parse sample (-1) 0 [])
    = Some (st, line, rest) →
  let max_cpus := clamp_max_cpus (max_cpu_count e) (ps_cpu_cnt st) in
  let nprocs := working_nprocs e size in
  0 < max_cpus →
  status (cpuview_proc_stat e reg name cs sample size f bufsize)
    = Returned ret out →
  0 < ret →
  ∃ l,
    line = Some l ∧
    out = cpu_all_line 0 0 0
          +:+ cpu_lines 0
                (replicate
                   (Nat.min (Z.to_nat max_cpus)
                      (online_count (Z.to_nat nprocs) 0 (ps_usage st)))
                   zero_usage)
          +:+ line_text l +:+ rest_text rest.
Proof.
  intros Hl Hsize Hconf Hp max_cpus nprocs Hq.
  pose proof (parse_host_stat_length _ _ _ _ _ _ _ _ Hp) as Hlen. cbn in Hlen.
  pose proof (working_nprocs_range e size ltac:(lia) Hconf) as Hn.
  fold nprocs in Hn.
  unfold cpuview_proc_stat. rewrite Hp. fold max_cpus. fold nprocs.
  destruct (find_or_create_proc_stat_node _ _ _ _ _) as [[|node| |] reg1]
    eqn:Ef; cbn [status]; [by intros [= <-]; lia| |done|done].
  apply (find_or_create_absent _ _ _ _ _ _ _ Hl) in Ef. subst node.
  set (node := mk_node name _ _ nprocs true).
  unfold read_locked_node.
  destruct (negb (alloc_diff_ok e)); cbn [status]; [by intros [= <-]; lia|].
  destruct (reconcile_fresh e nprocs max_cpus (ps_cpu_cnt st) (ps_usage st) node)
    as (Hsums & Hview & Hon); try done.
  { intros j Hj. cbn [usage node]. apply list_lookup_total_correct.
    rewrite lookup_take_lt by done. apply list_lookup_lookup_total_lt. lia. }
  { intros j. cbn [view node]. apply replicate_zero_lookup. }
  { cbn [usage node]. rewrite length_take. lia. }
  destruct (reconcile _ _ _ _ _ _) as [node2 sums]. cbn [fst snd] in *.
  destruct line as [l|];
    [|rewrite render_unset; destruct (_ <=? _); cbn [status];
      [by intros [= <-]; lia|done]].
  rewrite render_layout.
  destruct (_ <=? _); cbn [status total_len written];
    [by intros [= <-]; lia|].
  intros [= _ <-] _. exists l. split; [done|].
  subst sums. unfold stat_text. cbn [fst snd].
  rewrite (online_views_zero _ _ _ (ps_usage st)) by (try done; intros; apply Hon; lia).
  unfold visible_views.
  replace (0 <? max_cpus) with true by (symmetry; apply Z.ltb_lt; lia).
  rewrite take_replicate. do 4 f_equal. lia.
Qed.

Lemma first_read_reports_zero_witness :
  status full_read_1
    = Returned 58 (cpu_all_line 0 0 0 +:+ cpu_line 0 zero_usage
                   +:+ line_text intr_line) ∧
  ∃ l,
    Some intr_line = Some l ∧
    cpu_all_line 0 0 0 +:+ cpu_line 0 zero_usage +:+ line_text intr_line
      = cpu_all_line 0 0 0 +:+ cpu_lines 0 (replicate 1 zero_usage)
        +:+ line_text l +:+ rest_text [].
Proof.
  split; [vm_compute; reflexivity|].
  apply (first_read_reports_zero one_cpu_env (init_cpuview one_cpu_env) cg_a
           [0] [mk_usage 100 50 0 false] 1
           [cpu_stat_line 0 100 50 200; intr_line] 4096
           (mk_parse [mk_usage 100 50 200 true] 0 1 []) (Some intr_line) []
           58).
  - reflexivity.
  - reflexivity.
  - cbn. lia.
  - vm_compute. reflexivity.
  - vm_compute. reflexivity.
  - vm_compute. reflexivity.
  - lia.
Defined.

(** ** The redistribution of the surplus over the visible CPUs *)

Lemma redistribute_cpu_fill threshold d us ss d' us' ss' :
  is_u64 threshold → is_u64 us → is_u64 ss → delta_ok d →
  redistribute_cpu threshold d us ss = (d', us', ss') →
  user d' + system d' <= Z.max threshold (user d + system d) ∧
  (saturated threshold d' ∨ (us' = 0 ∧ ss' = 0)).
Proof.
  intros Ht Hus Hss Hd. unfold redistribute_cpu, saturated.
  rewrite (uadd_small (user d)) by (unfold_u64; lia).
  destruct (Z.leb_spec threshold (user d + system d)) as [Hge|Hlt].
  { intros [= <- <- <-]. split; [lia|]. left. by left. }
  rewrite (add_cpu_usage_spec us d CntUser threshold)
    by auto using delta_ok_counters_ok.
  set (t1 := Z.min us (Z.min (threshold - user d - system d) (idle d))).
  assert (Ht1 : 0 <= t1 ∧ t1 <= us ∧ t1 <= idle d
                ∧ t1 <= threshold - user d - system d)
    by (unfold_u64; subst t1; lia).
  cbn [user system idle].
  rewrite (uadd_small (user d + t1)) by (unfold_u64; lia).
  destruct (Z.leb_spec threshold (user d + t1 + system d)) as [Hge1|Hlt1].
  { intros [= <- <- <-]. cbn [user system idle]. split; [lia|].
    left. left. lia. }
  set (d1 := mk_usage (user d + t1) (system d) (idle d - t1) (online d)).
  assert (Hd1 : delta_ok d1)
    by (subst d1; norm_u64; lia).
  rewrite (add_cpu_usage_spec ss d1 CntSystem threshold)
    by (auto using delta_ok_counters_ok; subst d1;
        cbn [user system idle online]; lia).
  set (t2 := Z.min ss (Z.min (threshold - user d1 - system d1) (idle d1))).
  intros [= <- <- <-]. subst d1. cbn [user system idle] in *.
  unfold_u64. split; [lia|]. subst t1 t2. lia.
Qed.

Lemma redistribute_keep n :
  ∀ curcpu i max_cpus threshold usage_arr diff us ss j,
  (j < curcpu)%nat →
  (redistribute n curcpu i max_cpus threshold usage_arr diff us ss).1.1 !!! j
  = diff !!! j.
Proof.
  induction n as [|n IH];
    intros curcpu i max_cpus threshold usage_arr diff us ss j Hj;
    cbn [redistribute]; [done|].
  destruct (negb _); [apply IH; lia|].
  destruct (_ =? _); [done|].
  destruct (redistribute_cpu _ _ _ _) as [[d us1] ss1].
  rewrite IH by lia. by rewrite list_lookup_total_insert_ne by lia.
Qed.

Lemma redistribute_ceiling n :
  ∀ curcpu i max_cpus threshold usage_arr diff us ss,
  is_u64 threshold → is_u64 us → is_u64 ss →
  (∀ j, delta_ok (diff !!! j)) →
  ∀ j,
    let d' := (redistribute n curcpu i max_cpus threshold usage_arr diff
                 us ss).1.1 !!! j in
    user (diff !!! j) <= user d' ∧ system (diff !!! j) <= system d' ∧
    idle d' <= idle (diff !!! j) ∧
    user d' + system d'
      <= Z.max threshold (user (diff !!! j) + system (diff !!! j)).
Proof.
  induction n as [|n IH];
    intros curcpu i max_cpus threshold usage_arr diff us ss Ht Hus Hss Hd j;
    cbn [redistribute]; cbn zeta; [cbn [fst]; lia|].
  destruct (negb (online (usage_arr !!! curcpu))); [by apply IH|].
  destruct (i + 1 =? max_cpus); [cbn [fst]; lia|].
  destruct (redistribute_cpu threshold (diff !!! curcpu) us ss)
    as [[d us1] ss1] eqn:E.
  destruct (redistribute_cpu_spec _ _ _ _ _ _ _ Ht Hus Hss (Hd curcpu) E)
    as (Hd1 & Hus1 & Hss1 & Hu & Hs & Hi & _).
  destruct (redistribute_cpu_fill _ _ _ _ _ _ _ Ht Hus Hss (Hd curcpu) E)
    as (Hceil & _).
  assert (Hd' : ∀ j', delta_ok (<[curcpu := d]> diff !!! j')).
  { intros j'. rewrite list_lookup_total_insert. by case_decide. }
  pose proof (IH (S curcpu) (i + 1) max_cpus threshold usage_arr
                (<[curcpu := d]> diff) us1 ss1 Ht
                ltac:(unfold_u64; lia) ltac:(unfold_u64; lia) Hd' j) as Hrec.
  cbn zeta in Hrec. revert Hrec.
  rewrite list_lookup_total_insert. case_decide as Hj; [|done].
  destruct Hj as [<- _]. lia.
Qed.

Lemma redistribute_saturates n :
  ∀ curcpu i max_cpus threshold usage_arr diff us ss diff' us' ss',
  is_u64 threshold → is_u64 us → is_u64 ss →
  (∀ j, delta_ok (diff !!! j)) →
  (curcpu + n <= length diff)%nat →
  i + 1 <= max_cpus →
  redistribute n curcpu i max_cpus threshold usage_arr diff us ss
    = (diff', us', ss') →
  0 < us' ∨ 0 < ss' →
  Forall (saturated threshold)
    (take (Z.to_nat (max_cpus - (i + 1)))
       (online_entries n curcpu usage_arr diff')).
Proof.
  induction n as [|n IH];
    intros curcpu i max_cpus threshold usage_arr diff us ss diff' us' ss'
      Ht Hus Hss Hd Hlen Hi; cbn [redistribute online_entries].
  { intros _ _. rewrite take_nil. constructor. }
  destruct (online (usage_arr !!! curcpu)) eqn:Hon; cbn [negb].
  2:{ intros Hr Hleft. eapply IH; try exact Hr; try done. lia. }
  destruct (Z.eqb_spec (i + 1) max_cpus) as [Heq|Hne].
  { intros _ _. replace (max_cpus - (i + 1)) with 0 by lia. constructor. }
  destruct (redistribute_cpu threshold (diff !!! curcpu) us ss)
    as [[d us1] ss1] eqn:E.
  destruct (redistribute_cpu_spec _ _ _ _ _ _ _ Ht Hus Hss (Hd curcpu) E)
    as (Hd1 & Hus1 & Hss1 & _).
  destruct (redistribute_cpu_fill _ _ _ _ _ _ _ Ht Hus Hss (Hd curcpu) E)
    as (_ & Hfill).
  assert (Hd' : ∀ j', delta_ok (<[curcpu := d]> diff !!! j')).
  { intros j'. rewrite list_lookup_total_insert. by case_decide. }
  intros Hr Hleft.
  assert (Hpools : 0 <= us' <= us1 ∧ 0 <= ss' <= ss1).
  { eapply redistribute_pools; [| |intros j'; apply delta_ok_counters_ok, Hd'
                                 |exact Hr]; unfold_u64; lia. }
  assert (Hcur : diff' !!! curcpu = d).
  { pose proof (redistribute_keep n (S curcpu) (i + 1) max_cpus threshold
                  usage_arr (<[curcpu := d]> diff) us1 ss1 curcpu
                  ltac:(lia)) as Hk.
    rewrite Hr in Hk. cbn in Hk. rewrite Hk.
    rewrite list_lookup_total_insert. rewrite decide_True; [done|lia]. }
  replace (Z.to_nat (max_cpus - (i + 1)))
    with (S (Z.to_nat (max_cpus - (i + 1 + 1)))) by lia.
  cbn [take]. constructor.
  - rewrite Hcur. destruct Hfill as [Hsat|[Hz1 Hz2]]; [done|lia].
  - eapply IH; try exact Hr; try done.
    + unfold_u64. lia.
    + unfold_u64. lia.
    + rewrite length_insert. lia.
    + lia.
Qed.

(** X7.  The loop of lines 677-699 only turns idle time of a CPU into busy
    time: no counter of a delta loses busy time, the total of a delta is kept,
    and the busy time of a delta is never raised above the threshold.  Surplus
    is left over only when every visible CPU is saturated: its busy time has
    reached the threshold or its idle time is used up. *)
Theorem redistribution_fills_visible_cpus (nprocs max_cpus threshold : Z)
    (usage_arr diff : list cpuacct_usage) (user_surplus system_surplus : Z) :
  is_u64 threshold → is_u64 user_surplus → is_u64 system_surplus →
  (∀ j, delta_ok (diff !!! j)) →
  (Z.to_nat nprocs <= length diff)%nat →
  0 < max_cpus →
  let r := redistribute (Z.to_nat nprocs) 0 (-1) max_cpus threshold usage_arr
             diff user_surplus system_surplus in
  (∀ j,
     user (diff !!! j) <= user (r.1.1 !!! j) ∧
     system (diff !!! j) <= system (r.1.1 !!! j) ∧
     idle (r.1.1 !!! j) <= idle (diff !!! j) ∧
     total_of (r.1.1 !!! j) = total_of (diff !!! j) ∧
     user (r.1.1 !!! j) + system (r.1.1 !!! j)
       <= Z.max threshold (user (diff !!! j) + system (diff !!! j))) ∧
  (0 < r.1.2 ∨ 0 < r.2 →
   Forall (saturated threshold)
     (take (Z.to_nat max_cpus)
        (online_entries (Z.to_nat nprocs) 0 usage_arr r.1.1))).
Proof.
  intros Ht Hus Hss Hd Hlen Hq r. split.
  - intros j.
    destruct (redistribute_ceiling (Z.to_nat nprocs) 0 (-1) max_cpus threshold
                usage_arr diff user_surplus system_surplus Ht Hus Hss Hd j)
      as (Hu & Hs & Hi & Hc).
    destruct (redistribute_pointwise (Z.to_nat nprocs) 0 (-1) max_cpus
                threshold usage_arr diff user_surplus system_surplus
                Ht Hus Hss Hd j) as (_ & Htot).
    subst r. cbn zeta in *. done.
  - intros Hleft.
    replace (Z.to_nat max_cpus) with (Z.to_nat (max_cpus - (-1 + 1)))
      by (f_equal; lia).
    destruct r as [[diff' us'] ss'] eqn:Er. cbn [fst snd] in *.
    eapply redistribute_saturates; try exact Er; try done. lia.
Qed.

Lemma redistribution_fills_visible_cpus_witness :
  Forall (saturated 100)
    (take 1
       (online_entries 2 0
          [mk_usage 0 0 0 true; mk_usage 0 0 0 true]
          (redistribute 2 0 (-1) 1 100
             [mk_usage 0 0 0 true; mk_usage 0 0 0 true]
             [mk_usage 60 20 10 true; mk_usage 30 10 40 true] 30 10).1.1)).
Proof.
  apply (redistribution_fills_visible_cpus 2 1 100
           [mk_usage 0 0 0 true; mk_usage 0 0 0 true]
           [mk_usage 60 20 10 true; mk_usage 30 10 40 true] 30 10).
  - unfold is_u64, ULONG_MOD. lia.
  - unfold is_u64, ULONG_MOD. lia.
  - unfold is_u64, ULONG_MOD. lia.
  - intros [|[|[|j]]]; unfold delta_ok, ULONG_MOD; cbn; lia.
  - cbn. lia.
  - lia.
  - left. vm_compute. reflexivity.
Defined.

(** ** The aggregate line and the lines below it *)

Lemma online_views_entries n : ∀ curcpu node,
  online_views n curcpu node
    = online_entries n curcpu (usage node) (view node).
Proof.
  induction n as [|n IH]; intros curcpu node;
    cbn [online_views online_entries]; [done|].
  by rewrite IH.
Qed.

Lemma online_entries_ext n : ∀ curcpu usage_arr arr arr',
  (∀ j, (curcpu <= j < curcpu + n)%nat → arr !!! j = arr' !!! j) →
  online_entries n curcpu usage_arr arr = online_entries n curcpu usage_arr arr'.
Proof.
  induction n as [|n IH]; intros curcpu usage_arr arr arr' H;
    cbn [online_entries]; [done|].
  rewrite (IH (S curcpu) usage_arr arr arr') by (intros; apply H; lia).
  by rewrite H by lia.
Qed.

Lemma sum_of_cons field d l : sum_of field (d :: l) = field d + sum_of field l.
Proof. done. Qed.

(** Two arrays with the same [field] give lists of visible entries with
    the same sum of [field]. *)
Lemma online_entries_sum (field : cpuacct_usage → Z) n :
  ∀ curcpu usage_arr arr arr' m,
  (∀ j, field (arr !!! j) = field (arr' !!! j)) →
  sum_of field (take m (online_entries n curcpu usage_arr arr))
  = sum_of field (take m (online_entries n curcpu usage_arr arr')).
Proof.
  induction n as [|n IH]; intros curcpu usage_arr arr arr' m H;
    cbn [online_entries]; [done|].
  destruct (online (usage_arr !!! curcpu)); [|by apply IH].
  destruct m as [|m]; [done|]. cbn [take]. rewrite !sum_of_cons.
  by rewrite H, (IH _ _ arr arr').
Qed.

Lemma accumulate_view_keep n : ∀ curcpu i max_cpus usage_arr diff a j,
  (j < curcpu)%nat →
  va_view (accumulate_view n curcpu i max_cpus usage_arr diff a) !!! j
  = va_view a !!! j.
Proof.
  induction n as [|n IH]; intros curcpu i max_cpus usage_arr diff a j Hj;
    cbn [accumulate_view]; [done|].
  destruct (negb _); [apply IH; lia|].
  destruct (_ =? _); [done|].
  rewrite IH by lia. cbn [accumulate_cpu va_view].
  by rewrite list_lookup_total_insert_ne by lia.
Qed.

Lemma u64_add_l a b : u64 (u64 a + b) = u64 (a + b).
Proof. unfold u64. apply Zplus_mod_idemp_l. Qed.

Lemma u64_uadd_l a b c : u64 (uadd a b + c) = u64 (a + (b + c)).
Proof. unfold uadd. rewrite u64_add_l. f_equal. lia. Qed.

Lemma u64_id a : is_u64 a → u64 a = a.
Proof. intros H. unfold u64. apply Z.mod_small. exact H. Qed.

(** The three sums of the loop of lines 706-732 are the sums of the view
    entries it has written. *)
Lemma accumulate_view_sums n : ∀ curcpu i max_cpus usage_arr diff a,
  (curcpu + n <= length (va_view a))%nat →
  i + 1 <= max_cpus →
  is_u64 (va_user_sum a) → is_u64 (va_system_sum a) → is_u64 (va_idle_sum a) →
  let a' := accumulate_view n curcpu i max_cpus usage_arr diff a in
  let shown := take (Z.to_nat (max_cpus - (i + 1)))
                 (online_entries n curcpu usage_arr (va_view a')) in
  va_user_sum a' = u64 (va_user_sum a + sum_of user shown) ∧
  va_system_sum a' = u64 (va_system_sum a + sum_of system shown) ∧
  va_idle_sum a' = u64 (va_idle_sum a + sum_of idle shown).
Proof.
  induction n as [|n IH]; intros curcpu i max_cpus usage_arr diff a Hlen Hi
    Hu Hs Hid; cbn [accumulate_view online_entries]; cbn zeta.
  { rewrite take_nil. cbn. rewrite !Z.add_0_r, !u64_id by done. done. }
  destruct (online (usage_arr !!! curcpu)) eqn:Hon; cbn [negb].
  2:{ apply IH; try done. lia. }
  destruct (Z.eqb_spec (i + 1) max_cpus) as [Heq|Hne].
  { replace (max_cpus - (i + 1)) with 0 by lia. cbn.
    rewrite !Z.add_0_r, !u64_id by done. done. }
  set (a1 := accumulate_cpu curcpu (diff !!! curcpu) a).
  assert (Hcur : va_view (accumulate_view n (S curcpu) (i + 1) max_cpus
                            usage_arr diff a1) !!! curcpu
                 = add_counters (va_view a !!! curcpu) (diff !!! curcpu)).
  { rewrite accumulate_view_keep by lia. subst a1.
    cbn [accumulate_cpu va_view]. rewrite list_lookup_total_insert.
    rewrite decide_True; [done|lia]. }
  destruct (IH (S curcpu) (i + 1) max_cpus usage_arr diff a1) as (Eu & Es & Ei).
  { subst a1. cbn [accumulate_cpu va_view]. rewrite length_insert. lia. }
  { lia. }
  { apply uadd_range. } { apply uadd_range. } { apply uadd_range. }
  replace (Z.to_nat (max_cpus - (i + 1)))
    with (S (Z.to_nat (max_cpus - (i + 1 + 1)))) by lia.
  cbn [take]. rewrite !sum_of_cons, Hcur, Eu, Es, Ei.
  subst a1. cbn [accumulate_cpu va_user_sum va_system_sum va_idle_sum].
  by rewrite !u64_uadd_l.
Qed.

Lemma copy_usage_keep n : ∀ curcpu usage_arr view_arr us ss ids j,
  (j < curcpu)%nat →
  (copy_usage_to_view n curcpu usage_arr view_arr us ss ids).1.1.1 !!! j
  = view_arr !!! j.
Proof.
  induction n as [|n IH]; intros curcpu usage_arr view_arr us ss ids j Hj;
    cbn [copy_usage_to_view]; [done|].
  destruct (negb _); [apply IH; lia|].
  rewrite IH by lia. by rewrite list_lookup_total_insert_ne by lia.
Qed.

(** The three sums of the loop of lines 752-763 are the sums of the view
    entries it has written. *)
Lemma copy_usage_sums n : ∀ curcpu usage_arr view_arr us ss ids,
  (curcpu + n <= length view_arr)%nat →
  is_u64 us → is_u64 ss → is_u64 ids →
  let c := copy_usage_to_view n curcpu usage_arr view_arr us ss ids in
  let shown := online_entries n curcpu usage_arr c.1.1.1 in
  c.1.1.2 = u64 (us + sum_of user shown) ∧
  c.1.2 = u64 (ss + sum_of system shown) ∧
  c.2 = u64 (ids + sum_of idle shown).
Proof.
  induction n as [|n IH]; intros curcpu usage_arr view_arr us ss ids Hlen
    Hu Hs Hid; cbn [copy_usage_to_view online_entries]; cbn zeta.
  { cbn. rewrite !Z.add_0_r, !u64_id by done. done. }
  destruct (online (usage_arr !!! curcpu)) eqn:Hon; cbn [negb].
  2:{ apply IH; try done. lia. }
  set (v := mk_usage _ _ _ _).
  assert (Hcur : (copy_usage_to_view n (S curcpu) usage_arr
                    (<[curcpu := v]> view_arr)
                    (uadd us (user v)) (uadd ss (system v))
                    (uadd ids (idle v))).1.1.1 !!! curcpu = v).
  { rewrite copy_usage_keep by lia. rewrite list_lookup_total_insert.
    rewrite decide_True; [done|lia]. }
  destruct (IH (S curcpu) usage_arr (<[curcpu := v]> view_arr)
              (uadd us (user v)) (uadd ss (system v)) (uadd ids (idle v)))
    as (Eu & Es & Ei).
  { rewrite length_insert. lia. }
  { apply uadd_range. } { apply uadd_range. } { apply uadd_range. }
  rewrite !sum_of_cons, Hcur, Eu, Es, Ei.
  by rewrite !u64_uadd_l.
Qed.

Lemma revise_partial_fields e max_cpus a j :
  user (va_view (revise_partial e max_cpus a) !!! j) = user (va_view a !!! j) ∧
  system (va_view (revise_partial e max_cpus a) !!! j)
    = system (va_view a !!! j).
Proof.
  unfold revise_partial. destruct (PrimFloat.ltb _ _); [|done].
  cbn [va_view]. rewrite list_lookup_total_alter.
  case_decide as H; [destruct H as [<- _]|]; split; reflexivity.
Qed.

(** X8.  The aggregate line is the column sum of the per-CPU lines printed
    below it, modulo 2^64: the user and the system column always, the idle
    column without quota and under a quota whenever no partial-CPU revision is
    made. *)
Theorem aggregate_line_sums (e : host_env) (nprocs max_cpus cpu_cnt : Z)
    (sample : list cpuacct_usage) (node : cg_proc_stat) :
  (Z.to_nat nprocs <= length sample)%nat →
  (Z.to_nat nprocs <= length (usage node))%nat →
  (Z.to_nat nprocs <= length (view node))%nat →
  let r := reconcile e nprocs max_cpus cpu_cnt sample node in
  let shown :=
    visible_views max_cpus (-1) (online_views (Z.to_nat nprocs) 0 r.1) in
  r.2.1.1 = u64 (sum_of user shown) ∧
  r.2.1.2 = u64 (sum_of system shown) ∧
  (max_cpus <= 0 ∨
   PrimFloat.ltb (exact_cpu_count e) (double_of_int max_cpus) = false →
   r.2.2 = u64 (sum_of idle shown)).
Proof.
  intros Hls Hlu Hlv r shown.
  set (n := Z.to_nat nprocs) in *.
  set (node0 := reset_scan n 0 sample nprocs node).
  assert (Hl0 : (n <= length (view node0))%nat).
  { subst node0.
    destruct (reset_scan_cases n 0 sample nprocs node) as [-> | ->]; [done|].
    destruct (reset_lengths node sample nprocs Hls Hlu) as [_ ->]. done. }
  set (dr := diff_cpu_usage (usage node0) sample (replicate n zero_usage) nprocs).
  set (ur := usage_update_loop n 0 (-1) max_cpus sample dr.1 (usage node0) 0 0).
  assert (Hur : usage r.1 = ur.1.1).
  { subst r. by rewrite reconcile_usage. }
  assert (Hz : is_u64 0) by (unfold_u64; lia).
  subst shown. rewrite online_views_entries. rewrite Hur.
  unfold visible_views.
  pose proof (reconcile_view e nprocs max_cpus cpu_cnt sample node) as Hview.
  pose proof (reconcile_sums e nprocs max_cpus cpu_cnt sample node) as Hsums.
  cbn zeta in Hview, Hsums. fold n in Hview, Hsums. fold node0 in Hview, Hsums.
  fold dr in Hview, Hsums. fold ur in Hview, Hsums. fold r in Hview, Hsums.
  destruct (Z.ltb_spec 0 max_cpus) as [Hq|Hq].
  - set (vd := visible_diff nprocs max_cpus
                 (threshold_of dr.2 cpu_cnt max_cpus) ur.1.1 dr.1 ur.1.2 ur.2)
      in *.
    set (a0 := mk_acc (view node0) 0 0 0 0 0 0 0 0%nat) in *.
    destruct (accumulate_view_sums n 0%nat (-1) max_cpus ur.1.1 vd a0)
      as (Eu & Es & Ei); try done; [lia|].
    set (acc := accumulate_view n 0 (-1) max_cpus ur.1.1 vd a0) in *.
    replace (Z.to_nat (max_cpus - (-1 + 1))) with (Z.to_nat max_cpus) in *
      by (f_equal; lia).
    cbn [a0 va_user_sum va_system_sum va_idle_sum] in Eu, Es, Ei.
    rewrite !Z.add_0_l in *.
    rewrite Hview, Hsums. cbn [fst snd].
    split; [|split].
    + rewrite (online_entries_sum user n 0 ur.1.1 _ (va_view acc)).
      * unfold revise_partial. by destruct (PrimFloat.ltb _ _).
      * intros j. apply revise_partial_fields.
    + rewrite (online_entries_sum system n 0 ur.1.1 _ (va_view acc)).
      * unfold revise_partial. by destruct (PrimFloat.ltb _ _).
      * intros j. apply revise_partial_fields.
    + intros [Hneg|Hoff]; [lia|]. by rewrite revise_partial_off.
  - destruct (copy_usage_sums n 0 ur.1.1 (view node0) 0 0 0)
      as (Eu & Es & Ei); try done.
    rewrite !Z.add_0_l in *.
    rewrite Hview, Hsums. cbn [fst snd]. by rewrite Eu, Es, Ei.
Qed.

Lemma aggregate_line_sums_witness :
  (reconcile one_cpu_env 1 1 1 sample_later node_1cpu).2.1.1
  = u64 (sum_of user
           (visible_views 1 (-1)
              (online_views 1 0
                 (reconcile one_cpu_env 1 1 1 sample_later node_1cpu).1))).
Proof.
  apply (aggregate_line_sums one_cpu_env 1 1 1 sample_later node_1cpu).
  - cbn. lia.
  - cbn. lia.
  - cbn. lia.
Defined.

(** * The parsing loop: which CPUs come out online *)

Lemma set_online_same (u : cpuacct_usage) b : online u = b → set_online u b = u.
Proof. destruct u. cbn. by intros ->. Qed.

Lemma mark_offline_lookup n : ∀ i s s' (k : nat),
  0 <= i →
  mark_offline n i s = Some s' →
  s' !!! k = if decide (i <= Z.of_nat k < i + Z.of_nat n)
             then set_online (s !!! k) false else s !!! k.
Proof.
  induction n as [|n IH]; intros i s s' k Hi; cbn [mark_offline].
  { intros [= <-]. by rewrite decide_False by lia. }
  destruct (in_bounds i s) eqn:Hb; [|done].
  unfold in_bounds in Hb. apply andb_true_iff in Hb as [_ Hb].
  apply Z.ltb_lt in Hb.
  intros H. apply (IH _ _ _ k) in H; [|lia]. rewrite H.
  rewrite list_lookup_total_alter.
  destruct (decide (i + 1 <= Z.of_nat k < i + 1 + Z.of_nat n)) as [H1|H1];
    destruct (decide (i <= Z.of_nat k < i + Z.of_nat (S n))) as [H2|H2];
    try lia.
  - rewrite decide_False by lia. done.
  - rewrite decide_True by lia. by replace (Z.to_nat i) with k by lia.
  - rewrite decide_False by lia. done.
Qed.

Lemma ascending_from_weaken f : ∀ c c',
  c <= c' → ascending_from c' f → ascending_from c f.
Proof.
  induction f as [|l f IH]; intros c c' Hc; cbn [ascending_from]; [done|].
  destruct (line_tag l) as [| |p]; [by apply IH|by apply IH|].
  intros [Hp Hf]. split; [lia|done].
Qed.

Lemma seen_cpus_gt size f : ∀ m,
  ascending_from m f → ∀ p, p ∈ seen_cpus size f → m < p.
Proof.
  induction f as [|l f IH]; intros m Hasc p; cbn [seen_cpus ascending_from] in *.
  { intros H. by apply elem_of_nil in H. }
  destruct (_ =? _)%nat.
  { destruct (line_tag l) as [| |q]; [by apply IH..|].
    destruct Hasc as [Hq Hf]. intros Hin. specialize (IH q Hf p Hin). lia. }
  destruct (line_tag l) as [| |q].
  - intros H. by apply elem_of_nil in H.
  - by apply IH.
  - destruct Hasc as [Hq Hf]. destruct (_ <=? _).
    + intros Hin. specialize (IH q Hf p Hin). lia.
    + intros Hin. apply elem_of_cons in Hin as [->|Hin]; [done|].
      specialize (IH q Hf p Hin). lia.
Qed.

(** One counted line: what becomes of each entry of the sample. *)
Lemma parse_line_counted cs size l st st' ctl p m :
  (String.length (line_text l) =? 0)%nat = false →
  line_tag l = CpuNum p → p < size →
  -1 <= ps_curcpu st <= m → m < p →
  parse_line cs size l st = Some (st', ctl) →
  ctl = Continue ∧
  ps_curcpu st' = (if cpu_in_cpuset p cs then p else ps_curcpu st + 1) ∧
  ∀ k : nat,
    user (ps_usage st' !!! k) = user (ps_usage st !!! k) ∧
    system (ps_usage st' !!! k) = system (ps_usage st !!! k) ∧
    (Z.of_nat k <= ps_curcpu st ∨ p < Z.of_nat k →
       ps_usage st' !!! k = ps_usage st !!! k) ∧
    (ps_curcpu st < Z.of_nat k < p →
       ps_usage st' !!! k = set_online (ps_usage st !!! k) false) ∧
    (Z.of_nat k = p → online (ps_usage st' !!! k) = cpu_in_cpuset p cs).
Proof.
  intros Htxt Htag Hp Hcur Hm. unfold parse_line. rewrite Htxt, Htag.
  replace (size <=? p) with false by (symmetry; apply Z.leb_gt; lia).
  destruct (cpu_in_cpuset p cs) eqn:Hcs; cbn [negb].
  - assert (Hstep : ∀ s c,
      (if ps_curcpu st + 1 <? p
       then s ← mark_offline (Z.to_nat (p - (ps_curcpu st + 1)))
                  (ps_curcpu st + 1) (ps_usage st);
            Some (s, p)
       else Some (ps_usage st, ps_curcpu st + 1)) = Some (s, c) →
      c = p ∧
      ∀ k : nat,
        s !!! k = if decide (ps_curcpu st < Z.of_nat k < p)
                  then set_online (ps_usage st !!! k) false
                  else ps_usage st !!! k).
    { intros s c. destruct (Z.ltb_spec (ps_curcpu st + 1) p) as [Hlt|Hge].
      - destruct (mark_offline _ _ _) as [s0|] eqn:Em; [|done].
        intros [= <- <-]. split; [done|]. intros k.
        rewrite (mark_offline_lookup _ (ps_curcpu st + 1) _ _ k ltac:(lia) Em).
        destruct (decide (ps_curcpu st + 1 <= Z.of_nat k
                          < ps_curcpu st + 1
                            + Z.of_nat (Z.to_nat (p - (ps_curcpu st + 1)))));
          [rewrite decide_True by lia|rewrite decide_False by lia]; done.
      - intros [= <- <-]. split; [lia|]. intros k.
        by rewrite decide_False by lia. }
    destruct (if _ <? _ then _ else _) as [[s c]|]; [|done].
    destruct (Hstep s c eq_refl) as (-> & Hs). clear Hstep.
    cbn [mbind option_bind].
    destruct (in_bounds p s) eqn:Hb; [|done]. cbn [negb].
    unfold in_bounds in Hb. apply andb_true_iff in Hb as [_ Hb].
    apply Z.ltb_lt in Hb.
    set (s2 := alter (λ u, set_online u true) (Z.to_nat p) s).
    assert (Hfin : ∀ s3,
      (s3 = s2 ∨ ∃ x, s3 = <[Z.to_nat p := set_idle (s2 !!! Z.to_nat p) x]> s2) →
      ∀ k : nat,
        user (s3 !!! k) = user (ps_usage st !!! k) ∧
        system (s3 !!! k) = system (ps_usage st !!! k) ∧
        (Z.of_nat k <= ps_curcpu st ∨ p < Z.of_nat k →
           s3 !!! k = ps_usage st !!! k) ∧
        (ps_curcpu st < Z.of_nat k < p →
           s3 !!! k = set_online (ps_usage st !!! k) false) ∧
        (Z.of_nat k = p → online (s3 !!! k) = true)).
    { intros s3 Hs3 k.
      assert (H2 : s2 !!! k = if decide (Z.of_nat k = p)
                              then set_online (s !!! k) true else s !!! k).
      { subst s2. rewrite list_lookup_total_alter.
        destruct (decide (Z.of_nat k = p)) as [Hk|Hk];
          [rewrite decide_True by lia|rewrite decide_False by lia]; [|done].
        by replace (Z.to_nat p) with k by lia. }
      assert (H3 : user (s3 !!! k) = user (s2 !!! k) ∧
                   system (s3 !!! k) = system (s2 !!! k) ∧
                   online (s3 !!! k) = online (s2 !!! k) ∧
                   (Z.of_nat k ≠ p → s3 !!! k = s2 !!! k)).
      { destruct Hs3 as [->|[x ->]]; [done|].
        rewrite list_lookup_total_insert.
        destruct (decide (Z.to_nat p = k ∧ _)) as [[<- _]|_];
          [|by repeat split].
        repeat split; try done. intros; lia. }
      destruct H3 as (Hu3 & Hs3' & Ho3 & Hne3).
      rewrite Hu3, Hs3', Ho3, H2, (Hs k).
      repeat split.
      - repeat case_decide; done.
      - repeat case_decide; done.
      - intros Hk. rewrite Hne3 by lia. rewrite H2, (Hs k).
        by rewrite !decide_False by lia.
      - intros Hk. rewrite Hne3 by lia. rewrite H2, (Hs k).
        rewrite decide_False by lia. by rewrite decide_True by lia.
      - intros Hk. by rewrite decide_True by done. }
    destruct (line_fields l) as
      [|? [|? [|? [|? [|? [|? [|? [|? [|? [|? ?]]]]]]]]]];
      try (intros [= <- <-]; cbn [ps_usage ps_curcpu];
           split; [done|]; split; [done|]; apply Hfin; by left).
    unfold impute_idle. destruct (_ <=? _);
      intros [= <- <-]; cbn [ps_usage ps_curcpu];
      (split; [done|]; split; [done|]; apply Hfin; right; by eexists).
  - destruct (mark_offline _ _ _) as [s|] eqn:Em; [|done].
    intros [= <- <-]. cbn [ps_usage ps_curcpu].
    split; [done|]. split; [done|]. intros k.
    rewrite (mark_offline_lookup _ (ps_curcpu st + 1) _ _ k ltac:(lia) Em).
    destruct (decide (ps_curcpu st + 1 <= Z.of_nat k
                      < ps_curcpu st + 1
                        + Z.of_nat (Z.to_nat (p - (ps_curcpu st + 1) + 1))))
      as [Hin|Hout].
    + repeat split; try done; intros; lia.
    + repeat split; try done; intros; lia.
Qed.

Lemma parse_host_stat_flags cs size f : ∀ line st0 m st line' rest,
  -1 <= ps_curcpu st0 <= m →
  ascending_from m f →
  (∀ k : nat, ps_curcpu st0 < Z.of_nat k <= m →
              online (ps_usage st0 !!! k) = false) →
  parse_host_stat cs size f line st0 = Some (st, line', rest) →
  ∀ k : nat,
    user (ps_usage st !!! k) = user (ps_usage st0 !!! k) ∧
    system (ps_usage st !!! k) = system (ps_usage st0 !!! k) ∧
    (Z.of_nat k <= m → ps_usage st !!! k = ps_usage st0 !!! k) ∧
    (m < Z.of_nat k →
     (∃ p, p ∈ seen_cpus size f ∧ Z.of_nat k <= p) →
     online (ps_usage st !!! k)
       = bool_decide (Z.of_nat k ∈ seen_cpus size f)
         && cpu_in_cpuset (Z.of_nat k) cs) ∧
    (m < Z.of_nat k →
     (∀ p, p ∈ seen_cpus size f → p < Z.of_nat k) →
     ps_usage st !!! k = ps_usage st0 !!! k).
Proof.
  induction f as [|l f IH]; intros line st0 m st line' rest Hcur Hasc Hoff;
    cbn [parse_host_stat seen_cpus].
  { intros [= <- <- <-] k. repeat split; try done.
    intros _ (p & Hp & _). by apply elem_of_nil in Hp. }
  assert (Hskip : parse_line cs size l st0 = Some (st0, Continue) →
                  seen_cpus size (l :: f) = seen_cpus size f →
                  parse_host_stat cs size f (Some l) st0
                    = Some (st, line', rest) →
                  ∀ k : nat,
                    user (ps_usage st !!! k) = user (ps_usage st0 !!! k) ∧
                    system (ps_usage st !!! k) = system (ps_usage st0 !!! k) ∧
                    (Z.of_nat k <= m → ps_usage st !!! k = ps_usage st0 !!! k) ∧
                    (m < Z.of_nat k →
                     (∃ p, p ∈ seen_cpus size (l :: f) ∧ Z.of_nat k <= p) →
                     online (ps_usage st !!! k)
                       = bool_decide (Z.of_nat k ∈ seen_cpus size (l :: f))
                         && cpu_in_cpuset (Z.of_nat k) cs) ∧
                    (m < Z.of_nat k →
                     (∀ p, p ∈ seen_cpus size (l :: f) → p < Z.of_nat k) →
                     ps_usage st !!! k = ps_usage st0 !!! k)).
  { intros _ -> Hrec. eapply IH; try exact Hrec; try done.
    cbn [ascending_from] in Hasc. destruct (line_tag l) as [| |q]; try done.
    destruct Hasc as [Hq Hf]. eapply ascending_from_weaken; [|exact Hf]. lia. }
  cbn [seen_cpus] in Hskip.
  destruct (String.length (line_text l) =? 0)%nat eqn:Htxt.
  { assert (E : parse_line cs size l st0 = Some (st0, Continue))
      by (unfold parse_line; by rewrite Htxt).
    rewrite E. by apply Hskip. }
  destruct (line_tag l) as [| |p] eqn:Htag.
  - assert (E : parse_line cs size l st0 = Some (st0, Break))
      by (unfold parse_line; by rewrite Htxt, Htag).
    rewrite E. intros [= <- <- <-] k. repeat split; try done.
    intros _ (p & Hp & _). by apply elem_of_nil in Hp.
  - assert (E : parse_line cs size l st0 = Some (st0, Continue))
      by (unfold parse_line; by rewrite Htxt, Htag).
    rewrite E. by apply Hskip.
  - destruct (Z.leb_spec size p) as [Hbig|Hsmall].
    { assert (E : parse_line cs size l st0 = Some (st0, Continue)).
      { unfold parse_line. rewrite Htxt, Htag.
        by replace (size <=? p) with true by (symmetry; apply Z.leb_le; lia). }
      rewrite E. by apply Hskip. }
    clear Hskip. cbn [ascending_from] in Hasc. rewrite Htag in Hasc.
    destruct Hasc as [Hmp Hf].
    destruct (parse_line cs size l st0) as [[st1 ctl]|] eqn:E; [|done].
    destruct (parse_line_counted _ _ _ _ _ _ _ m Htxt Htag Hsmall Hcur Hmp E)
      as (-> & Hc1 & H1).
    intros Hrec.
    assert (Hc1' : -1 <= ps_curcpu st1 <= p)
      by (rewrite Hc1; destruct (cpu_in_cpuset p cs); lia).
    assert (Hoff1 : ∀ k : nat, ps_curcpu st1 < Z.of_nat k <= p →
                              online (ps_usage st1 !!! k) = false).
    { intros k Hk. destruct (H1 k) as (_ & _ & _ & Hmid & Hat).
      rewrite Hc1 in Hk. destruct (cpu_in_cpuset p cs) eqn:Hcs; [lia|].
      destruct (decide (Z.of_nat k = p)) as [Hkp|Hkp]; [by apply Hat|].
      rewrite Hmid by lia. done. }
    pose proof (IH _ _ _ _ _ _ Hc1' Hf Hoff1 Hrec) as H2.
    pose proof (seen_cpus_gt size f p Hf) as Hgt.
    intros k.
    destruct (H1 k) as (Hu1 & Hs1 & Hsame1 & Hmid1 & Hat1).
    destruct (H2 k) as (Hu2 & Hs2 & Hle2 & Hseen2 & Hpast2).
    split; [congruence|]. split; [congruence|]. split; [|split].
    + intros Hk. rewrite Hle2 by lia.
      destruct (decide (Z.of_nat k <= ps_curcpu st0)) as [Hlow|Hhigh].
      * apply Hsame1. by left.
      * rewrite Hmid1 by lia. apply set_online_same. apply Hoff. lia.
    + intros Hk (q & Hq & Hkq).
      destruct (decide (Z.of_nat k <= p)) as [Hkp|Hkp].
      * rewrite Hle2 by done.
        destruct (decide (Z.of_nat k = p)) as [Heq|Hne].
        -- rewrite Hat1 by done. rewrite bool_decide_eq_true_2; [by rewrite Heq|].
           rewrite Heq. apply elem_of_cons. by left.
        -- rewrite Hmid1 by lia. cbn [set_online online].
           rewrite bool_decide_eq_false_2; [done|].
           intros Hin. apply elem_of_cons in Hin as [Hin|Hin]; [done|].
           specialize (Hgt _ Hin). lia.
      * apply elem_of_cons in Hq as [->|Hq]; [lia|].
        rewrite Hseen2 by (try lia; by exists q). f_equal.
        apply bool_decide_ext. rewrite elem_of_cons. split; [by right|].
        intros [Hbad|Hin]; [lia|done].
    + intros Hk Hall.
      assert (p < Z.of_nat k) by (apply Hall, elem_of_cons; by left).
      rewrite Hpast2; [apply Hsame1; by right|lia|].
      intros q Hq. apply Hall, elem_of_cons. by right.
Qed.

(** X9.  On a host table whose CPU lines come in ascending order, the
    parsing loop leaves the user and system time of every entry of the sample
    as they were and decides the [online] flags: up to the last CPU line it
    counts, an entry is online exactly when the table has a line for that CPU
    and the cpuset includes it; the entries past that line are not touched. *)
Theorem parse_online_flags (cs : cpuset) (sample : list cpuacct_usage)
    (size : Z) (f : list host_line) (st : parse_state)
    (line : option host_line) (rest : list host_line) :
  ascending_from (-1) f →
  parse_host_stat cs size f None (mk_parse sample (-1) 0 [])
    = Some (st, line, rest) →
  ∀ k : nat,
    user (ps_usage st !!! k) = user (sample !!! k) ∧
    system (ps_usage st !!! k) = system (sample !!! k) ∧
    ((∃ p, p ∈ seen_cpus size f ∧ Z.of_nat k <= p) →
     online (ps_usage st !!! k)
       = bool_decide (Z.of_nat k ∈ seen_cpus size f)
         && cpu_in_cpuset (Z.of_nat k) cs) ∧
    ((∀ p, p ∈ seen_cpus size f → p < Z.of_nat k) →
     ps_usage st !!! k = sample !!! k).
Proof.
  intros Hasc Hp k.
  destruct (parse_host_stat_flags cs size f None
              (mk_parse sample (-1) 0 []) (-1) st line rest
              ltac:(cbn; lia) Hasc ltac:(cbn; intros; lia) Hp k)
    as (Hu & Hs & _ & Hseen & Hpast).
  cbn [ps_usage] in *. split; [done|]. split; [done|]. split.
  - apply Hseen. lia.
  - apply Hpast. lia.
Qed.

Lemma parse_online_flags_witness :
  online
    (ps_usage (mk_parse [mk_usage 80 40 230 true; mk_usage 0 0 0 false] 1 2 [])
     !!! 1%nat) = false.
Proof.
  destruct (parse_online_flags [0]
              [mk_usage 80 40 0 false; mk_usage 0 0 0 false] 2
              [cpu_stat_line 0 100 50 200; cpu_stat_line 1 40 20 140; intr_line]
              (mk_parse [mk_usage 80 40 230 true; mk_usage 0 0 0 false] 1 2 [])
              (Some intr_line) []) with (k := 1%nat) as (_ & _ & Hon & _).
  - cbn. lia.
  - vm_compute. reflexivity.
  - rewrite Hon.
    + vm_compute. reflexivity.
    + exists 1. split; [|lia]. vm_compute. apply elem_of_cons. right.
      apply elem_of_cons. by left.
Defined.

(** * Capacity, pruning and reads that get no node *)

(** X10.  For a readable, positive quota and period whose rounded-up
    quotient fits an [int], on a host with at least one CPU, the capacity
    [max_cpu_count] is at least 1 and at most each of: the rounded-up quotient,
    the number of CPUs of the host, and the size of a non-empty cpuset.  The
    count a read works with is further limited by the CPU lines it counted, so
    that a positive count means that [cpu_cnt], the divisor of the threshold,
    is positive. *)
Theorem max_cpu_count_bounds (e : host_env) (q p : Z) :
  cfs_quota e = Some q →
  cfs_period e = Some p →
  0 < q → 0 < p →
  ceil_div q p <= INT_MAX →
  0 < get_nprocs e →
  1 <= max_cpu_count e <= get_nprocs e ∧
  max_cpu_count e <= ceil_div q p ∧
  (0 < nr_cpus_in_cpuset e → max_cpu_count e <= nr_cpus_in_cpuset e) ∧
  ∀ cpu_cnt,
    clamp_max_cpus (max_cpu_count e) cpu_cnt <= cpu_cnt ∧
    clamp_max_cpus (max_cpu_count e) cpu_cnt <= max_cpu_count e ∧
    (0 < clamp_max_cpus (max_cpu_count e) cpu_cnt → 0 < cpu_cnt).
Proof.
  intros Hq Hp Hq0 Hp0 Hfit Hn.
  rewrite (max_cpu_count_in_range e q p Hq Hp) by done.
  unfold spec_max_cpu_count, clamp_max_cpus.
  replace (0 <? q) with true by (symmetry; apply Z.ltb_lt; lia).
  replace (0 <? p) with true by (symmetry; apply Z.ltb_lt; lia).
  cbn [andb].
  assert (Hceil : 1 <= ceil_div q p).
  { unfold ceil_div. apply Z.div_le_lower_bound; lia. }
  set (c := Z.min (ceil_div q p) (get_nprocs e)).
  set (nr := nr_cpus_in_cpuset e).
  destruct (Z.ltb_spec 0 nr); destruct (Z.ltb_spec nr c); cbn [andb];
    (split; [lia|]; split; [lia|]; split; [lia|]; intros cpu_cnt;
     match goal with |- context [cpu_cnt <? ?x] =>
       destruct (Z.ltb_spec cpu_cnt x) end; lia).
Qed.

Lemma max_cpu_count_bounds_witness :
  1 <= max_cpu_count env_quota_2 <= get_nprocs env_quota_2.
Proof.
  apply (max_cpu_count_bounds env_quota_2 150000 100000).
  - reflexivity.
  - reflexivity.
  - lia.
  - lia.
  - vm_compute. discriminate.
  - cbn. lia.
Defined.

(** ** A complete pruning pass *)

Lemma fmap_cg_filter e chain :
  cg <$> prune_proc_stat_list e chain
  = filter (λ name, cgfs_param_exist e name = true) (cg <$> chain).
Proof.
  unfold prune_proc_stat_list.
  induction chain as [|n chain IH]; [done|].
  cbn [fmap list_fmap]. rewrite !filter_cons.
  destruct (decide (cgfs_param_exist e (cg n) = true)); cbn;
    by rewrite <- IH.
Qed.

Lemma cached_cgroups_cons head reg :
  cached_cgroups (head :: reg) = (cg <$> next head) ++ cached_cgroups reg.
Proof. done. Qed.

(** X11.  A pruning pass over buckets that were all checked at least
    [PROC_STAT_PRUNE_INTERVAL] seconds ago removes the nodes of exactly the
    cgroups that no longer exist and keeps the others, in their order; it
    stamps the buckets that hold nodes with the current time.  A pass that
    finds the first bucket checked more recently changes nothing. *)
Theorem prune_complete_pass (e : host_env) (reg : registry) :
  (Forall (λ head, lastcheck head + PROC_STAT_PRUNE_INTERVAL <= now e) reg →
   cached_cgroups (prune_proc_stat_history e reg)
     = filter (λ name, cgfs_param_exist e name = true) (cached_cgroups reg) ∧
   Forall (λ name, cgfs_param_exist e name = true)
     (cached_cgroups (prune_proc_stat_history e reg)) ∧
   ∀ h head, reg !! h = Some head →
     ∃ head', prune_proc_stat_history e reg !! h = Some head' ∧
       next head' = prune_proc_stat_list e (next head) ∧
       lastcheck head' = match next head with
                         | [] => lastcheck head
                         | _ :: _ => now e
                         end) ∧
  (∀ head rest, reg = head :: rest →
     now e < lastcheck head + PROC_STAT_PRUNE_INTERVAL →
     prune_proc_stat_history e reg = reg).
Proof.
  split.
  - intros Hstale.
    assert (Hfil : cached_cgroups (prune_proc_stat_history e reg)
              = filter (λ name, cgfs_param_exist e name = true)
                  (cached_cgroups reg)).
    { induction Hstale as [|head reg Hh Hr IH]; [done|].
      cbn [prune_proc_stat_history].
      replace (now e <? lastcheck head + PROC_STAT_PRUNE_INTERVAL) with false
        by (symmetry; apply Z.ltb_ge; lia).
      rewrite !cached_cgroups_cons, filter_app, IH. f_equal.
      destruct (next head) eqn:En; cbn [next]; [by rewrite En|].
      apply fmap_cg_filter. }
    split; [exact Hfil|]. split.
    + rewrite Hfil. apply Forall_forall. intros name Hin.
      by apply list_elem_of_filter in Hin as [? _].
    + clear Hfil.
      induction Hstale as [|x reg Hh Hr IH]; intros h head; [done|].
      cbn [prune_proc_stat_history].
      replace (now e <? lastcheck x + PROC_STAT_PRUNE_INTERVAL) with false
        by (symmetry; apply Z.ltb_ge; lia).
      destruct h as [|h]; cbn; [|by apply IH].
      intros [= ->]. destruct (next head) eqn:En.
      * exists head. by rewrite En.
      * eexists. split; [done|]. by split.
  - intros head rest -> Hfresh. cbn [prune_proc_stat_history].
    by replace (now e <? lastcheck head + PROC_STAT_PRUNE_INTERVAL) with true
      by (symmetry; apply Z.ltb_lt; lia).
Qed.

Lemma prune_complete_pass_witness :
  cached_cgroups (prune_proc_stat_history env_a_gone (history other_read))
    = [cg_b].
Proof.
  destruct (prune_complete_pass env_a_gone (history other_read))
    as [Hall _].
  destruct Hall as (Hfil & _).
  - apply Forall_forall. intros head Hin.
    apply list_elem_of_lookup in Hin as [i Hi].
    assert (Hlast : ∀ x, x ∈ history other_read → lastcheck x = 0).
    { apply Forall_forall. vm_compute. repeat constructor. }
    rewrite (Hlast head) by (by eapply list_elem_of_lookup_2).
    vm_compute. discriminate.
  - rewrite Hfil. vm_compute. reflexivity.
Defined.

(** ** Reads that get no node *)

Lemma with_lock_back node :
  lock node = false → with_lock (with_lock node true) false = node.
Proof. destruct node. cbn. by intros ->. Qed.

(** X12.  A read for which [find_or_create_proc_stat_node] returns no node
    -- the allocation of a new node or of the larger arrays failed -- returns 0
    and changes nothing for the cgroup: the registry has the same node for it,
    unlocked, or still none. *)
Theorem read_without_node_changes_nothing (e : host_env) (reg : registry)
    (name : string) (cs : cpuset) (sample : list cpuacct_usage) (size : Z)
    (f : list host_line) (bufsize : Z) (st : parse_state)
    (line : option host_line) (rest : list host_line) :
  cgfs_param_exist e name = true →
  parse_host_stat cs size f None (mk_parse sample (-1) 0 [])
    = Some (st, line, rest) →
  (find_or_create_proc_stat_node e reg (ps_usage st)
     (working_nprocs e size) name).1 = NoNode →
  let r := cpuview_proc_stat e reg name cs sample size f bufsize in
  status r = Returned 0 EmptyString ∧
  lookup_node e (history r) name = lookup_node e reg name ∧
  (lookup_node e reg name = None → alloc_node_ok e = false) ∧
  (∀ node, lookup_node e reg name = Some node →
     lock node = false ∧ alloc_expand_ok e = false ∧
     cpu_count node < working_nprocs e size).
Proof.
  intros Hex Hp Hno r. subst r. unfold cpuview_proc_stat. rewrite Hp.
  revert Hno. unfold find_or_create_proc_stat_node.
  pose proof (find_proc_stat_node_lookup e reg name) as Hfl.
  rewrite (lookup_prune e reg name Hex) in Hfl.
  assert (Hl0 : lookup_node e (find_proc_stat_node e reg name).2 name
                = lookup_node e reg name).
  { destruct (find_proc_stat_node_cases e reg name) as [-> | ->]; [done|].
    by apply lookup_prune. }
  destruct (find_proc_stat_node e reg name) as [found reg0].
  cbn [fst snd] in Hfl, Hl0.
  destruct (lookup_node e reg name) as [node|] eqn:El; subst found.
  - unfold lock_and_expand. destruct (lock node) eqn:Hlk; [done|].
    cbn [with_lock cpu_count].
    destruct (Z.ltb_spec (cpu_count node) (working_nprocs e size)) as [Hlt|Hge];
      [|done].
    unfold expand_proc_stat_node.
    destruct (alloc_expand_ok e) eqn:Hal; [done|].
    intros _. cbn [status history]. split; [done|]. split.
    + rewrite with_lock_back by done.
      pose proof (lookup_node_cg e reg name node El) as Hcg.
      rewrite <- Hcg. eapply lookup_store_node.
      rewrite Hcg, Hl0. done.
    + split; [done|]. by intros ? [= <-].
  - unfold new_proc_stat_node. destruct (alloc_node_ok e) eqn:Hal.
    + set (nn := mk_node name _ _ _ false).
      assert (Ha : (add_proc_stat_node e reg0 nn).1 = nn).
      { unfold add_proc_stat_node. cbn [cg nn].
        unfold lookup_node in Hl0.
        destruct (reg0 !! hash_of e name) as [head|]; [|done].
        cbn in Hl0. by rewrite Hl0. }
      destruct (add_proc_stat_node e reg0 nn) as [node reg1].
      cbn in Ha. subst node. unfold lock_and_expand.
      cbn [lock nn with_lock cpu_count]. by rewrite Z.ltb_irrefl.
    + intros _. cbn [status history].
      split; [done|]. split; [congruence|]. split; [done|]. by intros.
Qed.

Lemma read_without_node_changes_nothing_witness :
  status read_expand_fail = Returned 0 EmptyString ∧
  lookup_node env_expand_fail (history read_expand_fail) cg_a
    = lookup_node env_expand_fail (history half_read_1) cg_a.
Proof.
  destruct (read_without_node_changes_nothing env_expand_fail
              (history half_read_1) cg_a [0; 1]
              [mk_usage 200 100 0 false; mk_usage 10 5 0 false] 2
              [cpu_stat_line 0 200 100 400; cpu_stat_line 1 10 5 300; intr_line]
              4096
              (mk_parse [mk_usage 200 100 400 true; mk_usage 10 5 300 true]
                 1 2 [])
              (Some intr_line) [])
    as (Hst & Hl & _).
  - reflexivity.
  - vm_compute. reflexivity.
  - vm_compute. reflexivity.
  - split; [exact Hst|exact Hl].
Defined.

(** * /proc/cpuinfo *)

Lemma emit_total_len b s b' :
  emit b s = Some b' →
  total_len b' = total_len b + Z.of_nat (String.length s) ∧
  written b' = written b +:+ s.
Proof.
  unfold emit. destruct (_ <=? _); [done|]. by intros [= <-].
Qed.

(** The loop on a host that is not an s390x writes [cpuinfo_loop_text], or
    fails where that text no longer fits. *)
Lemma cpuinfo_loop_emit use_view max_cpus cs f : ∀ st,
  is_s390x st = false →
  (firstline st = true → not_s390 f) →
  0 < buf_size (cache st) →
  let text := cpuinfo_loop_text use_view max_cpus cs f (am_printing st)
                (info_curcpu st) in
  match cpuinfo_loop use_view max_cpus cs f st with
  | None => emit (cache st) text = None
  | Some st' =>
      emit (cache st) text = Some (cache st') ∧
      is_s390x st' = false ∧
      (cache_text st' = written (cache st') ∨
       (cache_text st' = cache_text st ∧ text = EmptyString))
  end.
Proof.
  induction f as [|l f IH]; intros st Hs Hfirst Hroom;
    cbn [cpuinfo_loop cpuinfo_loop_text]; cbn zeta.
  { rewrite emit_nil by done. split; [done|]. split; [done|]. by right. }
  unfold cpuinfo_step.
  assert (Hv : firstline st && info_vendor_s390 l = false).
  { destruct (firstline st); [|done]. cbn. by apply Hfirst. }
  rewrite Hv. cbn [am_printing firstline is_s390x info_curcpu cache cache_text].
  rewrite Hs.
  set (st1 := mk_info_state (am_printing st) false false (info_curcpu st)
                (cache st) (cache_text st)).
  assert (Hkeep : ∀ am,
    let text1 := cpuinfo_loop_text use_view max_cpus cs f am (info_curcpu st) in
    match cpuinfo_loop use_view max_cpus cs f
            (mk_info_state am false false (info_curcpu st) (cache st)
               (cache_text st)) with
    | None => emit (cache st) text1 = None
    | Some st' =>
        emit (cache st) text1 = Some (cache st') ∧ is_s390x st' = false ∧
        (cache_text st' = written (cache st') ∨
         (cache_text st' = cache_text st ∧ text1 = EmptyString))
    end).
  { intros am. apply (IH (mk_info_state am false false _ _ _)); done. }
  assert (Hwrite : ∀ am curcpu s,
    let text1 := cpuinfo_loop_text use_view max_cpus cs f am curcpu in
    match
      match cache_write st1 am curcpu s with
      | InfoContinue st' => cpuinfo_loop use_view max_cpus cs f st'
      | InfoBreak st' => Some st'
      | InfoReturn0 => None
      end
    with
    | None => emit (cache st) (s +:+ text1) = None
    | Some st' =>
        emit (cache st) (s +:+ text1) = Some (cache st') ∧
        is_s390x st' = false ∧
        (cache_text st' = written (cache st') ∨
         (cache_text st' = cache_text st ∧ s +:+ text1 = EmptyString))
    end).
  { intros am curcpu s text1. unfold cache_write. cbn [cache st1 is_s390x].
    rewrite emit_app.
    destruct (emit (cache st) s) as [b|] eqn:Eb; [|done].
    pose proof (emit_room _ _ _ Eb) as Hb.
    pose proof (IH (mk_info_state am false false curcpu b (written b))
                  eq_refl ltac:(done) Hb) as Hrec.
    cbn [am_printing info_curcpu cache cache_text] in Hrec. cbn zeta in Hrec.
    fold text1 in Hrec. cbn [mbind option_bind].
    destruct (cpuinfo_loop _ _ _ f _) as [st'|]; [|done].
    destruct Hrec as (He & Hs' & Ht). split; [done|]. split; [done|].
    left. destruct Ht as [Ht|[Ht Hempty]]; [done|].
    rewrite Hempty, emit_nil in He by done. injection He as <-. done. }
  destruct (info_processors_header l).
  { apply (Hkeep (am_printing st)). }
  destruct (info_processor l) as [cpu|].
  - destruct (limit_reached use_view max_cpus (info_curcpu st)).
    { rewrite emit_nil by done. split; [done|]. split; [done|]. by right. }
    destruct (cpu_in_cpuset cpu cs).
    + apply (Hwrite true (info_curcpu st + 1)).
    + apply (Hkeep false).
  - destruct (am_printing st) eqn:Ham.
    + apply (Hwrite true (info_curcpu st) (info_text l)).
    + apply (Hkeep false).
Qed.

(** The text the loop writes is the text of the blocks it keeps. *)
Lemma cpuinfo_loop_text_blocks use_view max_cpus cs f : ∀ am curcpu,
  (use_view && (0 <? max_cpus) = true → curcpu + 1 <= max_cpus) →
  cpuinfo_loop_text use_view max_cpus cs f am curcpu =
    (if am then info_texts (cpuinfo_split f).1 else EmptyString)
    +:+ numbered_blocks (curcpu + 1)
          (let mine := filter (λ b, cpu_in_cpuset b.1 cs = true)
                         (cpuinfo_split f).2 in
           if use_view && (0 <? max_cpus)
           then take (Z.to_nat (max_cpus - (curcpu + 1))) mine
           else mine).
Proof.
  induction f as [|l f IH]; intros am curcpu Hlim;
    cbn [cpuinfo_loop_text cpuinfo_split]; cbn zeta.
  { cbn [fst snd info_texts]. rewrite filter_nil, take_nil.
    by destruct am, (_ && _). }
  destruct (cpuinfo_split f) as [pre blocks] eqn:Es. cbn [fst snd] in IH.
  destruct (info_processors_header l); cbn [fst snd]; [by apply IH|].
  destruct (info_processor l) as [cpu|]; cbn [fst snd].
  - unfold limit_reached.
    assert (Hpre : (if am then info_texts [] else EmptyString) = EmptyString)
      by (by destruct am).
    rewrite Hpre. clear Hpre. cbn [String.append].
    destruct (use_view && (0 <? max_cpus)) eqn:Hl; cbn [andb].
    + specialize (Hlim eq_refl).
      destruct (Z.eqb_spec (curcpu + 1) max_cpus) as [Heq|Hne].
      { replace (max_cpus - (curcpu + 1)) with 0 by lia. done. }
      destruct (cpu_in_cpuset cpu cs) eqn:Hcs.
      * rewrite filter_cons_True by done.
        replace (Z.to_nat (max_cpus - (curcpu + 1)))
          with (S (Z.to_nat (max_cpus - (curcpu + 1 + 1)))) by lia.
        cbn [take numbered_blocks]. by rewrite IH by (intros; lia).
      * rewrite filter_cons_False by (cbn; congruence).
        by rewrite IH by done.
    + destruct (cpu_in_cpuset cpu cs) eqn:Hcs.
      * rewrite filter_cons_True by done. cbn [numbered_blocks].
        by rewrite IH by (intros; done).
      * rewrite filter_cons_False by (cbn; congruence).
        by rewrite IH by done.
  - destruct am.
    + rewrite IH by done. cbn [info_texts]. by rewrite string_app_assoc.
    + by rewrite IH by done.
Qed.

Lemma substring_0_0 s : substring 0 0 s = EmptyString.
Proof. by destruct s. Qed.

Lemma substring_0_length s : substring 0 (String.length s) s = s.
Proof. induction s as [|c s IH]; cbn; [done|]. by rewrite IH. Qed.

(** The first read of an open file on a host that is not an s390x. *)
Lemma cpuinfo_first_read (e : host_env) (use_view alloc_ok : bool)
    (f : list info_line) (d : file_info) (size : Z) (cs : cpuset) :
  get_cpuset e = Some cs →
  not_s390 f →
  0 < fi_buflen d →
  0 <= size →
  let max_cpus := if use_view then max_cpu_count e else 0 in
  let text := cpuinfo_text use_view max_cpus cs f in
  let len := Z.of_nat (String.length text) in
  if fi_buflen d <=? len
  then proc_cpuinfo_read e true use_view (Some f) alloc_ok d size 0
       = InfoCacheLost
  else ∃ d',
    proc_cpuinfo_read e true use_view (Some f) alloc_ok d size 0
      = InfoRead (Z.min size len)
          (substring 0 (Z.to_nat (Z.min size len)) text) d' ∧
    fi_cached d' = true ∧ fi_size d' = len ∧ fi_buflen d' = fi_buflen d ∧
    substring 0 (Z.to_nat len) (fi_buf d') = text ∧
    (0 < len → fi_buf d' = text).
Proof.
  intros Hcs Hhost Hbuf Hsize max_cpus text len.
  unfold proc_cpuinfo_read. cbn [negb Z.eqb]. rewrite Hcs. fold max_cpus.
  set (st0 := mk_info_state false true false (-1)
                (mk_buf (fi_buflen d) 0 EmptyString) (fi_buf d)).
  pose proof (cpuinfo_loop_emit use_view max_cpus cs f st0 eq_refl
                ltac:(done) Hbuf) as Hloop.
  cbn zeta in Hloop. cbn [am_printing info_curcpu cache st0] in Hloop.
  rewrite cpuinfo_loop_text_blocks in Hloop.
  2:{ intros Hl. apply andb_true_iff in Hl as [_ Hl].
      apply Z.ltb_lt in Hl. lia. }
  cbn [String.append] in Hloop. cbn zeta in Hloop.
  replace (Z.to_nat (max_cpus - (-1 + 1))) with (Z.to_nat max_cpus) in Hloop
    by (f_equal; lia).
  change (-1 + 1) with 0 in Hloop.
  change (numbered_blocks 0 _) with text in Hloop.
  change (EmptyString +:+ text) with text in Hloop.
  unfold emit in Hloop. cbn [buf_size total_len written] in Hloop.
  change (EmptyString +:+ text) with text in Hloop.
  fold len in Hloop.
  destruct (cpuinfo_loop use_view max_cpus cs f st0) as [st'|].
  - destruct Hloop as (He & Hs & Ht).
    destruct (fi_buflen d <=? len); [done|].
    injection He as He. rewrite Hs.
    assert (Hlen : total_len (cache st') = len) by (by rewrite <- He).
    assert (Hwr : written (cache st') = text) by (by rewrite <- He).
    assert (Htext : substring 0 (Z.to_nat len) (cache_text st') = text).
    { destruct Ht as [Ht|[_ Hempty]].
      - rewrite Ht, Hwr. subst len. rewrite Nat2Z.id.
        apply substring_0_length.
      - subst len. rewrite Hempty. cbn. apply substring_0_0. }
    rewrite Hlen.
    exists (mk_file_info (cache_text st') (fi_buflen d) len true).
    split; [|cbn [fi_cached fi_size fi_buflen fi_buf]; repeat split; try done;
             intros Hpos; destruct Ht as [Ht|[_ Hempty]];
             [by rewrite Ht, Hwr|subst len; rewrite Hempty in Hpos; cbn in Hpos; lia]].
    assert (Hmin : (if size <? len then size else len) = Z.min size len)
      by (destruct (Z.ltb_spec size len); lia).
    rewrite Hmin. f_equal.
    destruct Ht as [Ht|[_ Hempty]]; [by rewrite Ht, Hwr|].
    assert (len = 0) as Hz by (subst len; by rewrite Hempty).
    rewrite Hz. replace (Z.min size 0) with 0 by lia.
    by rewrite !substring_0_0.
  - by destruct (fi_buflen d <=? len).
Qed.


(** X13.  On a host that is not an s390x, a read of /proc/cpuinfo at
    offset 0 builds the text of the processors of the container: the blocks of
    the host's processors that are in the cpuset, the first [max_cpu_count] of
    them when the CPU view is in use, each with the lines that follow its
    processor line and with the processors renumbered from 0.  The read fails
    if that text does not fit the buffer of the file; else it returns the first
    [size] characters, and the file has the whole text cached. *)
Theorem cpuinfo_read_text (e : host_env) (use_view alloc_ok : bool)
    (f : list info_line) (d : file_info) (size : Z) (cs : cpuset) :
  get_cpuset e = Some cs →
  not_s390 f →
  0 < fi_buflen d →
  0 <= size →
  let max_cpus := if use_view then max_cpu_count e else 0 in
  let text := cpuinfo_text use_view max_cpus cs f in
  let len := Z.of_nat (String.length text) in
  if fi_buflen d <=? len
  then proc_cpuinfo_read e true use_view (Some f) alloc_ok d size 0
       = InfoCacheLost
  else ∃ d',
    proc_cpuinfo_read e true use_view (Some f) alloc_ok d size 0
      = InfoRead (Z.min size len)
          (substring 0 (Z.to_nat (Z.min size len)) text) d' ∧
    fi_cached d' = true ∧ fi_size d' = len ∧ fi_buflen d' = fi_buflen d ∧
    substring 0 (Z.to_nat len) (fi_buf d') = text ∧
    (0 < len → fi_buf d' = text).
Proof. apply cpuinfo_first_read. Qed.

Lemma cpuinfo_read_text_witness :
  ∃ d',
    proc_cpuinfo_read env_cpus_0_2 true false (Some host_cpuinfo) true
      fresh_file 4096 0
    = InfoRead 58
        (processor_line 0 +:+ "model name : A" +:+ nl
         +:+ processor_line 1 +:+ "model name : C" +:+ nl) d' ∧
    fi_cached d' = true.
Proof.
  pose proof (cpuinfo_read_text env_cpus_0_2 false true host_cpuinfo
                fresh_file 4096 [0; 2] eq_refl eq_refl
                ltac:(cbn; lia) ltac:(lia)) as H.
  cbn zeta in H.
  change (fi_buflen fresh_file <=? _) with false in H.
  destruct H as (d' & H1 & H2 & _).
  exists d'. split; [exact H1|exact H2].
Defined.

Lemma substring_split s : ∀ n,
  (n <= String.length s)%nat →
  substring 0 n s +:+ substring n (String.length s - n) s = s.
Proof.
  induction s as [|c s IH]; intros [|n] Hn.
  - done.
  - cbn in Hn. lia.
  - change (String c (substring 0 (String.length s) s) = String c s).
    by rewrite substring_0_length.
  - change (String c (substring 0 n s
                      +:+ substring n (String.length s - n) s) = String c s).
    rewrite IH; [done|]. cbn in Hn. lia.
Qed.

(** X14.  Once a read at offset 0 has built the text, the file serves it
    from its cache: a read at an offset inside the text returns the characters
    from that offset on, as many as asked for and there are, whatever has
    become of the cgroup or the host since; a read past the end is refused
    with [-EINVAL].  A read of the first [n] characters followed by a read at
    offset [n] thus gives the whole text. *)
Theorem cpuinfo_chunked_reads (e : host_env) (use_view alloc_ok : bool)
    (f : list info_line) (d : file_info) (n : Z) (cs : cpuset) :
  get_cpuset e = Some cs →
  not_s390 f →
  0 < fi_buflen d →
  let max_cpus := if use_view then max_cpu_count e else 0 in
  let text := cpuinfo_text use_view max_cpus cs f in
  let len := Z.of_nat (String.length text) in
  len < fi_buflen d →
  0 < n < len →
  ∃ d' out1 out2,
    proc_cpuinfo_read e true use_view (Some f) alloc_ok d n 0
      = InfoRead n out1 d' ∧
    (∀ e2 cg_found2 use_view2 host2 alloc_ok2 m o,
       0 < o → 0 <= m →
       proc_cpuinfo_read e2 cg_found2 use_view2 host2 alloc_ok2 d' m o =
         if len <? o then InfoRead (- EINVAL) EmptyString d'
         else InfoRead (Z.min m (len - o))
                (substring (Z.to_nat o) (Z.to_nat (Z.min m (len - o))) text)
                d') ∧
    (∀ e2 cg_found2 use_view2 host2 alloc_ok2 m,
       len - n <= m →
       proc_cpuinfo_read e2 cg_found2 use_view2 host2 alloc_ok2 d' m n
         = InfoRead (len - n) out2 d') ∧
    out1 +:+ out2 = text.
Proof.
  intros Hcs Hhost Hbuf max_cpus text len Hfit Hn.
  pose proof (cpuinfo_first_read e use_view alloc_ok f d n cs Hcs Hhost Hbuf
                ltac:(lia)) as H.
  cbn zeta in H. fold max_cpus in H. fold text in H. fold len in H.
  replace (fi_buflen d <=? len) with false in H
    by (symmetry; apply Z.leb_gt; lia).
  destruct H as (d' & Hread & Hcached & Hsize & _ & _ & Hbuf').
  specialize (Hbuf' ltac:(lia)).
  assert (Hoff : ∀ e2 cg_found2 use_view2 host2 alloc_ok2 m o,
    0 < o → 0 <= m →
    proc_cpuinfo_read e2 cg_found2 use_view2 host2 alloc_ok2 d' m o =
      if len <? o then InfoRead (- EINVAL) EmptyString d'
      else InfoRead (Z.min m (len - o))
             (substring (Z.to_nat o) (Z.to_nat (Z.min m (len - o))) text) d').
  { intros e2 cg2 uv2 host2 alloc2 m o Ho Hm. unfold proc_cpuinfo_read.
    replace (o =? 0) with false by (symmetry; apply Z.eqb_neq; lia).
    cbn [negb]. rewrite Hsize, Hcached, Hbuf'. cbn [negb].
    destruct (len <? o); [done|].
    assert (Hmin : (if m <? len - o then m else len - o) = Z.min m (len - o))
      by (destruct (Z.ltb_spec m (len - o)); lia).
    by rewrite Hmin. }
  exists d', (substring 0 (Z.to_nat n) text),
    (substring (Z.to_nat n) (Z.to_nat (len - n)) text).
  split; [|split; [exact Hoff|split]].
  - rewrite Hread. by replace (Z.min n len) with n by lia.
  - intros e2 cg2 uv2 host2 alloc2 m Hm.
    rewrite Hoff by lia.
    replace (len <? n) with false by (symmetry; apply Z.ltb_ge; lia).
    by replace (Z.min m (len - n)) with (len - n) by lia.
  - replace (Z.to_nat (len - n))
      with (String.length text - Z.to_nat n)%nat by (subst len; lia).
    apply substring_split. subst len. lia.
Qed.

Lemma cpuinfo_chunked_reads_witness :
  ∃ d' out1 out2,
    proc_cpuinfo_read env_cpus_0_2 true false (Some host_cpuinfo) true
      fresh_file 20 0 = InfoRead 20 out1 d' ∧
    proc_cpuinfo_read env_cpus_0_2 false false None false d' 4096 20
      = InfoRead 38 out2 d' ∧
    out1 +:+ out2
      = processor_line 0 +:+ "model name : A" +:+ nl
        +:+ processor_line 1 +:+ "model name : C" +:+ nl.
Proof.
  destruct (cpuinfo_chunked_reads env_cpus_0_2 false true host_cpuinfo
              fresh_file 20 [0; 2])
    as (d' & out1 & out2 & H1 & _ & H2 & H3).
  - reflexivity.
  - reflexivity.
  - cbn. lia.
  - vm_compute. reflexivity.
  - vm_compute. split; reflexivity.
  - exists d', out1, out2. split; [exact H1|]. split; [|exact H3].
    apply (H2 env_cpus_0_2 false false None false 4096).
    vm_compute. discriminate.
Defined.

(** ** s390x *)

(** The loop on an s390x, past the first line. *)
Lemma s390_loop_emit use_view max_cpus cs f : ∀ st,
  is_s390x st = true → firstline st = false → am_printing st = true →
  Forall s390_plain f →
  0 < buf_size (cache st) →
  (use_view && (0 <? max_cpus) = true → info_curcpu st + 1 <= max_cpus) →
  let text := s390_loop_text use_view max_cpus cs f (info_curcpu st) in
  let shown :=
    let mine := filter (λ cpu, cpu_in_cpuset cpu cs = true)
                  (s390_processors f) in
    if use_view && (0 <? max_cpus)
    then take (Z.to_nat (max_cpus - (info_curcpu st + 1))) mine else mine in
  match cpuinfo_loop use_view max_cpus cs f st with
  | None => emit (cache st) text = None
  | Some st' =>
      emit (cache st) text = Some (cache st') ∧
      is_s390x st' = true ∧
      info_curcpu st' = info_curcpu st + Z.of_nat (length shown) ∧
      (cache_text st' = written (cache st') ∨
       (cache_text st' = cache_text st ∧ text = EmptyString))
  end.
Proof.
  induction f as [|l f IH]; intros st Hs Hfl Ham Hplain Hroom Hlim;
    cbn [cpuinfo_loop s390_loop_text]; cbn zeta.
  { rewrite emit_nil by done. unfold s390_processors. cbn [omap list_omap].
    rewrite filter_nil, take_nil.
    split; [done|]. split; [done|].
    split; [destruct (_ && _); cbn; lia|by right]. }
  apply Forall_cons in Hplain as [[Hx86 Hcolon] Hplain].
  unfold cpuinfo_step. rewrite Hfl. cbn [andb].
  cbn [am_printing firstline is_s390x info_curcpu cache cache_text].
  rewrite Hs, Ham, Hx86.
  assert (Hprocs : s390_processors (l :: f)
                   = match (if info_processors_header l then None
                            else info_processor_s390 l) with
                     | Some cpu => cpu :: s390_processors f
                     | None => s390_processors f
                     end).
  { unfold s390_processors. cbn [omap list_omap].
    by destruct (if info_processors_header l then _ else _). }
  rewrite Hprocs. clear Hprocs.
  assert (Hkeep :
    let text1 := s390_loop_text use_view max_cpus cs f (info_curcpu st) in
    let shown1 :=
      let mine := filter (λ cpu, cpu_in_cpuset cpu cs = true)
                    (s390_processors f) in
      if use_view && (0 <? max_cpus)
      then take (Z.to_nat (max_cpus - (info_curcpu st + 1))) mine else mine in
    match cpuinfo_loop use_view max_cpus cs f
            (mk_info_state true false true (info_curcpu st) (cache st)
               (cache_text st)) with
    | None => emit (cache st) text1 = None
    | Some st' =>
        emit (cache st) text1 = Some (cache st') ∧ is_s390x st' = true ∧
        info_curcpu st' = info_curcpu st + Z.of_nat (length shown1) ∧
        (cache_text st' = written (cache st') ∨
         (cache_text st' = cache_text st ∧ text1 = EmptyString))
    end).
  { apply (IH (mk_info_state true false true _ _ _)); done. }
  cbn zeta in Hkeep.
  destruct (info_processors_header l); [exact Hkeep|].
  destruct (info_processor_s390 l) as [cpu|] eqn:Hproc.
  - unfold limit_reached.
    destruct (use_view && (0 <? max_cpus)) eqn:Hl; cbn [andb].
    + specialize (Hlim eq_refl).
      destruct (Z.eqb_spec (info_curcpu st + 1) max_cpus) as [Heq|Hne].
      { rewrite emit_nil by done.
        replace (Z.to_nat (max_cpus - (info_curcpu st + 1))) with 0%nat by lia.
        rewrite take_0.
        split; [done|]. split; [done|]. split; [cbn; lia|by right]. }
      destruct (cpu_in_cpuset cpu cs) eqn:Hcs; cbn [negb].
      * rewrite filter_cons_True by done.
        destruct (info_after_colon l) as [p|]; [|by destruct Hcolon].
        unfold cache_write. cbn [cache is_s390x].
        rewrite emit_app.
        destruct (emit (cache st)
                    (processor_line_s390 (info_curcpu st + 1) p))
          as [b|] eqn:Eb; [|done].
        pose proof (emit_room _ _ _ Eb) as Hb.
        pose proof (IH (mk_info_state true false true (info_curcpu st + 1) b
                          (written b)) eq_refl eq_refl eq_refl Hplain Hb)
          as Hrec.
        cbn [info_curcpu cache cache_text] in Hrec. cbn zeta in Hrec.
        specialize (Hrec ltac:(intros; lia)).
        cbn [mbind option_bind]. clear Hkeep.
        destruct (cpuinfo_loop _ _ _ f _) as [st'|]; [|done].
        destruct Hrec as (He & Hs' & Hc & Ht).
        split; [done|]. split; [done|]. split.
        -- rewrite Hc.
           replace (Z.to_nat (max_cpus - (info_curcpu st + 1)))
             with (S (Z.to_nat (max_cpus - (info_curcpu st + 1 + 1)))) by lia.
           cbn [take length]. lia.
        -- left. destruct Ht as [Ht|[Ht Hempty]]; [done|].
           rewrite Hempty, emit_nil in He by done. injection He as <-. done.
      * rewrite filter_cons_False by congruence. exact Hkeep.
    + destruct (cpu_in_cpuset cpu cs) eqn:Hcs; cbn [negb].
      * rewrite filter_cons_True by done.
        destruct (info_after_colon l) as [p|]; [|by destruct Hcolon].
        unfold cache_write. cbn [cache is_s390x].
        rewrite emit_app.
        destruct (emit (cache st)
                    (processor_line_s390 (info_curcpu st + 1) p))
          as [b|] eqn:Eb; [|done].
        pose proof (emit_room _ _ _ Eb) as Hb.
        pose proof (IH (mk_info_state true false true (info_curcpu st + 1) b
                          (written b)) eq_refl eq_refl eq_refl Hplain Hb)
          as Hrec.
        cbn [info_curcpu cache cache_text] in Hrec. cbn zeta in Hrec.
        specialize (Hrec ltac:(done)).
        cbn [mbind option_bind]. clear Hkeep.
        destruct (cpuinfo_loop _ _ _ f _) as [st'|]; [|done].
        destruct Hrec as (He & Hs' & Hc & Ht).
        split; [done|]. split; [done|]. split.
        -- rewrite Hc. cbn [length]. lia.
        -- left. destruct Ht as [Ht|[Ht Hempty]]; [done|].
           rewrite Hempty, emit_nil in He by done. injection He as <-. done.
      * rewrite filter_cons_False by congruence. exact Hkeep.
  - unfold cache_write. cbn [cache is_s390x].
    rewrite emit_app.
    destruct (emit (cache st) (info_text l)) as [b|] eqn:Eb; [|done].
    pose proof (emit_room _ _ _ Eb) as Hb.
    pose proof (IH (mk_info_state true false true (info_curcpu st) b
                      (written b)) eq_refl eq_refl eq_refl Hplain Hb Hlim)
      as Hrec.
    cbn [info_curcpu cache cache_text] in Hrec. cbn zeta in Hrec.
    cbn [mbind option_bind]. clear Hkeep.
    destruct (cpuinfo_loop _ _ _ f _) as [st'|]; [|done].
    destruct Hrec as (He & Hs' & Hc & Ht).
    split; [done|]. split; [done|]. split; [done|].
    left. destruct Ht as [Ht|[Ht Hempty]]; [done|].
    rewrite Hempty, emit_nil in He by done. injection He as <-. done.
Qed.

Lemma cpuinfo_s390_cache_emit buflen curcpu origcache :
  cpuinfo_s390_cache buflen curcpu origcache =
    emit (mk_buf buflen 0 EmptyString)
      (("vendor_id       : IBM/S390" +:+ nl)
       +:+ ("# processors    : " +:+ pretty (curcpu + 1) +:+ nl)
       +:+ origcache).
Proof.
  unfold cpuinfo_s390_cache. rewrite (emit_app _ (_ +:+ nl)).
  destruct (emit _ (_ +:+ nl)) as [b|]; [|done].
  cbn [mbind option_bind].
  by rewrite (emit_app b _ origcache).
Qed.

(** X15.  On an s390x, whose first line names the vendor, a read of
    /proc/cpuinfo at offset 0 of a file whose buffer is still empty builds the
    vendor line, a [# processors] line with the number of processors the
    container sees -- those of the cpuset, at most [max_cpu_count] when the CPU
    view is in use -- and then the lines of the host with the processor lines
    of the container renumbered from 0. *)
Theorem cpuinfo_read_s390 (e : host_env) (use_view : bool) (l0 : info_line)
    (f : list info_line) (d : file_info) (size : Z) (cs : cpuset) :
  get_cpuset e = Some cs →
  info_vendor_s390 l0 = true →
  Forall s390_plain f →
  fi_buf d = EmptyString →
  0 <= size →
  let max_cpus := if use_view then max_cpu_count e else 0 in
  let text := s390_text use_view max_cpus cs f in
  let len := Z.of_nat (String.length text) in
  len < fi_buflen d →
  ∃ d',
    proc_cpuinfo_read e true use_view (Some (l0 :: f)) true d size 0
      = InfoRead (Z.min size len)
          (substring 0 (Z.to_nat (Z.min size len)) text) d' ∧
    fi_cached d' = true ∧ fi_size d' = len ∧ fi_buf d' = text.
Proof.
  intros Hcs Hvendor Hplain Hempty Hsize max_cpus text len Hfit.
  unfold proc_cpuinfo_read. cbn [negb Z.eqb]. rewrite Hcs. fold max_cpus.
  cbn [cpuinfo_loop]. unfold cpuinfo_step at 1.
  cbn [firstline info_curcpu cache cache_text]. rewrite Hvendor. cbn [andb].
  set (st0 := mk_info_state true false true (-1)
                (mk_buf (fi_buflen d) 0 EmptyString) (fi_buf d)).
  set (body := s390_loop_text use_view max_cpus cs f (-1)).
  assert (Hlen : Z.of_nat (String.length body) < len).
  { subst len text. unfold s390_text. fold body.
    rewrite !string_length_app. unfold nl. cbn [String.length]. lia. }
  pose proof (s390_loop_emit use_view max_cpus cs f st0 eq_refl eq_refl eq_refl
                Hplain ltac:(cbn; lia)) as Hloop.
  cbn [info_curcpu cache cache_text st0] in Hloop. cbn zeta in Hloop.
  specialize (Hloop ltac:(intros Hl; apply andb_true_iff in Hl as [_ Hl];
                          apply Z.ltb_lt in Hl; lia)).
  fold body in Hloop.
  replace (Z.to_nat (max_cpus - (-1 + 1))) with (Z.to_nat max_cpus) in Hloop
    by (f_equal; lia).
  change (if use_view && (0 <? max_cpus)
          then take (Z.to_nat max_cpus)
                 (filter (λ cpu, cpu_in_cpuset cpu cs = true)
                    (s390_processors f))
          else filter (λ cpu, cpu_in_cpuset cpu cs = true) (s390_processors f))
    with (visible_cpus use_view max_cpus cs (s390_processors f)) in Hloop.
  unfold emit in Hloop. cbn [buf_size total_len written] in Hloop.
  replace (fi_buflen d <=? Z.of_nat (String.length body)) with false in Hloop
    by (symmetry; apply Z.leb_gt; lia).
  destruct (cpuinfo_loop use_view max_cpus cs f st0) as [st'|]; [|done].
  destruct Hloop as (He & Hs & Hc & Ht).
  injection He as He.
  assert (Horig : cache_text st' = body).
  { destruct Ht as [Ht|[Ht Hb]].
    - rewrite Ht, <- He. done.
    - rewrite Ht, Hb. exact Hempty. }
  rewrite Hs, Horig, cpuinfo_s390_cache_emit.
  replace (info_curcpu st' + 1)
    with (Z.of_nat (length (visible_cpus use_view max_cpus cs
                              (s390_processors f)))) by lia.
  change (("vendor_id       : IBM/S390" +:+ nl) +:+ _) with text.
  unfold emit. cbn [buf_size total_len written]. fold len.
  replace (fi_buflen d <=? len) with false by (symmetry; apply Z.leb_gt; lia).
  cbn [mbind option_bind total_len written].
  assert (Hmin : (if size <? 0 + len then size else 0 + len) = Z.min size len)
    by (destruct (Z.ltb_spec size (0 + len)); lia).
  rewrite Hmin. eexists. split; [reflexivity|].
  cbn [fi_cached fi_size fi_buf]. by repeat split.
Qed.

Lemma cpuinfo_read_s390_witness :
  ∃ d',
    proc_cpuinfo_read env_cpus_0_2 true false (Some s390_cpuinfo) true
      fresh_file 4096 0
    = InfoRead 99
        (("vendor_id       : IBM/S390" +:+ nl)
         +:+ ("# processors    : 2" +:+ nl)
         +:+ ("processor 0: version = FF" +:+ nl)
         +:+ ("processor 1: version = FF" +:+ nl)) d' ∧
    fi_cached d' = true.
Proof.
  destruct (cpuinfo_read_s390 env_cpus_0_2 false s390_vendor
              [s390_header; s390_proc 0; s390_proc 1; s390_proc 2]
              fresh_file 4096 [0; 2])
    as (d' & H1 & H2 & _).
  - reflexivity.
  - reflexivity.
  - repeat constructor; cbn; congruence.
  - reflexivity.
  - lia.
  - vm_compute. reflexivity.
  - exists d'. split; [exact H1|exact H2].
Defined.
(** ** A read that brings nothing new, and the read without a quota *)

(** The product of the partial-CPU revision is zero ticks when the visible
    deltas add up to zero, whatever the second factor is: the product is a
    zero or not a number, and the conversion gives 0 for both. *)
Lemma ulong_of_double_mul_zero x :
  ulong_of_double (PrimFloat.mul (double_of_ulong 0) x) = 0.
Proof.
  unfold ulong_of_double. rewrite FloatAxioms.mul_spec.
  change (Prim2SF (double_of_ulong 0)) with (S754_zero false).
  by destruct (Prim2SF x) as [s| s| |s m ex].
Qed.

Lemma sub_or_zero_0_r x : is_u64 x → sub_or_zero x 0 = x.
Proof.
  intros H. unfold sub_or_zero. destruct (Z.ltb_spec 0 x).
  - unfold_u64. rewrite Z.sub_0_r. apply Z.mod_small. lia.
  - unfold_u64. lia.
Qed.

Lemma add_counters_zero v d :
  counters_ok v → same_counters d zero_usage → add_counters v d = v.
Proof.
  intros (Hu & Hs & Hi) (Hdu & Hds & Hdi). unfold add_counters.
  rewrite Hdu, Hds, Hdi. cbn [zero_usage user system idle].
  rewrite !uadd_0_r by done. by destruct v.
Qed.

(** The loop of lines 706-732 over deltas that are all zero: the view is
    what it was, and the three totals of the deltas stay zero. *)
Lemma accumulate_view_steady n : ∀ curcpu i max_cpus usage_arr diff a,
  (∀ j, same_counters (diff !!! j) zero_usage) →
  (∀ j, counters_ok (va_view a !!! j)) →
  va_diff_user a = 0 → va_diff_system a = 0 → va_diff_idle a = 0 →
  let a' := accumulate_view n curcpu i max_cpus usage_arr diff a in
  (∀ j, va_view a' !!! j = va_view a !!! j) ∧
  va_diff_user a' = 0 ∧ va_diff_system a' = 0 ∧ va_diff_idle a' = 0.
Proof.
  induction n as [|n IH]; intros curcpu i max_cpus usage_arr diff a Hd Hv Hu Hs Hi;
    cbn [accumulate_view]; [done|].
  destruct (negb _); [by apply IH|].
  destruct (_ =? _); [done|].
  assert (Hz : add_counters (va_view a !!! curcpu) (diff !!! curcpu)
               = va_view a !!! curcpu) by (by apply add_counters_zero).
  assert (Hsame : ∀ j,
            va_view (accumulate_cpu curcpu (diff !!! curcpu) a) !!! j
            = va_view a !!! j).
  { intros j. cbn [accumulate_cpu va_view]. rewrite Hz.
    rewrite list_lookup_total_insert. case_decide as Hc; [|done].
    by destruct Hc as [-> _]. }
  destruct (Hd curcpu) as (Hdu & Hds & Hdi).
  destruct (IH (S curcpu) (i + 1) max_cpus usage_arr diff
              (accumulate_cpu curcpu (diff !!! curcpu) a)) as (Hv' & Hrest).
  - exact Hd.
  - intros j. rewrite Hsame. apply Hv.
  - cbn [accumulate_cpu va_diff_user]. by rewrite Hu, Hdu.
  - cbn [accumulate_cpu va_diff_system]. by rewrite Hs, Hds.
  - cbn [accumulate_cpu va_diff_idle]. by rewrite Hi, Hdi.
  - split; [|exact Hrest]. intros j. by rewrite Hv', Hsame.
Qed.

Lemma revise_partial_steady e max_cpus a :
  (∀ j, counters_ok (va_view a !!! j)) →
  va_diff_user a = 0 → va_diff_system a = 0 → va_diff_idle a = 0 →
  ∀ j, va_view (revise_partial e max_cpus a) !!! j = va_view a !!! j.
Proof.
  intros Hv Hu Hs Hi j. unfold revise_partial.
  destruct (PrimFloat.ltb _ _); [|done]. cbn [va_view].
  assert (Hd : partial_delta (exact_cpu_count e) max_cpus a = 0).
  { unfold partial_delta. rewrite Hu, Hs, Hi. change (uadd (uadd 0 0) 0) with 0.
    apply ulong_of_double_mul_zero. }
  rewrite Hd, list_lookup_total_alter. case_decide as Hc; [|done].
  destruct Hc as [-> _]. destruct (Hv j) as (_ & _ & Hidle).
  rewrite sub_or_zero_0_r by done. by destruct (va_view a !!! j).
Qed.

(** X16.  A read under a quota whose sample shows, for every online CPU,
    the counters the node already has stored leaves the view as it is: every
    delta is zero, nothing is redistributed, and the partial-CPU revision takes
    nothing away. *)
Theorem steady_read_keeps_view (e : host_env) (nprocs max_cpus cpu_cnt : Z)
    (sample : list cpuacct_usage) (node : cg_proc_stat) :
  0 < max_cpus →
  (∀ j, (j < Z.to_nat nprocs)%nat → online (sample !!! j) = true →
        same_counters (usage node !!! j) (sample !!! j)) →
  (∀ j, counters_ok (view node !!! j)) →
  ∀ j, view (reconcile e nprocs max_cpus cpu_cnt sample node).1 !!! j
       = view node !!! j.
Proof.
  intros Hq Hu Hv j.
  set (n := Z.to_nat nprocs) in *.
  assert (E0 : reset_scan n 0 sample nprocs node = node).
  { apply reset_scan_idle. intros j' ? Hon.
    destruct (Hu j') as (-> & _); [lia|done|lia]. }
  set (dr := diff_cpu_usage (usage node) sample (replicate n zero_usage) nprocs).
  assert (Hdz : ∀ j, same_counters (dr.1 !!! j) zero_usage).
  { intros j'. subst dr. unfold diff_cpu_usage. fold n.
    apply (diff_loop_pointwise (λ _ d, same_counters d zero_usage)).
    - intros j''. rewrite replicate_zero_lookup. by repeat split.
    - intros j'' o Hj'' Hon.
      destruct (Hu j'') as (-> & -> & ->); [lia|done|].
      rewrite !sat_sub_diag. by repeat split. }
  assert (Hsum : dr.2 = 0).
  { subst dr. unfold diff_cpu_usage. fold n.
    apply diff_loop_sum_zero; [unfold_u64; lia|].
    intros j' Hj' Hon. destruct (Hu j') as (-> & -> & ->); [lia|done|done]. }
  set (ur := usage_update_loop n 0 (-1) max_cpus sample dr.1 (usage node) 0 0).
  assert (Hsur : ur.1.2 = 0 ∧ ur.2 = 0).
  { subst ur. apply usage_update_surplus_zero.
    intros j'. by destruct (Hdz j') as (-> & -> & _). }
  set (vd := visible_diff nprocs max_cpus 0 ur.1.1 dr.1 0 0).
  assert (Hvd : ∀ j, same_counters (vd !!! j) zero_usage).
  { intros j'. subst vd. unfold visible_diff.
    destruct (redistribute_pointwise (Z.to_nat nprocs) 0 (-1) max_cpus 0
                ur.1.1 dr.1 0 0) with (j := j') as [Hok' Htot];
      try (unfold_u64; lia).
    { intros j''. apply same_counters_zero_delta_ok, Hdz. }
    apply delta_ok_zero; [exact Hok'|]. rewrite Htot.
    destruct (Hdz j') as (Hdu & Hds & Hdi). unfold total_of.
    rewrite Hdu, Hds, Hdi. done. }
  set (a0 := mk_acc (view node) 0 0 0 0 0 0 0 0%nat).
  destruct (accumulate_view_steady n 0%nat (-1) max_cpus ur.1.1 vd a0)
    as (Hav & Hau & Has & Hai); try done.
  rewrite reconcile_view. fold n. rewrite E0. fold dr. fold ur.
  replace (0 <? max_cpus) with true by (symmetry; apply Z.ltb_lt; lia).
  destruct Hsur as [-> ->]. rewrite Hsum, threshold_of_zero.
  fold vd. fold a0. rewrite revise_partial_steady; try done.
  intros j'. rewrite Hav. apply Hv.
Qed.

Lemma steady_read_keeps_view_witness :
  view (reconcile half_cpu_env 2 1 2
          [mk_usage 50 20 30 true; mk_usage 10 5 85 true]
          (mk_node cg_a [mk_usage 50 20 30 true; mk_usage 10 5 85 true]
             [mk_usage 40 10 20 true; zero_usage] 2 true)).1 !!! 0%nat
  = mk_usage 40 10 20 true.
Proof.
  apply (steady_read_keeps_view half_cpu_env 2 1 2
           [mk_usage 50 20 30 true; mk_usage 10 5 85 true]
           (mk_node cg_a [mk_usage 50 20 30 true; mk_usage 10 5 85 true]
              [mk_usage 40 10 20 true; zero_usage] 2 true)).
  - lia.
  - intros [|[|j]] Hj _; [by repeat split|by repeat split|].
    cbn in Hj. lia.
  - intros [|[|j]]; vm_compute; repeat split; discriminate.
Defined.

(** The node after the reset test has arrays as long as before. *)
Lemma reset_scan_lengths n curcpu sample nprocs node :
  (Z.to_nat nprocs <= length sample)%nat →
  (Z.to_nat nprocs <= length (usage node))%nat →
  (Z.to_nat nprocs <= length (view node))%nat →
  (Z.to_nat nprocs
     <= length (usage (reset_scan n curcpu sample nprocs node)))%nat ∧
  (Z.to_nat nprocs
     <= length (view (reset_scan n curcpu sample nprocs node)))%nat.
Proof.
  intros Hs Hu Hv.
  destruct (reset_scan_cases n curcpu sample nprocs node) as [-> | ->];
    [done|].
  destruct (reset_lengths node sample nprocs Hs Hu) as [-> Hvl].
  rewrite Hvl. done.
Qed.

(** X18.  Without a quota the view is the usage: after the read, every CPU
    the sample has online is online in the stored usage, and its three view
    counters are the three usage counters the read has just stored. *)
Theorem view_without_quota_is_usage (e : host_env) (nprocs max_cpus cpu_cnt : Z)
    (sample : list cpuacct_usage) (node : cg_proc_stat) (j : nat) :
  max_cpus <= 0 →
  (Z.to_nat nprocs <= length sample)%nat →
  (Z.to_nat nprocs <= length (usage node))%nat →
  (Z.to_nat nprocs <= length (view node))%nat →
  (j < Z.to_nat nprocs)%nat →
  online (sample !!! j) = true →
  let node' := (reconcile e nprocs max_cpus cpu_cnt sample node).1 in
  online (usage node' !!! j) = true ∧
  same_counters (view node' !!! j) (usage node' !!! j).
Proof.
  intros Hq Hs Hu Hv Hj Hon node'. subst node'.
  set (n := Z.to_nat nprocs) in *.
  destruct (reset_scan_lengths n 0 sample nprocs node Hs Hu Hv) as [Hu0 Hv0].
  pose proof (reconcile_usage e nprocs max_cpus cpu_cnt sample node) as Eu.
  pose proof (reconcile_view e nprocs max_cpus cpu_cnt sample node) as Ev.
  cbn zeta in Eu, Ev. fold n in Eu, Ev.
  set (node0 := reset_scan n 0 sample nprocs node) in *.
  set (dr := diff_cpu_usage (usage node0) sample (replicate n zero_usage)
               nprocs) in *.
  set (ur := usage_update_loop n 0 (-1) max_cpus sample dr.1 (usage node0)
               0 0) in *.
  replace (0 <? max_cpus) with false in Ev
    by (symmetry; apply Z.ltb_ge; lia).
  assert (Hur : ur.1.1 !!! j
                = mk_usage
                    (uadd (user (usage node0 !!! j)) (user (dr.1 !!! j)))
                    (uadd (system (usage node0 !!! j)) (system (dr.1 !!! j)))
                    (uadd (idle (usage node0 !!! j)) (idle (dr.1 !!! j)))
                    true).
  { subst ur. rewrite usage_update_lookup by (cbn; lia).
    rewrite decide_True by lia. by rewrite Hon. }
  rewrite Ev, Eu. rewrite copy_usage_lookup by (cbn; lia).
  rewrite decide_True by lia. rewrite Hur. cbn [online].
  by repeat split.
Qed.

Lemma view_without_quota_is_usage_witness :
  let node' :=
    (reconcile noquota_env 2 0 2
       [mk_usage 60 25 35 true; mk_usage 10 5 85 false]
       (mk_node cg_a [mk_usage 50 20 30 true; mk_usage 10 5 85 true]
          [mk_usage 40 10 20 true; zero_usage] 2 true)).1 in
  online (usage node' !!! 0%nat) = true ∧
  same_counters (view node' !!! 0%nat) (usage node' !!! 0%nat).
Proof.
  apply (view_without_quota_is_usage noquota_env 2 0 2
           [mk_usage 60 25 35 true; mk_usage 10 5 85 false]
           (mk_node cg_a [mk_usage 50 20 30 true; mk_usage 10 5 85 true]
              [mk_usage 40 10 20 true; zero_usage] 2 true) 0%nat);
    cbn; try lia; reflexivity.
Defined.
(** ** Where the surplus comes from and where it goes *)

Lemma online_entries_length n : ∀ curcpu usage_arr arr,
  length (online_entries n curcpu usage_arr arr)
  = online_count n curcpu usage_arr.
Proof.
  induction n as [|n IH]; intros curcpu usage_arr arr;
    cbn [online_entries online_count]; [done|].
  destruct (online (usage_arr !!! curcpu)); cbn [length]; rewrite IH; lia.
Qed.

(** The list of entries depends on the flags of the CPUs walked only. *)
Lemma online_entries_flags n : ∀ curcpu usage_arr usage_arr' arr,
  (∀ j, (curcpu <= j < curcpu + n)%nat →
        online (usage_arr !!! j) = online (usage_arr' !!! j)) →
  online_entries n curcpu usage_arr arr
  = online_entries n curcpu usage_arr' arr.
Proof.
  induction n as [|n IH]; intros curcpu usage_arr usage_arr' arr H;
    cbn [online_entries]; [done|].
  rewrite (H curcpu) by lia.
  rewrite (IH (S curcpu) usage_arr usage_arr') by (intros; apply H; lia).
  done.
Qed.

Lemma sum_of_app field (l1 l2 : list cpuacct_usage) :
  sum_of field (l1 ++ l2) = sum_of field l1 + sum_of field l2.
Proof.
  induction l1 as [|d l1 IH]; [done|].
  cbn [app]. rewrite !sum_of_cons, IH. lia.
Qed.

Lemma sum_of_take_drop field k (l : list cpuacct_usage) :
  sum_of field l = sum_of field (take k l) + sum_of field (drop k l).
Proof. by rewrite <- sum_of_app, take_drop. Qed.

Lemma sum_of_nonneg field (l : list cpuacct_usage) :
  Forall (λ d, 0 <= field d) l → 0 <= sum_of field l.
Proof.
  induction 1 as [|d l Hd _ IH]; [done|]. rewrite sum_of_cons. lia.
Qed.

Lemma online_entries_Forall (P : cpuacct_usage → Prop) n :
  ∀ curcpu usage_arr arr,
  (∀ j, P (arr !!! j)) → Forall P (online_entries n curcpu usage_arr arr).
Proof.
  induction n as [|n IH]; intros curcpu usage_arr arr H;
    cbn [online_entries]; [constructor|].
  destruct (online _); [constructor; [apply H|]|]; by apply IH.
Qed.

(** The loop of lines 647-663 under a quota: each pool grows by the deltas
    of the online CPUs that come after the ones still visible. *)
Lemma usage_update_surplus n :
  ∀ curcpu i max_cpus sample diff usage_arr us ss,
  0 < max_cpus → is_u64 us → is_u64 ss →
  let r := usage_update_loop n curcpu i max_cpus sample diff usage_arr us ss in
  let hidden := drop (Z.to_nat (max_cpus - (i + 1)))
                  (online_entries n curcpu sample diff) in
  r.1.2 = u64 (us + sum_of user hidden) ∧
  r.2 = u64 (ss + sum_of system hidden).
Proof.
  induction n as [|n IH];
    intros curcpu i max_cpus sample diff usage_arr us ss Hq Hus Hss;
    cbn [usage_update_loop online_entries].
  - rewrite drop_nil. cbn [fst snd sum_of foldr]. rewrite !Z.add_0_r.
    by rewrite !u64_id.
  - cbn [set_online online].
    destruct (online (sample !!! curcpu)) eqn:Hon; cbn [negb].
    + replace (0 <? max_cpus) with true by (symmetry; apply Z.ltb_lt; lia).
      cbn [andb]. destruct (Z.leb_spec max_cpus (i + 1)) as [Hge|Hlt].
      * match goal with
        | |- context [usage_update_loop n (S curcpu) (i + 1) max_cpus sample
                        diff ?a ?u ?s] =>
            destruct (IH (S curcpu) (i + 1) max_cpus sample diff a u s)
              as [E1 E2]; try done; try apply uadd_range
        end.
        rewrite E1, E2.
        replace (Z.to_nat (max_cpus - (i + 1 + 1))) with 0%nat by lia.
        replace (Z.to_nat (max_cpus - (i + 1))) with 0%nat by lia.
        rewrite !drop_0, !sum_of_cons, !u64_uadd_l. done.
      * match goal with
        | |- context [usage_update_loop n (S curcpu) (i + 1) max_cpus sample
                        diff ?a ?u ?s] =>
            destruct (IH (S curcpu) (i + 1) max_cpus sample diff a u s)
              as [E1 E2]; try done
        end.
        rewrite E1, E2.
        replace (Z.to_nat (max_cpus - (i + 1)))
          with (S (Z.to_nat (max_cpus - (i + 1 + 1)))) by lia.
        done.
    + by apply IH.
Qed.

(** X17.  Under a quota the two surplus pools are the user and the system
    deltas of the hidden CPUs: the online CPUs that come after the first
    [max_cpus] online ones, added up as [unsigned long]s.  When no more than
    [max_cpus] CPUs are online both pools are zero. *)
Theorem surplus_is_hidden_delta (n : nat) (max_cpus : Z)
    (sample diff usage_arr : list cpuacct_usage) :
  0 < max_cpus →
  let r := usage_update_loop n 0 (-1) max_cpus sample diff usage_arr 0 0 in
  let hidden := drop (Z.to_nat max_cpus) (online_entries n 0 sample diff) in
  r.1.2 = u64 (sum_of user hidden) ∧
  r.2 = u64 (sum_of system hidden) ∧
  ((online_count n 0 sample <= Z.to_nat max_cpus)%nat → r.1.2 = 0 ∧ r.2 = 0).
Proof.
  intros Hq r hidden.
  destruct (usage_update_surplus n 0%nat (-1) max_cpus sample diff usage_arr
              0 0) as [E1 E2]; [done|unfold_u64; lia|unfold_u64; lia|].
  replace (Z.to_nat (max_cpus - (-1 + 1))) with (Z.to_nat max_cpus) in E1, E2
    by lia.
  cbn zeta in E1, E2. rewrite Z.add_0_l in E1, E2.
  split; [exact E1|]. split; [exact E2|].
  intros Hfew. subst r. rewrite E1, E2.
  rewrite drop_ge by (rewrite online_entries_length; lia). done.
Qed.

Lemma surplus_is_hidden_delta_witness :
  let r :=
    usage_update_loop 3 0 (-1) 1
      [mk_usage 60 25 35 true; mk_usage 10 5 85 false; mk_usage 9 9 9 true]
      [mk_usage 10 5 5 true; zero_usage; mk_usage 7 2 1 true]
      [mk_usage 50 20 30 true; mk_usage 10 5 85 true; mk_usage 2 7 8 true]
      0 0 in
  r.1.2 = 7 ∧ r.2 = 2 ∧
  ((online_count 3 0
      [mk_usage 60 25 35 true; mk_usage 10 5 85 false; mk_usage 9 9 9 true]
    <= Z.to_nat 1)%nat → r.1.2 = 0 ∧ r.2 = 0).
Proof.
  apply (surplus_is_hidden_delta 3 1
           [mk_usage 60 25 35 true; mk_usage 10 5 85 false; mk_usage 9 9 9 true]
           [mk_usage 10 5 5 true; zero_usage; mk_usage 7 2 1 true]
           [mk_usage 50 20 30 true; mk_usage 10 5 85 true; mk_usage 2 7 8 true]).
  lia.
Defined.

(** The loop of lines 677-699 over the CPUs it walks: what the user deltas
    of the visible CPUs gain is what the user pool loses, the same for the
    system deltas, and the totals of the visible CPUs stay what they were. *)
Lemma redistribute_entries_sum n :
  ∀ curcpu i max_cpus threshold usage_arr diff us ss,
  is_u64 threshold → is_u64 us → is_u64 ss →
  (∀ j, delta_ok (diff !!! j)) →
  (curcpu + n <= length diff)%nat →
  i + 1 <= max_cpus →
  let r := redistribute n curcpu i max_cpus threshold usage_arr diff us ss in
  let k := Z.to_nat (max_cpus - (i + 1)) in
  let before := take k (online_entries n curcpu usage_arr diff) in
  let after := take k (online_entries n curcpu usage_arr r.1.1) in
  is_u64 r.1.2 ∧ is_u64 r.2 ∧
  sum_of user after + r.1.2 = sum_of user before + us ∧
  sum_of system after + r.2 = sum_of system before + ss ∧
  sum_of total_of after = sum_of total_of before.
Proof.
  induction n as [|n IH];
    intros curcpu i max_cpus threshold usage_arr diff us ss Ht Hus Hss Hd Hlen
      Hi; cbn [redistribute online_entries].
  - cbn [fst snd]. rewrite take_nil. cbn [sum_of foldr].
    split; [done|]. split; [done|]. by repeat split.
  - destruct (online (usage_arr !!! curcpu)) eqn:Hon; cbn [negb].
    + destruct (Z.eqb_spec (i + 1) max_cpus) as [->|Hne].
      * cbn [fst snd]. rewrite Z.sub_diag. change (Z.to_nat 0) with 0%nat.
        rewrite !take_0. cbn [sum_of foldr].
        split; [done|]. split; [done|]. by repeat split.
      * destruct (redistribute_cpu threshold (diff !!! curcpu) us ss)
          as [[d us1] ss1] eqn:Ecpu.
        destruct (redistribute_cpu_spec threshold (diff !!! curcpu) us ss
                    d us1 ss1 Ht Hus Hss (Hd curcpu) Ecpu)
          as (Hdok & Hus1 & Hss1 & Eu & Es & Ei & _).
        assert (Hd1 : ∀ j, delta_ok (<[curcpu := d]> diff !!! j)).
        { intros j. rewrite list_lookup_total_insert. by case_decide. }
        destruct (IH (S curcpu) (i + 1) max_cpus threshold usage_arr
                    (<[curcpu := d]> diff) us1 ss1)
          as (Hr1 & Hr2 & Su & Ss & St); try done.
        { unfold_u64. lia. }
        { unfold_u64. lia. }
        { rewrite length_insert. lia. }
        { lia. }
        set (r := redistribute n (S curcpu) (i + 1) max_cpus threshold
                    usage_arr (<[curcpu := d]> diff) us1 ss1) in *.
        assert (Hc : r.1.1 !!! curcpu = d).
        { subst r. rewrite redistribute_keep by lia.
          rewrite list_lookup_total_insert. rewrite decide_True; [done|].
          split; [done|lia]. }
        assert (Hsame : online_entries n (S curcpu) usage_arr
                          (<[curcpu := d]> diff)
                        = online_entries n (S curcpu) usage_arr diff).
        { apply online_entries_ext. intros j Hj.
          rewrite list_lookup_total_insert. rewrite decide_False; [done|lia]. }
        rewrite Hsame in Su, Ss, St. rewrite Hc.
        destruct (Z.to_nat (max_cpus - (i + 1))) as [|k] eqn:Ek.
        -- lia.
        -- replace (Z.to_nat (max_cpus - (i + 1 + 1))) with k in Su, Ss, St
             by lia.
           cbn [take]. rewrite !sum_of_cons.
           split; [done|]. split; [done|].
           unfold total_of in *. lia.
    + apply IH; try done; lia.
Qed.

(** X19.  Under a quota no CPU time of the cgroup is lost between the
    sample and the visible deltas: when the deltas of the online CPUs do not
    add up past the range of [unsigned long], the user deltas of the visible
    CPUs after the redistribution plus what is left of the user pool are the
    user deltas of all online CPUs, the same holds for the system deltas, and
    the visible CPUs together keep their total of user, system and idle. *)
Theorem redistribution_conserves_time (n : nat) (max_cpus threshold : Z)
    (sample diff usage_arr : list cpuacct_usage) :
  0 < max_cpus → is_u64 threshold →
  (∀ j, delta_ok (diff !!! j)) →
  (n <= length diff)%nat → (n <= length usage_arr)%nat →
  sum_of user (online_entries n 0 sample diff) < ULONG_MOD →
  sum_of system (online_entries n 0 sample diff) < ULONG_MOD →
  let ur := usage_update_loop n 0 (-1) max_cpus sample diff usage_arr 0 0 in
  let r := redistribute n 0 (-1) max_cpus threshold ur.1.1 diff ur.1.2 ur.2 in
  let shown := take (Z.to_nat max_cpus) (online_entries n 0 ur.1.1 r.1.1) in
  sum_of user shown + r.1.2 = sum_of user (online_entries n 0 sample diff) ∧
  sum_of system shown + r.2 = sum_of system (online_entries n 0 sample diff) ∧
  sum_of total_of shown
    = sum_of total_of
        (take (Z.to_nat max_cpus) (online_entries n 0 sample diff)).
Proof.
  intros Hq Ht Hd Hlen Hlenu Hsu Hss ur r shown.
  destruct (usage_update_surplus n 0%nat (-1) max_cpus sample diff usage_arr
              0 0) as [E1 E2]; [done|unfold_u64; lia|unfold_u64; lia|].
  replace (Z.to_nat (max_cpus - (-1 + 1))) with (Z.to_nat max_cpus) in E1, E2
    by lia.
  cbn zeta in E1, E2. rewrite Z.add_0_l in E1, E2. fold ur in E1, E2.
  set (k := Z.to_nat max_cpus) in *.
  set (all := online_entries n 0 sample diff) in *.
  assert (Hall : Forall delta_ok all).
  { subst all. by apply online_entries_Forall. }
  assert (Hnu : ∀ l, Forall delta_ok l → 0 <= sum_of user l).
  { intros l Hl. apply sum_of_nonneg. eapply Forall_impl; [exact Hl|].
    intros d Hdok. unfold delta_ok in Hdok. lia. }
  assert (Hns : ∀ l, Forall delta_ok l → 0 <= sum_of system l).
  { intros l Hl. apply sum_of_nonneg. eapply Forall_impl; [exact Hl|].
    intros d Hdok. unfold delta_ok in Hdok. lia. }
  pose proof (sum_of_take_drop user k all) as Tu.
  pose proof (sum_of_take_drop system k all) as Ts.
  pose proof (Hnu _ (Forall_take _ k _ Hall)) as Ptu.
  pose proof (Hnu _ (Forall_drop _ k _ Hall)) as Pdu.
  pose proof (Hns _ (Forall_take _ k _ Hall)) as Pts.
  pose proof (Hns _ (Forall_drop _ k _ Hall)) as Pds.
  rewrite u64_id in E1 by (unfold_u64; lia).
  rewrite u64_id in E2 by (unfold_u64; lia).
  assert (Hflags : ∀ arr,
            online_entries n 0 ur.1.1 arr = online_entries n 0 sample arr).
  { intros arr. apply online_entries_flags. intros j Hj. subst ur.
    rewrite usage_update_lookup by (cbn; lia).
    rewrite decide_True by lia.
    by destruct (online (sample !!! j)). }
  destruct (redistribute_entries_sum n 0%nat (-1) max_cpus threshold ur.1.1
              diff ur.1.2 ur.2) as (_ & _ & Su & Ss & St);
    try done; try (cbn; lia).
  { rewrite E1. unfold_u64. lia. }
  { rewrite E2. unfold_u64. lia. }
  replace (Z.to_nat (max_cpus - (-1 + 1))) with k in Su, Ss, St by lia.
  cbn zeta in Su, Ss, St. fold r in Su, Ss, St.
  rewrite !Hflags in Su, Ss, St. fold all in Su, Ss, St.
  subst shown. rewrite Hflags.
  split; [lia|]. split; [lia|]. exact St.
Qed.

Lemma redistribution_conserves_time_witness :
  let sample :=
    [mk_usage 60 25 35 true; mk_usage 10 5 85 false; mk_usage 9 9 9 true] in
  let diff := [mk_usage 10 5 5 true; zero_usage; mk_usage 7 2 1 true] in
  let usage_arr :=
    [mk_usage 50 20 30 true; mk_usage 10 5 85 true; mk_usage 2 7 8 true] in
  let ur := usage_update_loop 3 0 (-1) 1 sample diff usage_arr 0 0 in
  let r := redistribute 3 0 (-1) 1 30 ur.1.1 diff ur.1.2 ur.2 in
  let shown := take (Z.to_nat 1) (online_entries 3 0 ur.1.1 r.1.1) in
  sum_of user shown + r.1.2 = 17 ∧
  sum_of system shown + r.2 = 7 ∧
  sum_of total_of shown = 20.
Proof.
  apply (redistribution_conserves_time 3 1 30
           [mk_usage 60 25 35 true; mk_usage 10 5 85 false; mk_usage 9 9 9 true]
           [mk_usage 10 5 5 true; zero_usage; mk_usage 7 2 1 true]
           [mk_usage 50 20 30 true; mk_usage 10 5 85 true; mk_usage 2 7 8 true]).
  - lia.
  - vm_compute. repeat split; discriminate.
  - intros [|[|[|j]]]; vm_compute; repeat split; discriminate.
  - cbn. lia.
  - cbn. lia.
  - vm_compute. reflexivity.
  - vm_compute. reflexivity.
Defined.
(** ** The text of a read *)

(** C9, as the code has it: a read that returns a positive length has
    parsed the host table, obtained its node and written, in this order, the
    aggregate line ["cpu  user_sum 0 system_sum idle_sum 0 0 0 0 0 0"], one
    line per online CPU of the node in index order, labelled [cpu0], [cpu1],
    ... without gaps whatever the physical numbers - every online CPU when
    [max_cpus] is 0, the first [max_cpus] of them at most otherwise -, each
    with the user, system and idle of its view and zeros elsewhere, then the
    line the parsing stopped at - the first line that is not a cpuN line, or
    the last line of a table that has none - and the lines after it as they
    are.  The table is not empty: the parsing has read a line.  The length
    returned is that of the text and is below the size of the buffer. *)
Theorem cpuview_proc_stat_text (e : host_env) (reg : registry) (name : string)
    (cs : cpuset) (sample : list cpuacct_usage) (size : Z)
    (f : list host_line) (bufsize ret : Z) (out : string) :
  status (cpuview_proc_stat e reg name cs sample size f bufsize)
    = Returned ret out →
  0 < ret →
  ∃ st l rest stat_node reg',
    parse_host_stat cs size f None (mk_parse sample (-1) 0 [])
      = Some (st, Some l, rest) ∧
    ((∃ pre, f = pre ++ l :: rest ∧ line_tag l = NotCpu ∧
             Forall passes_loop pre) ∨
     (rest = [] ∧ Forall passes_loop f ∧ last f = Some l)) ∧
    find_or_create_proc_stat_node e reg (ps_usage st)
      (working_nprocs e size) name = (Locked stat_node, reg') ∧
    let nprocs := working_nprocs e size in
    let max_cpus := clamp_max_cpus (max_cpu_count e) (ps_cpu_cnt st) in
    let r := reconcile e nprocs max_cpus (ps_cpu_cnt st) (ps_usage st)
               stat_node in
    out = cpu_all_line r.2.1.1 r.2.1.2 r.2.2
          +:+ cpu_lines 0
                (if 0 <? max_cpus
                 then take (Z.to_nat max_cpus)
                        (online_views (Z.to_nat nprocs) 0 r.1)
                 else online_views (Z.to_nat nprocs) 0 r.1)
          +:+ line_text l +:+ rest_text rest ∧
    ret = Z.of_nat (String.length out) ∧
    ret < bufsize.
Proof.
  unfold cpuview_proc_stat. intros Hst Hret.
  destruct (parse_host_stat cs size f None (mk_parse sample (-1) 0 []))
    as [[[st line] rest]|] eqn:Ep; [|done].
  destruct (find_or_create_proc_stat_node _ _ _ _ _) as [[| node | |] reg']
    eqn:Ef; cbn [status] in Hst; try done.
  { injection Hst as <- <-. lia. }
  unfold read_locked_node in Hst.
  destruct (negb (alloc_diff_ok e)); cbn [status] in Hst.
  { injection Hst as <- <-. lia. }
  destruct (reconcile _ _ _ _ _ _) as [node' sums] eqn:Er.
  destruct line as [l|]; cycle 1.
  { rewrite render_unset in Hst. destruct (_ <=? _); cbn [status] in Hst;
      [|done]. injection Hst as <- <-. lia. }
  rewrite render_layout in Hst.
  remember (stat_text (working_nprocs e size)
              (clamp_max_cpus (max_cpu_count e) (ps_cpu_cnt st))
              node' sums l rest) as text eqn:Etext.
  destruct (Z.leb_spec bufsize (Z.of_nat (String.length text))) as [Hle|Hgt];
    cbn [status total_len written] in Hst.
  { injection Hst as <- <-. lia. }
  injection Hst as <- <-.
  exists st, l, rest, node, reg'. split; [done|]. split.
  { apply parse_host_stat_split in Ep
      as [(pre & l' & -> & [= <-] & Ht & Hpre)|(-> & Hf & Hl)].
    - left. by exists pre.
    - right. by repeat split. }
  split; [done|]. cbn zeta. rewrite Er. cbn [fst snd].
  split; [|split; [done|lia]].
  rewrite Etext. unfold stat_text, visible_views.
  replace (-1 + 1) with 0 by lia. by rewrite Z.sub_0_r.
Qed.

Lemma cpuview_proc_stat_text_witness :
  ∃ st l rest stat_node reg',
    parse_host_stat [0] 1 [cpu_stat_line 0 300 150 500; intr_line] None
      (mk_parse [mk_usage 5 2 0 false] (-1) 0 []) = Some (st, Some l, rest) ∧
    find_or_create_proc_stat_node noquota_env (init_cpuview noquota_env)
      (ps_usage st) (working_nprocs noquota_env 1) cg_a
      = (Locked stat_node, reg') ∧
    l = intr_line ∧ rest = [].
Proof.
  destruct (cpuview_proc_stat_text noquota_env (init_cpuview noquota_env) cg_a
              [0] [mk_usage 5 2 0 false] 1
              [cpu_stat_line 0 300 150 500; intr_line] 4096 62
              (cpu_all_line 5 2 943 +:+ cpu_line 0 (mk_usage 5 2 943 true)
               +:+ line_text intr_line))
    as (st & l & rest & stat_node & reg' & Hp & _ & Hf & _).
  - vm_compute. reflexivity.
  - lia.
  - exists st, l, rest, stat_node, reg'.
    split; [exact Hp|]. split; [exact Hf|].
    vm_compute in Hp. injection Hp as <- <- <-. split; reflexivity.
Defined.

(** C9, as stated, fails: without quota [max_cpus] is 0, and the read
    writes the line of [cpu0] all the same, where the lines [cpu0] to
    [cpu{max_cpus-1}] are none. *)
Lemma unquota_read_renders_cpus_counterexample :
  clamp_max_cpus (max_cpu_count noquota_env) 1 = 0 ∧
  status noquota_read =
    Returned 62
      (cpu_all_line 5 2 943 +:+ cpu_line 0 (mk_usage 5 2 943 true)
       +:+ line_text intr_line) ∧
  claimed_stat_text 1 0
    (mk_node cg_a [mk_usage 5 2 943 true] [mk_usage 5 2 943 false] 1 true)
    (5, 2, 943) intr_line []
    = cpu_all_line 5 2 943 +:+ line_text intr_line ∧
  cpu_all_line 5 2 943 +:+ cpu_line 0 (mk_usage 5 2 943 true)
    +:+ line_text intr_line
    ≠ cpu_all_line 5 2 943 +:+ line_text intr_line.
Proof.
  repeat split; try (vm_compute; reflexivity).
  vm_compute. discriminate.
Qed.
(** ** What lies behind the sample *)

(** The memory that follows the [cg_cpu_usage_size] entries of the sample
    is modelled by a list that is longer than the array: a read that never
    leaves the array neither depends on the entries behind it nor changes
    them. *)

Lemma in_bounds_app {A} (i : Z) (s b : list A) :
  in_bounds i s = true → in_bounds i (s ++ b) = true.
Proof.
  unfold in_bounds. rewrite length_app. intros H.
  apply andb_true_iff in H as [H1 H2].
  apply andb_true_iff. split; [done|].
  apply Z.ltb_lt. apply Z.ltb_lt in H2. lia.
Qed.

Lemma in_bounds_lt {A} (i : Z) (s : list A) :
  in_bounds i s = true → (Z.to_nat i < length s)%nat.
Proof.
  unfold in_bounds. intros H. apply andb_true_iff in H as [H1 H2].
  apply Z.leb_le in H1. apply Z.ltb_lt in H2. lia.
Qed.

Lemma mark_offline_app n : ∀ i s s' beyond,
  mark_offline n i s = Some s' →
  mark_offline n i (s ++ beyond) = Some (s' ++ beyond).
Proof.
  induction n as [|n IH]; intros i s s' beyond; cbn [mark_offline].
  { by intros [= <-]. }
  destruct (in_bounds i s) eqn:Hb; [|done].
  rewrite (in_bounds_app _ _ _ Hb). intros H.
  rewrite alter_app_l by (by apply in_bounds_lt).
  by apply IH.
Qed.

Lemma parse_line_app cs size l st st' ctl beyond :
  parse_line cs size l st = Some (st', ctl) →
  parse_line cs size l (with_beyond st beyond)
    = Some (with_beyond st' beyond, ctl).
Proof.
  unfold parse_line. cbn [with_beyond ps_usage ps_curcpu ps_cpu_cnt ps_log].
  destruct (_ =? _)%nat; [by intros [= <- <-]|].
  destruct (line_tag l) as [| |p]; try by intros [= <- <-].
  destruct (_ <=? _); [by intros [= <- <-]|].
  destruct (negb (cpu_in_cpuset p cs)).
  - destruct (mark_offline _ _ (ps_usage st)) as [s|] eqn:Em; [|done].
    rewrite (mark_offline_app _ _ _ _ beyond Em). cbn [mbind option_bind].
    by intros [= <- <-].
  - assert (Hstep : ∀ s k,
      (if ps_curcpu st + 1 <? p
       then s ← mark_offline (Z.to_nat (p - (ps_curcpu st + 1)))
                  (ps_curcpu st + 1) (ps_usage st);
            Some (s, p)
       else Some (ps_usage st, ps_curcpu st + 1)) = Some (s, k) →
      (if ps_curcpu st + 1 <? p
       then s ← mark_offline (Z.to_nat (p - (ps_curcpu st + 1)))
                  (ps_curcpu st + 1) (ps_usage st ++ beyond);
            Some (s, p)
       else Some (ps_usage st ++ beyond, ps_curcpu st + 1))
      = Some (s ++ beyond, k)).
    { intros s k. destruct (_ <? _).
      - destruct (mark_offline _ _ (ps_usage st)) as [s0|] eqn:Em; [|done].
        rewrite (mark_offline_app _ _ _ _ beyond Em). cbn [mbind option_bind].
        by intros [= <- <-].
      - by intros [= <- <-]. }
    destruct (if _ <? _ then _ else _) as [[s k]|] eqn:Es; [|done].
    rewrite (Hstep s k eq_refl). cbn [mbind option_bind].
    destruct (in_bounds k s) eqn:Hb; [|done].
    rewrite (in_bounds_app _ _ _ Hb). cbn [negb].
    pose proof (in_bounds_lt _ _ Hb) as Hk.
    rewrite alter_app_l by done.
    destruct (line_fields l) as
      [|? [|? [|? [|? [|? [|? [|? [|? [|? [|? ?]]]]]]]]]];
      try by intros [= <- <-].
    rewrite lookup_total_app_l by (by rewrite length_alter).
    destruct (impute_idle _ _ _ _) as [c errs].
    intros [= <- <-]. cbn [with_beyond ps_usage ps_curcpu ps_cpu_cnt ps_log].
    by rewrite insert_app_l by (by rewrite length_alter).
Qed.

Lemma parse_host_stat_app cs size f beyond : ∀ line st st' line' rest,
  parse_host_stat cs size f line st = Some (st', line', rest) →
  parse_host_stat cs size f line (with_beyond st beyond)
    = Some (with_beyond st' beyond, line', rest).
Proof.
  induction f as [|l f IH]; intros line st st' line' rest;
    cbn [parse_host_stat].
  { by intros [= <- <- <-]. }
  destruct (parse_line cs size l st) as [[st1 ctl]|] eqn:E; [|done].
  rewrite (parse_line_app _ _ _ _ _ _ beyond E).
  destruct ctl; [by apply IH|]. by intros [= <- <- <-].
Qed.

Lemma working_nprocs_le e size : working_nprocs e size <= size.
Proof.
  unfold working_nprocs. destruct (Z.ltb_spec size (get_nprocs_conf e)); lia.
Qed.

(** A read that stays in the array gives the same result whatever follows
    the array. *)
Lemma read_ignores_beyond e reg name cs sample size f bufsize beyond st line
    rest :
  Z.of_nat (length sample) = size →
  parse_host_stat cs size f None (mk_parse sample (-1) 0 [])
    = Some (st, line, rest) →
  cpuview_proc_stat e reg name cs (sample ++ beyond) size f bufsize
  = cpuview_proc_stat e reg name cs sample size f bufsize.
Proof.
  intros Hlen Hp. unfold cpuview_proc_stat.
  pose proof (parse_host_stat_app cs size f beyond _ _ _ _ _ Hp) as Hp'.
  unfold with_beyond in Hp'. cbn [ps_usage ps_curcpu ps_cpu_cnt ps_log] in Hp'.
  rewrite Hp, Hp'. cbn [ps_usage ps_cpu_cnt ps_log].
  apply parse_host_stat_length in Hp. cbn [ps_usage] in Hp.
  pose proof (working_nprocs_le e size) as Hn.
  assert (Ht : take (Z.to_nat (working_nprocs e size)) (ps_usage st ++ beyond)
               = take (Z.to_nat (working_nprocs e size)) (ps_usage st)).
  { apply take_app_le. lia. }
  rewrite (find_or_create_ext e reg _ (ps_usage st)) by exact Ht.
  destruct (find_or_create_proc_stat_node _ _ _ _ _) as [[|node| |] reg1];
    try done.
  unfold read_locked_node. cbn [ps_usage ps_cpu_cnt ps_log].
  by rewrite (reconcile_ext e _ _ _ _ (ps_usage st)) by exact Ht.
Qed.

(** C10, as the code has it: on a host table whose cpuN lines are numbered
    in strictly growing order, as the kernel writes them, [cpuview_proc_stat]
    accesses no entry of the sample at an index of [cg_cpu_usage_size] or
    more.  The parsing stays in the array; what follows the array in memory
    has no influence on anything the read returns, stores or logs, and the
    parsing leaves it as it is; a cpuN line with N >= cg_cpu_usage_size leaves
    the parsing state as it is; and the working CPU count, which bounds node
    creation, delta computation, view accumulation and rendering, is
    min(get_nprocs_conf(), cg_cpu_usage_size). *)
Theorem sample_access_in_bounds (e : host_env) (reg : registry) (name : string)
    (cs : cpuset) (sample : list cpuacct_usage) (size : Z) (f : list host_line)
    (bufsize : Z) :
  Z.of_nat (length sample) = size →
  ascending_from (-1) f →
  status (cpuview_proc_stat e reg name cs sample size f bufsize) ≠ OutOfBounds ∧
  (∀ beyond,
     cpuview_proc_stat e reg name cs (sample ++ beyond) size f bufsize
     = cpuview_proc_stat e reg name cs sample size f bufsize ∧
     ∃ st line rest,
       parse_host_stat cs size f None (mk_parse sample (-1) 0 [])
         = Some (st, line, rest) ∧
       length (ps_usage st) = length sample ∧
       parse_host_stat cs size f None (mk_parse (sample ++ beyond) (-1) 0 [])
         = Some (with_beyond st beyond, line, rest)) ∧
  (∀ l st p, line_tag l = CpuNum p → size <= p →
     parse_line cs size l st = Some (st, Continue)) ∧
  working_nprocs e size = Z.min (get_nprocs_conf e) size.
Proof.
  intros Hlen Hasc.
  destruct (parse_host_stat_safe cs size f None
              (mk_parse sample (-1) 0 []) (-1))
    as (st & line & rest & Hp & Hl); [cbn; lia | done | done |].
  split; [|split; [|split]].
  - unfold cpuview_proc_stat. rewrite Hp.
    destruct (find_or_create_proc_stat_node _ _ _ _ _) as [[| node | |] reg'];
      cbn [status]; try discriminate.
    unfold read_locked_node.
    destruct (negb (alloc_diff_ok e)); cbn [status]; [discriminate|].
    destruct (reconcile _ _ _ _ _ _) as [node' sums].
    destruct (render _ _ _ _ _ _ _); cbn [status]; discriminate.
  - intros beyond. split; [by eapply read_ignores_beyond|].
    exists st, line, rest. split; [done|]. split; [done|].
    by apply (parse_host_stat_app cs size f beyond _ _ _ _ _ Hp).
  - intros l st0 p Htag Hp0. unfold parse_line. rewrite Htag.
    destruct (_ =? _)%nat; [done|].
    by replace (size <=? p) with true by (symmetry; apply Z.leb_le; lia).
  - unfold working_nprocs.
    destruct (Z.ltb_spec size (get_nprocs_conf e)); lia.
Qed.

Lemma sample_access_in_bounds_witness :
  status (cpuview_proc_stat one_cpu_env (init_cpuview one_cpu_env) cg_a [0]
            [mk_usage 100 50 0 false] 1
            [cpu_stat_line 0 100 50 200; cpu_stat_line 1 40 20 140; intr_line]
            4096) ≠ OutOfBounds ∧
  cpuview_proc_stat one_cpu_env (init_cpuview one_cpu_env) cg_a [0]
    ([mk_usage 100 50 0 false] ++ [mk_usage 7 7 7 true]) 1
    [cpu_stat_line 0 100 50 200; cpu_stat_line 1 40 20 140; intr_line] 4096
  = cpuview_proc_stat one_cpu_env (init_cpuview one_cpu_env) cg_a [0]
      [mk_usage 100 50 0 false] 1
      [cpu_stat_line 0 100 50 200; cpu_stat_line 1 40 20 140; intr_line] 4096.
Proof.
  destruct (sample_access_in_bounds one_cpu_env (init_cpuview one_cpu_env) cg_a
              [0] [mk_usage 100 50 0 false] 1
              [cpu_stat_line 0 100 50 200; cpu_stat_line 1 40 20 140; intr_line]
              4096) as (H & Hb & _).
  - reflexivity.
  - cbn. repeat split; lia.
  - split; [exact H|]. apply (Hb [mk_usage 7 7 7 true]).
Defined.

(** C10, as stated, fails on a table that is not in growing order: when
    the line of cpu0 comes twice, the second one takes [curcpu] to 1 and line
    584 writes [cg_cpu_usage[1]], past the one entry of the sample. *)
Lemma repeated_cpu_line_counterexample :
  Z.of_nat (length [mk_usage 100 50 0 false]) = 1 ∧
  parse_host_stat [0] 1
    [cpu_stat_line 0 100 50 200; cpu_stat_line 0 100 50 200; intr_line] None
    (mk_parse [mk_usage 100 50 0 false] (-1) 0 []) = None ∧
  status (cpuview_proc_stat one_cpu_env (init_cpuview one_cpu_env) cg_a [0]
            [mk_usage 100 50 0 false] 1
            [cpu_stat_line 0 100 50 200; cpu_stat_line 0 100 50 200; intr_line]
            4096) = OutOfBounds.
Proof. repeat split; vm_compute; reflexivity. Qed.
(** ** The idle time the parsing loop imputes *)

(** One iteration of the loop, whatever the line: [curcpu] does not go
    back, the log only grows, no user or system time is touched, and the
    entries up to [curcpu] are left as they are. *)
Lemma parse_line_keeps cs size l st st' ctl :
  -1 <= ps_curcpu st →
  parse_line cs size l st = Some (st', ctl) →
  ps_curcpu st <= ps_curcpu st' ∧
  (st' = st ∨
   ∃ p, line_tag l = CpuNum p ∧
        ps_curcpu st' <= Z.max (ps_curcpu st + 1) p) ∧
  (∃ errs, ps_log st' = ps_log st ++ errs) ∧
  ∀ k : nat,
    user (ps_usage st' !!! k) = user (ps_usage st !!! k) ∧
    system (ps_usage st' !!! k) = system (ps_usage st !!! k) ∧
    (Z.of_nat k <= ps_curcpu st → ps_usage st' !!! k = ps_usage st !!! k).
Proof.
  intros Hcur. unfold parse_line.
  assert (Hsame : ps_curcpu st <= ps_curcpu st ∧
    (st = st ∨
     ∃ p, line_tag l = CpuNum p ∧ ps_curcpu st <= Z.max (ps_curcpu st + 1) p) ∧
    (∃ errs, ps_log st = ps_log st ++ errs) ∧
    ∀ k : nat,
      user (ps_usage st !!! k) = user (ps_usage st !!! k) ∧
      system (ps_usage st !!! k) = system (ps_usage st !!! k) ∧
      (Z.of_nat k <= ps_curcpu st → ps_usage st !!! k = ps_usage st !!! k)).
  { split; [lia|]. split; [by left|]. split; [|done].
    exists []. by rewrite app_nil_r. }
  destruct (_ =? _)%nat; [by intros [= <- <-]|].
  destruct (line_tag l) as [| |p]; try by intros [= <- <-].
  destruct (_ <=? _); [by intros [= <- <-]|]. clear Hsame.
  destruct (negb (cpu_in_cpuset p cs)).
  - destruct (mark_offline _ _ _) as [s|] eqn:Em; [|done].
    intros [= <- <-]. cbn [ps_usage ps_curcpu ps_log].
    split; [lia|]. split; [right; exists p; split; [done|lia]|].
    split; [exists []; by rewrite app_nil_r|]. intros k.
    rewrite (mark_offline_lookup _ (ps_curcpu st + 1) _ _ k ltac:(lia) Em).
    case_decide; [|done]. repeat split. intros; lia.
  - assert (Hstep : ∀ s c,
      (if ps_curcpu st + 1 <? p
       then s ← mark_offline (Z.to_nat (p - (ps_curcpu st + 1)))
                  (ps_curcpu st + 1) (ps_usage st);
            Some (s, p)
       else Some (ps_usage st, ps_curcpu st + 1)) = Some (s, c) →
      c = Z.max (ps_curcpu st + 1) p ∧
      ∀ k : nat,
        user (s !!! k) = user (ps_usage st !!! k) ∧
        system (s !!! k) = system (ps_usage st !!! k) ∧
        (Z.of_nat k <= ps_curcpu st → s !!! k = ps_usage st !!! k)).
    { intros s c. destruct (Z.ltb_spec (ps_curcpu st + 1) p) as [Hlt|Hge].
      - destruct (mark_offline _ _ _) as [s0|] eqn:Em; [|done].
        intros [= <- <-]. split; [lia|]. intros k.
        rewrite (mark_offline_lookup _ (ps_curcpu st + 1) _ _ k ltac:(lia) Em).
        case_decide; [|done]. repeat split. intros; lia.
      - intros [= <- <-]. split; [lia|]. done. }
    destruct (if _ <? _ then _ else _) as [[s c]|]; [|done].
    destruct (Hstep s c eq_refl) as (Hc & Hs). clear Hstep.
    cbn [mbind option_bind].
    destruct (in_bounds c s) eqn:Hb; [|done]. cbn [negb].
    set (s2 := alter (λ u, set_online u true) (Z.to_nat c) s).
    assert (H2 : ∀ k : nat,
      user (s2 !!! k) = user (ps_usage st !!! k) ∧
      system (s2 !!! k) = system (ps_usage st !!! k) ∧
      (Z.of_nat k <= ps_curcpu st → s2 !!! k = ps_usage st !!! k)).
    { intros k. destruct (Hs k) as (Hu & Hsy & Hk). subst s2.
      rewrite list_lookup_total_alter.
      destruct (decide (Z.to_nat c = k ∧ _)) as [[<- _]|_]; [|done].
      cbn [set_online user system]. repeat split; try done. intros; lia. }
    assert (H3 : ∀ x (k : nat),
      user (<[Z.to_nat c := set_idle (s2 !!! Z.to_nat c) x]> s2 !!! k)
        = user (ps_usage st !!! k) ∧
      system (<[Z.to_nat c := set_idle (s2 !!! Z.to_nat c) x]> s2 !!! k)
        = system (ps_usage st !!! k) ∧
      (Z.of_nat k <= ps_curcpu st →
       <[Z.to_nat c := set_idle (s2 !!! Z.to_nat c) x]> s2 !!! k
       = ps_usage st !!! k)).
    { intros x k. destruct (H2 k) as (Hu & Hsy & Hk).
      rewrite list_lookup_total_insert.
      destruct (decide (Z.to_nat c = k ∧ _)) as [[<- _]|_]; [|done].
      cbn [set_idle user system]. repeat split; try done. intros; lia. }
    destruct (line_fields l) as
      [|? [|? [|? [|? [|? [|? [|? [|? [|? [|? ?]]]]]]]]]];
      try (intros [= <- <-]; cbn [ps_usage ps_curcpu ps_log];
           split; [lia|]; split; [right; exists p; split; [done|lia]|];
           split; [exists []; by rewrite app_nil_r|]; exact H2).
    unfold impute_idle. destruct (_ <=? _);
      intros [= <- <-]; cbn [ps_usage ps_curcpu ps_log];
      (split; [lia|]; split; [right; exists p; split; [done|lia]|];
       split; [by eexists|]; apply H3).
Qed.

(** The same over the loop. *)
Lemma parse_host_stat_keeps cs size f : ∀ line st st' line' rest,
  -1 <= ps_curcpu st →
  parse_host_stat cs size f line st = Some (st', line', rest) →
  ps_curcpu st <= ps_curcpu st' ∧
  (∃ errs, ps_log st' = ps_log st ++ errs) ∧
  ∀ k : nat,
    user (ps_usage st' !!! k) = user (ps_usage st !!! k) ∧
    system (ps_usage st' !!! k) = system (ps_usage st !!! k) ∧
    (Z.of_nat k <= ps_curcpu st → ps_usage st' !!! k = ps_usage st !!! k).
Proof.
  induction f as [|l f IH]; intros line st st' line' rest Hcur;
    cbn [parse_host_stat].
  { intros [= <- <- <-]. split; [lia|]. split; [|done].
    exists []. by rewrite app_nil_r. }
  destruct (parse_line cs size l st) as [[st1 ctl]|] eqn:E; [|done].
  destruct (parse_line_keeps _ _ _ _ _ _ Hcur E)
    as (Hc1 & _ & (errs1 & Hl1) & Hk1).
  destruct ctl.
  - intros H. apply IH in H as (Hc2 & (errs2 & Hl2) & Hk2); [|lia].
    split; [lia|]. split.
    { exists (errs1 ++ errs2). by rewrite Hl2, Hl1, app_assoc. }
    intros k. destruct (Hk1 k) as (Hu1 & Hs1 & He1).
    destruct (Hk2 k) as (Hu2 & Hs2 & He2).
    split; [congruence|]. split; [congruence|].
    intros Hk. rewrite He2 by lia. by apply He1.
  - intros [= <- <- <-]. split; [done|]. split; [by exists errs1|done].
Qed.

(** The loop goes through a prefix of lines none of which stops it. *)
Lemma parse_host_stat_prefix cs size pre f2 : ∀ line st r,
  Forall passes_loop pre →
  parse_host_stat cs size (pre ++ f2) line st = Some r →
  ∃ st1 line1,
    parse_host_stat cs size pre line st = Some (st1, line1, []) ∧
    parse_host_stat cs size f2 line1 st1 = Some r.
Proof.
  induction pre as [|l pre IH]; intros line st r Hpre; cbn [app parse_host_stat].
  { intros H. by exists st, line. }
  apply Forall_cons in Hpre as [Hl Hpre].
  destruct (parse_line cs size l st) as [[st1 ctl]|] eqn:E; [|done].
  destruct (parse_line_cpu_cnt _ _ _ _ _ _ E) as [_ Hbr].
  destruct ctl.
  - by apply IH.
  - exfalso. destruct Hbr as [Hbr _].
    destruct (Hbr eq_refl) as [Htxt Htag].
    apply Nat.eqb_neq in Htxt. destruct Hl as [Hl|Hl]; [lia|done].
Qed.

(** On a table in growing order [curcpu] stays below the number of the
    line that comes next. *)
Lemma parse_prefix_ascending cs size l N pre : ∀ line st c st1 line1 r,
  line_tag l = CpuNum N →
  -1 <= ps_curcpu st <= c →
  ascending_from c (pre ++ [l]) →
  parse_host_stat cs size pre line st = Some (st1, line1, r) →
  ps_curcpu st1 < N.
Proof.
  intros line st c st1 line1 r Htag. revert line st c st1 line1 r.
  induction pre as [|l0 pre IH]; intros line st c st1 line1 r Hcur Hasc;
    cbn [app parse_host_stat].
  { intros [= <- <- <-]. cbn in Hasc. rewrite Htag in Hasc. lia. }
  destruct (parse_line cs size l0 st) as [[st2 ctl]|] eqn:E; [|done].
  destruct (parse_line_keeps cs size l0 st st2 ctl ltac:(lia) E)
    as (Hc1 & Hup & _ & _).
  cbn [app ascending_from] in Hasc.
  assert (Hnext : ∃ c', -1 <= ps_curcpu st2 <= c' ∧
                        ascending_from c' (pre ++ [l])).
  { destruct Hup as [->|(p & Hp & Hle)].
    - destruct (line_tag l0) as [| |p].
      + by exists c.
      + by exists c.
      + destruct Hasc as [Hcp Hasc]. exists p. split; [lia|done].
    - rewrite Hp in Hasc. destruct Hasc as [Hcp Hasc].
      exists p. split; [lia|done]. }
  destruct Hnext as (c' & Hc' & Hasc').
  destruct ctl.
  - intros H. by eapply (IH _ st2 c').
  - intros [= <- <- <-].
    assert (Hall : ∀ f c0, ascending_from c0 (f ++ [l]) → ∃ c1, c0 <= c1 < N).
    { clear -Htag. induction f as [|x f IHf]; intros c0; cbn.
      - rewrite Htag. intros [H _]. exists c0. lia.
      - destruct (line_tag x) as [| |p].
        + apply IHf.
        + apply IHf.
        + intros [H1 H2]. destruct (IHf p H2) as (c1 & Hc1).
          exists c1. lia. }
    destruct (Hall pre c' Hasc') as (c1 & Hc1'). lia.
Qed.

(** C8, as the code has it: for each cpuN line of the host table that the
    parsing loop gets to (no line other than cpuN lines comes before it), with
    N below [cg_cpu_usage_size], its ten counters, and its CPU in the cpuset,
    the sample that the loop leaves has, in the entry the loop is at when it
    parses the line - the entry N when the cpuN lines up to this one are
    numbered in growing order -, the host's idle plus host_busy - cg_busy when
    host_busy >= cg_busy, and the host's idle, with a logged error, when
    host_busy < cg_busy; host_busy is the sum of the nine busy fields of the
    line and cg_busy the user plus system of that entry, which the loop never
    changes, both as [unsigned long]s (plain sums when nothing wraps
    around). *)
Theorem idle_imputation (cs : cpuset) (size : Z) (sample : list cpuacct_usage)
    (pre : list host_line) (l : host_line) (post : list host_line)
    (st : parse_state) (line : option host_line) (rest : list host_line)
    (N u n sy i w q sq stl g gn : Z) (tl : list Z) :
  parse_host_stat cs size (pre ++ l :: post) None (mk_parse sample (-1) 0 [])
    = Some (st, line, rest) →
  Forall passes_loop pre →
  String.length (line_text l) ≠ 0%nat →
  line_tag l = CpuNum N →
  line_fields l = u :: n :: sy :: i :: w :: q :: sq :: stl :: g :: gn :: tl →
  cpu_in_cpuset N cs = true →
  N < size →
  ∃ (c : nat) st1 line1,
    parse_host_stat cs size pre None (mk_parse sample (-1) 0 [])
      = Some (st1, line1, []) ∧
    Z.of_nat c = Z.max (ps_curcpu st1 + 1) N ∧
    (ascending_from (-1) (pre ++ [l]) → Z.of_nat c = N) ∧
    let host_busy := all_used_of u n sy w q sq stl g gn in
    let cg_busy := uadd (user (sample !!! c)) (system (sample !!! c)) in
    let entry := ps_usage st !!! c in
    online entry = true ∧
    user entry = user (sample !!! c) ∧
    system entry = system (sample !!! c) ∧
    (cg_busy <= host_busy → idle entry = uadd i (usub host_busy cg_busy)) ∧
    (host_busy < cg_busy →
       idle entry = i ∧
       mk_idle_error (Z.of_nat c) host_busy cg_busy ∈ ps_log st) ∧
    (0 <= u → 0 <= n → 0 <= sy → 0 <= w → 0 <= q → 0 <= sq → 0 <= stl →
     0 <= g → 0 <= gn → 0 <= i →
     0 <= user (sample !!! c) → 0 <= system (sample !!! c) →
     i + (u + n + sy + w + q + sq + stl + g + gn) < ULONG_MOD →
     user (sample !!! c) + system (sample !!! c) < ULONG_MOD →
     host_busy = u + n + sy + w + q + sq + stl + g + gn ∧
     cg_busy = user (sample !!! c) + system (sample !!! c) ∧
     (cg_busy <= host_busy → idle entry = i + (host_busy - cg_busy))).
Proof.
  intros Hp Hpre Htxt Htag Hfields Hcs Hsize.
  destruct (parse_host_stat_prefix _ _ _ _ _ _ _ Hpre Hp)
    as (st1 & line1 & Hp1 & Hp2).
  destruct (parse_host_stat_keeps cs size pre None (mk_parse sample (-1) 0 [])
              st1 line1 [] ltac:(cbn; lia) Hp1)
    as (Hc1 & _ & Hk1). cbn [ps_curcpu ps_usage] in Hc1, Hk1.
  cbn [parse_host_stat] in Hp2.
  destruct (parse_line cs size l st1) as [[st2 ctl]|] eqn:E; [|done].
  set (k := Z.max (ps_curcpu st1 + 1) N).
  assert (Hkl : k < Z.of_nat (length (ps_usage st1))).
  { revert E. unfold parse_line.
    destruct (Nat.eqb_spec (String.length (line_text l)) 0); [done|].
    rewrite Htag.
    replace (size <=? N) with false by (symmetry; apply Z.leb_gt; lia).
    rewrite Hcs. cbn [negb].
    destruct (Z.ltb_spec (ps_curcpu st1 + 1) N) as [Hlt|Hge].
    - destruct (mark_offline _ _ _) as [s|] eqn:Em; [|done].
      cbn [mbind option_bind].
      apply mark_offline_length in Em.
      destruct (in_bounds N s) eqn:Hb; [|done]. intros _.
      unfold in_bounds in Hb. apply andb_true_iff in Hb as [_ Hb].
      apply Z.ltb_lt in Hb. subst k. rewrite <- Em. lia.
    - cbn [mbind option_bind].
      destruct (in_bounds _ _) eqn:Hb; [|done]. intros _.
      unfold in_bounds in Hb. apply andb_true_iff in Hb as [_ Hb].
      apply Z.ltb_lt in Hb. subst k. lia. }
  destruct (parse_line_imputes_idle cs size l st1 N u n sy i w q sq stl g gn tl
              Htxt Htag Hfields Hcs Hsize ltac:(lia) Hkl)
    as (st2' & E' & Hcur2 & _ & Hon & Hu2 & Hs2 & Hle & Hgt & Hplain).
  rewrite E in E'. injection E' as <-. fold k in Hcur2, Hon, Hu2, Hs2, Hle, Hgt,
    Hplain.
  assert (Hrest : parse_host_stat cs size post (Some l) st2
                  = Some (st, line, rest)).
  { destruct ctl; [done|]. exfalso.
    destruct (parse_line_cpu_cnt _ _ _ _ _ _ E) as [_ [Hbr _]].
    destruct (Hbr eq_refl) as [_ Hn]. congruence. }
  destruct (parse_host_stat_keeps cs size post (Some l) st2 st line rest
              ltac:(lia) Hrest)
    as (_ & (errs & Hlog) & Hk2).
  exists (Z.to_nat k), st1, line1.
  assert (Hk0 : 0 <= k) by (subst k; lia).
  split; [done|]. split; [lia|]. split.
  { intros Hasc.
    pose proof (parse_prefix_ascending cs size l N pre None
                  (mk_parse sample (-1) 0 []) (-1) st1 line1 []
                  Htag ltac:(cbn; lia) Hasc Hp1) as Hlt.
    subst k. lia. }
  destruct (Hk2 (Z.to_nat k)) as (_ & _ & Hsame). rewrite Hsame by lia.
  destruct (Hk1 (Z.to_nat k)) as (Hus & Hss & _).
  rewrite Z2Nat.id by done.
  rewrite <- Hus, <- Hss.
  split; [done|]. split; [done|]. split; [done|].
  split; [intros Hb; by apply Hle|]. split.
  - intros Hb. destruct (Hgt Hb) as [Hi Hl2]. split; [done|].
    rewrite Hlog, Hl2. apply elem_of_app. left. apply elem_of_app. right.
    apply list_elem_of_singleton. done.
  - exact Hplain.
Qed.

Lemma idle_imputation_witness :
  ∃ (c : nat) st1 line1,
    parse_host_stat [0; 1] 2 [cpu_stat_line 0 100 50 200] None
      (mk_parse [mk_usage 100 50 0 false; mk_usage 10 5 0 false] (-1) 0 [])
      = Some (st1, line1, []) ∧
    Z.of_nat c = 1 ∧
    idle (ps_usage
            (mk_parse [mk_usage 100 50 200 true; mk_usage 10 5 185 true]
               1 2 []) !!! c) = 185.
Proof.
  destruct (idle_imputation [0; 1] 2
              [mk_usage 100 50 0 false; mk_usage 10 5 0 false]
              [cpu_stat_line 0 100 50 200] (cpu_stat_line 1 40 20 140)
              [intr_line]
              (mk_parse [mk_usage 100 50 200 true; mk_usage 10 5 185 true]
                 1 2 [])
              (Some intr_line) [] 1 40 0 20 140 0 0 0 0 0 0 [])
    as (c & st1 & line1 & Hp & _ & Hc & _ & _ & _ & Hidle & _).
  - vm_compute. reflexivity.
  - constructor; [right; discriminate | constructor].
  - vm_compute. discriminate.
  - reflexivity.
  - reflexivity.
  - reflexivity.
  - lia.
  - exists c, st1, line1. split; [exact Hp|].
    assert (Hc1 : Z.of_nat c = 1) by (apply Hc; cbn; repeat split; lia).
    split; [exact Hc1|].
    assert (c = 1%nat) as -> by lia.
    apply Hidle. vm_compute. discriminate.
Defined.

(** C8, as stated, fails for cpuN lines whose CPU is in the cpuset but for
    which the loop sets no idle time of that CPU: a line with fewer than ten
    counters leaves the idle time as it was (7, where the host has 200 and
    host_busy = cg_busy); a line with N >= [cg_cpu_usage_size] is skipped; a
    line that comes after a line of a higher CPU is written to the entry
    [curcpu] has reached (the line of cpu0 to the entry 2, the entry 0 keeps its
    idle time 7); and a line behind the first line that is not a cpuN line is
    not parsed. *)
Lemma idle_not_imputed_counterexample :
  cpu_in_cpuset 0 [0] = true ∧ cpu_in_cpuset 1 [0; 1] = true ∧
  parse_host_stat [0] 1 [short_cpu_line; intr_line] None
    (mk_parse [mk_usage 100 50 7 false] (-1) 0 [])
  = Some (mk_parse [mk_usage 100 50 7 true] 0 1 [], Some intr_line, []) ∧
  parse_host_stat [0; 1] 1
    [cpu_stat_line 0 100 50 200; cpu_stat_line 1 40 20 140; intr_line] None
    (mk_parse [mk_usage 100 50 7 false] (-1) 0 [])
  = Some (mk_parse [mk_usage 100 50 200 true] 0 1 [], Some intr_line, []) ∧
  parse_host_stat [0; 1] 3
    [cpu_stat_line 1 40 20 140; cpu_stat_line 0 100 50 200; intr_line] None
    (mk_parse [mk_usage 100 50 7 false; mk_usage 10 5 8 false;
               mk_usage 1 1 9 false] (-1) 0 [])
  = Some (mk_parse [mk_usage 100 50 7 false; mk_usage 10 5 185 true;
                    mk_usage 1 1 348 true] 2 2 [], Some intr_line, []) ∧
  parse_host_stat [0] 1 [intr_line; cpu_stat_line 0 100 50 200] None
    (mk_parse [mk_usage 100 50 7 false] (-1) 0 [])
  = Some (mk_parse [mk_usage 100 50 7 false] (-1) 0 [], Some intr_line,
          [cpu_stat_line 0 100 50 200]).
Proof. repeat split; vm_compute; reflexivity. Qed.

(** ** A mutex left held, and the reads that follow *)

(** A read of a cgroup whose node is locked leaves the node where it is, as
    long as the cgroup exists. *)
Lemma locked_read_keeps_node e reg name cs sample size f bufsize node :
  lookup_node e reg name = Some node →
  lock node = true →
  cgfs_param_exist e name = true →
  lookup_node e
    (history (cpuview_proc_stat e reg name cs sample size f bufsize)) name
  = Some node.
Proof.
  intros Hl Hlock Hex. unfold cpuview_proc_stat.
  destruct (parse_host_stat _ _ _ _ _) as [[[st line] rest]|]; [|done].
  unfold find_or_create_proc_stat_node.
  pose proof (find_proc_stat_node_lookup e reg name) as Hfl.
  pose proof (find_proc_stat_node_cases e reg name) as Hc.
  destruct (find_proc_stat_node e reg name) as [found reg0]. cbn in Hfl, Hc.
  rewrite Hfl, Hl, (lookup_prune e reg name Hex), Hl.
  unfold lock_and_expand. rewrite Hlock. cbn [history].
  destruct Hc as [-> | ->]; [done|]. by rewrite lookup_prune.
Qed.

(** A locked node stays locked through the reads that follow. *)
Lemma later_registry_keeps_lock e name reg reg' node :
  lookup_node e reg name = Some node →
  lock node = true →
  later_registry e name reg reg' →
  ∃ node', lookup_node e reg' name = Some node' ∧ lock node' = true.
Proof.
  intros Hl Hlock Hlater.
  induction Hlater
    as [|reg' e' other cs sample size f bufsize Hlater IH Hhash Hex Hdef].
  - by exists node.
  - destruct IH as (node' & Hl' & Hlk'). exists node'. split; [|done].
    rewrite <- (lookup_node_hash e e' _ name Hhash).
    rewrite <- (lookup_node_hash e e' _ name Hhash) in Hl'.
    destruct (decide (other = name)) as [->|Hne].
    + by apply locked_read_keeps_node.
    + destruct (read_frame e' reg' other cs sample size f bufsize name)
        as [Hlive _]; [congruence|].
      rewrite Hlive; done.
Qed.

(** X4.  A read that returns 0 once it holds the node leaves the mutex
    held, and as long as the cgroup exists and the reads stay defined, no
    later read of the cgroup returns, whatever reads of this or of other
    cgroups have come in between and even when memory and buffer space are
    there again: it waits for the mutex. *)
Theorem failed_read_blocks_later_reads (e : host_env) (reg : registry)
    (name : string) (cs : cpuset) (sample : list cpuacct_usage) (size : Z)
    (f : list host_line) (bufsize : Z) (out : string)
    (st : parse_state) (line : option host_line) (rest : list host_line)
    (node : cg_proc_stat) (reg1 reg2 : registry)
    (e2 : host_env) (cs2 : cpuset) (sample2 : list cpuacct_usage) (size2 : Z)
    (f2 : list host_line) (bufsize2 : Z) :
  length reg = Z.to_nat CPUVIEW_HASH_SIZE →
  parse_host_stat cs size f None (mk_parse sample (-1) 0 [])
    = Some (st, line, rest) →
  find_or_create_proc_stat_node e reg (ps_usage st) (working_nprocs e size) name
    = (Locked node, reg1) →
  status (cpuview_proc_stat e reg name cs sample size f bufsize)
    = Returned 0 out →
  later_registry e name
    (history (cpuview_proc_stat e reg name cs sample size f bufsize)) reg2 →
  calc_hash e2 name = calc_hash e name →
  ∀ ret2 out2,
    status (cpuview_proc_stat e2 reg2 name cs2 sample2 size2 f2 bufsize2)
      ≠ Returned ret2 out2.
Proof.
  intros Hlen Hp Hf Hst Hlater Hhash ret2 out2.
  destruct (find_or_create_stored _ _ _ _ _ _ _ Hlen Hf) as (Hl & Hcg & Hlk).
  assert (Hheld : ∃ node',
            lookup_node e
              (history (cpuview_proc_stat e reg name cs sample size f bufsize))
              name = Some node' ∧ lock node' = true).
  { revert Hst. unfold cpuview_proc_stat. rewrite Hp, Hf. intros Hst.
    rewrite <- Hcg. eapply failed_read_keeps_mutex; [by rewrite Hcg|done|].
    exact Hst. }
  destruct Hheld as (node0 & Hl0 & Hlk0).
  destruct (later_registry_keeps_lock e name _ reg2 node0 Hl0 Hlk0 Hlater)
    as (node' & Hl' & Hlk').
  rewrite <- (lookup_node_hash e e2) in Hl' by done.
  by apply (locked_node_blocks e2 reg2 name cs2 sample2 size2 f2 bufsize2 node').
Qed.

Lemma failed_read_blocks_later_reads_witness :
  status leak_read_alloc = Returned 0 EmptyString ∧
  ¬ ∃ ret out,
      status
        (cpuview_proc_stat one_cpu_env
           (history
              (cpuview_proc_stat one_cpu_env (history leak_read_alloc) cg_b [0]
                 [mk_usage 30 10 0 false] 1
                 [cpu_stat_line 0 200 100 400; intr_line] 4096))
           cg_a [0] [mk_usage 200 100 0 false] 1
           [cpu_stat_line 0 200 100 400; intr_line] 4096)
      = Returned ret out.
Proof.
  split; [vm_compute; reflexivity|].
  intros (ret & out & H). revert H.
  apply (failed_read_blocks_later_reads env_diff_fail
           (init_cpuview env_diff_fail) cg_a [0] [mk_usage 100 50 0 false] 1
           [cpu_stat_line 0 100 50 200; intr_line] 4096 EmptyString
           (mk_parse [mk_usage 100 50 200 true] 0 1 []) (Some intr_line) []
           (mk_node cg_a [mk_usage 100 50 200 true] [zero_usage] 1 true)
           (<[0%nat := mk_head
                [mk_node cg_a [mk_usage 100 50 200 true] [zero_usage] 1 true]
                0]> (init_cpuview env_diff_fail))
           (history
              (cpuview_proc_stat one_cpu_env (history leak_read_alloc) cg_b [0]
                 [mk_usage 30 10 0 false] 1
                 [cpu_stat_line 0 200 100 400; intr_line] 4096))
           one_cpu_env [0] [mk_usage 200 100 0 false] 1
           [cpu_stat_line 0 200 100 400; intr_line] 4096).
  - reflexivity.
  - vm_compute. reflexivity.
  - vm_compute. reflexivity.
  - vm_compute. reflexivity.
  - apply (later_read env_diff_fail cg_a (history leak_read_alloc)
             (history leak_read_alloc) one_cpu_env cg_b).
    + apply later_now.
    + reflexivity.
    + reflexivity.
    + vm_compute. exact I.
  - reflexivity.
Defined.

(** ** Reads that leave what C defines *)

(** A read of a cgroup that has gone, more than ten seconds after the last
    prune: the lookup prunes the registry, which frees the node it has just
    found, and the read goes on with the freed node. *)
Lemma read_of_gone_cgroup_uses_freed_node :
  lookup_node env_a_gone (history other_read) cg_a ≠ None ∧
  status (cpuview_proc_stat env_a_gone (history other_read) cg_a [0]
            [mk_usage 200 100 0 false] 1
            [cpu_stat_line 0 200 100 400; intr_line] 4096) = UseAfterFree.
Proof. split; [vm_compute; discriminate | vm_compute; reflexivity]. Qed.

(** A read on an empty host table: no line has been read when the text of
    the line the parsing stopped at is printed. *)
Lemma read_of_empty_table_prints_unset_line :
  status (cpuview_proc_stat one_cpu_env (init_cpuview one_cpu_env) cg_a [0]
            [mk_usage 100 50 0 false] 1 [] 4096) = UnsetLine.
Proof. vm_compute. reflexivity. Qed.
